(* ===== verification/_CoqProject ===== *)
-Q . S2P
Prelude.v
Effects.v
Traces.v
GoStrings.v
Tracing.v
Url.v
Errors.v
Utils.v
Subscription.v
EventTypes.v
Validator.v
Eventing.v
DeepCopy.v
Config.v
Options.v
Signals.v
JetStreamUtils.v
JetStream.v
JetStreamFacts.v
JetStreamLiveness.v
JSReconciler.v
JSReconcilerFacts.v
Metrics.v
JSMetrics.v
JSLiveness.v
JSCluster.v
EventMeshUtils.v
EventMesh.v
EventMeshFacts.v
ApiRule.v
EMReconciler.v
EMReconcilerFacts.v
EMLiveness.v
EventMeshLiveness.v
EMCluster.v
Objects.v
Equality.v
PublisherProxy.v
KubeClient.v
KubeRequests.v
KubeStore.v
Watcher.v
EventingManager.v
EventingManagerFacts.v
PeerAuthentication.v
Connection.v
Operator.v
OperatorTraces.v
OperatorBounds.v
JSManager.v
JSManagerFacts.v
EMManager.v
EMManagerFacts.v
OperatorLifecycle.v
OperatorWatchers.v
Setup.v
Cache.v
Informers.v
Main.v
OperatorLiveness.v
OperatorCluster.v
EMClient.v
EMClientFacts.v
