(* ===== verification/Prelude.v ===== *)
(** * Verification of the Kyma Eventing Manager

    The Eventing Manager is a Kubernetes operator.  An Eventing resource selects a backend, NATS JetStream or SAP
    EventMesh; for it the operator deploys the publisher proxy and starts one of two subscription managers.  A subscription manager runs
    the reconciler of its backend, which turns Subscription resources into consumers of JetStream, or into
    subscriptions on the EventMesh server with an APIRule for their sink.

    ** How the program is modelled

    Pure functions are functions.  A function that fails or panics, mutates its receiver or talks to the outside is a
    computation of the monad [M] of this file: it ends with a value, an error or a panic, and with the state it leaves in each case.
    What is outside the repository (the API server, NATS, EventMesh, the clock, the metrics) is an environment: a record of functions from the calls made so
    far and the arguments to an answer ([Effects]).  The state of a run is the fields of the Go receiver and the log of the
    calls with their answers, newest first; theorems hold for all environments unless they state what is assumed of one.
    Library functions that the program relies on are classes, with what their documentation promises as a second class of laws.
    An object that Go mutates through a pointer is returned, or is part of the state; this is sound because the mutated object is a deep copy, which
    [DeepCopy] shows, over a store of cells, to share nothing with its original.  A map whose iteration order matters is enumerated by the environment.

    ** The files

    - Shared: [Prelude] (errors, the monad, lists), [Effects] (calls, runs, invariants, triples), [Traces] (what justifies a
      call), [GoStrings] and [Url] (the parts of Go's standard library in use), [Errors] (pkg/errors, internal/controller/errors),
      [Utils] (pkg/utils).
    - The Subscription: [Subscription] (api/eventing/v1alpha2), [EventTypes] (pkg/backend/eventtype, pkg/backend/cleaner), [Validator]
      (internal/controller/eventing/subscription/validator).
    - The Eventing resource: [Eventing] (api/operator/v1alpha1), [Config] (pkg/env).  [DeepCopy] has the copies of both resources.
    - The process: [Options] (options), [Main] (cmd), [Signals] (pkg/signals, pkg/ems/auth), [Cache] (internal/controller/cache and client),
      [Informers] (pkg/informers), [PeerAuthentication] (pkg/istio/peerauthentication).
    - JetStream: [JetStreamUtils] and [JetStream] (pkg/backend/jetstream), [Tracing] (pkg/tracing), [JSReconciler]
      (internal/controller/eventing/subscription/jetstream), [JSManager] (pkg/subscriptionmanager/jetstream), [Metrics]
      (pkg/backend/metrics).
    - EventMesh: [EventMeshUtils] and [EventMesh] (pkg/backend/eventmesh, pkg/backend/utils), [ApiRule] (pkg/object), [EMReconciler]
      (internal/controller/eventing/subscription/eventmesh), [EMManager] (pkg/subscriptionmanager/eventmesh), [EMClient] (pkg/ems/httpclient,
      pkg/ems/api/events/client).
    - The publisher proxy: [Objects] (the Kubernetes types), [Equality] (pkg/object/equality.go), [PublisherProxy] (pkg/eventing/deployment.go and
      utils.go), [KubeClient], [KubeRequests] and [KubeStore] (pkg/k8s), [EventingManager] (pkg/eventing/manager.go).
    - The operator: [Connection] (internal/connection/nats), [Operator] (internal/controller/operator/eventing), [Watcher] (pkg/watcher),
      [Setup] (what queues a reconciliation of the three controllers).
    - The files whose names end in [Facts], and [OperatorTraces], [OperatorBounds], [OperatorLifecycle], [OperatorWatchers],
      [OperatorLiveness] and [OperatorCluster], [JetStreamLiveness], [JSLiveness], [JSMetrics] and [JSCluster], [EMLiveness],
      [EventMeshLiveness] and [EMCluster], hold the theorems of the component.

    Definitions keep the names of the Go functions; the method [F] of a type [T] is [F], or [T_F] where two types have it.

    ** How the components interact

    The reconcilers use their backend through a class ([JSBackend], [EMBackend]), and the operator uses the eventing manager
    and the subscription managers through [EventingManagerI] and [ManagerFactory].  Theorems about a client are proved against the class and,
    where more is needed, against a class of laws ([JSBackendLaws], [HealthyJSBackend], [HealthyEMBackend], [HealthyEventingManager], [HealthyManagers], [ObjectServer], [InformersLaws]).  The models of the
    components are instances: [JetStream_backend] and [EventMesh_backend] for the backends, [OperatorCluster] for the
    dependencies of the operator, where two reconciliations of the operator run everything down to the stream that the JetStream backend makes; [JSCluster], where the JetStream reconciler runs over that
    backend and a server that keeps what it stores; [EMCluster], where the EventMesh reconciler runs over its backend, an API server with a
    controller of APIRules and an EventMesh server; [map_gauges] for the metrics; [plain_server] for an API server; [http_client]
    for the environment of the EventMesh backend, which is then run over HTTP.

    ** What is proved

    - Refinement: a synchronisation of the JetStream backend leaves exactly the NATS subscriptions of the wanted event types of
      the Subscription, and those of other Subscriptions untouched.  Any program over the Kubernetes client behaves as over a map of objects.
    - Safety of each reconciler: every request is justified by what happened before it in the same reconciliation (finalizers, deletions,
      statuses, pausing of EventMesh, deploying and removing the publisher proxy).
    - Invariants: the life of the subscription managers and the watchers of NATS over any sequence of reconciliations; the status gauges of
      a Subscription; the handling of termination signals and the wait for the caches of informers in any interleaving.
    - Liveness and termination: in a healthy cluster a NATS backend becomes Ready after two reconciliations and stays so, and so does
      a Subscription on JetStream, whose operations succeed on a healthy server, and, after three, a Subscription on EventMesh; a reconciliation of the operator makes at most 33 requests whatever it is answered.
    - Aliasing: a deep copy of a Subscription or of an Eventing resource denotes the same value, and neither sees what is written to the other.
    - Functional behaviour of the operations, on success and on every failure: synchronisation, deletion, dispatch of a message, validation,
      deployment and removal of the publisher proxy, connection to NATS, requests to EventMesh, stopping of the managers, names and hashes, the PeerAuthentications.
    - The process: the controllers are started only when everything is composed; what queues a reconciliation; what the operator makes
      is visible in its cache.
    - Equivalence: the comparison functions with what they are meant to compare, and the conditions as a map.
    - Round trips and bounds: event types, names that fit the limits of EventMesh, segments.
    - Panics: the operations of the JetStream backend never panic once it is connected; the cases in which the program does panic are examples.

    ** Bounds and fuel

    Machine integers are [Z] with the conversion written out where the code converts ([int32], [int64_of_uint64], [Atoi]).  The only
    fuelled recursions are over strings.  Each step of [blank_fuel] and [trim_left] consumes a byte and the fuel is the length
    of the string, so it does not run out; [ipv6_groups] has the eight groups an address can have.  Everything else is structural recursion.

    ** Not modelled

    Logging, the recording of events and the CloudEvents client are wrappers of libraries; the registration of types, the manager of controller-runtime, the informers of client-go, the vectors of Prometheus, the
    transport of the EventMesh client and the options of the NATS connection are the outside of the components that call
    them.  Reading the process environment, JSON, the hash functions, resource quantities and the random suffix of host names are
    parameters.  Concurrency is modelled for the termination signals, the wait for informers and the channels of a watcher only: a reconciliation runs alone, as the work queues of controller-runtime
    ensure for one resource; the callbacks of the NATS connection that queue a reconciliation appear as the handlers that are
    registered.  Mocks, tests and end-to-end tools are no part of the program. *)

From stdpp Require Export base tactics option list gmap strings.
From Stdlib Require Export ZArith Lia.

Declare Scope go_scope.
Delimit Scope go_scope with go.
#[export] Set Warnings "-clear-no-such-hyp".
#[global] Open Scope string_scope.
#[global] Open Scope go_scope.

(** ** Go errors

    An [error] value is a tree: what it is (its identity for [errors.Is]),
    its rendered message and the errors it unwraps to.  A package-level error
    variable is [ESentinel]; an error made at run time with [errors.New] or
    [fmt.Errorf] without a comparable identity is [ENew]. *)
Inductive ekind :=
  | ENew
  | ESentinel (name : string)
  | EHTTPStatus (code : Z)
  | EArgument (format : string)
  | ESkippable
  | ETerminal
  | EKubeNotFound.

#[global] Instance ekind_eq_dec : EqDecision ekind.
Proof. solve_decision. Defined.

#[warnings="-register-all"]
Inductive goerr := GoErr (kind : ekind) (msg : string) (wraps : list goerr).

(** [err.Error()]. *)
Definition Error (e : goerr) : string := let 'GoErr _ m _ := e in m.

Definition kind_of (e : goerr) : ekind := let 'GoErr k _ _ := e in k.

(** [errors.Is(err, target)] for a target of the identity [k]: [err] or
    something it wraps, at any depth, has that identity. *)
Fixpoint errors_Is (e : goerr) (k : ekind) : bool :=
  let 'GoErr k' _ ws := e in
  bool_decide (k' = k) || existsb (fun w => errors_Is w k) ws.

(** [errors.New] at run time, and a package-level error variable. *)
Definition errors_New (m : string) : goerr := GoErr ENew m [].
Definition sentinel (name m : string) : goerr := GoErr (ESentinel name) m [].

(** [errors.Join]: nil errors are dropped, and the result is nil when nothing
    is left; the messages are separated by newlines. *)
Definition newline : string := String (Ascii.ascii_of_nat 10) "".

Definition errors_Join (es : list (option goerr)) : option goerr :=
  match omap id es with
  | [] => None
  | e :: es' => Some (GoErr ENew (String.concat newline (Error <$> e :: es')) (e :: es'))
  end.

(** [reconcile.TerminalError(err)]: controller-runtime does not requeue. *)
Definition TerminalError (e : goerr) : goerr := GoErr ETerminal ("terminal error: " +:+ Error e) [e].

(** ** Outcomes and the state monad

    A Go function that can fail returns normally, returns an error or
    panics.  The state survives all three: what was mutated before the
    failure stays mutated. *)
Inductive outcome (A : Type) :=
  | Ok (a : A)
  | Err (e : goerr)
  | Panic (m : string).
Arguments Ok {A} _.
Arguments Err {A} _.
Arguments Panic {A} _.

Definition is_Ok {A} (o : outcome A) : bool := match o with Ok _ => true | _ => false end.

Definition M (S A : Type) : Type := S -> outcome A * S.

Definition retM {S A} (a : A) : M S A := fun s => (Ok a, s).
Definition errM {S A} (e : goerr) : M S A := fun s => (Err e, s).
Definition panicM {S A} (m : string) : M S A := fun s => (Panic m, s).
Definition bindM {S A B} (c : M S A) (k : A -> M S B) : M S B := fun s =>
  match c s with
  | (Ok a, s') => k a s'
  | (Err e, s') => (Err e, s')
  | (Panic m, s') => (Panic m, s')
  end.
Definition getM {S} : M S S := fun s => (Ok s, s).
Definition putM {S} (s : S) : M S unit := fun _ => (Ok tt, s).
Definition modifyM {S} (f : S -> S) : M S unit := fun s => (Ok tt, f s).

(** Go's [v, err := f()]: the error becomes a value, a panic does not. *)
Definition tryM {S A} (c : M S A) : M S (A + goerr) := fun s =>
  match c s with
  | (Ok a, s') => (Ok (inl a), s')
  | (Err e, s') => (Ok (inr e), s')
  | (Panic m, s') => (Panic m, s')
  end.

(** The error of a call whose value is not used: [err := f()]. *)
Definition errOf {S} (c : M S unit) : M S (option goerr) := fun s =>
  match c s with
  | (Ok _, s') => (Ok None, s')
  | (Err e, s') => (Ok (Some e), s')
  | (Panic m, s') => (Panic m, s')
  end.

(** [return err]. *)
Definition returnErr {S} (e : option goerr) : M S unit :=
  match e with None => retM tt | Some e => errM e end.

Notation "x <- c ;; k" := (bindM c (fun x => k))
  (at level 100, c at next level, k at level 200, right associativity) : go_scope.
Notation "c ;;; k" := (bindM c (fun _ => k))
  (at level 100, k at level 200, right associativity) : go_scope.

(** A [for range] loop whose body may return early with an error. *)
Fixpoint forM_ {S A} (l : list A) (f : A -> M S unit) : M S unit :=
  match l with
  | [] => retM tt
  | x :: l' => f x ;;; forM_ l' f
  end.

(** ** Reasoning about the monad *)
Lemma bindM_run {S A B} (c : M S A) (k : A -> M S B) s a s1 : c s = (Ok a, s1) -> bindM c k s = k a s1.
Proof. intros E. unfold bindM. by rewrite E. Qed.

Lemma bindM_Ok {S A B} (c : M S A) (k : A -> M S B) s b s' :
  bindM c k s = (Ok b, s') <-> exists a s1, c s = (Ok a, s1) /\ k a s1 = (Ok b, s').
Proof.
  unfold bindM. destruct (c s) as [[a|e|m] s1]; split; intros H.
  - eauto.
  - destruct H as (a' & s1' & [= -> ->] & H). done.
  - done.
  - destruct H as (? & ? & ? & ?). done.
  - done.
  - destruct H as (? & ? & ? & ?). done.
Qed.

Lemma forM_app {S A} (l1 l2 : list A) (f : A -> M S unit) s :
  forM_ (l1 ++ l2) f s = bindM (forM_ l1 f) (fun _ => forM_ l2 f) s.
Proof.
  revert s. induction l1 as [|x l1 IH]; intros s; [done|].
  cbn [forM_ app]. unfold bindM at 1 2 3. destruct (f x s) as [[[]|e|m] s1]; [|done..].
  rewrite IH. done.
Qed.

(** The loop rule: an invariant kept by every iteration, whatever its
    outcome, holds after the loop, whatever its outcome. *)
Lemma forM_inv {S A} (I : S -> Prop) (l : list A) (f : A -> M S unit) s :
  (forall x s0, x ∈ l -> I s0 -> I (f x s0).2) ->
  I s -> I (forM_ l f s).2.
Proof.
  revert s. induction l as [|x l IH]; intros s Hf Hs; [done|].
  cbn [forM_]. unfold bindM.
  assert (I (f x s).2) as H1 by (apply Hf; [constructor|done]).
  destruct (f x s) as [[[]|e|m] s1]; [|done..].
  apply IH; [|done]. intros y s0 Hy. apply Hf. by constructor.
Qed.

(** The same for a loop that ran to its end: only successful iterations count. *)
Lemma forM_Ok_inv {S A} (I : S -> Prop) (l : list A) (f : A -> M S unit) s s' :
  forM_ l f s = (Ok tt, s') ->
  (forall x s0 s1, x ∈ l -> f x s0 = (Ok tt, s1) -> I s0 -> I s1) ->
  I s -> I s'.
Proof.
  revert s. induction l as [|x l IH]; intros s H Hf Hs; [by injection H as <-|].
  cbn [forM_] in H. apply bindM_Ok in H as ([] & s1 & H1 & H2).
  eapply IH; [exact H2| |eapply Hf; [constructor|exact H1|done]].
  intros y s2 s3 Hy. apply Hf. by constructor.
Qed.

(** The postcondition of each iteration is established when the iteration
    succeeds and kept by the later ones: it holds of every element at the end. *)
Lemma forM_Ok {S A} (P : A -> S -> Prop) (l : list A) (f : A -> M S unit) s s' :
  forM_ l f s = (Ok tt, s') ->
  (forall x s0 s1, x ∈ l -> f x s0 = (Ok tt, s1) -> P x s1) ->
  (forall x y s0 s1, x ∈ l -> y ∈ l -> f y s0 = (Ok tt, s1) -> P x s0 -> P x s1) ->
  forall x, x ∈ l -> P x s'.
Proof.
  revert s. induction l as [|y l IH]; intros s H Hnew Hkeep x Hx; [by apply not_elem_of_nil in Hx|].
  cbn [forM_] in H. apply bindM_Ok in H as ([] & s1 & H1 & H2).
  assert (forall z, z ∈ l -> z ∈ y :: l) as Hin by (intros; by constructor).
  apply elem_of_cons in Hx as [->|Hx]; [|by eapply IH; eauto].
  eapply (forM_Ok_inv (P y)); [exact H2| |eapply Hnew; [constructor|exact H1]].
  intros z s2 s3 Hz. apply Hkeep; [constructor|auto].
Qed.

(** ** Shared tactics *)

(** Case analysis on every [match] of a hypothesis that equates a run with
    a result, closing the branches that contradict it. *)
Ltac go_inv H :=
  repeat match type of H with
  | bindM _ _ _ = (Ok _, _) =>
      let a := fresh "a" in let s := fresh "s" in let H1 := fresh "Hrun" in
      apply bindM_Ok in H as (a & s & H1 & H)
  | retM _ _ = _ => unfold retM in H; simplify_eq H
  end.

(** Split the first stuck [match] or [if] of the goal. *)
Ltac case_stuck :=
  match goal with
  | |- context [match ?x with _ => _ end] =>
      lazymatch x with
      | context [match _ with _ => _ end] => fail
      | _ => destruct x eqn:?
      end
  end.

Ltac case_stuck_in H :=
  match type of H with
  | context [match ?x with _ => _ end] =>
      lazymatch x with
      | context [match _ with _ => _ end] => fail
      | _ => destruct x eqn:?
      end
  end.

(** ** Slices

    Go distinguishes a nil slice from an empty one ([reflect.DeepEqual],
    [== nil]): a slice field is an [option] of its elements. *)
Abbreviation slice A := (option (list A)).
Definition elems {A} (s : slice A) : list A := default [] s.

(** ** Generic list lemmas *)

(** The Go idiom [append(result, x)] guarded by [!contains(result, x)]. *)
Definition dedup_step (acc : list string) (x : string) : list string :=
  if bool_decide (x ∈ acc) then acc else acc ++ [x].

Lemma existsb_eqb_elem (l : list string) (s : string) :
  existsb (String.eqb s) l = true <-> s ∈ l.
Proof.
  rewrite existsb_exists. setoid_rewrite String.eqb_eq. split.
  - intros (x & Hin & ->). by apply list_elem_of_In.
  - intros Hin. exists s. by rewrite <- list_elem_of_In.
Qed.

Lemma existsb_app_iff {A} (f : A -> bool) (l : list A) :
  existsb f l = true <-> exists x, x ∈ l /\ f x = true.
Proof.
  rewrite existsb_exists. by setoid_rewrite list_elem_of_In.
Qed.

Lemma forallb_elem {A} (f : A -> bool) (l : list A) :
  forallb f l = true <-> forall x, x ∈ l -> f x = true.
Proof. rewrite forallb_forall. by setoid_rewrite list_elem_of_In. Qed.

(** [GoStrings] reuses the name of stdpp's lemma. *)
Lemma app_nil_iff {A} (l1 l2 : list A) : (l1 ++ l2)%list = [] <-> l1 = [] /\ l2 = [].
Proof. apply app_nil. Qed.

Lemma not_elem_of_nil_iff {A} (x : A) : x ∈ [] <-> False.
Proof. split; [apply not_elem_of_nil|done]. Qed.

Lemma filter_none {A} (P : A -> Prop) `{forall x, Decision (P x)} (l : list A) :
  (forall x, x ∈ l -> ~ P x) -> filter P l = [].
Proof.
  induction l as [|x l IH]; intros Hl; [done|]. rewrite filter_cons, decide_False by (apply Hl; by constructor).
  apply IH. intros y Hy. apply Hl. by constructor.
Qed.

Lemma filter_all {A} (P : A -> Prop) `{forall x, Decision (P x)} (l : list A) :
  (forall x, x ∈ l -> P x) -> filter P l = l.
Proof.
  induction l as [|x l IH]; intros Hl; [done|]. rewrite filter_cons, decide_True by (apply Hl; by constructor).
  f_equal. apply IH. intros y Hy. apply Hl. by constructor.
Qed.

Create HintDb go discriminated.
#[export] Hint Resolve list_elem_of_here list_elem_of_further : go.
