(* ===== verification/Effects.v ===== *)
(** * Calls to the outside

    The program talks to an API server, to NATS or EventMesh, to a metrics
    registry.  What they answer is not in the repository, so a component is
    run against an environment: one function per call, which sees the calls
    made so far (with their answers) and the arguments and gives the answer.
    The state of a run is the component's own state and the log of its calls,
    newest first.  A theorem quantifies over the environment; a fact about
    the order of effects is a fact about the log. *)

From S2P Require Import Prelude.

Record World (S E : Type) := mkWorld { st : S; hist : list E }.
Arguments mkWorld {S E} _ _.
Arguments st {S E} _.
Arguments hist {S E} _.

Section calls.
Context {S E : Type}.
Implicit Types (w : World S E).

(** A call whose answer is a value. *)
Definition call {R} (ev : R -> E) (answer : list E -> R) : M (World S E) R := fun w =>
  let r := answer (hist w) in (Ok r, mkWorld (st w) (ev r :: hist w)).

(** Go's [if v, err := f(); err != nil { return err }]. *)
Definition okOr {R} (r : R + goerr) : M (World S E) R :=
  match r with inl v => retM v | inr e => errM e end.

(** Reading and writing the component's own state. *)
Definition gets {A} (f : S -> A) : M (World S E) A := fun w => (Ok (f (st w)), w).
Definition puts (f : S -> S) : M (World S E) unit := fun w => (Ok tt, mkWorld (f (st w)) (hist w)).

(** ** Every run extends the log *)
Definition extends {A} (c : M (World S E) A) : Prop := forall w, exists l, hist (c w).2 = (l ++ hist w)%list.

Lemma extends_ret {A} (a : A) : extends (retM a).
Proof. intros w. by exists []. Qed.
Lemma extends_err {A} e : extends (@errM _ A e).
Proof. intros w. by exists []. Qed.
Lemma extends_panic {A} m : extends (@panicM _ A m).
Proof. intros w. by exists []. Qed.
Lemma extends_bind {A B} (c : M (World S E) A) (k : A -> M (World S E) B) :
  extends c -> (forall a, extends (k a)) -> extends (bindM c k).
Proof.
  intros Hc Hk w. unfold bindM. destruct (Hc w) as (l & Hl).
  destruct (c w) as [[a|e|m] w']; cbn [snd] in *; [|by exists l..].
  destruct (Hk a w') as (l' & ->). exists (l' ++ l)%list. by rewrite Hl, app_assoc.
Qed.
Lemma extends_call {R} (ev : R -> E) (f : list E -> R) : extends (call ev f).
Proof. intros w. unfold call. cbn. by eexists [_]. Qed.
Lemma extends_okOr {R} (r : R + goerr) : extends (okOr r).
Proof. destruct r; [apply extends_ret|apply extends_err]. Qed.
Lemma extends_gets {A} (f : S -> A) : extends (gets f).
Proof. intros w. by exists []. Qed.
Lemma extends_puts (f : S -> S) : extends (puts f).
Proof. intros w. by exists []. Qed.
Lemma extends_try {A} (c : M (World S E) A) : extends c -> extends (tryM c).
Proof. intros Hc w. unfold tryM. destruct (Hc w) as (l & Hl). destruct (c w) as [[a|e|m] w']; by exists l. Qed.
Lemma extends_errOf (c : M (World S E) unit) : extends c -> extends (errOf c).
Proof. intros Hc w. unfold errOf. destruct (Hc w) as (l & Hl). destruct (c w) as [[a|e|m] w']; by exists l. Qed.
Lemma extends_returnErr e : extends (returnErr e).
Proof. destruct e; [apply extends_err|apply extends_ret]. Qed.
Lemma extends_forM {A} (l : list A) (f : A -> M (World S E) unit) : (forall x, extends (f x)) -> extends (forM_ l f).
Proof.
  intros Hf. induction l as [|x l IH]; [apply extends_ret|]. cbn [forM_]. apply extends_bind; [apply Hf|done].
Qed.
End calls.

Create HintDb extends discriminated.
Create HintDb keeps discriminated.
Create HintDb safe discriminated.
#[export] Hint Resolve extends_ret extends_err extends_panic extends_bind extends_call extends_okOr extends_gets
  extends_puts extends_try extends_errOf extends_returnErr extends_forM : extends.

(** ** Invariants of runs

    [keeps I c]: a run of [c] from a state where [I] holds ends in a state where [I]
    holds, whether it succeeds, fails or panics. *)
Section keeps.
Context {W : Type}.

Definition keeps {A} (I : W -> Prop) (c : M W A) : Prop := forall w, I w -> I (c w).2.

Lemma keeps_ret {A} I (a : A) : keeps I (retM a).
Proof. intros w Hw. exact Hw. Qed.
Lemma keeps_err {A} I e : keeps I (@errM _ A e).
Proof. intros w Hw. exact Hw. Qed.
Lemma keeps_panic {A} I m : keeps I (@panicM _ A m).
Proof. intros w Hw. exact Hw. Qed.
Lemma keeps_bind {A B} I (c : M W A) (k : A -> M W B) : keeps I c -> (forall a, keeps I (k a)) -> keeps I (bindM c k).
Proof.
  intros Hc Hk w Hw. unfold bindM. specialize (Hc w Hw). destruct (c w) as [[a|e|m] w']; cbn in *; [|done..].
  by apply Hk.
Qed.
Lemma keeps_try {A} I (c : M W A) : keeps I c -> keeps I (tryM c).
Proof. intros Hc w Hw. specialize (Hc w Hw). unfold tryM. by destruct (c w) as [[a|e|m] w']. Qed.
Lemma keeps_errOf I (c : M W unit) : keeps I c -> keeps I (errOf c).
Proof. intros Hc w Hw. specialize (Hc w Hw). unfold errOf. by destruct (c w) as [[a|e|m] w']. Qed.
Lemma keeps_returnErr I e : keeps I (returnErr e).
Proof. intros w Hw. by destruct e. Qed.
Lemma keeps_forM {A} I (l : list A) (f : A -> M W unit) : (forall x, x ∈ l -> keeps I (f x)) -> keeps I (forM_ l f).
Proof. intros Hf w Hw. apply forM_inv; [|done]. intros x s0 Hx. by apply Hf. Qed.
End keeps.

Section keeps_world.
Context {S E : Type} (I : World S E -> Prop).

Lemma keeps_gets {A} (f : S -> A) : keeps I (gets f).
Proof. intros w Hw. exact Hw. Qed.
Lemma keeps_okOr {R} (r : R + goerr) : keeps I (okOr r).
Proof. intros w Hw. by destruct r. Qed.
Lemma keeps_call {R} (ev : R -> E) (f : list E -> R) :
  (forall w r, I w -> I (mkWorld (st w) (ev r :: hist w))) -> keeps I (call ev f).
Proof. intros H w Hw. by apply H. Qed.
Lemma keeps_puts (f : S -> S) : (forall w, I w -> I (mkWorld (f (st w)) (hist w))) -> keeps I (puts f).
Proof. intros H w Hw. by apply H. Qed.
End keeps_world.

Lemma bindM_assoc {W A B C} (c : M W A) (k : A -> M W B) (k' : B -> M W C) w :
  bindM (bindM c k) k' w = bindM c (fun a => bindM (k a) k') w.
Proof. unfold bindM. by destruct (c w) as [[a|e|m] w']. Qed.

Lemma keeps_assoc {W A B C} (I : W -> Prop) (c : M W A) (k : A -> M W B) (k' : B -> M W C) :
  keeps I (bindM c (fun a => bindM (k a) k')) -> keeps I (bindM (bindM c k) k').
Proof. intros H w Hw. rewrite bindM_assoc. by apply H. Qed.

(** A read state satisfies the invariant too. *)
Lemma keeps_gets_bind {S E A B} (I : World S E -> Prop) (f : S -> A) (k : A -> M (World S E) B) :
  (forall w0, I w0 -> keeps I (k (f (st w0)))) -> keeps I (bindM (gets f) k).
Proof. intros H w Hw. by apply H. Qed.

#[export] Hint Resolve keeps_ret keeps_err keeps_panic keeps_bind keeps_try keeps_errOf keeps_returnErr keeps_forM
  keeps_gets keeps_okOr : keeps.

(** ** Runs that never panic

    [safe I c]: from a state where [I] holds, [c] does not panic and keeps [I]. *)
Section safe.
Context {W : Type}.

Definition no_panic {A} (o : outcome A) : Prop := match o with Panic _ => False | _ => True end.
Definition safe {A} (I : W -> Prop) (c : M W A) : Prop := forall w, I w -> no_panic (c w).1 /\ I (c w).2.

Lemma safe_ret {A} I (a : A) : safe I (retM a).
Proof. intros w Hw. done. Qed.
Lemma safe_err {A} I e : safe I (@errM _ A e).
Proof. intros w Hw. done. Qed.
Lemma safe_bind {A B} I (c : M W A) (k : A -> M W B) : safe I c -> (forall a, safe I (k a)) -> safe I (bindM c k).
Proof.
  intros Hc Hk w Hw. unfold bindM. destruct (Hc w Hw) as [Hp Hi].
  destruct (c w) as [[a|e|m] w']; cbn in *; [|done..]. by apply Hk.
Qed.
Lemma safe_try {A} I (c : M W A) : safe I c -> safe I (tryM c).
Proof. intros Hc w Hw. destruct (Hc w Hw). unfold tryM. by destruct (c w) as [[a|e|m] w']. Qed.
Lemma safe_errOf I (c : M W unit) : safe I c -> safe I (errOf c).
Proof. intros Hc w Hw. destruct (Hc w Hw). unfold errOf. by destruct (c w) as [[a|e|m] w']. Qed.
Lemma safe_returnErr I e : safe I (returnErr e).
Proof. by destruct e. Qed.
Lemma safe_forM {A} I (l : list A) (f : A -> M W unit) : (forall x, x ∈ l -> safe I (f x)) -> safe I (forM_ l f).
Proof.
  intros Hf. induction l as [|x l IH]; [apply safe_ret|]. cbn [forM_]. apply safe_bind.
  - apply Hf. constructor.
  - intros _. apply IH. intros y Hy. apply Hf. by constructor.
Qed.
End safe.

Section safe_world.
Context {S E : Type} (I : World S E -> Prop).
Lemma safe_gets {A} (f : S -> A) : safe I (gets f).
Proof. intros w Hw. done. Qed.
Lemma safe_okOr {R} (r : R + goerr) : safe I (okOr r).
Proof. intros w Hw. by destruct r. Qed.
Lemma safe_call {R} (ev : R -> E) (f : list E -> R) :
  (forall w r, I w -> I (mkWorld (st w) (ev r :: hist w))) -> safe I (call ev f).
Proof. intros H w Hw. split; [done|by apply H]. Qed.
Lemma safe_puts (f : S -> S) : (forall w, I w -> I (mkWorld (f (st w)) (hist w))) -> safe I (puts f).
Proof. intros H w Hw. split; [done|by apply H]. Qed.
End safe_world.

Lemma safe_gets_bind {S E A B} (I : World S E -> Prop) (f : S -> A) (k : A -> M (World S E) B) :
  (forall w0, I w0 -> safe I (k (f (st w0)))) -> safe I (bindM (gets f) k).
Proof. intros H w Hw. by apply H. Qed.

#[export] Hint Resolve safe_ret safe_err safe_bind safe_try safe_errOf safe_returnErr safe_forM
  safe_gets safe_okOr : safe.

(** ** Running *)
Lemma call_run {S E R} (ev : R -> E) f (w : World S E) :
  call ev f w = (Ok (f (hist w)), mkWorld (st w) (ev (f (hist w)) :: hist w)).
Proof. done. Qed.

Lemma okOr_Ok {S E R} (r : R + goerr) v (w w' : World S E) : okOr r w = (Ok v, w') <-> r = inl v /\ w' = w.
Proof. destruct r; cbn; split; [intros [= -> ->]; done|intros [[= ->] ->]; done|done|by intros [? _]]. Qed.

(** Unfold one step of a run that succeeded. *)
Ltac run_inv H :=
  match type of H with
  | bindM _ _ _ = (Ok _, _) =>
      let a := fresh "a" in let w := fresh "w" in let Hr := fresh "Hr" in
      apply bindM_Ok in H as (a & w & Hr & H); run_inv Hr
  | call _ _ _ = (Ok _, _) => rewrite call_run in H; injection H as <- <-
  | gets _ _ = (Ok _, _) => unfold gets in H; injection H as <- <-
  | puts _ _ = (Ok _, _) => unfold puts in H; injection H as <- <-
  | retM _ _ = (Ok _, _) => unfold retM in H; injection H as <- <-
  | errM _ _ = (Ok _, _) => discriminate H
  | panicM _ _ = (Ok _, _) => discriminate H
  | okOr _ _ = (Ok _, _) => apply okOr_Ok in H as [? ->]
  | _ => idtac
  end.

(** What the calls of a run established is in the events it added. *)
Definition added {S E} (w w' : World S E) (P : list E -> Prop) : Prop := exists l, hist w' = (l ++ hist w)%list /\ P l.

(** Reading through a pointer that can be nil. *)
Definition nilDereference : string := "invalid memory address or nil pointer dereference".
Definition orPanic {W A} (o : option A) (m : string) : M W A := match o with Some a => retM a | None => panicM m end.

Lemma orPanic_Ok {W A} (o : option A) m (a : A) (w w' : W) : orPanic o m w = (Ok a, w') <-> o = Some a /\ w' = w.
Proof. destruct o; cbn; split; [intros [= -> ->]; done|intros [[= ->] ->]; done|done|by intros [? _]]. Qed.

(** ** The order of worlds: a later world has a longer log *)
Section later.
Context {S E : Type}.
Implicit Types (w : World S E).

Definition ext w w' : Prop := exists l, hist w' = (l ++ hist w)%list.

#[global] Instance ext_preorder : PreOrder ext.
Proof.
  split; [intros w; by exists []|]. intros w1 w2 w3 [l Hl] [l' Hl']. exists (l' ++ l)%list.
  by rewrite Hl', Hl, app_assoc.
Qed.

Lemma ext_cons w w' e : hist w' = e :: hist w -> ext w w'.
Proof. intros H. by exists [e]. Qed.

(** [e] is one of the calls made since [w0]. *)
Definition happened w0 w e : Prop := exists l, hist w = (l ++ hist w0)%list /\ e ∈ l.

Lemma happened_later w0 w w' e : happened w0 w e -> ext w w' -> happened w0 w' e.
Proof.
  intros (l & Hl & He) (l' & Hl'). exists (l' ++ l)%list. rewrite Hl', Hl, app_assoc. split; [done|].
  apply elem_of_app. by right.
Qed.

Lemma happened_earlier w0 w1 w e : ext w0 w1 -> happened w1 w e -> happened w0 w e.
Proof.
  intros (l' & Hl') (l & Hl & He). exists (l ++ l')%list. rewrite Hl, Hl', app_assoc. split; [done|].
  apply elem_of_app. by left.
Qed.

Lemma happened_now w0 w w' e : ext w0 w -> hist w' = e :: hist w -> happened w0 w' e.
Proof. intros (l & Hl) Hw. exists (e :: l). split; [by rewrite Hw, Hl|constructor]. Qed.

Lemma happened_app w s l e : happened w (mkWorld s (l ++ hist w)) e <-> e ∈ l.
Proof. split; [|by exists l]. intros (l' & Hl & Hin). cbn in Hl. by apply app_inv_tail in Hl as ->. Qed.

Lemma happened_none w s e : happened w (mkWorld s (hist w)) e <-> False.
Proof. rewrite (happened_app w s []). split; [apply not_elem_of_nil|done]. Qed.
Lemma happened_one w s e1 e : happened w (mkWorld s (e1 :: hist w)) e <-> e = e1.
Proof. rewrite (happened_app w s [e1]). apply list_elem_of_singleton. Qed.
Lemma happened_two w s e2 e1 e : happened w (mkWorld s (e2 :: e1 :: hist w)) e <-> e = e2 \/ e = e1.
Proof. rewrite (happened_app w s [e2; e1]). by rewrite elem_of_cons, list_elem_of_singleton. Qed.

Lemma extends_ext {A} (c : M (World S E) A) w : extends c -> ext w (c w).2.
Proof. intros H. apply H. Qed.
End later.

(** Structural proof of [keeps] and [safe]: the sides left are calls and writes. *)
Ltac keeps_step :=
  lazymatch goal with
  | |- keeps _ (bindM (gets _) _) => apply keeps_gets_bind; intros ? ?
  | |- keeps _ (bindM _ _) => apply keeps_bind; [|intro]
  | |- keeps _ (forM_ _ _) => apply keeps_forM; intros
  | |- keeps _ (match ?x with _ => _ end) => destruct x
  | |- keeps _ (call _ _) => apply keeps_call; intros
  | |- keeps _ (orPanic ?o _) => destruct o; [apply keeps_ret|apply keeps_panic]
  | |- keeps _ _ => solve [auto with keeps nocore]
  end.
Ltac safe_step :=
  lazymatch goal with
  | |- safe _ (bindM (gets _) _) => apply safe_gets_bind; intros ? ?
  | |- safe _ (bindM _ _) => apply safe_bind; [|intro]
  | |- safe _ (forM_ _ _) => apply safe_forM; intros
  | |- safe _ (match ?x with _ => _ end) => destruct x
  | |- safe _ (call _ _) => apply safe_call; intros
  | |- safe _ _ => solve [auto with safe nocore]
  end.

(** ** Triples

    [triple P c Q E]: from a state in [P], a run of [c] that returns [a] ends in [Q a],
    and one that fails or panics ends in [E]. *)
Section triple.
Context {W : Type}.

Definition triple {A} (P : W -> Prop) (c : M W A) (Q : A -> W -> Prop) (E : W -> Prop) : Prop :=
  forall w, P w -> match c w with (Ok a, w') => Q a w' | (_, w') => E w' end.

Lemma triple_bind {A B} P (c : M W A) (k : A -> M W B) Q R E :
  triple P c Q E -> (forall a, triple (Q a) (k a) R E) -> triple P (bindM c k) R E.
Proof.
  intros Hc Hk w Hw. specialize (Hc w Hw). unfold bindM. destruct (c w) as [[a|e|m] w']; [|done..]. by apply Hk.
Qed.
Lemma triple_ret {A} (P : W -> Prop) (a : A) Q E : (forall w, P w -> Q a w) -> triple P (retM a) Q E.
Proof. intros H w Hw. by apply H. Qed.
Lemma triple_forM {A} I E (l : list A) (f : A -> M W unit) : (forall x, x ∈ l -> triple I (f x) (fun _ => I) E) ->
  triple I (forM_ l f) (fun _ => I) E.
Proof.
  intros Hf. induction l as [|x l IH]; [by apply triple_ret|]. cbn [forM_]. eapply triple_bind; [apply Hf; by constructor|].
  intros ?. apply IH. intros y Hy. apply Hf. by constructor.
Qed.
Lemma triple_weaken {A} (P P' : W -> Prop) (c : M W A) Q Q' E E' :
  triple P c Q E -> (forall w, P' w -> P w) -> (forall a w, Q a w -> Q' a w) -> (forall w, E w -> E' w) -> triple P' c Q' E'.
Proof. intros H HP HQ HE w Hw. specialize (H w (HP w Hw)). destruct (c w) as [[a|e|m] w']; auto. Qed.
Lemma triple_keeps {A} I (c : M W A) : keeps I c -> triple I c (fun _ => I) I.
Proof. intros H w Hw. specialize (H w Hw). by destruct (c w) as [[a|e|m] w']. Qed.
Lemma keeps_triple {A} I (c : M W A) : triple I c (fun _ => I) I -> keeps I c.
Proof. intros H w Hw. specialize (H w Hw). by destruct (c w) as [[a|e|m] w']. Qed.
Lemma triple_pure {A} (P : W -> Prop) (p : Prop) (c : M W A) Q E :
  (p -> triple P c Q E) -> triple (fun w => P w /\ p) c Q E.
Proof. intros H w [Hw Hp]. by apply H. Qed.
Lemma triple_run {A} (P : W -> Prop) (c : M W A) Q E w a w' : triple P c Q E -> P w -> c w = (Ok a, w') -> Q a w'.
Proof. intros H Hw Hc. specialize (H w Hw). by rewrite Hc in H. Qed.
End triple.

Lemma triple_call {S E R} (P : World S E -> Prop) (ev : R -> E) f Q X :
  (forall w, P w -> Q (f (hist w)) (mkWorld (st w) (ev (f (hist w)) :: hist w))) -> triple P (call ev f) Q X.
Proof. intros H w Hw. by apply H. Qed.

(** ** Components inside a world

    The state of a client can contain the world of a component it calls: [inside]
    runs the component there. *)
Definition inside {W E A} (c : M W A) : M (World W E) A := fun w =>
  let '(r, s) := c (st w) in (r, mkWorld s (hist w)).
