(* ===== verification/Traces.v ===== *)
(** * Justified traces

    The reconcilers are specified by what may justify each of their calls: a
    [Justification] says when an event may follow the events logged since
    the start of a run.  This file has the invariants of runs whose
    events are all justified, and the steps by which they are kept. *)

From S2P Require Import Prelude Effects.

Class Justification (S E : Type) := {
  justified_event : World S E -> World S E -> E -> Prop;
  justified_event_later : forall w0 w w' e, justified_event w0 w e -> ext w w' -> justified_event w0 w' e
}.

Section traces.
Context {S E : Type} `{Justification S E}.
Implicit Types (w : World S E).

Definition all_justified w0 w : Prop := forall e, happened w0 w e -> justified_event w0 w e.
Definition trace w0 w : Prop := ext w0 w /\ all_justified w0 w.

Lemma trace_refl w : trace w w.
Proof. split; [reflexivity|]. intros e (l & Hl & Hin). apply (app_inv_tail (hist w) []) in Hl as <-. by apply not_elem_of_nil in Hin. Qed.

Lemma trace_event w0 w s e : trace w0 w -> justified_event w0 w e -> trace w0 (mkWorld s (e :: hist w)).
Proof.
  intros [Hx Ht] He. assert (ext w (mkWorld s (e :: hist w))) as Hx' by (by exists [e]).
  split; [by etransitivity|]. intros e' He'.
  destruct Hx as (l & Hl). destruct He' as (l' & Hl' & Hin). cbn in Hl'. rewrite Hl in Hl'.
  apply (app_inv_tail (hist w0) (e :: l)) in Hl' as <-. apply elem_of_cons in Hin as [->|Hin].
  - by eapply justified_event_later.
  - eapply justified_event_later; [|exact Hx']. apply Ht. by exists l.
Qed.

(** The own state of the component does not matter. *)
Lemma trace_state w0 w s : trace w0 w -> trace w0 (mkWorld s (hist w)).
Proof.
  intros [Hx Ht]. split; [exact Hx|]. intros e He. eapply justified_event_later; [by apply Ht|]. by exists [].
Qed.

(** A fact about the log that later events keep. *)
Definition stable (K : World S E -> Prop) : Prop := forall w w', K w -> ext w w' -> K w'.
Definition always : World S E -> Prop := fun _ => True.
Lemma stable_always : stable always.
Proof. done. Qed.
Lemma stable_and K K' : stable K -> stable K' -> stable (fun w => K w /\ K' w).
Proof. intros H1 H2 w w' [Hk Hk'] Hx. split; eauto. Qed.
Lemma stable_or K K' : stable K -> stable K' -> stable (fun w => K w \/ K' w).
Proof. intros H1 H2 w w' [Hk|Hk] Hx; eauto. Qed.
Lemma stable_ex {A} (K : A -> World S E -> Prop) : (forall a, stable (K a)) -> stable (fun w => exists a, K a w).
Proof. intros H1 w w' [a Ha] Hx. exists a. by eapply H1. Qed.
Lemma stable_forall {A} (K : A -> World S E -> Prop) : (forall a, stable (K a)) -> stable (fun w => forall a, K a w).
Proof. intros H1 w w' Ha Hx a. by eapply H1. Qed.
Lemma stable_impl (P : Prop) K : stable K -> stable (fun w => P -> K w).
Proof. intros H1 w w' Ha Hx HP. eauto. Qed.
Lemma stable_pure (P : Prop) : stable (fun _ => P).
Proof. by intros w w' HP _. Qed.
Lemma stable_event w0 e : stable (fun w => happened w0 w e).
Proof. intros w w'. apply happened_later. Qed.
Lemma stable_happened w0 K e : stable K -> stable (fun w => K w /\ happened w0 w e).
Proof. intros HK w w' [Hk He] Hx. split; [by eapply HK|by eapply happened_later]. Qed.

(** A trace together with what happened on it. *)
Definition traceK w0 (K : World S E -> Prop) w : Prop := trace w0 w /\ K w.

Section with_facts.
Context (w0 : World S E) (K : World S E -> Prop) (HK : stable K).
Abbreviation T := (traceK w0 K).

Lemma traceK_event w s e : T w -> justified_event w0 w e -> T (mkWorld s (e :: hist w)).
Proof. intros [Ht Hk] He. split; [by apply trace_event|]. eapply HK; [exact Hk|by exists [e]]. Qed.

Lemma traceK_state w s : T w -> T (mkWorld s (hist w)).
Proof. intros [Ht Hk]. split; [by apply trace_state|]. eapply HK; [exact Hk|by exists []]. Qed.

Lemma call_traceK {A} (ev : A -> E) f : (forall r w, T w -> justified_event w0 w (ev r)) -> keeps T (call ev f).
Proof. intros He. apply keeps_call. intros w r Hw. apply traceK_event; auto. Qed.

Lemma inside_traceK {A} (c : M S A) : keeps T (inside c).
Proof. intros w Hw. unfold inside. destruct (c (st w)) as [r x]. by apply traceK_state. Qed.

(** Learning from the outcome of a call. *)
Lemma call_learn {A B} (ev : A -> E) f (k : A -> M (World S E) B) :
  (forall r w, T w -> justified_event w0 w (ev r)) ->
  (forall r, keeps (traceK w0 (fun w => K w /\ happened w0 w (ev r))) (k r)) ->
  keeps T (bindM (call ev f) k).
Proof.
  intros He Hk w Hw. unfold bindM, call. set (r := f (hist w)). set (w1 := mkWorld (st w) _).
  assert (T w1) as Hw1 by (apply traceK_event; auto).
  assert (traceK w0 (fun w => K w /\ happened w0 w (ev r)) w1) as Hk1.
  { split; [apply Hw1|]. split; [apply Hw1|]. eapply happened_now; [apply Hw|reflexivity]. }
  destruct (Hk r w1 Hk1) as [Ht [HK' _]]. by split.
Qed.
End with_facts.

(** A pure consequence of what is known. *)
Lemma keeps_pure {A} (p : Prop) w0 K (c : M (World S E) A) : (forall w, K w -> p) -> (p -> keeps (traceK w0 K) c) -> keeps (traceK w0 K) c.
Proof. intros Hp Hc w Hw. apply Hc; [|done]. by eapply Hp, Hw. Qed.

(** ** What a run learns

    [learns w0 K c Q]: from a trace with [K], a run of [c] stays a trace with [K], and when it
    returns [a] it has established [Q a]. *)
Section learns.
Context (w0 : World S E).

Definition learns {A} (K : World S E -> Prop) (c : M (World S E) A) (Q : A -> World S E -> Prop) : Prop :=
  triple (traceK w0 K) c (fun a => traceK w0 (fun w => K w /\ Q a w)) (traceK w0 K).

Lemma learns_keeps {A} K (c : M (World S E) A) Q : learns K c Q -> keeps (traceK w0 K) c.
Proof.
  intros Hc w Hw. specialize (Hc w Hw). destruct (c w) as [[a|err|m] w']; [|exact Hc..].
  destruct Hc as (Ht & Hk & _). by split.
Qed.

Lemma keeps_learns {A} K (c : M (World S E) A) : keeps (traceK w0 K) c -> learns K c (fun _ _ => True).
Proof.
  intros Hc w Hw. specialize (Hc w Hw). destruct (c w) as [[a|err|m] w']; [|exact Hc..].
  destruct Hc as (Ht & Hk). by split_and!.
Qed.

Lemma learns_bind {A B} K (c : M (World S E) A) (k : A -> M (World S E) B) Q R :
  learns K c Q -> (forall a, learns (fun w => K w /\ Q a w) (k a) R) -> learns K (bindM c k) R.
Proof.
  intros Hc Hk w Hw. specialize (Hc w Hw). unfold bindM. destruct (c w) as [[a|err|m] w']; [|exact Hc..].
  specialize (Hk a w' Hc). destruct (k a w') as [[b|err|m] w2]; destruct Hk as (Ht & Hk); split; tauto.
Qed.

Lemma learns_bind_keeps {A B} K (c : M (World S E) A) (k : A -> M (World S E) B) Q :
  learns K c Q -> (forall a, keeps (traceK w0 (fun w => K w /\ Q a w)) (k a)) -> keeps (traceK w0 K) (bindM c k).
Proof.
  intros Hc Hk. eapply learns_keeps, learns_bind; [exact Hc|]. intros a. by apply keeps_learns.
Qed.

Lemma learns_weaken {A} (K : World S E -> Prop) (c : M (World S E) A) Q Q' : learns K c Q ->
  (forall a w, K w -> Q a w -> Q' a w) -> learns K c Q'.
Proof.
  intros Hc HQ w Hw. specialize (Hc w Hw). destruct (c w) as [[a|err|m] w']; [|exact Hc..].
  destruct Hc as (Ht & Hk & Ha). split_and!; auto.
Qed.

Lemma learns_ret {A} (K : World S E -> Prop) (a : A) Q : (forall w, K w -> Q a w) -> learns K (retM a) Q.
Proof. intros HQ w [Ht Hk]. split_and!; auto. Qed.
Lemma learns_err {A} K err Q : learns K (@errM _ A err) Q.
Proof. intros w Hw. exact Hw. Qed.
Lemma learns_panic {A} K m Q : learns K (@panicM _ A m) Q.
Proof. intros w Hw. exact Hw. Qed.
Lemma learns_okOr {A} K (r : A + goerr) : learns K (okOr r) (fun a _ => r = inl a).
Proof. intros w [Ht Hk]. destruct r; by split_and!. Qed.
Lemma learns_orPanic {A} K (o : option A) m : learns K (orPanic o m) (fun a _ => o = Some a).
Proof. intros w [Ht Hk]. destruct o; by split_and!. Qed.
Lemma learns_call {A} K (ev : A -> E) f : stable K -> (forall r w, traceK w0 K w -> justified_event w0 w (ev r)) ->
  learns K (call ev f) (fun r w => happened w0 w (ev r)).
Proof.
  intros HK He w Hw. unfold call. set (w1 := mkWorld _ _).
  assert (traceK w0 K w1) as [Ht Hk] by (apply traceK_event; auto).
  split_and!; [done|done|]. eapply happened_now; [apply Hw|reflexivity].
Qed.
Lemma learns_try {A} K (c : M (World S E) A) Q : learns K c Q ->
  learns K (tryM c) (fun r w => match r with inl a => Q a w | inr _ => True end).
Proof.
  intros Hc w Hw. specialize (Hc w Hw). unfold tryM. destruct (c w) as [[a|err|m] w']; [exact Hc| |exact Hc].
  destruct Hc as [Ht Hk]. by split_and!.
Qed.
Lemma learns_pure {A} (p : Prop) (K : World S E -> Prop) (c : M (World S E) A) Q :
  (forall w, K w -> p) -> (p -> learns K c Q) -> learns K c Q.
Proof. intros Hp Hc w Hw. apply Hc; [|done]. by eapply Hp, Hw. Qed.
Lemma learns_errOf K (c : M (World S E) unit) Q : learns K c Q -> learns K (errOf c) (fun e w => e = None -> Q tt w).
Proof.
  intros Hc w Hw. specialize (Hc w Hw). unfold errOf. destruct (c w) as [[[]|err|m] w']; [| |exact Hc].
  - destruct Hc as (Ht & Hk & Hq). by split_and!.
  - destruct Hc as [Ht Hk]. by split_and!.
Qed.
End learns.
End traces.

#[export] Hint Resolve stable_always stable_happened : core.

(** Facts made of events and pure facts are stable. *)
Ltac solve_stable :=
  repeat first
    [ assumption | apply stable_always | apply stable_event | apply stable_pure | apply stable_and | apply stable_or
    | apply stable_ex; intros ? | apply stable_impl | apply stable_forall; intros ? | match goal with |- context [match ?x with _ => _ end] => destruct x end ].
