(* ===== verification/GoStrings.v ===== *)
(** * The parts of Go's [strings], [strconv] and [unicode] the program uses

    A Go string is a sequence of bytes, so is a Rocq [string].  Byte-level
    definitions are exact for the calls in the source: every separator,
    prefix and character class it uses is ASCII. *)

From S2P Require Import Prelude.
From Stdlib Require Import Ascii.

Abbreviation len := String.length.

Definition chars (s : string) : list ascii := String.list_ascii_of_string s.

(** [strings.Contains(s, c)] for a one-byte [c]. *)
Definition HasByte (c : ascii) (s : string) : bool := existsb (Ascii.eqb c) (chars s).

(** [strings.HasPrefix(s, p)]. *)
Definition HasPrefix (s p : string) : bool := String.prefix p s.

(** [strings.HasSuffix(s, suf)]. *)
Fixpoint HasSuffix (s suf : string) : bool :=
  String.eqb s suf || match s with "" => false | String _ s' => HasSuffix s' suf end.

(** [strings.Contains(s, sub)]. *)
Fixpoint Contains (s sub : string) : bool :=
  HasPrefix s sub || match s with "" => false | String _ s' => Contains s' sub end.

(** [s[n:]] for [n <= len(s)]. *)
Fixpoint drop_bytes (n : nat) (s : string) : string :=
  match n, s with
  | S n', String _ s' => drop_bytes n' s'
  | _, _ => s
  end.

(** [s[:n]] for [n <= len(s)]. *)
Fixpoint take_bytes (n : nat) (s : string) : string :=
  match n, s with
  | S n', String c s' => String c (take_bytes n' s')
  | _, _ => ""
  end.

(** [strings.TrimPrefix(s, p)]. *)
Definition TrimPrefix (s p : string) : string :=
  if HasPrefix s p then drop_bytes (len p) s else s.

(** [strings.Split(s, sep)] for a one-byte separator: never empty. *)
Fixpoint Split (sep : ascii) (s : string) : list string :=
  match s with
  | "" => [""]
  | String c s' =>
      if Ascii.eqb c sep then "" :: Split sep s'
      else match Split sep s' with
           | [] => [String c ""]
           | x :: xs => String c x :: xs
           end
  end.

(** [strings.Join(parts, sep)]. *)
Definition Join (parts : list string) (sep : string) : string := String.concat sep parts.

(** [strings.LastIndex(s, c)] for a one-byte [c]; [None] is -1. *)
Fixpoint LastIndex (s : string) (c : ascii) : option nat :=
  match s with
  | "" => None
  | String a s' =>
      match LastIndex s' c with
      | Some n => Some (S n)
      | None => if Ascii.eqb a c then Some 0 else None
      end
  end.

(** [strings.Index(s, c)] for a one-byte [c]; [None] is -1. *)
Fixpoint Index (s : string) (c : ascii) : option nat :=
  match s with
  | "" => None
  | String a s' => if Ascii.eqb a c then Some 0 else S <$> Index s' c
  end.

(** [strings.ReplaceAll(s, old, "")]: every non-overlapping occurrence is
    removed, left to right.  [skip] bytes of a match are still to be dropped. *)
Fixpoint remove_from (old s : string) (skip : nat) : string :=
  match s with
  | "" => ""
  | String c s' =>
      match skip with
      | S k => remove_from old s' k
      | 0 => if HasPrefix s old then remove_from old s' (pred (len old))
             else String c (remove_from old s' 0)
      end
  end.
Definition RemoveAll (s old : string) : string :=
  if String.eqb old "" then s else remove_from old s 0.

(** [strings.ReplaceAll(s, c, d)] for one-byte [c] and [d]. *)
Fixpoint ReplaceByte (s : string) (c d : ascii) : string :=
  match s with
  | "" => ""
  | String a s' => String (if Ascii.eqb a c then d else a) (ReplaceByte s' c d)
  end.

(** [regexp.ReplaceAllString(s, "")] for a one-character class: the bytes of
    the class are removed, the others kept in order. *)
Fixpoint keep_bytes (f : ascii -> bool) (s : string) : string :=
  match s with
  | "" => ""
  | String c s' => if f c then String c (keep_bytes f s') else keep_bytes f s'
  end.

(** ** Character classes *)
Definition in_range (lo hi c : ascii) : bool :=
  (nat_of_ascii lo <=? nat_of_ascii c)%nat && (nat_of_ascii c <=? nat_of_ascii hi)%nat.
Definition is_digit (c : ascii) : bool := in_range "0" "9" c.
Definition is_lower (c : ascii) : bool := in_range "a" "z" c.
Definition is_upper (c : ascii) : bool := in_range "A" "Z" c.
Definition is_alnum (c : ascii) : bool := is_lower c || is_upper c || is_digit c.

(** The class [\s] of Go's regexp: tab, newline, form feed, return, space. *)
Definition is_re_space (c : ascii) : bool :=
  existsb (Nat.eqb (nat_of_ascii c)) [9; 10; 12; 13; 32]%nat.

Definition lower_byte (c : ascii) : ascii :=
  if is_upper c then ascii_of_nat (nat_of_ascii c + 32) else c.

(** [strings.ToLower] on an ASCII string. *)
Fixpoint ToLowerASCII (s : string) : string :=
  match s with
  | "" => ""
  | String c s' => String (lower_byte c) (ToLowerASCII s')
  end.

(** ** [unicode.IsSpace] and [strings.TrimSpace]

    [lead_space s] removes one leading white-space rune of the UTF-8 string
    [s], if it starts with one. *)
Definition lead_space (s : string) : option string :=
  match s with
  | "" => None
  | String a s1 =>
      let na := nat_of_ascii a in
      if existsb (Nat.eqb na) [9; 10; 11; 12; 13; 32]%nat then Some s1 else
      match s1 with
      | "" => None
      | String b s2 =>
          let nb := nat_of_ascii b in
          if (na =? 194)%nat && existsb (Nat.eqb nb) [133; 160]%nat then Some s2 else
          match s2 with
          | "" => None
          | String c s3 =>
              let nc := nat_of_ascii c in
              if ((na =? 225) && (nb =? 154) && (nc =? 128))%nat
                 || ((na =? 226) && (nb =? 128) &&
                     (((128 <=? nc) && (nc <=? 138)) || existsb (Nat.eqb nc) [168; 169; 175]))%nat
                 || ((na =? 226) && (nb =? 129) && (nc =? 159))%nat
                 || ((na =? 227) && (nb =? 128) && (nc =? 128))%nat
              then Some s3 else None
          end
      end
  end.

(** [len(strings.TrimSpace(s)) == 0]: [s] is made of white space only.  Each
    step consumes a byte, so [len s] steps are enough. *)
Fixpoint blank_fuel (fuel : nat) (s : string) : bool :=
  match s, fuel with
  | "", _ => true
  | _, 0 => false
  | _, S n => match lead_space s with Some s' => blank_fuel n s' | None => false end
  end.
Definition is_blank (s : string) : bool := blank_fuel (len s) s.

(** [strings.TrimSpace]. *)
Fixpoint trim_left (fuel : nat) (s : string) : string :=
  match fuel with
  | 0 => s
  | S n => match lead_space s with Some s' => trim_left n s' | None => s end
  end.
Fixpoint trim_right (s : string) : string :=
  if is_blank s then "" else match s with "" => "" | String c s' => String c (trim_right s') end.
Definition TrimSpace (s : string) : string := trim_right (trim_left (len s) s).

Example TrimSpace_both : TrimSpace " kyma.local	 " = "kyma.local" /\ TrimSpace "  " = "" /\ TrimSpace "a b" = "a b".
Proof. vm_compute. done. Qed.

(** ** [strconv] *)
Definition digit_val (c : ascii) : Z := (Z.of_nat (nat_of_ascii c) - 48)%Z.

Fixpoint parse_digits (acc : Z) (s : string) : option Z :=
  match s with
  | "" => Some acc
  | String c s' => if is_digit c then parse_digits (10 * acc + digit_val c) s' else None
  end.

Definition max_int64 : Z := 9223372036854775807.
Definition min_int64 : Z := -9223372036854775808.

(** [strconv.Atoi] on a 64-bit platform: an optional sign and at least one
    decimal digit, within the range of [int]. *)
Definition Atoi (s : string) : option Z :=
  let signed (neg : bool) (d : string) :=
    match d with
    | "" => None
    | _ => n ← parse_digits 0 d;
           let v := (if neg then - n else n)%Z in
           if ((min_int64 <=? v) && (v <=? max_int64))%Z then Some v else None
    end in
  match s with
  | "" => None
  | String c d => if Ascii.eqb c "-" then signed true d
                  else if Ascii.eqb c "+" then signed false d else signed false s
  end.

(** [strconv.ParseUint(s, 10, 32)]. *)
Definition ParseUint32 (s : string) : option Z :=
  match s with
  | "" => None
  | _ => n ← parse_digits 0 s; if (n <=? 4294967295)%Z then Some n else None
  end.

(** [strconv.ParseBool]. *)
Definition ParseBool (s : string) : option bool :=
  if existsb (String.eqb s) ["1"; "t"; "T"; "TRUE"; "true"; "True"] then Some true
  else if existsb (String.eqb s) ["0"; "f"; "F"; "FALSE"; "false"; "False"] then Some false
  else None.

(** [strconv.Quote] (the verb [%q]): exact on ASCII; the bytes of multi-byte
    runes are copied, as Quote does with printable ones. *)
Definition hex_digit (n : nat) : string := String.substring n 1 "0123456789abcdef".
Definition dquote : ascii := ascii_of_nat 34.
Definition bslash : ascii := ascii_of_nat 92.
Definition quote_byte (c : ascii) : string :=
  let n := nat_of_ascii c in
  if existsb (Nat.eqb n) [34; 92]%nat then String bslash (String c "")
  else match n with
       | 7 => String bslash "a" | 8 => String bslash "b" | 9 => String bslash "t"
       | 10 => String bslash "n" | 11 => String bslash "v" | 12 => String bslash "f"
       | 13 => String bslash "r"
       | _ => if (n <? 32)%nat || (n =? 127)%nat
              then String bslash ("x" +:+ hex_digit (n / 16) +:+ hex_digit (n mod 16))
              else String c ""
       end.
Definition Quote (s : string) : string :=
  String dquote (String.concat "" (quote_byte <$> chars s) +:+ String dquote "").

Example Atoi_ex : Atoi "-42" = Some (-42)%Z /\ Atoi "1_0" = None /\ Atoi "" = None
  /\ Atoi "9223372036854775808" = None /\ Atoi "+007" = Some 7%Z.
Proof. vm_compute. done. Qed.
Example Split_ex : Split "." "a.b..c" = ["a"; "b"; ""; "c"] /\ Split "." "" = [""].
Proof. done. Qed.
Example RemoveAll_ex : RemoveAll "pre.app.pre.x" "pre" = ".app..x".
Proof. done. Qed.

(** ** Lemmas *)

#[local] Arguments String.append !_ _ : simpl nomatch.

Section string_lemmas.
Implicit Types (s a b p : string) (c sep : ascii).

Lemma app_nil s : s +:+ "" = s.
Proof. induction s as [|x s IH]; [done|]. cbn. by rewrite IH. Qed.

Lemma app_assoc_s a b s : (a +:+ b) +:+ s = a +:+ (b +:+ s).
Proof. induction a as [|x a IH]; [done|]. cbn. by rewrite IH. Qed.

Lemma len_app a b : len (a +:+ b) = (len a + len b)%nat.
Proof. induction a as [|x a IH]; [done|]. cbn. by rewrite IH. Qed.

Lemma take_bytes_app a b : take_bytes (len a) (a +:+ b) = a.
Proof. induction a as [|x a IH]; [by destruct b|]. cbn. by rewrite IH. Qed.

Lemma drop_bytes_app a b : drop_bytes (len a) (a +:+ b) = b.
Proof. induction a as [|x a IH]; [by destruct b|]. cbn. by rewrite IH. Qed.

Lemma take_drop_bytes n s : take_bytes n s +:+ drop_bytes n s = s.
Proof. revert s. induction n as [|n IH]; intros [|x s]; [done..|]. cbn. by rewrite IH. Qed.

Lemma len_take_bytes n s : len (take_bytes n s) = Nat.min n (len s).
Proof. revert s. induction n as [|n IH]; intros [|x s]; [done..|]. cbn. by rewrite IH. Qed.

Lemma app_inj_len a b a' b' : len a = len a' -> a +:+ b = a' +:+ b' -> a = a' /\ b = b'.
Proof.
  revert a'. induction a as [|x a IH]; intros [|x' a'] Hl H; cbn in *; try lia; [done|].
  injection Hl as Hl. injection H as -> H. destruct (IH _ Hl H) as [-> ->]. done.
Qed.

Lemma HasByte_app c a b : HasByte c (a +:+ b) = HasByte c a || HasByte c b.
Proof. unfold HasByte, chars. induction a as [|x a IH]; [done|]. cbn. by rewrite IH, orb_assoc. Qed.

Lemma HasPrefix_iff s p : HasPrefix s p = true <-> exists r, s = p +:+ r.
Proof.
  unfold HasPrefix. revert s. induction p as [|x p IH]; intros s.
  - split; [intros _; by exists s|]. by destruct s.
  - destruct s as [|y s]; cbn.
    + split; [done|]. intros (r & ?). done.
    + destruct (ascii_dec x y) as [->|Hne].
      * rewrite IH. split; intros (r & H); exists r; [by rewrite H|by injection H].
      * split; [done|]. intros (r & [= -> _]). done.
Qed.

Lemma TrimPrefix_app p r : TrimPrefix (p +:+ r) p = r.
Proof.
  unfold TrimPrefix. replace (HasPrefix (p +:+ r) p) with true.
  - apply drop_bytes_app.
  - symmetry. apply HasPrefix_iff. by exists r.
Qed.

Lemma HasSuffix_iff s p : HasSuffix s p = true <-> exists r, s = r +:+ p.
Proof.
  induction s as [|x s IH]; cbn [HasSuffix]; rewrite orb_true_iff, String.eqb_eq.
  - split; [intros [<-|?]; [by exists ""|done]|]. intros ([] & H); [by left|done].
  - rewrite IH. split.
    + intros [<-|(r & ->)]; [by exists ""|by exists (String x r)].
    + intros ([|y r] & H); [by left|]. right. exists r. by injection H.
Qed.

Lemma Contains_iff s p : Contains s p = true <-> exists a b, s = a +:+ (p +:+ b).
Proof.
  induction s as [|x s IH]; cbn [Contains]; rewrite orb_true_iff, HasPrefix_iff.
  - split; [intros [(r & H)|]; [by exists "", r|done]|].
    intros ([] & b & H); [left; by exists b|done].
  - rewrite IH. split.
    + intros [(r & H)|(a & b & ->)]; [by exists "", r|by exists (String x a), b].
    + intros ([|y a] & b & H); [left; by exists b|]. right. exists a, b. by injection H.
Qed.

Lemma Split_ne sep s : Split sep s <> [].
Proof. destruct s as [|c s]; cbn; [done|]. destruct (Ascii.eqb c sep); [done|]. by destruct (Split sep s). Qed.

Lemma Split_cons_ne c sep s : c <> sep ->
  exists x xs, Split sep s = x :: xs /\ Split sep (String c s) = String c x :: xs.
Proof.
  intros Hc. destruct (Split sep s) as [|x xs] eqn:E; [by apply Split_ne in E|].
  exists x, xs. split; [done|]. cbn. rewrite (proj2 (Ascii.eqb_neq _ _) Hc). by rewrite E.
Qed.

Lemma Split_app sep a b : Split sep (a +:+ String sep b) = (Split sep a ++ Split sep b)%list.
Proof.
  induction a as [|x a IH].
  - cbn. by rewrite Ascii.eqb_refl.
  - cbn. destruct (Ascii.eqb x sep); [by rewrite IH|].
    rewrite IH. destruct (Split sep a) eqn:E; [by apply Split_ne in E|done].
Qed.

Lemma Split_none sep s : HasByte sep s = false -> Split sep s = [s].
Proof.
  unfold HasByte. induction s as [|x s IH]; cbn; [done|].
  intros [H1 H2]%orb_false_iff. rewrite Ascii.eqb_sym, H1, IH; done.
Qed.

Lemma Join_Split sep s : Join (Split sep s) (String sep "") = s.
Proof.
  unfold Join. induction s as [|x s IH]; [done|]. cbn.
  destruct (Ascii.eqb_spec x sep) as [->|Hne].
  - destruct (Split sep s) eqn:E; [by apply Split_ne in E|]. cbn in *. by rewrite IH.
  - destruct (Split sep s) as [|y [|z l]] eqn:E; [by apply Split_ne in E|..]; cbn in *; by rewrite IH.
Qed.

Lemma Split_no_sep sep s x : x ∈ Split sep s -> HasByte sep x = false.
Proof.
  revert x. induction s as [|c s IH]; intros x; cbn.
  - intros ->%list_elem_of_singleton. done.
  - destruct (Ascii.eqb_spec c sep) as [->|Hne].
    + intros [->|H]%elem_of_cons; [done|auto].
    + destruct (Split sep s) as [|y l] eqn:E; [by apply Split_ne in E|].
      intros [->|H]%elem_of_cons; [|apply IH; by constructor].
      unfold HasByte in *. cbn. rewrite (proj2 (Ascii.eqb_neq sep c)) by done.
      apply (IH y). constructor.
Qed.

Lemma LastIndex_None s c : HasByte c s = false -> LastIndex s c = None.
Proof.
  unfold HasByte. induction s as [|x s IH]; cbn; [done|].
  intros [H1 H2]%orb_false_iff. rewrite IH by done. by rewrite Ascii.eqb_sym, H1.
Qed.

Lemma LastIndex_None_inv s c : LastIndex s c = None -> HasByte c s = false.
Proof.
  unfold HasByte. induction s as [|y s IH]; cbn; [done|].
  destruct (LastIndex s c); [done|]. destruct (Ascii.eqb_spec y c) as [->|Hne]; [done|].
  rewrite (proj2 (Ascii.eqb_neq c y)) by done. auto.
Qed.

Lemma LastIndex_app c a b : HasByte c b = false -> LastIndex (a +:+ String c b) c = Some (len a).
Proof.
  intros Hb. induction a as [|x a IH]; cbn.
  - rewrite LastIndex_None by done. by rewrite Ascii.eqb_refl.
  - by rewrite IH.
Qed.

Lemma LastIndex_Some s c n : LastIndex s c = Some n ->
  exists a b, s = a +:+ String c b /\ len a = n /\ HasByte c b = false.
Proof.
  revert n. induction s as [|x s IH]; intros n; cbn; [done|].
  destruct (LastIndex s c) as [m|] eqn:E.
  - intros [= <-]. destruct (IH _ eq_refl) as (a & b & -> & <- & Hb). by exists (String x a), b.
  - destruct (Ascii.eqb_spec x c) as [->|]; [|done]. intros [= <-]. exists "", s. split_and!; [done..|].
    by apply LastIndex_None_inv.
Qed.
End string_lemmas.

Section keep_lemmas.
Context (f : ascii -> bool).

Lemma keep_bytes_app a b : keep_bytes f (a +:+ b) = keep_bytes f a +:+ keep_bytes f b.
Proof. induction a as [|x a IH]; [done|]. cbn. rewrite IH. by destruct (f x). Qed.

Lemma keep_bytes_all s : forallb f (chars (keep_bytes f s)) = true.
Proof. induction s as [|x s IH]; [done|]. cbn. destruct (f x) eqn:E; cbn; [by rewrite E|done]. Qed.

Lemma keep_bytes_id s : forallb f (chars s) = true -> keep_bytes f s = s.
Proof. induction s as [|x s IH]; cbn; [done|]. intros [-> H]%andb_true_iff. by rewrite IH. Qed.

Lemma keep_bytes_idem s : keep_bytes f (keep_bytes f s) = keep_bytes f s.
Proof. apply keep_bytes_id, keep_bytes_all. Qed.

Lemma keep_bytes_HasByte c s : f c = false -> HasByte c (keep_bytes f s) = false.
Proof.
  intros Hc. unfold HasByte. induction s as [|x s IH]; [done|]. cbn.
  destruct (f x) eqn:E; [|done]. cbn. apply orb_false_iff. split; [|done].
  apply Ascii.eqb_neq. intros ->. congruence.
Qed.

Lemma Split_keep_bytes sep s : f sep = true -> Split sep (keep_bytes f s) = keep_bytes f <$> Split sep s.
Proof.
  intros Hs. induction s as [|x s IH]; [done|]. cbn.
  destruct (Ascii.eqb_spec x sep) as [->|Hne].
  - rewrite Hs. cbn. by rewrite Ascii.eqb_refl, IH.
  - destruct (Split sep s) as [|y l] eqn:E; [by apply Split_ne in E|].
    destruct (f x) eqn:Ex; cbn.
    + rewrite (proj2 (Ascii.eqb_neq x sep)) by done. rewrite IH. cbn. by rewrite Ex.
    + rewrite IH. cbn. by rewrite Ex.
Qed.
End keep_lemmas.

Create Rewrite HintDb gostr.
#[export] Hint Rewrite app_nil app_assoc_s len_app take_bytes_app drop_bytes_app TrimPrefix_app
  HasByte_app keep_bytes_idem : gostr.
