(* ===== verification/Tracing.v ===== *)
(** * Tracing headers: [pkg/tracing/tracing.go]

    The publisher proxy stores the headers of a trace as extensions of the CloudEvent; the dispatcher turns them back into the
    headers of the request to the sink and removes them from the event. *)

From Stdlib Require Import Ascii.
From S2P Require Import Prelude GoStrings.

(** A CloudEvent of version 1.0, as far as the dispatcher reads it; extension values are in the form [%v] prints. *)
Record CEvent := mkCEvent { ceID : string; ceSource : string; ceType : string; ceExtensions : gmap string string; ceData : string }.
Definition set_ceType (e : CEvent) (t : string) : CEvent := mkCEvent (ceID e) (ceSource e) t (ceExtensions e) (ceData e).
Definition upd_ceExtensions (f : gmap string string -> gmap string string) (e : CEvent) : CEvent :=
  mkCEvent (ceID e) (ceSource e) (ceType e) (f (ceExtensions e)) (ceData e).

(** [http.Header]: the canonical key has capitals at the beginning and after hyphens. *)
Fixpoint canonical (upper : bool) (s : string) : string :=
  match s with
  | "" => ""
  | String c s =>
      let c' := if upper then (if is_lower c then Ascii.ascii_of_nat (Ascii.nat_of_ascii c - 32) else c)
                else (if is_upper c then Ascii.ascii_of_nat (Ascii.nat_of_ascii c + 32) else c) in
      String c' (canonical (Ascii.eqb c "-"%char) s)
  end.
Abbreviation Header := (gmap string (list string)).
Definition Header_Add (h : Header) (key value : string) : Header :=
  <[canonical true key := (default [] (h !! canonical true key) ++ [value])%list]> h.

(** An extension and the header it becomes. *)
Definition traceParent : string * string := ("traceparent", "traceparent").
Definition b3TraceID : string * string := ("b3traceid", "X-B3-TraceId").
Definition b3ParentSpanID : string * string := ("b3parentspanid", "X-B3-ParentSpanId").
Definition b3SpanID : string * string := ("b3spanid", "X-B3-SpanId").
Definition b3Sampled : string * string := ("b3sampled", "X-B3-Sampled").
Definition b3Flags : string * string := ("b3flags", "X-B3-Flags").
Definition tracingKeys : list (string * string) := [traceParent; b3TraceID; b3ParentSpanID; b3SpanID; b3Sampled; b3Flags].

Definition removeCEExtension (e : CEvent) (key : string) : CEvent := upd_ceExtensions (delete key) e.

(** One of the six blocks. *)
Definition moveExtension (acc : Header * CEvent) (k : string * string) : Header * CEvent :=
  match ceExtensions acc.2 !! k.1 with
  | Some v => (Header_Add acc.1 k.2 v, removeCEExtension acc.2 k.1)
  | None => acc
  end.

(** The custom header of the context, and the event that is left. *)
Definition AddTracingHeadersToContext (event : CEvent) : option Header * CEvent :=
  let '(traceHeader, event) := foldl moveExtension (∅, event) tracingKeys in
  (if decide (traceHeader = ∅) then None else Some traceHeader, event).

(** * Theorems *)
Lemma tracingKeys_NoDup : NoDup tracingKeys.*1 /\ NoDup (canonical true <$> tracingKeys.*2).
Proof. split; apply (bool_decide_unpack _); by vm_compute. Qed.

Lemma moveExtensions_run ks h e : NoDup ks.*1 -> NoDup (canonical true <$> ks.*2) ->
  (forall k, k ∈ ks -> h !! canonical true k.2 = None) ->
  let '(h', e') := foldl moveExtension (h, e) ks in
  e' = upd_ceExtensions (filter (fun '(x, _) => x ∉ ks.*1)) e /\
  (forall k, k ∈ ks -> h' !! canonical true k.2 = (fun v => [v]) <$> ceExtensions e !! k.1) /\
  (forall x, x ∉ (canonical true <$> ks.*2) -> h' !! x = h !! x).
Proof.
  revert h e. induction ks as [|[x k] ks IH]; intros h e Hx Hk Hh; cbn [foldl].
  - split_and!; [|set_solver|done]. destruct e as [i s t m d]. unfold upd_ceExtensions. cbn. f_equal. symmetry. apply map_filter_id. set_solver.
  - cbn in Hx, Hk. apply NoDup_cons in Hx as [Hx1 Hx2], Hk as [Hk1 Hk2].
    assert (forall k', k' ∈ ks -> canonical true k'.2 <> canonical true k) as Hne.
    { intros k' Hin Heq. apply Hk1. rewrite <-Heq. apply list_elem_of_fmap_2, list_elem_of_fmap_2. done. }
    assert (forall k', k' ∈ ks -> k'.1 <> x) as Hne1.
    { intros k' Hin Heq. apply Hx1. rewrite <-Heq. by apply list_elem_of_fmap_2. }
    unfold moveExtension at 2. cbn [fst snd]. destruct (ceExtensions e !! x) as [v|] eqn:Ev.
    + specialize (IH (Header_Add h k v) (removeCEExtension e x) Hx2 Hk2).
      destruct (foldl _ _ ks) as [h' e']. destruct IH as (-> & H1 & H2).
      { intros k' Hin. unfold Header_Add. rewrite lookup_insert_ne by (symmetry; by apply Hne). apply Hh. by right. }
      split_and!.
      * unfold removeCEExtension, upd_ceExtensions. cbn. f_equal. apply map_eq. intros i.
        rewrite !map_lookup_filter. destruct (decide (i = x)) as [->|Hi]; [|rewrite lookup_delete_ne by done].
        -- rewrite lookup_delete_eq, Ev. cbn. rewrite option_guard_False by set_solver. done.
        -- destruct (ceExtensions e !! i); cbn; [|done]. apply option_guard_iff. set_solver.
      * intros k' [->|Hin]%elem_of_cons.
        -- cbn. rewrite H2 by done. unfold Header_Add. rewrite lookup_insert_eq, Ev. pose proof (Hh (x, k) ltac:(left)) as Hn. cbn in Hn. by rewrite Hn.
        -- rewrite H1 by done. cbn. by rewrite lookup_delete_ne by (symmetry; by apply Hne1).
      * intros y Hy. cbn in Hy. apply not_elem_of_cons in Hy as [Hy1 Hy2]. rewrite H2 by done. unfold Header_Add. by rewrite lookup_insert_ne.
    + specialize (IH h e Hx2 Hk2). destruct (foldl _ _ ks) as [h' e']. destruct IH as (-> & H1 & H2).
      { intros k' Hin. apply Hh. by right. }
      split_and!.
      * unfold upd_ceExtensions. f_equal. apply map_eq. intros i. rewrite !map_lookup_filter.
        destruct (ceExtensions e !! i) eqn:Ei; cbn; [|done]. apply option_guard_iff. cbn. rewrite not_elem_of_cons.
        split; [intros Hn; split; [congruence|done]|by intros [_ ?]].
      * intros k' [->|Hin]%elem_of_cons; [|by apply H1]. cbn. rewrite H2, Ev by done. apply (Hh (x, k)). left.
      * intros y Hy. cbn in Hy. apply not_elem_of_cons in Hy as [_ Hy2]. by apply H2.
Qed.

(** The headers are exactly the tracing extensions, and the event keeps exactly the others. *)
Definition traced_headers (e : CEvent) (h : option Header) : Prop :=
  forall k, k ∈ tracingKeys -> default ∅ h !! canonical true k.2 = (fun v => [v]) <$> ceExtensions e !! k.1.
Definition untraced (e : CEvent) : CEvent := upd_ceExtensions (filter (fun '(x, _) => x ∉ tracingKeys.*1)) e.

Lemma AddTracingHeadersToContext_spec e :
  let '(h, e') := AddTracingHeadersToContext e in
  e' = untraced e /\ traced_headers e h /\
  (forall x, x ∉ (canonical true <$> tracingKeys.*2) -> default ∅ h !! x = None) /\
  (h = None <-> forall x, x ∈ tracingKeys.*1 -> ceExtensions e !! x = None).
Proof.
  destruct tracingKeys_NoDup as [H1 H2]. unfold AddTracingHeadersToContext.
  pose proof (moveExtensions_run tracingKeys ∅ e H1 H2 ltac:(done)) as Hr.
  destruct (foldl moveExtension (∅, e) tracingKeys) as [h e']. destruct Hr as (-> & Hk & Ho).
  set (h' := if decide (h = ∅) then None else Some h). assert (default ∅ h' = h) as Hd by (subst h'; by case_decide).
  split; [done|]. split; [intros k Hin; rewrite Hd; by apply Hk|]. split; [intros x Hx; rewrite Hd; by apply Ho|].
  subst h'. case_decide as Hh; (split; [|done || (intros Hall; exfalso)]).
  - intros _ x ([y k] & -> & Hin)%list_elem_of_fmap. specialize (Hk _ Hin). rewrite Hh, lookup_empty in Hk. cbn in Hk |- *.
    by destruct (ceExtensions e !! y).
  - done.
  - apply Hh, map_eq. intros x. rewrite lookup_empty. destruct (decide (x ∈ (canonical true <$> tracingKeys.*2))) as [Hx|Hx]; [|by apply Ho].
    apply list_elem_of_fmap in Hx as (y & -> & Hy). apply list_elem_of_fmap in Hy as (k & -> & Hy).
    rewrite (Hk k Hy), (Hall k.1); [done|]. by apply list_elem_of_fmap_2.
Qed.

Lemma untraced_extension e x : x ∉ tracingKeys.*1 -> ceExtensions (untraced e) !! x = ceExtensions e !! x.
Proof.
  intros Hx. unfold untraced. cbn. rewrite map_lookup_filter. destruct (ceExtensions e !! x); [|done]. cbn.
  by rewrite option_guard_True.
Qed.

Example tracing_example :
  AddTracingHeadersToContext (mkCEvent "1" "s" "t" {["b3traceid" := "80f1"; "originaltype" := "o"]} "d") =
  (Some {["X-B3-Traceid" := ["80f1"]]}, mkCEvent "1" "s" "t" {["originaltype" := "o"]} "d").
Proof. vm_compute. done. Qed.
