(* ===== verification/Url.v ===== *)
(** * [net/url]: [ParseRequestURI] and [URL.Port]

    The program reads sinks with [url.ParseRequestURI] and uses the scheme,
    host, path and port of the result.  This file follows [net/url] function
    by function: scheme, authority (user info, host, port, IP literals),
    percent-decoding and path.  The texts of errors that come from
    [net/netip] are not modelled, only that there is one. *)

From S2P Require Import Prelude GoStrings.
From Stdlib Require Import Ascii.

Record URL := mkURL { Scheme : string; Host : string; Path : string }.

Definition result := sum URL string.

(** ** Percent-decoding *)
Inductive encoding := encodePath | encodeHost | encodeZone | encodeUserPassword.
#[global] Instance encoding_eq_dec : EqDecision encoding.
Proof. solve_decision. Defined.

Definition unhex (c : ascii) : option nat :=
  if is_digit c then Some (nat_of_ascii c - 48)
  else if in_range "a" "f" c then Some (nat_of_ascii c - 87)
  else if in_range "A" "F" c then Some (nat_of_ascii c - 55)
  else None.

(** [shouldEscape(c, encodeHost)], the same for [encodeZone]. *)
Definition shouldEscapeHost (c : ascii) : bool :=
  negb (is_alnum c || HasByte c ("!$&'()*+,;=:[]<>-_.~" +:+ String dquote "")).

Definition EscapeError (s : string) : string := "invalid URL escape " +:+ Quote (take_bytes 3 s).
Definition InvalidHostError (c : ascii) : string :=
  "invalid character " +:+ Quote (String c "") +:+ " in host name".

Fixpoint unescape (s : string) (mode : encoding) : string + string :=
  match s with
  | "" => inl ""
  | String c s' =>
      if Ascii.eqb c "%" then
        match s' with
        | String h1 (String h2 s'') =>
            match unhex h1, unhex h2 with
            | Some a, Some b =>
                let v := ascii_of_nat (16 * a + b) in
                let is25 := Ascii.eqb h1 "2" && Ascii.eqb h2 "5" in
                if bool_decide (mode = encodeHost) && (a <? 8)%nat && negb is25 then inr (EscapeError s)
                else if bool_decide (mode = encodeZone) && negb is25
                        && negb (Ascii.eqb v " ") && shouldEscapeHost v then inr (EscapeError s)
                else match unescape s'' mode with inl r => inl (String v r) | inr e => inr e end
            | _, _ => inr (EscapeError s)
            end
        | _ => inr (EscapeError s)
        end
      else if bool_decide (mode ∈ [encodeHost; encodeZone]) && (nat_of_ascii c <? 128)%nat && shouldEscapeHost c
      then inr (InvalidHostError c)
      else match unescape s' mode with inl r => inl (String c r) | inr e => inr e end
  end.

(** ** Ports *)
(** [validOptionalPort]: empty, or ':' followed by digits. *)
Definition validOptionalPort (port : string) : bool :=
  match port with
  | "" => true
  | String c d => Ascii.eqb c ":" && forallb is_digit (chars d)
  end.

(** [URL.Port]: the digits after the last ':' of the host. *)
Definition Port (u : URL) : string :=
  match LastIndex (Host u) ":" with
  | None => ""
  | Some i => let colon := drop_bytes i (Host u) in
              if validOptionalPort colon then drop_bytes 1 colon else ""
  end.

(** ** IP literals: [netip.ParseAddr] succeeds with an IPv6 address *)
Definition is_hex (c : ascii) : bool := bool_decide (is_Some (unhex c)).

(** A decimal field of an embedded IPv4 address. *)
Definition ipv4_field (s : string) : bool :=
  match s with
  | "" => false
  | "0" => true
  | String c _ => negb (Ascii.eqb c "0") && (len s <=? 3)%nat &&
                  match parse_digits 0 s with Some n => (n <=? 255)%Z | None => false end
  end.
Definition valid_ipv4 (s : string) : bool :=
  let fs := Split "." s in (length fs =? 4)%nat && forallb ipv4_field fs.

Fixpoint hex_prefix (s : string) : nat :=
  match s with String c s' => if is_hex c then S (hex_prefix s') else 0 | "" => 0 end.

(** The groups of an address: [i] of the eight are read, [ell] says whether
    the "::" was seen.  Every round reads a group, so eight are enough. *)
Fixpoint ipv6_groups (fuel : nat) (i : nat) (ell : bool) (s : string) : bool :=
  match fuel with
  | 0 => false (* more than eight groups: trailing bytes *)
  | S fuel' =>
      let n := hex_prefix s in
      if (n =? 0)%nat || (4 <? n)%nat then false
      else match drop_bytes n s with
           | "" => if ell then (S i <? 8)%nat else (S i =? 8)%nat
           | String c rest =>
               if Ascii.eqb c "." then
                 valid_ipv4 s && (if ell then (i + 2 <? 8)%nat else (i =? 6)%nat)
               else if Ascii.eqb c ":" then
                 match rest with
                 | "" => false
                 | String c2 rest2 =>
                     if Ascii.eqb c2 ":" then
                       negb ell && match rest2 with
                                   | "" => (S i <? 8)%nat
                                   | _ => ipv6_groups fuel' (S i) true rest2
                                   end
                     else ipv6_groups fuel' (S i) ell rest
                 end
               else false
           end
  end.

Definition valid_ipv6 (s : string) : bool :=
  let '(addr, zone_ok) :=
    match Index s "%" with
    | Some i => (take_bytes i s, (S i <? len s)%nat)
    | None => (s, true)
    end in
  zone_ok && HasByte ":" addr &&
  (if HasPrefix addr "::" then
     match drop_bytes 2 addr with "" => true | r => ipv6_groups 8 0 true r end
   else ipv6_groups 8 0 false addr).

(** ** Host and authority *)
Fixpoint index_sub (s sub : string) : option nat :=
  if HasPrefix s sub then Some 0
  else match s with "" => None | String _ s' => S <$> index_sub s' sub end.

Definition bindR {A B} (x : A + string) (f : A -> B + string) : B + string :=
  match x with inl a => f a | inr e => inr e end.

Definition parse_ip_literal (host : string) : string + string :=
  match LastIndex host "]" with
  | None => inr "missing ']' in host"
  | Some j =>
      let colonPort := drop_bytes (S j) host in
      if negb (validOptionalPort colonPort) then inr ("invalid port " +:+ Quote colonPort +:+ " after host")
      else
        let hostname := drop_bytes 1 (take_bytes j host) in
        bindR (match index_sub hostname "%25" with
               | Some z => bindR (unescape (take_bytes z hostname) encodeHost) (fun h =>
                           bindR (unescape (drop_bytes z hostname) encodeZone) (fun zn => inl (h +:+ zn)))
               | None => unescape hostname encodeHost
               end) (fun h =>
        if valid_ipv6 h then inl ("[" +:+ h +:+ "]" +:+ colonPort) else inr "invalid host")
  end.

Definition parseHost (host : string) : string + string :=
  match LastIndex host "[" with
  | Some 0 => parse_ip_literal host
  | Some _ => inr "invalid IP-literal"
  | None =>
      match Index host ":" with
      | Some i => let colonPort := drop_bytes i host in
                  if validOptionalPort colonPort then unescape host encodeHost
                  else inr ("invalid port " +:+ Quote colonPort +:+ " after host")
      | None => unescape host encodeHost
      end
  end.

Definition validUserinfo (s : string) : bool :=
  forallb (fun c => is_alnum c || HasByte c "-._:~!$&'()*+,;=%@") (chars s).

(** The user information is checked and dropped: the program does not use it. *)
Definition parseAuthority (authority : string) : string + string :=
  match LastIndex authority "@" with
  | None => parseHost authority
  | Some i =>
      bindR (parseHost (drop_bytes (S i) authority)) (fun host =>
      let userinfo := take_bytes i authority in
      if validUserinfo userinfo then
        match Index userinfo ":" with
        | None => bindR (unescape userinfo encodeUserPassword) (fun _ => inl host)
        | Some j => bindR (unescape (take_bytes j userinfo) encodeUserPassword) (fun _ =>
                    bindR (unescape (drop_bytes (S j) userinfo) encodeUserPassword) (fun _ => inl host))
        end
      else inr "net/url: invalid userinfo")
  end.

(** ** Scheme *)
(** [getScheme]: [first] says that no byte was read yet; [acc] is what was
    read.  Without a scheme the whole URL is the rest. *)
Fixpoint getScheme_from (first : bool) (raw s : string) (acc : string) : (string * string) + string :=
  match s with
  | "" => inl ("", raw)
  | String c s' =>
      if is_lower c || is_upper c then getScheme_from false raw s' (acc +:+ String c "")
      else if is_digit c || HasByte c "+-." then
        if first then inl ("", raw) else getScheme_from false raw s' (acc +:+ String c "")
      else if Ascii.eqb c ":" then
        if first then inr "missing protocol scheme" else inl (acc, s')
      else inl ("", raw)
  end.
Definition getScheme (raw : string) : (string * string) + string := getScheme_from true raw raw "".

Definition is_ctl (c : ascii) : bool := (nat_of_ascii c <? 32)%nat || (nat_of_ascii c =? 127)%nat.

(** The query is cut at the first '?'. *)
Definition cut_query (s : string) : string :=
  match Index s "?" with Some i => take_bytes i s | None => s end.

(** [parse(rawURL, viaRequest = true)]. *)
Definition parse (raw : string) : result :=
  if existsb is_ctl (chars raw) then inr "net/url: invalid control character in URL"
  else if String.eqb raw "" then inr "empty url"
  else if String.eqb raw "*" then inl (mkURL "" "" "*")
  else match getScheme raw with
  | inr e => inr e
  | inl (scheme, rest0) =>
      let scheme := ToLowerASCII scheme in
      let rest := cut_query rest0 in
      if negb (HasPrefix rest "/") then
        if negb (String.eqb scheme "") then inl (mkURL scheme "" "") (* opaque *)
        else inr "invalid URI for request"
      else if negb (String.eqb scheme "") && HasPrefix rest "//" then
        let authority := drop_bytes 2 rest in
        let '(authority, rest) := match Index authority "/" with
                                  | Some i => (take_bytes i authority, drop_bytes i authority)
                                  | None => (authority, "")
                                  end in
        bindR (parseAuthority authority) (fun host =>
        bindR (unescape rest encodePath) (fun path => inl (mkURL scheme host path)))
      else bindR (unescape rest encodePath) (fun path => inl (mkURL scheme "" path))
  end.

Definition ParseRequestURI (raw : string) : URL + goerr :=
  match parse raw with
  | inl u => inl u
  | inr reason => inr (errors_New ("parse " +:+ Quote raw +:+ ": " +:+ reason))
  end.

Example parse_sink :
  parse "https://svc.ns.svc.cluster.local:8080/a%20b?x=1"
  = inl (mkURL "https" "svc.ns.svc.cluster.local:8080" "/a b").
Proof. reflexivity. Qed.
Example parse_ipv6 : parse "http://[fe80::1%25en0]:80" = inl (mkURL "http" "[fe80::1%en0]:80" "").
Proof. reflexivity. Qed.
Example parse_bad : parse "http://a b/" = inr (InvalidHostError " ")
  /\ parse "http://h:8x/" = inr ("invalid port " +:+ Quote ":8x" +:+ " after host")
  /\ parse "svc.ns" = inr "invalid URI for request" /\ parse "mailto:x" = inl (mkURL "mailto" "" "").
Proof. split_and!; reflexivity. Qed.
