(* ===== verification/Errors.v ===== *)
(** * Error construction

    [pkg/errors/errors.go] (errors that expose both the actual and the
    underlying error) and [internal/controller/errors/skip.go] (errors the
    EventMesh reconciler skips). *)

From S2P Require Import Prelude GoStrings.
From Stdlib Require Import Ascii.

(** The rendering of a [%w] argument, which may be nil. *)
Definition w_arg (e : option goerr) : string :=
  match e with Some e => Error e | None => "%!w(<nil>)" end.

(** [fmt.Errorf("msg: %w", err)] and [xerrors.Errorf("msg: %v", err)]: only
    the first keeps the error for [errors.Is]. *)
Definition wrapf (m : string) (e : goerr) : goerr := GoErr ENew (m +:+ ": " +:+ Error e) [e].
Definition printf_err (m : string) (e : goerr) : goerr := errors_New (m +:+ ": " +:+ Error e).

Definition MakeError (actualError : goerr) (underlyingError : option goerr) : goerr :=
  GoErr ENew (Error actualError +:+ ": " +:+ w_arg underlyingError)
    (actualError :: option_list underlyingError).

(** The last argument is the value as [%v] prints it. *)
Definition MakeSubscriptionError (actualError underlyingError : goerr) (subscription : string) : goerr :=
  GoErr ENew (Error actualError +:+ ": " +:+ Error underlyingError +:+ ", subscription: " +:+ subscription)
    [actualError; underlyingError].

Definition MakeConsumerError (actualError underlyingError : goerr) (consumer : string) : goerr :=
  GoErr ENew (Error actualError +:+ ": " +:+ Error underlyingError +:+ ", consumer: " +:+ consumer)
    [actualError; underlyingError].

(** [fmt.Errorf("%w: %w", e1, e2)]. *)
Definition wrap2 (e1 e2 : goerr) : goerr := GoErr ENew (Error e1 +:+ ": " +:+ Error e2) [e1; e2].

(** [fmt.Errorf("%w: %s", e, text)]. *)
Definition wrap_arg (e : goerr) (text : string) : goerr := GoErr ENew (Error e +:+ ": " +:+ text) [e].

(** [kerrors.IsNotFound] and [client.IgnoreNotFound]. *)
Definition IsNotFound (e : goerr) : bool := errors_Is e EKubeNotFound.
Definition IgnoreNotFound (e : goerr) : option goerr := if IsNotFound e then None else Some e.

(** ** ArgumentError *)
Record ArgumentError := mkArgumentError { errorFormatType : string; argument : string }.

Definition NewArgumentError (f : string) : ArgumentError := mkArgumentError f "".
Definition WithArg (e : ArgumentError) (a : string) : ArgumentError := mkArgumentError (errorFormatType e) a.

(** [fmt.Sprintf(format, argument)] for a format with at most one verb, [%q]. *)
Fixpoint Sprintf_q (format arg : string) : string :=
  match format with
  | "" => ""
  | String c r =>
      match r with
      | String d r' => if Ascii.eqb c "%" && Ascii.eqb d "q" then Quote arg +:+ r'
                       else String c (Sprintf_q r arg)
      | "" => format
      end
  end.
Definition ArgumentError_Error (e : ArgumentError) : string := Sprintf_q (errorFormatType e) (argument e).

(** An [*ArgumentError] as an [error] value: its [Is] method makes its format
    its identity. *)
Definition argument_error (e : ArgumentError) : goerr :=
  GoErr (EArgument (errorFormatType e)) (ArgumentError_Error e) [].

(** [errors.As(target, &genericError)]: the first [*ArgumentError] of the tree. *)
Fixpoint as_argument (e : goerr) : option string :=
  let 'GoErr k _ ws := e in
  match k with
  | EArgument f => Some f
  | _ => (fix go (ws : list goerr) : option string :=
            match ws with
            | [] => None
            | w :: ws' => match as_argument w with Some f => Some f | None => go ws' end
            end) ws
  end.
Definition ArgumentError_Is (e : ArgumentError) (target : goerr) : bool :=
  match as_argument target with
  | None => false
  | Some f => String.eqb (errorFormatType e) f
  end.

(** ** Skippable errors *)
(** The type assertion looks at the error itself, not at what it wraps. *)
Definition IsSkippable (err : option goerr) : bool :=
  match err with
  | None => true
  | Some e => bool_decide (kind_of e = ESkippable)
  end.

Definition NewSkippable (err : option goerr) : goerr :=
  GoErr ESkippable (match err with None => "" | Some e => Error e end) (option_list err).

(** ** Facts *)
Lemma errors_Is_self e : kind_of e <> ENew -> errors_Is e (kind_of e) = true.
Proof. destruct e as [k m ws]. intros _. cbn. by rewrite bool_decide_eq_true_2. Qed.

Lemma errors_Is_wraps k k' m ws w : w ∈ ws -> errors_Is w k = true -> errors_Is (GoErr k' m ws) k = true.
Proof. intros Hin Hw. cbn. apply orb_true_iff. right. apply existsb_app_iff. eauto. Qed.

Lemma errors_Is_MakeError a u k :
  k <> ENew -> errors_Is (MakeError a u) k = errors_Is a k || default false (flip errors_Is k <$> u).
Proof.
  intros Hk. unfold MakeError. cbn [errors_Is]. rewrite bool_decide_eq_false_2 by congruence.
  destruct u; cbn; by rewrite ?orb_false_r.
Qed.

Lemma MakeError_Is a u : kind_of a <> ENew -> errors_Is (MakeError a u) (kind_of a) = true.
Proof. intros H. rewrite errors_Is_MakeError, errors_Is_self by done. done. Qed.

Lemma MakeError_Is_under a e k : errors_Is e k = true -> errors_Is (MakeError a (Some e)) k = true.
Proof. intros H. apply (errors_Is_wraps _ _ _ _ e); [|done]. cbn. by right; left. Qed.

Lemma MakeError_Is_sentinel n m u : errors_Is (MakeError (sentinel n m) u) (ESentinel n) = true.
Proof. by apply (MakeError_Is (sentinel n m)). Qed.

#[export] Hint Resolve errors_Is_self errors_Is_wraps MakeError_Is MakeError_Is_under : go.

Example argument_is :
  let invalid := NewArgumentError "invalid stream storage type: %q" in
  ArgumentError_Is (WithArg invalid "x") (argument_error (WithArg invalid "y")) = true
  /\ Error (argument_error (WithArg invalid "x")) = "invalid stream storage type: " +:+ Quote "x".
Proof. vm_compute. done. Qed.
