(* ===== verification/Utils.v ===== *)
(** * [pkg/utils/utils.go]

    List helpers, sink URLs and ports shared by the validator, the backends
    and the reconcilers. *)

From S2P Require Import Prelude GoStrings Url Errors.
From Stdlib Require Import Ascii.

Definition ErrParseSink : goerr := sentinel "utils.ErrParseSink" "failed to parse subscription sink URL".

(** The port is an unsigned 32-bit integer; 0 and no port both mean the
    default of the scheme. *)
Definition GetPortNumberFromURL (urlWithPort : URL) : Z + goerr :=
  let sinkPort := Port urlWithPort in
  let default_port (port : Z) : Z :=
    if (port =? 0)%Z
    then if String.eqb (ToLowerASCII (Scheme urlWithPort)) "https" then 443%Z else 80%Z
    else port in
  if String.eqb sinkPort "" then inl (default_port 0%Z)
  else match ParseUint32 sinkPort with
       | Some u => inl (default_port u)
       | None => inr (errors_New ("convert port failed " +:+ sinkPort))
       end.

Fixpoint ContainsString (l : list string) (s : string) : bool :=
  match l with
  | [] => false
  | item :: l' => if String.eqb item s then true else ContainsString l' s
  end.

(** The result starts as a nil slice. *)
Fixpoint RemoveString_elems (l : list string) (s : string) : list string :=
  match l with
  | [] => []
  | item :: l' => if String.eqb item s then RemoveString_elems l' s else item :: RemoveString_elems l' s
  end.
Definition nil_if_empty {A} (l : list A) : slice A := match l with [] => None | _ => Some l end.
Definition RemoveString (l : list string) (s : string) : slice string := nil_if_empty (RemoveString_elems l s).

Definition IsValidScheme (sink : string) : bool := HasPrefix sink "http://" || HasPrefix sink "https://".

(** The host without its port, and the labels of the host. *)
Definition GetSinkData (sink : string) : (string * list string) + goerr :=
  match ParseRequestURI sink with
  | inr err => inr (MakeError ErrParseSink (Some err))
  | inl sURL => let trimmedHost := default "" (head (Split ":" (Host sURL))) in
                inl (trimmedHost, Split "." trimmedHost)
  end.

Definition IsEmpty (s : string) : bool := is_blank s.

(** ** Facts *)
Lemma ContainsString_elem l s : ContainsString l s = true <-> s ∈ l.
Proof.
  induction l as [|x l IH]; cbn; [split; [done|by intros ?%not_elem_of_nil]|].
  rewrite elem_of_cons, <- IH. destruct (String.eqb_spec x s) as [->|]; naive_solver.
Qed.

Lemma ContainsString_false l s : ContainsString l s = false <-> s ∉ l.
Proof. rewrite <- ContainsString_elem. by destruct (ContainsString l s). Qed.

Lemma RemoveString_elems_spec l s x : x ∈ RemoveString_elems l s <-> x ∈ l /\ x <> s.
Proof.
  induction l as [|y l IH]; cbn; [split; [by intros ?%not_elem_of_nil|by intros [?%not_elem_of_nil _]]|].
  destruct (String.eqb_spec y s) as [->|]; rewrite ?elem_of_cons, IH; naive_solver.
Qed.

Lemma elems_nil_if_empty {A} (l : list A) : elems (nil_if_empty l) = l.
Proof. by destruct l. Qed.

Lemma parse_digits_pos acc s n : (0 <= acc)%Z -> parse_digits acc s = Some n -> (0 <= n)%Z.
Proof.
  revert acc. induction s as [|c s IH]; cbn; intros acc Ha H; [by simplify_eq|].
  destruct (is_digit c) eqn:E; [|done]. apply IH in H; [done|].
  unfold is_digit, in_range, digit_val in *. apply andb_true_iff in E as [E%Nat.leb_le _].
  change (Ascii.nat_of_ascii "0") with 48 in E. lia.
Qed.

Lemma ParseUint32_bounds s n : ParseUint32 s = Some n -> (0 <= n <= 4294967295)%Z.
Proof.
  unfold ParseUint32. destruct s as [|c d]; [done|].
  destruct (parse_digits 0 (String c d)) as [m|] eqn:E; [|done].
  apply parse_digits_pos in E; [|done]. cbn.
  destruct (Z.leb_spec m 4294967295); [|done]. intros [= <-]. lia.
Qed.

Lemma GetPortNumberFromURL_bounds u p : GetPortNumberFromURL u = inl p -> (0 < p <= 4294967295)%Z.
Proof.
  unfold GetPortNumberFromURL.
  destruct (String.eqb (Port u) ""); [|destruct (ParseUint32 (Port u)) as [n|] eqn:E; [|done];
    apply ParseUint32_bounds in E].
  all: intros [= <-]; repeat (case_match; try lia).
Qed.

#[export] Hint Rewrite @elems_nil_if_empty : gostr.
