(* ===== verification/Subscription.v ===== *)
(** * The Subscription API: [api/eventing/v1alpha2]

    The Subscription resource, its status and the operations on its
    conditions ([condition.go], [status_types.go], [subscription_types.go]).

    A condition list is a Rocq list: no operation of the program tells a nil
    list of conditions from an empty one.  [Types], [Backend.Types],
    [Backend.EmsTypes] and [Finalizers] are slices that can be nil, since
    [reflect.DeepEqual] and [== nil] look at that.  [kmetav1.Now()] is the
    argument [now] of the operations that read the clock. *)

From S2P Require Import Prelude GoStrings Errors Utils.

(** ** Conditions *)
Definition ConditionSubscribed := "Subscribed".
Definition ConditionSubscriptionActive := "Subscription active".
Definition ConditionSubscriptionSpecValid := "Subscription spec valid".
Definition ConditionAPIRuleStatus := "APIRule status".
Definition ConditionWebhookCallStatus := "Webhook call status".

Definition ConditionTrue := "True".
Definition ConditionFalse := "False".
Definition ConditionUnknown := "Unknown".

Definition ConditionReasonSubscriptionSpecHasValidationErrors := "Subscription spec has validation errors".
Definition ConditionReasonSubscriptionSpecHasNoValidationErrors := "Subscription spec has no validation errors".
Definition ConditionReasonNATSSubscriptionActive := "NATS Subscription active".
Definition ConditionReasonNATSSubscriptionNotActive := "NATS Subscription not active".
Definition ConditionReasonSubscriptionCreated := "EventMesh Subscription created".
Definition ConditionReasonSubscriptionCreationFailed := "EventMesh Subscription creation failed".
Definition ConditionReasonSubscriptionActive := "EventMesh Subscription active".
Definition ConditionReasonSubscriptionNotActive := "EventMesh Subscription not active".
Definition ConditionReasonSubscriptionDeleted := "EventMesh Subscription deleted".
Definition ConditionReasonAPIRuleStatusReady := "APIRule status ready".
Definition ConditionReasonAPIRuleStatusNotReady := "APIRule status not ready".
Definition ConditionReasonWebhookCallStatus := "EventMesh Subscription webhook call no errors status".

Record Condition := mkCondition {
  ctype : string;
  cstatus : string;
  ctime : Z; (* LastTransitionTime *)
  creason : string;
  cmessage : string
}.
#[global] Instance Condition_eq_dec : EqDecision Condition.
Proof. solve_decision. Defined.

(** The zero value of the struct. *)
Definition zeroCondition : Condition := mkCondition "" "" 0 "" "".

(** ** Status *)
Record EventType := mkEventType { OriginalType : string; CleanType : string }.
#[global] Instance EventType_eq_dec : EqDecision EventType.
Proof. solve_decision. Defined.

Record EventMeshSubscriptionStatus := mkEMStatus {
  emStatus : string;
  emStatusReason : string;
  emLastSuccessfulDelivery : string;
  emLastFailedDelivery : string;
  emLastFailedDeliveryReason : string
}.
#[global] Instance EventMeshSubscriptionStatus_eq_dec : EqDecision EventMeshSubscriptionStatus.
Proof. solve_decision. Defined.

Record JetStreamTypes := mkJetStreamTypes { jsOriginalType : string; jsConsumerName : string }.
#[global] Instance JetStreamTypes_eq_dec : EqDecision JetStreamTypes.
Proof. solve_decision. Defined.

Record EventMeshTypes := mkEventMeshTypes { emOriginalType : string; emEventMeshType : string }.
#[global] Instance EventMeshTypes_eq_dec : EqDecision EventMeshTypes.
Proof. solve_decision. Defined.

(** The four hashes are [int64]. *)
Record Backend := mkBackend {
  Ev2hash : Z;
  EventMeshHash : Z;
  EventMeshLocalHash : Z;
  WebhookAuthHash : Z;
  ExternalSink : string;
  FailedActivation : string;
  APIRuleName : string;
  emSubscriptionStatus : option EventMeshSubscriptionStatus;
  bTypes : slice JetStreamTypes;
  EmsTypes : slice EventMeshTypes
}.
#[global] Instance Backend_eq_dec : EqDecision Backend.
Proof. solve_decision. Defined.
Definition zeroBackend : Backend := mkBackend 0 0 0 0 "" "" "" None None None.

Record SubscriptionStatus := mkStatus {
  Conditions : list Condition;
  Ready : bool;
  Types : slice EventType;
  sBackend : Backend
}.
Definition zeroStatus : SubscriptionStatus := mkStatus [] false None zeroBackend.

Definition set_Conditions (s : SubscriptionStatus) (c : list Condition) := mkStatus c (Ready s) (Types s) (sBackend s).
Definition set_Ready (s : SubscriptionStatus) (r : bool) := mkStatus (Conditions s) r (Types s) (sBackend s).
Definition set_Types (s : SubscriptionStatus) (t : slice EventType) := mkStatus (Conditions s) (Ready s) t (sBackend s).
Definition set_Backend (s : SubscriptionStatus) (b : Backend) := mkStatus (Conditions s) (Ready s) (Types s) b.

(** [Backend.CopyHashes]. *)
Definition CopyHashes (b src : Backend) : Backend :=
  mkBackend (Ev2hash src) (EventMeshHash src) (EventMeshLocalHash src) (WebhookAuthHash src)
    (ExternalSink b) (FailedActivation b) (APIRuleName b) (emSubscriptionStatus b) (bTypes b) (EmsTypes b).

(** ** Subscription *)
Definition TypeMatchingStandard := "standard".
Definition TypeMatchingExact := "exact".
Definition MaxInFlightMessages := "maxInFlightMessages".
Definition ProtocolSettingsContentMode := "contentMode".
Definition ProtocolSettingsExemptHandshake := "exemptHandshake".
Definition ProtocolSettingsQos := "qos".
Definition WebhookAuthType := "type".
Definition WebhookAuthGrantType := "grantType".
Definition WebhookAuthClientID := "clientId".
Definition WebhookAuthClientSecret := "clientSecret".
Definition WebhookAuthTokenURL := "tokenUrl".

(** [GroupVersion.Group]. *)
Definition Finalizer := "eventing.kyma-project.io".

Record SubscriptionSpec := mkSpec {
  Sink : string;
  TypeMatching : string;
  Source : string;
  specTypes : list string;
  Config : gmap string string
}.

(** [metadata], as far as the program reads it. *)
Record ObjectMeta := mkMeta {
  Name : string;
  Namespace : string;
  UID : string;
  DeletionTimestamp : option Z;
  Finalizers : slice string
}.

Record Subscription := mkSubscription {
  meta : ObjectMeta;
  Spec : SubscriptionSpec;
  Status : SubscriptionStatus
}.
Definition set_Status (s : Subscription) (st : SubscriptionStatus) : Subscription :=
  mkSubscription (meta s) (Spec s) st.
Definition set_Finalizers (s : Subscription) (f : slice string) : Subscription :=
  mkSubscription (mkMeta (Name (meta s)) (Namespace (meta s)) (UID (meta s)) (DeletionTimestamp (meta s)) f)
    (Spec s) (Status s).

(** [env.DefaultSubscriptionConfig]. *)
Record DefaultSubscriptionConfig := mkDefaults {
  dMaxInFlightMessages : Z;
  dDispatcherRetryPeriod : Z; (* nanoseconds *)
  dDispatcherMaxRetries : Z
}.

Definition GetMaxInFlightMessages (s : Subscription) (defaults : DefaultSubscriptionConfig) : Z :=
  match Atoi (default "" (Config (Spec s) !! MaxInFlightMessages)) with
  | None => dMaxInFlightMessages defaults
  | Some val => val
  end.

Definition InitializeEventTypes (s : SubscriptionStatus) : SubscriptionStatus := set_Types s (Some []).

Definition GetUniqueTypes (s : Subscription) : list string :=
  foldl (fun result t => if negb (ContainsString result t) then (result ++ [t])%list else result)
    [] (specTypes (Spec s)).

Definition DuplicateWithStatusDefaults (s : Subscription) : Subscription := set_Status s zeroStatus.

(** The status a Subscription is serialised with: [types] is never null. *)
Definition MarshalStatus (s : Subscription) : SubscriptionStatus :=
  match Types (Status s) with None => InitializeEventTypes (Status s) | Some _ => Status s end.

(** ** Operations on conditions *)

(** [map[ConditionType]Condition] of a list: the last one of a type wins. *)
Definition conditionMap (l : list Condition) : gmap string Condition :=
  foldl (fun m c => <[ctype c := c]> m) ∅ l.

Definition initializeConditions (initialConditions currentConditions : list Condition) : list Condition :=
  let givenConditions := conditionMap currentConditions in
  foldl (fun finalConditions expectedCondition =>
           match givenConditions !! ctype expectedCondition with
           | Some _ => finalConditions
           | None => (finalConditions ++ [expectedCondition])%list
           end) currentConditions initialConditions.

Definition MakeSubscriptionConditions (now : Z) : list Condition :=
  [ mkCondition ConditionAPIRuleStatus ConditionUnknown now "" "";
    mkCondition ConditionSubscribed ConditionUnknown now "" "";
    mkCondition ConditionSubscriptionActive ConditionUnknown now "" "";
    mkCondition ConditionWebhookCallStatus ConditionUnknown now "" "";
    mkCondition ConditionSubscriptionSpecValid ConditionUnknown now "" "" ].

Definition InitializeConditions (now : Z) (s : SubscriptionStatus) : SubscriptionStatus :=
  set_Conditions s (initializeConditions (MakeSubscriptionConditions now) (Conditions s)).

Fixpoint containConditionType (conditions : list Condition) (conditionType : string) : bool :=
  match conditions with
  | [] => false
  | c :: cs => if String.eqb (ctype c) conditionType then true else containConditionType cs conditionType
  end.

Definition ContainSameConditionTypes (conditions1 conditions2 : list Condition) : bool :=
  (length conditions1 =? length conditions2)%nat &&
  forallb (fun c => containConditionType conditions2 (ctype c)) conditions1.

Definition IsReady (now : Z) (s : SubscriptionStatus) : bool :=
  if negb (ContainSameConditionTypes (MakeSubscriptionConditions now) (Conditions s)) then false
  else forallb (fun c => String.eqb (cstatus c) ConditionTrue) (Conditions s).

Fixpoint FindCondition (conditions : list Condition) (conditionType : string) : option Condition :=
  match conditions with
  | [] => None
  | c :: cs => if String.eqb conditionType (ctype c) then Some c else FindCondition cs conditionType
  end.

Definition IsConditionSubscribed (s : SubscriptionStatus) : bool :=
  existsb (fun c => String.eqb (ctype c) ConditionSubscribed && String.eqb (cstatus c) ConditionTrue) (Conditions s).

Definition IsConditionWebhookCall (s : SubscriptionStatus) : bool :=
  existsb (fun c => String.eqb (ctype c) ConditionWebhookCallStatus &&
    (String.eqb (cstatus c) ConditionTrue || String.eqb (cstatus c) ConditionUnknown)) (Conditions s).

Definition GetConditionAPIRuleStatus (s : SubscriptionStatus) : string :=
  match FindCondition (Conditions s) ConditionAPIRuleStatus with Some c => cstatus c | None => ConditionUnknown end.

Definition ShouldUpdateReadyStatus (now : Z) (s : SubscriptionStatus) : bool :=
  negb (Ready s) && IsReady now s || Ready s && negb (IsReady now s).

Definition MakeCondition (now : Z) (conditionType reason status message : string) : Condition :=
  mkCondition conditionType status now reason message.

Definition SetConditionAPIRuleStatus (now : Z) (s : SubscriptionStatus) (err : option goerr) : SubscriptionStatus :=
  let c := match err with
           | None => MakeCondition now ConditionAPIRuleStatus ConditionReasonAPIRuleStatusReady ConditionTrue ""
           | Some e => MakeCondition now ConditionAPIRuleStatus ConditionReasonAPIRuleStatusNotReady ConditionFalse (Error e)
           end in
  set_Conditions s (c :: filter (fun c => ctype c <> ConditionAPIRuleStatus) (Conditions s)).

Definition ConditionEquals (existing expected : Condition) : bool :=
  String.eqb (cstatus existing) (cstatus expected) && String.eqb (creason existing) (creason expected) &&
  String.eqb (cmessage existing) (cmessage expected) && String.eqb (ctype existing) (ctype expected).

Definition ConditionsEquals (existing expected : list Condition) : bool :=
  if negb (length existing =? length expected)%nat then false
  else let existingMap := conditionMap existing in
       forallb (fun value => ConditionEquals (default zeroCondition (existingMap !! ctype value)) value) expected.

Definition CreateMessageForConditionReasonSubscriptionCreated (eventMeshName : string) : string :=
  "EventMesh subscription name is: " +:+ eventMeshName.

Definition makeSubscriptionActiveCondition (now : Z) (err : option goerr) : Condition :=
  match err with
  | Some e => mkCondition ConditionSubscriptionActive ConditionFalse now ConditionReasonNATSSubscriptionNotActive (Error e)
  | None => mkCondition ConditionSubscriptionActive ConditionTrue now ConditionReasonNATSSubscriptionActive ""
  end.

Definition makeSubscriptionSpecValidCondition (now : Z) (err : option goerr) : Condition :=
  match err with
  | Some e => mkCondition ConditionSubscriptionSpecValid ConditionFalse now
                ConditionReasonSubscriptionSpecHasValidationErrors (Error e)
  | None => mkCondition ConditionSubscriptionSpecValid ConditionTrue now
              ConditionReasonSubscriptionSpecHasNoValidationErrors ""
  end.

(** The loop of [setCondition]: [isFound], [isSet] and the list built so far. *)
Definition setCondition_step (condition : Condition) (st : bool * bool * list Condition) (cond : Condition)
    : bool * bool * list Condition :=
  let '(isFound, isSet, conditions) := st in
  if negb (String.eqb (ctype cond) (ctype condition)) then (isFound, isSet, conditions ++ [cond])%list
  else if negb (ConditionEquals cond condition) then (true, true, conditions ++ [condition])%list
  else (true, isSet, conditions).

Definition setCondition (s : SubscriptionStatus) (condition : Condition) : SubscriptionStatus :=
  let '(isFound, isSet, conditions) := foldl (setCondition_step condition) (false, false, []) (Conditions s) in
  let '(isSet, conditions) := if negb isFound then (true, conditions ++ [condition])%list else (isSet, conditions) in
  if (isSet : bool) then set_Conditions s conditions else s.

Definition SetSubscriptionActiveCondition (now : Z) (s : SubscriptionStatus) (err : option goerr) : SubscriptionStatus :=
  setCondition s (makeSubscriptionActiveCondition now err).

Definition SetSubscriptionSpecValidCondition (now : Z) (s : SubscriptionStatus) (err : option goerr) : SubscriptionStatus :=
  setCondition s (makeSubscriptionSpecValidCondition now err).

Definition SetNotReady (s : SubscriptionStatus) : SubscriptionStatus := set_Ready s false.
Definition ClearConditions (s : SubscriptionStatus) : SubscriptionStatus := set_Conditions s [].
Definition ClearBackend (s : SubscriptionStatus) : SubscriptionStatus := set_Backend s zeroBackend.
Definition ClearTypes (s : SubscriptionStatus) : SubscriptionStatus := set_Types s (Some []).

(** ** [pkg/object/equality.go]: [IsSubscriptionStatusEqual] *)
Definition IsSubscriptionStatusEqual (oldStatus newStatus : SubscriptionStatus) : bool :=
  bool_decide (Ready oldStatus = Ready newStatus) && bool_decide (Types oldStatus = Types newStatus) &&
  bool_decide (sBackend oldStatus = sBackend newStatus) &&
  ConditionsEquals (Conditions oldStatus) (Conditions newStatus).

(** * Theorems *)

(** ** Abstract view of a condition list

    A well-formed list has one condition per type; a comparison of the
    program ignores the transition times and the order. *)
Abbreviation ctypes l := (@fmap list list_fmap Condition string ctype l).
Definition wf_conditions (l : list Condition) : Prop := NoDup (ctypes l).

Definition strip (c : Condition) : Condition := mkCondition (ctype c) (cstatus c) 0 (creason c) (cmessage c).

Lemma ConditionEquals_strip a b : ConditionEquals a b = true <-> strip a = strip b.
Proof.
  unfold ConditionEquals, strip. rewrite !andb_true_iff, !String.eqb_eq.
  destruct a, b; cbn. split; [by intros [[[-> ->] ->] ->]|by intros [= -> -> -> ->]].
Qed.

Lemma ConditionEquals_refl c : ConditionEquals c c = true.
Proof. by apply ConditionEquals_strip. Qed.

Lemma conditionMap_foldl (m : gmap string Condition) l t : NoDup (ctypes l) ->
  forall c, foldl (fun m c => <[ctype c := c]> m) m l !! t = Some c <->
    (c ∈ l /\ ctype c = t) \/ (t ∉ ctypes l /\ m !! t = Some c).
Proof.
  revert m. induction l as [|x l IH]; intros m Hnd c; cbn.
  - split; [intros Hm; right; by split; [apply not_elem_of_nil|]|]. by intros [[?%not_elem_of_nil _]|[_ ?]].
  - apply NoDup_cons in Hnd as [Hx Hnd]. rewrite (IH _ Hnd), elem_of_cons, not_elem_of_cons, lookup_insert.
    case_decide as Ht.
    + subst t. split.
      * intros [[Hc He]|[_ [= ->]]]; left; auto.
      * intros [[[->|Hc] He]|[[? _] _]]; [by right|by left|done].
    + split.
      * intros [[Hc He]|[Hn Hm]]; [left; auto|right; auto].
      * intros [[[->|Hc] He]|[[_ ?] ?]]; [by destruct Ht|by left|by right].
Qed.

Lemma conditionMap_Some l t c : wf_conditions l -> (conditionMap l !! t = Some c <-> c ∈ l /\ ctype c = t).
Proof.
  intros Hl. unfold conditionMap. rewrite conditionMap_foldl by done. rewrite lookup_empty.
  split; [by intros [?|[_ ?]]|by left].
Qed.

Lemma conditionMap_is_Some l t : is_Some (conditionMap l !! t) <-> t ∈ ctypes l.
Proof.
  unfold conditionMap. assert (forall m : gmap string Condition,
    is_Some (foldl (fun m c => <[ctype c := c]> m) m l !! t) <-> t ∈ ctypes l \/ is_Some (m !! t)) as H.
  { induction l as [|x l IH]; intros m; cbn; [split; [by right|by intros [?%not_elem_of_nil|?]]|].
    rewrite IH, elem_of_cons, lookup_insert. case_decide as Ht; [subst t|]; split; intros H.
    - left; auto.
    - right. by eexists.
    - destruct H; auto.
    - destruct H as [[->|?]|?]; [by destruct Ht|auto..]. }
  rewrite H, lookup_empty. split; [by intros [?|[? [=]]]|by left].
Qed.

Lemma conditionMap_None l t : conditionMap l !! t = None <-> t ∉ ctypes l.
Proof. rewrite <- conditionMap_is_Some, eq_None_not_Some. done. Qed.

Lemma wf_strip l : wf_conditions l -> NoDup (strip <$> l).
Proof.
  intros H. apply (NoDup_fmap_1 ctype). rewrite <- list_fmap_compose. exact H.
Qed.

(** Comparing two condition lists as the program does is comparing them
    up to order and transition time, when each has one condition per type. *)
Theorem ConditionsEquals_spec existing expected :
  wf_conditions existing -> wf_conditions expected -> "" ∉ ctypes expected ->
  (ConditionsEquals existing expected = true <-> strip <$> existing ≡ₚ strip <$> expected).
Proof.
  intros H1 H2 Hz. unfold ConditionsEquals. split.
  - destruct (length existing =? length expected)%nat eqn:Hl; [|done]. apply Nat.eqb_eq in Hl. cbn [negb].
    rewrite forallb_elem. intros Hall. symmetry. apply submseteq_length_Permutation.
    + apply NoDup_submseteq; [by apply wf_strip|]. intros y (v & -> & Hv)%list_elem_of_fmap.
      specialize (Hall v Hv). apply ConditionEquals_strip in Hall.
      destruct (conditionMap existing !! ctype v) as [c|] eqn:E; cbn in Hall.
      * apply conditionMap_Some in E as [Hc _]; [|done]. rewrite <- Hall. by apply list_elem_of_fmap_2.
      * destruct Hz. apply list_elem_of_fmap. exists v. split; [|done]. injection Hall. auto.
    + by rewrite !length_fmap, Hl.
  - intros Hp. pose proof (Permutation_length Hp) as Hl. rewrite !length_fmap in Hl.
    rewrite (proj2 (Nat.eqb_eq _ _) Hl). cbn [negb]. apply forallb_elem. intros v Hv.
    assert (strip v ∈ strip <$> existing) as Hin by (rewrite Hp; by apply list_elem_of_fmap_2).
    apply list_elem_of_fmap in Hin as (c & Hc & Hin). apply ConditionEquals_strip.
    rewrite (proj2 (conditionMap_Some existing (ctype v) c H1)); [by cbn|]. split; [done|].
    injection Hc. auto.
Qed.

Lemma ConditionsEquals_spec_witness :
  let a := mkCondition "A" "True" 1 "r" "m" in let b := mkCondition "B" "False" 2 "" "" in
  ConditionsEquals [a; b] [b; mkCondition "A" "True" 7 "r" "m"] = true <->
  strip <$> [a; b] ≡ₚ strip <$> [b; mkCondition "A" "True" 7 "r" "m"].
Proof.
  apply (ConditionsEquals_spec [_; _] [_; _]); unfold wf_conditions; cbn.
  - apply (bool_decide_unpack _). vm_compute. exact I.
  - apply (bool_decide_unpack _). vm_compute. exact I.
  - apply (bool_decide_unpack _). vm_compute. exact I.
Defined.

(** ** [setCondition] *)

(** The reference: replace the condition of that type in place when it
    differs, add it at the end when there is none. *)
Definition upsertCondition (c : Condition) (l : list Condition) : list Condition :=
  if bool_decide (ctype c ∈ ctypes l)
  then (fun x => if String.eqb (ctype x) (ctype c) && negb (ConditionEquals x c) then c else x) <$> l
  else (l ++ [c])%list.

Lemma setCondition_foldl_other c l f st acc : ctype c ∉ ctypes l ->
  foldl (setCondition_step c) (f, st, acc) l = (f, st, acc ++ l)%list.
Proof.
  revert acc. induction l as [|x l IH]; intros acc; cbn; [by rewrite app_nil_r|].
  intros [Hne Hl]%not_elem_of_cons. rewrite (proj2 (String.eqb_neq _ _)) by congruence. cbn.
  rewrite IH by done. by rewrite <- app_assoc.
Qed.

Lemma upsertCondition_other c l : ctype c ∉ ctypes l ->
  ((fun x => if String.eqb (ctype x) (ctype c) && negb (ConditionEquals x c) then c else x) <$> l) = l.
Proof.
  induction l as [|x l IH]; cbn; [done|]. intros [Hne Hl]%not_elem_of_cons.
  rewrite (proj2 (String.eqb_neq _ _)) by congruence. cbn. f_equal. by apply IH.
Qed.

Lemma setCondition_ref s c : wf_conditions (Conditions s) ->
  setCondition s c = set_Conditions s (upsertCondition c (Conditions s)).
Proof.
  intros Hwf. unfold setCondition, upsertCondition. case_bool_decide as Hin.
  - apply list_elem_of_fmap in Hin as (x & Hx & Hin). apply list_elem_of_split in Hin as (l1 & l2 & Hl).
    unfold wf_conditions in Hwf. rewrite Hl, fmap_app, fmap_cons in Hwf.
    apply NoDup_app in Hwf as (_ & Hd1 & [Hd2 _]%NoDup_cons).
    assert (ctype c ∉ ctypes l1) as H1 by (intros H; rewrite Hx in H; apply (Hd1 _ H); by constructor).
    rewrite <- Hx in Hd2. rewrite Hl, foldl_app, setCondition_foldl_other by done.
    rewrite fmap_app, fmap_cons, !upsertCondition_other by done.
    cbn [foldl app]. rewrite Hx, String.eqb_refl.
    assert (setCondition_step c (false, false, l1) x =
      (true, negb (ConditionEquals x c), l1 ++ (if ConditionEquals x c then [] else [c]))%list) as ->.
    { unfold setCondition_step. rewrite Hx, String.eqb_refl. cbn. by destruct (ConditionEquals x c); rewrite ?app_nil_r. }
    rewrite setCondition_foldl_other by done. cbn.
    destruct (ConditionEquals x c); cbn; [|by rewrite <- app_assoc]. destruct s; cbn in *. by rewrite <- Hl.
  - rewrite setCondition_foldl_other by done. done.
Qed.

(** C36: [setCondition] is the in-place update or insertion: the conditions of
    the other types keep their value and place, and an equal condition keeps
    its transition time. *)
Theorem setCondition_upsert s c : wf_conditions (Conditions s) ->
  setCondition s c = set_Conditions s (upsertCondition c (Conditions s)).
Proof. apply setCondition_ref. Qed.

Lemma setCondition_upsert_witness :
  let s := set_Conditions zeroStatus [mkCondition "A" "True" 1 "r" ""; mkCondition "B" "True" 2 "" ""] in
  setCondition s (mkCondition "A" "False" 9 "r" "") =
    set_Conditions s (upsertCondition (mkCondition "A" "False" 9 "r" "") (Conditions s)).
Proof. apply setCondition_upsert. apply (bool_decide_unpack _). vm_compute. exact I. Defined.

Lemma upsertCondition_types c l :
  ctypes (upsertCondition c l) = (ctypes l ++ if bool_decide (ctype c ∈ ctypes l) then [] else [ctype c])%list.
Proof.
  unfold upsertCondition. case_bool_decide as H; [|by rewrite fmap_app].
  rewrite app_nil_r, <- list_fmap_compose. apply list_fmap_ext. intros i x Hx. cbn.
  destruct (String.eqb_spec (ctype x) (ctype c)); cbn; [|done]. by destruct (ConditionEquals x c).
Qed.

Lemma upsertCondition_wf c l : wf_conditions l -> wf_conditions (upsertCondition c l).
Proof.
  unfold wf_conditions. intros H. rewrite upsertCondition_types. case_bool_decide as Hin; [by rewrite app_nil_r|].
  apply NoDup_app. split_and!; [done| |apply NoDup_singleton].
  intros x Hx Hc%list_elem_of_singleton. congruence.
Qed.

Lemma setCondition_wf s c : wf_conditions (Conditions s) -> wf_conditions (Conditions (setCondition s c)).
Proof. intros H. rewrite setCondition_ref by done. by apply upsertCondition_wf. Qed.

Lemma setCondition_frame s c : Ready (setCondition s c) = Ready s /\ Types (setCondition s c) = Types s
  /\ sBackend (setCondition s c) = sBackend s.
Proof.
  unfold setCondition. destruct (foldl _ _ _) as [[f st] l].
  destruct (negb f); destruct st; done.
Qed.

(** What a reader finds after [setCondition]. *)
Lemma upsertCondition_elem c l x : wf_conditions l ->
  x ∈ upsertCondition c l -> (ctype x = ctype c /\ strip x = strip c) \/ (ctype x <> ctype c /\ x ∈ l).
Proof.
  intros Hwf. unfold upsertCondition. case_bool_decide as Hin.
  - intros (y & -> & Hy)%list_elem_of_fmap.
    destruct (String.eqb_spec (ctype y) (ctype c)) as [He|Hne]; cbn; [|by right].
    left. destruct (ConditionEquals y c) eqn:E; cbn; [|done]. split; [done|]. by apply ConditionEquals_strip.
  - intros [Hx| ->%list_elem_of_singleton]%elem_of_app; [|by left].
    right. split; [|done]. intros He. apply Hin. rewrite <- He. by apply list_elem_of_fmap_2.
Qed.

(** ** Initial conditions and readiness *)
Definition requiredTypes : list string :=
  [ConditionAPIRuleStatus; ConditionSubscribed; ConditionSubscriptionActive; ConditionWebhookCallStatus;
   ConditionSubscriptionSpecValid].

Lemma requiredTypes_NoDup : NoDup requiredTypes.
Proof. apply (bool_decide_unpack _). vm_compute. exact I. Qed.

Lemma MakeSubscriptionConditions_types now : ctypes (MakeSubscriptionConditions now) = requiredTypes.
Proof. done. Qed.

Lemma containConditionType_elem l t : containConditionType l t = true <-> t ∈ ctypes l.
Proof.
  induction l as [|c l IH]; cbn; [split; [done|by intros ?%not_elem_of_nil]|].
  rewrite elem_of_cons, <- IH. destruct (String.eqb_spec (ctype c) t) as [->|Hne]; split; auto.
  intros [->|?]; done.
Qed.

Lemma ContainSameConditionTypes_spec a b : wf_conditions a ->
  (ContainSameConditionTypes a b = true <-> ctypes a ≡ₚ ctypes b).
Proof.
  intros Ha. unfold ContainSameConditionTypes. rewrite andb_true_iff, Nat.eqb_eq, forallb_elem.
  setoid_rewrite containConditionType_elem. split.
  - intros [Hl Hall]. apply submseteq_length_Permutation; [|by rewrite !length_fmap, Hl].
    apply NoDup_submseteq; [done|]. intros t (c & -> & Hc)%list_elem_of_fmap. by apply Hall.
  - intros Hp. split.
    + apply Permutation_length in Hp. by rewrite !length_fmap in Hp.
    + intros c Hc. rewrite <- Hp. by apply list_elem_of_fmap_2.
Qed.

(** A Subscription status is ready exactly when its conditions are the
    five required ones, each once and in any order, and all are true. *)
Theorem IsReady_spec now s :
  IsReady now s = true <->
  ctypes (Conditions s) ≡ₚ requiredTypes /\ Forall (fun c => cstatus c = ConditionTrue) (Conditions s).
Proof.
  unfold IsReady. pose proof (ContainSameConditionTypes_spec (MakeSubscriptionConditions now) (Conditions s)
    requiredTypes_NoDup) as Hs. rewrite MakeSubscriptionConditions_types in Hs.
  destruct (ContainSameConditionTypes _ _); cbn.
  - rewrite forallb_elem, Forall_forall. setoid_rewrite String.eqb_eq.
    split; [intros H; split; [by symmetry; apply Hs|done]|by intros [_ ?]].
  - split; [done|]. intros [Hp _]. symmetry in Hp. apply Hs in Hp. done.
Qed.

(** What the single conditions of a ready status are. *)
Lemma FindCondition_elem l t : t ∈ ctypes l -> exists c, FindCondition l t = Some c /\ c ∈ l /\ ctype c = t.
Proof.
  induction l as [|c l IH]; cbn; [by intros ?%not_elem_of_nil|]. destruct (String.eqb_spec t (ctype c)) as [->|Hne].
  - intros _. exists c. split_and!; [done|by constructor|done].
  - intros [?|Hin]%elem_of_cons; [done|]. destruct (IH Hin) as (d & Hd & Hl & Ht). exists d. split_and!; [done|by constructor|done].
Qed.

Lemma IsReady_conditions now s : IsReady now s = true ->
  IsConditionSubscribed s = true /\ IsConditionWebhookCall s = true /\ GetConditionAPIRuleStatus s = ConditionTrue.
Proof.
  unfold IsReady. destruct (ContainSameConditionTypes _ _) eqn:Hs; cbn [negb]; [|done]. intros Hall.
  apply (ContainSameConditionTypes_spec (MakeSubscriptionConditions now) _ requiredTypes_NoDup) in Hs. rewrite MakeSubscriptionConditions_types in Hs.
  rewrite forallb_elem in Hall. assert (forall t, t ∈ requiredTypes -> exists c, FindCondition (Conditions s) t = Some c /\ c ∈ Conditions s /\
    ctype c = t /\ cstatus c = ConditionTrue) as Hf.
  { intros t Ht. rewrite Hs in Ht. apply FindCondition_elem in Ht as (c & Hc & Hin & Et). exists c.
    split_and!; [done..|]. by apply String.eqb_eq, Hall. }
  unfold IsConditionSubscribed, IsConditionWebhookCall, GetConditionAPIRuleStatus. split_and!.
  - destruct (Hf ConditionSubscribed) as (c & _ & Hc & Et & Es); [by apply (bool_decide_unpack _); vm_compute|].
    apply existsb_exists. exists c. split; [by apply list_elem_of_In|]. by rewrite Et, Es, !String.eqb_refl.
  - destruct (Hf ConditionWebhookCallStatus) as (c & _ & Hc & Et & Es); [by apply (bool_decide_unpack _); vm_compute|].
    apply existsb_exists. exists c. split; [by apply list_elem_of_In|]. by rewrite Et, Es, !String.eqb_refl.
  - destruct (Hf ConditionAPIRuleStatus) as (c & -> & _ & _ & Es); [by apply (bool_decide_unpack _); vm_compute|done].
Qed.

(** Initialising conditions keeps the present ones, in place, and adds
    exactly the missing expected ones, in their order; doing it again changes nothing. *)
Theorem initializeConditions_spec initial current :
  initializeConditions initial current =
    (current ++ filter (fun c => ctype c ∉ ctypes current) initial)%list /\
  initializeConditions initial (initializeConditions initial current) = initializeConditions initial current.
Proof.
  assert (forall cur, initializeConditions initial cur =
    (cur ++ filter (fun c => ctype c ∉ ctypes cur) initial)%list) as H.
  { intros cur. unfold initializeConditions.
    assert (forall acc, foldl (fun final e => match conditionMap cur !! ctype e with
      | Some _ => final | None => (final ++ [e])%list end) acc initial =
      (acc ++ filter (fun c => ctype c ∉ ctypes cur) initial)%list) as Hgen; [|apply Hgen].
    induction initial as [|e l IH]; intros acc; cbn [foldl]; [by rewrite app_nil_r|].
    rewrite IH, filter_cons. destruct (conditionMap cur !! ctype e) eqn:E.
    - assert (ctype e ∈ ctypes cur) by (apply conditionMap_is_Some; by eexists).
      by rewrite decide_False by (intros Hn; by apply Hn).
    - apply conditionMap_None in E. rewrite decide_True by done. by rewrite <- app_assoc. }
  split; [apply H|]. rewrite (H (initializeConditions _ _)).
  rewrite (filter_none (fun c => ctype c ∉ ctypes (initializeConditions initial current))); [by rewrite app_nil_r|].
  intros c Hc Hn. apply Hn. rewrite H, fmap_app, elem_of_app.
  destruct (decide (ctype c ∈ ctypes current)); [by left|right].
  apply list_elem_of_fmap_2. by apply list_elem_of_filter.
Qed.

(** ** Conditions that are set already *)
Definition has_condition (l : list Condition) (c : Condition) : Prop := exists x, x ∈ l /\ strip x = strip c.

Lemma has_condition_upsert l c : wf_conditions l -> has_condition (upsertCondition c l) c.
Proof.
  intros Hwf. unfold upsertCondition. case_bool_decide as Hin.
  - apply list_elem_of_fmap in Hin as (x & Hx & Hin). eexists. split; [by apply list_elem_of_fmap_2|]. cbn.
    rewrite <- Hx, String.eqb_refl. cbn. destruct (ConditionEquals x c) eqn:E; [by apply ConditionEquals_strip|done].
  - exists c. split; [|done]. apply elem_of_app. right. by apply list_elem_of_singleton.
Qed.

Lemma has_condition_kept l c d : ctype c <> ctype d -> has_condition l d -> has_condition (upsertCondition c l) d.
Proof.
  intros Hne (x & Hx & E). exists x. split; [|done]. assert (ctype x = ctype d) as Ex by (unfold strip in E; congruence).
  unfold upsertCondition. case_bool_decide; [|apply elem_of_app; by left].
  apply list_elem_of_fmap. exists x. split; [|done]. rewrite (proj2 (String.eqb_neq _ _)) by congruence. done.
Qed.

Lemma upsertCondition_same l c : wf_conditions l -> has_condition l c -> upsertCondition c l = l.
Proof.
  intros Hwf (x & Hx & E). assert (ctype x = ctype c) as Ex by (unfold strip in E; congruence).
  unfold upsertCondition. rewrite bool_decide_true by (rewrite <- Ex; by apply list_elem_of_fmap_2).
  rewrite <- (list_fmap_id l) at 2. apply list_fmap_ext. intros i y Hy.
  destruct (String.eqb_spec (ctype y) (ctype c)) as [Ey|]; [|done]. cbn.
  assert (y = x) as ->.
  { apply list_elem_of_lookup in Hx as [j Hj]. unfold wf_conditions in Hwf. rewrite NoDup_alt in Hwf.
    assert (i = j) as -> by (apply (Hwf i j (ctype c)); rewrite list_lookup_fmap; [rewrite Hy|rewrite Hj]; cbn; congruence). congruence. }
  by rewrite (proj2 (ConditionEquals_strip x c)).
Qed.

Lemma ConditionsEquals_refl l : wf_conditions l -> ConditionsEquals l l = true.
Proof.
  intros Hwf. unfold ConditionsEquals. rewrite Nat.eqb_refl. cbn [negb]. apply forallb_elem. intros c Hc.
  rewrite (proj2 (conditionMap_Some l (ctype c) c Hwf)) by done. apply ConditionEquals_refl.
Qed.

Lemma ConditionsEquals_has l l' c : wf_conditions l -> ctype c <> "" -> ConditionsEquals l l' = true -> has_condition l' c -> has_condition l c.
Proof.
  intros Hwf Hne. unfold ConditionsEquals. destruct (negb _); [done|]. rewrite forallb_elem. intros Hall (x & Hx & E).
  specialize (Hall x Hx). apply ConditionEquals_strip in Hall. destruct (conditionMap l !! ctype x) as [y|] eqn:Ey; cbn in Hall.
  - apply conditionMap_Some in Ey as [Hy _]; [|done]. exists y. split; [done|congruence].
  - rewrite E in Hall. destruct Hne. unfold strip in Hall. cbn in Hall. congruence.
Qed.

Lemma has_condition_iff l c : has_condition l c <-> strip c ∈ (strip <$> l).
Proof.
  unfold has_condition. rewrite list_elem_of_fmap. split; intros (x & H1 & H2); exists x; [by split; [|done]|by split; [|done]].
Qed.
