(* ===== verification/EventTypes.v ===== *)
(** * Event types: [pkg/backend/eventtype] and [pkg/backend/cleaner]

    Parsing, building and cleaning of event types, and the two cleaners the
    backends apply to sources and event types. *)

From S2P Require Import Prelude GoStrings Errors.
From Stdlib Require Import Ascii.

#[local] Arguments String.append !_ _ : simpl nomatch.

(** ** [eventtype/parse.go], [build.go], [clean.go], [simple_clean.go] *)
Definition ErrPrefixNotFound : goerr := sentinel "eventtype.ErrPrefixNotFound" "prefix not found".
Definition ErrInvalidFormat : goerr := sentinel "eventtype.ErrInvalidFormat" "invalid format".

(** The application name, the event and the version. *)
Definition parse (eventType prefix : string) : (string * string * string) + goerr :=
  if negb (HasPrefix eventType prefix) then inr ErrPrefixNotFound
  else
    let eventType := RemoveAll eventType prefix in
    let eventType := TrimPrefix eventType "." in
    let parts := Split "." eventType in
    let n := length parts in
    if (n <? 4)%nat then inr ErrInvalidFormat
    else
      let applicationName := nth 0 parts "" in
      let businessObject := Join (take (n - 3) (drop 1 parts)) "" in
      let operation := nth (n - 2) parts "" in
      let version := nth (n - 1) parts "" in
      inl (applicationName, businessObject +:+ "." +:+ operation, version).

Definition build (prefix applicationName event version : string) : string :=
  if is_blank prefix then applicationName +:+ "." +:+ event +:+ "." +:+ version
  else prefix +:+ "." +:+ applicationName +:+ "." +:+ event +:+ "." +:+ version.

(** The complements of [[^a-zA-Z0-9.]] and of [\W|_]. *)
Definition type_byte (c : ascii) : bool := is_alnum c || Ascii.eqb c ".".
Definition cleanEventType (eventType : string) : string := keep_bytes type_byte eventType.
Definition getCleanName (name : string) : string := keep_bytes is_alnum name.

(** [cleaner.Clean] and [simpleCleaner.Clean] have the same body. *)
Definition cleaner_Clean (eventTypePrefix eventType : string) : string + goerr :=
  match parse eventType eventTypePrefix with
  | inr err => inr err
  | inl (appName, event, version) =>
      inl (cleanEventType (build eventTypePrefix (getCleanName appName) event version))
  end.
Definition simpleCleaner_Clean (eventTypePrefix eventType : string) : string + goerr :=
  match parse eventType eventTypePrefix with
  | inr err => inr err
  | inl (appName, event, version) =>
      inl (cleanEventType (build eventTypePrefix (getCleanName appName) event version))
  end.

(** ** [pkg/backend/cleaner] *)

(** The interface of [cleaner/types.go]. *)
Class Cleaner := mkCleaner {
  CleanSource : string -> string + goerr;
  CleanEventType : string -> string + goerr
}.

Definition maxEventMeshSegmentsLimit : nat := 3.

Definition getMergedSegments (eventType : string) : string :=
  let segments := Split "." eventType in
  let totalSegments := length segments in
  if (maxEventMeshSegmentsLimit <? totalSegments)%nat then
    let combinedSegment := foldl (fun acc i => acc +:+ nth i segments "") "" (seq 0 (totalSegments - 2)) in
    combinedSegment +:+ "." +:+ nth (totalSegments - 2) segments "" +:+ "." +:+ nth (totalSegments - 1) segments ""
  else eventType.

Definition EventMesh_CleanSource (source : string) : string + goerr := inl (keep_bytes is_alnum source).
Definition EventMesh_CleanEventType (eventType : string) : string + goerr :=
  inl (keep_bytes type_byte (getMergedSegments eventType)).

(** The complements of [[\s.>*/\\]] and of [[\s>*/\\]]. *)
Definition js_type_byte (c : ascii) : bool :=
  negb (is_re_space c || existsb (Ascii.eqb c) [">"; "*"; "/"; bslash])%char.
Definition js_source_byte (c : ascii) : bool := js_type_byte c && negb (Ascii.eqb c ".").
Definition JetStream_CleanSource (source : string) : string + goerr := inl (keep_bytes js_source_byte source).
Definition JetStream_CleanEventType (eventType : string) : string + goerr :=
  inl (keep_bytes js_type_byte eventType).

Definition EventMeshCleaner : Cleaner := mkCleaner EventMesh_CleanSource EventMesh_CleanEventType.
Definition JetStreamCleaner : Cleaner := mkCleaner JetStream_CleanSource JetStream_CleanEventType.

Example clean_ex :
  cleaner_Clean "prefix" "prefix.test-app.Sec.ond.Created-X.v1" = inl "prefix.testapp.Second.CreatedX.v1"
  /\ simpleCleaner_Clean "" "app.a.b.v1" = inl "app.a.b.v1"
  /\ cleaner_Clean "p" "q.app.a.b.v1" = inr ErrPrefixNotFound
  /\ EventMesh_CleanEventType "Account.Root.Created.v_1" = inl "AccountRoot.Created.v1"
  /\ JetStream_CleanSource "my.app/x" = inl "myappx".
Proof. vm_compute. done. Qed.

(** * Theorems *)

(** ** Removing a prefix *)
Lemma remove_from_absent old s : (forall a b, s <> a +:+ (old +:+ b)) -> remove_from old s 0 = s.
Proof.
  induction s as [|c s IH]; intros Hno; [done|]. cbn [remove_from].
  destruct (HasPrefix (String c s) old) eqn:E.
  - apply HasPrefix_iff in E as (r & E). by destruct (Hno "" r).
  - f_equal. apply IH. intros a b ->. by destruct (Hno (String c a) b).
Qed.

Lemma remove_from_skip old a s : remove_from old (a +:+ s) (len a) = remove_from old s 0.
Proof. induction a as [|c a IH]; [done|]. cbn. exact IH. Qed.

Lemma RemoveAll_prefix old s : (forall a b, s <> a +:+ (old +:+ b)) -> RemoveAll (old +:+ s) old = s.
Proof.
  intros Hno. unfold RemoveAll. destruct old as [|c old]; [by destruct (Hno "" s)|].
  change (String.eqb (String c old) "") with false.
  change (String c old +:+ s) with (String c (old +:+ s)). cbn [remove_from].
  replace (HasPrefix (String c (old +:+ s)) (String c old)) with true
    by (symmetry; apply HasPrefix_iff; by exists s).
  change (pred (len (String c old))) with (len old). rewrite remove_from_skip. by apply remove_from_absent.
Qed.

Lemma Split_no_sep_all sep l : Forall (fun s => HasByte sep s = false) l -> l <> [] ->
  Split sep (Join l (String sep "")) = l.
Proof.
  unfold Join. induction l as [|x l IH]; intros Hl Hne; [done|].
  apply Forall_cons in Hl as [Hx Hl]. destruct l as [|y l]; [by apply Split_none|].
  cbn [String.concat] in *. change (String sep "" +:+ ?t) with (String sep t).
  rewrite Split_app, IH by done. by rewrite (Split_none _ _ Hx).
Qed.

Lemma Join_nil_app l1 l2 : Join (l1 ++ l2) "" = Join l1 "" +:+ Join l2 "".
Proof.
  unfold Join. induction l1 as [|x l1 IH]; [done|]. destruct l1 as [|y l1]; cbn in *.
  - destruct l2; cbn; by rewrite ?app_nil.
  - by rewrite IH, app_assoc_s.
Qed.

Lemma HasByte_Join c l : Forall (fun s => HasByte c s = false) l -> HasByte c (Join l "") = false.
Proof.
  unfold Join. induction 1 as [|x l Hx Hl IH]; [done|].
  destruct l as [|y l]; [done|]. change (HasByte c (x +:+ ("" +:+ String.concat "" (y :: l))) = false).
  rewrite !HasByte_app. by rewrite Hx, IH.
Qed.

(** An event type split at its dots. *)
Lemma Split_dots a b : HasByte "." a = false -> Split "." (a +:+ "." +:+ b) = a :: Split "." b.
Proof. intros Ha. change ("." +:+ b) with (String "." b). by rewrite Split_app, Split_none. Qed.

(** C40: parsing an event type that is the prefix followed by an application,
    a business object of one or more segments, an operation and a version gives those
    parts, the business object merged to one segment; it needs that the prefix
    does not occur again in the rest. *)
Theorem parse_build prefix app obj operation version :
  Forall (fun s => HasByte "." s = false) (app :: obj ++ [operation; version]) -> obj <> [] ->
  Contains (String "." (Join (app :: obj ++ [operation; version]) ".")) prefix = false ->
  parse (prefix +:+ String "." (Join (app :: obj ++ [operation; version]) ".")) prefix =
    inl (app, Join obj "" +:+ "." +:+ operation, version).
Proof.
  intros Hseg Hobj Hno. unfold parse. replace (HasPrefix _ prefix) with true
    by (symmetry; apply HasPrefix_iff; eauto). cbn [negb].
  rewrite RemoveAll_prefix by (intros a b E; apply not_true_iff_false in Hno; apply Hno, Contains_iff; by exists a, b).
  change (String "." ?t) with ("." +:+ t). rewrite TrimPrefix_app, (Split_no_sep_all ".") by done.
  assert (0 < length obj) by (destruct obj; cbn; [done|lia]).
  set (parts := app :: obj ++ [operation; version]).
  assert (length parts = length obj + 3) as Hlen by (subst parts; cbn; rewrite length_app; cbn; lia).
  rewrite Hlen. destruct (Nat.ltb_spec (length obj + 3) 4); [lia|]. do 2 f_equal; [f_equal|].
  - replace (length obj + 3 - 3) with (length obj) by lia. subst parts. cbn [drop].
    rewrite drop_0, take_app_length. f_equal. replace (length obj + 3 - 2) with (S (length obj)) by lia. cbn.
    rewrite app_nth2 by lia. by rewrite Nat.sub_diag.
  - replace (length obj + 3 - 1) with (S (S (length obj))) by lia. subst parts. cbn.
    rewrite app_nth2 by lia. by replace (S (length obj) - length obj) with 1 by lia.
Qed.

Lemma parse_build_witness :
  parse ("sap.kyma" +:+ String "." (Join ("app" :: ["Sec"; "ond"] ++ ["Created"; "v1"]) ".")) "sap.kyma" =
    inl ("app", Join ["Sec"; "ond"] "" +:+ "." +:+ "Created", "v1").
Proof.
  apply parse_build; [repeat constructor|done|reflexivity].
Defined.

(** When the prefix does occur again, it is removed there too and the parts are not the ones
    that were written. *)
Example parse_removes_inner_prefix :
  parse "pre.app.pre.created.v1" "pre" = inl ("app", ".created", "v1").
Proof. vm_compute. done. Qed.

(** ** The result of cleaning *)
Lemma parse_ok_inv et prefix app event version : parse et prefix = inl (app, event, version) ->
  HasPrefix et prefix = true /\ HasByte "." app = false /\ HasByte "." version = false /\
  exists obj op, event = obj +:+ "." +:+ op /\ HasByte "." obj = false /\ HasByte "." op = false.
Proof.
  unfold parse. destruct (HasPrefix et prefix); [|done]. cbn [negb].
  set (parts := Split "." (TrimPrefix (RemoveAll et prefix) ".")).
  assert (Forall (fun s => HasByte "." s = false) parts) as Hp
    by (apply Forall_forall; intros s; apply Split_no_sep).
  assert (forall i, HasByte "." (nth i parts "") = false) as Hn.
  { intros i. destruct (nth_in_or_default i parts "") as [Hin| ->]; [|done].
    rewrite Forall_forall in Hp. apply Hp. by apply list_elem_of_In. }
  destruct (length parts <? 4)%nat; [done|]. intros [= <- <- <-]. split_and!; [done|apply Hn..|].
  eexists _, _. split; [reflexivity|]. split; [|apply Hn]. apply HasByte_Join.
  apply Forall_forall. intros s Hs. rewrite Forall_forall in Hp. apply Hp.
  eapply subseteq_drop, subseteq_take; exact Hs.
Qed.

Lemma type_byte_alnum c : is_alnum c = true -> type_byte c = true.
Proof. unfold type_byte. by intros ->. Qed.

(** A cleaned event type has only letters, digits and dots; it is the
    cleaned prefix, if there is one, followed by exactly four segments. *)
Theorem cleaner_Clean_shape prefix et t : cleaner_Clean prefix et = inl t ->
  forallb type_byte (chars t) = true /\
  exists app obj op version,
    t = (if is_blank prefix then "" else cleanEventType prefix +:+ ".") +:+ Join [app; obj; op; version] "." /\
    Forall (fun s => HasByte "." s = false) [app; obj; op; version].
Proof.
  unfold cleaner_Clean. destruct (parse et prefix) as [[[app event] version]|] eqn:E; [|done].
  intros [= <-]. split; [apply keep_bytes_all|].
  apply parse_ok_inv in E as (_ & Ha & Hv & obj & op & -> & Ho & Hop).
  exists (cleanEventType (getCleanName app)), (cleanEventType obj), (cleanEventType op), (cleanEventType version).
  assert (forall s, HasByte "." s = false -> HasByte "." (cleanEventType s) = false) as Hclean.
  { intros s Hs. unfold cleanEventType. induction s as [|c s IH]; [done|]. cbn.
    unfold HasByte in *. cbn in Hs. apply orb_false_iff in Hs as [H1 H2].
    destruct (type_byte c); [|auto]. cbn. rewrite H1. auto. }
  split.
  - unfold build, cleanEventType, Join. destruct (is_blank prefix);
      rewrite ?keep_bytes_app; cbn [String.concat keep_bytes type_byte];
      change (type_byte ".") with true; cbn; by rewrite ?app_assoc_s, ?app_nil; cbn; rewrite ?app_assoc_s.
  - repeat constructor; apply Hclean; [|done..]. by apply keep_bytes_HasByte.
Qed.

Lemma cleaner_Clean_shape_witness :
  forallb type_byte (chars "pre.testapp.Second.CreatedX.v1") = true /\
  exists app obj op version,
    "pre.testapp.Second.CreatedX.v1" =
      (if is_blank "pre" then "" else cleanEventType "pre" +:+ ".") +:+ Join [app; obj; op; version] "." /\
    Forall (fun s => HasByte "." s = false) [app; obj; op; version].
Proof. apply (cleaner_Clean_shape "pre" "pre.test-app.Sec.ond.Created-X.v1"). vm_compute. done. Defined.

(** ** The EventMesh cleaner *)
Lemma foldl_concat (segs : list string) n : n <= length segs ->
  foldl (fun acc i => acc +:+ nth i segs "") "" (seq 0 n) = Join (take n segs) "".
Proof.
  induction n as [|n IH]; intros Hn; [done|]. rewrite seq_S, foldl_app, IH by lia. cbn.
  destruct (lookup_lt_is_Some_2 segs n) as [x E]; [lia|]. rewrite (nth_lookup_Some _ _ _ _ E).
  rewrite (take_S_r _ _ _ E), Join_nil_app. done.
Qed.

Lemma getMergedSegments_segments et :
  Split "." (getMergedSegments et) =
    let segs := Split "." et in let n := length segs in
    if (3 <? n)%nat then [Join (take (n - 2) segs) ""; nth (n - 2) segs ""; nth (n - 1) segs ""] else segs.
Proof.
  unfold getMergedSegments, maxEventMeshSegmentsLimit. cbn zeta. destruct (3 <? _)%nat eqn:E; [|done].
  apply Nat.ltb_lt in E.
  assert (forall s, s ∈ Split "." et -> HasByte "." s = false) as Hs by (intros s; apply Split_no_sep).
  assert (forall i, HasByte "." (nth i (Split "." et) "") = false) as Hn.
  { intros i. destruct (nth_in_or_default i (Split "." et) "") as [Hin| ->]; [|done].
    apply Hs. by apply list_elem_of_In. }
  rewrite foldl_concat by lia. rewrite !Split_dots; [by rewrite (Split_none _ _ (Hn _))|apply Hn|].
  apply HasByte_Join, Forall_forall. intros s Hin. apply Hs. eapply subseteq_take; exact Hin.
Qed.

Lemma getMergedSegments_small et : length (Split "." et) <= 3 -> getMergedSegments et = et.
Proof.
  intros H. unfold getMergedSegments, maxEventMeshSegmentsLimit.
  destruct (Nat.ltb_spec 3 (length (Split "." et))); [lia|done].
Qed.

(** C37: what the EventMesh cleaner returns has at most three segments and only
    letters, digits and dots; the last two segments are those of the input,
    cleaned, and an already clean type is returned as it is. *)
Theorem EventMesh_CleanEventType_spec et :
  exists t, EventMesh_CleanEventType et = inl t /\
    length (Split "." t) = Nat.min 3 (length (Split "." et)) /\
    forallb type_byte (chars t) = true /\
    (3 <= length (Split "." et) ->
       drop 1 (Split "." t) = keep_bytes type_byte <$> drop (length (Split "." et) - 2) (Split "." et)) /\
    EventMesh_CleanEventType t = inl t.
Proof.
  eexists. split; [reflexivity|].
  assert (forall s, Split "." (keep_bytes type_byte (getMergedSegments s)) =
    keep_bytes type_byte <$> Split "." (getMergedSegments s)) as Hsp by (intros s; by apply Split_keep_bytes).
  assert (length (Split "." (getMergedSegments et)) = Nat.min 3 (length (Split "." et))) as Hlen.
  { rewrite getMergedSegments_segments. cbn zeta. destruct (Nat.ltb_spec 3 (length (Split "." et))); [|lia].
    cbn [length]. lia. }
  split_and!.
  - by rewrite Hsp, length_fmap.
  - apply keep_bytes_all.
  - intros H3. rewrite Hsp, getMergedSegments_segments. cbn zeta.
    set (segs := Split "." et) in *. set (n := length segs) in *.
    destruct (Nat.ltb_spec 3 n) as [H|H].
    + cbn [fmap list_fmap drop].
      assert (exists x y l, segs = (l ++ [x; y])%list) as (x & y & l & Hl).
      { destruct (rev segs) as [|y [|x r]] eqn:Er; apply (f_equal (@length _)) in Er as Hr;
          rewrite length_rev in Hr; cbn in Hr; [lia..|].
        exists x, y, (rev r). rewrite <- (rev_involutive segs), Er. cbn. by rewrite <- app_assoc. }
      subst n. rewrite Hl, length_app. cbn [length].
      replace (length l + 2 - 2) with (length l) by lia. replace (length l + 2 - 1) with (S (length l)) by lia.
      rewrite drop_app_length, !app_nth2 by lia. rewrite Nat.sub_diag.
      replace (S (length l) - length l) with 1 by lia. done.
    + replace (n - 2) with 1 by lia. by rewrite fmap_drop.
  - unfold EventMesh_CleanEventType at 1. rewrite getMergedSegments_small by (rewrite Hsp, length_fmap, Hlen; lia).
    by rewrite keep_bytes_idem.
Qed.

(** The facts about the cleaners that the backends rely on. *)
Lemma JetStream_clean_total s : exists t, JetStream_CleanEventType s = inl t /\ exists t', JetStream_CleanSource s = inl t'.
Proof. unfold JetStream_CleanEventType, JetStream_CleanSource. eauto. Qed.

Lemma JetStream_CleanSource_no_dot s t : JetStream_CleanSource s = inl t -> HasByte "." t = false.
Proof. intros [= <-]. by apply keep_bytes_HasByte. Qed.

Lemma JetStream_CleanEventType_no_slash s t : JetStream_CleanEventType s = inl t -> HasByte "/" t = false.
Proof. intros [= <-]. by apply keep_bytes_HasByte. Qed.

Lemma JetStream_CleanSource_no_slash s t : JetStream_CleanSource s = inl t -> HasByte "/" t = false.
Proof. intros [= <-]. by apply keep_bytes_HasByte. Qed.
