(* ===== verification/Validator.v ===== *)
(** * Subscription validation: [internal/controller/eventing/subscription/validator]

    [validateSpec] and the validator of the JetStream and EventMesh
    reconcilers.  Two things are outside the repository and are parameters:
    [ceValid source type], whether the CloudEvents SDK accepts an event with
    that source and type, and [getService], the API server's answer to the
    read of a Service. *)

From S2P Require Import Prelude GoStrings Url Errors Utils Subscription.
From Stdlib Require Import Ascii.

#[local] Arguments String.append !_ _ : simpl nomatch.

(** ** Field errors ([errors.go]) *)
Record FieldError := mkFieldError { path : string; badValue : string; detail : string }.
Definition makeInvalidFieldError := mkFieldError.

Definition sourcePath := "spec.source".
Definition typesPath := "spec.types".
Definition configPath := "spec.config".
Definition sinkPath := "spec.sink".
Definition typeMatchingPath := "spec.typeMatching".
Definition namespacePath := "metadata.namespace".

Definition validPrefix := "sap.kyma.custom".
Definition clusterLocalURLSuffix := "svc.cluster.local".
Definition minEventTypeSegments : nat := 2.
Definition subdomainSegments : nat := 5.

Definition emptyErrDetail := "must not be empty".
Definition invalidURIErrDetail := "must be valid as per RFC 3986".
Definition duplicateTypesErrDetail := "must not have duplicate types".
Definition lengthErrDetail := "must not be of length zero".
Definition minSegmentErrDetail := "must have minimum 2 segments".
Definition invalidPrefixErrDetail := "must not have " +:+ validPrefix +:+ " as type prefix".
Definition stringIntErrDetail := MaxInFlightMessages +:+ " must be a stringified int value".
Definition invalidQosErrDetail := "must be a valid QoS value AT_LEAST_ONCE or AT_MOST_ONCE".
Definition invalidAuthTypeErrDetail := "must be a valid Auth Type value oauth2".
Definition invalidGrantTypeErrDetail := "must be a valid Grant Type value client_credentials".
Definition invalidTypeMatchingErrDetail := "must be a valid TypeMatching value exact or standard".
Definition missingSchemeErrDetail := "must have URL scheme 'http' or 'https'".
Definition suffixMissingErrDetail := "must have valid sink URL suffix " +:+ clusterLocalURLSuffix.
Definition subDomainsErrDetail := "must have sink URL with 5 sub-domains: ".
Definition namespaceMismatchErrDetail := "must have the same namespace as the subscriber: ".

(** ** EventMesh setting values: [pkg/ems/api/events/types] *)
Definition QosAtMostOnce := "AT_MOST_ONCE".
Definition QosAtLeastOnce := "AT_LEAST_ONCE".
Definition AuthTypeClientCredentials := "oauth2".
Definition GrantTypeClientCredentials := "client_credentials".

Definition IsInvalidQoS (value : string) : bool :=
  let value := ReplaceByte value "-" "_" in
  negb (String.eqb value QosAtLeastOnce || String.eqb value QosAtMostOnce).
Definition GetQos (qosStr : string) : string :=
  if String.eqb (ReplaceByte qosStr "-" "_") QosAtMostOnce then QosAtMostOnce else QosAtLeastOnce.
Definition IsInvalidAuthType (value : string) : bool := negb (String.eqb value AuthTypeClientCredentials).
Definition GetAuthType (_ : string) : string := AuthTypeClientCredentials.
Definition IsInvalidGrantType (value : string) : bool := negb (String.eqb value GrantTypeClientCredentials).
Definition GetGrantType (_ : string) : string := GrantTypeClientCredentials.

(** ** [spec.go] *)

(** One step of the loop: the counters and the duplicates found so far. *)
Definition getDuplicates_step (st : gmap string nat * list string) (t : string) : gmap string nat * list string :=
  let '(itemsMap, duplicates) := st in
  let n := S (default 0 (itemsMap !! t)) in
  (<[t := n]> itemsMap, if (n =? 2)%nat then (duplicates ++ [t])%list else duplicates).
Definition getDuplicates (items : list string) : list string :=
  match items with
  | [] => items
  | _ => (foldl getDuplicates_step (∅, []) items).2
  end.

Definition isNotInt (value : string) : bool := match Atoi value with Some _ => false | None => true end.

Definition ifKeyExistsInConfig (config : gmap string string) (key : string) : bool :=
  match config !! key with Some _ => true | None => false end.

Definition configValue (config : gmap string string) (key : string) : string := default "" (config !! key).

Definition validateConfig (config : gmap string string) : list FieldError :=
  let bad key (invalid : string -> bool) det :=
    if ifKeyExistsInConfig config key && invalid (configValue config key)
    then [makeInvalidFieldError configPath (configValue config key) det] else [] in
  (bad MaxInFlightMessages isNotInt stringIntErrDetail ++
   bad ProtocolSettingsQos IsInvalidQoS invalidQosErrDetail ++
   bad WebhookAuthType IsInvalidAuthType invalidAuthTypeErrDetail ++
   bad WebhookAuthGrantType IsInvalidGrantType invalidGrantTypeErrDetail)%list.

Definition validateTypeMatching (typeMatching : string) : option FieldError :=
  if negb (String.eqb typeMatching TypeMatchingExact) && negb (String.eqb typeMatching TypeMatchingStandard)
  then Some (makeInvalidFieldError typeMatchingPath typeMatching invalidTypeMatchingErrDetail) else None.

Definition validateSink (sink namespace : string) : option FieldError :=
  if String.eqb sink "" then Some (makeInvalidFieldError sinkPath sink emptyErrDetail)
  else if negb (IsValidScheme sink) then Some (makeInvalidFieldError sinkPath sink missingSchemeErrDetail)
  else match GetSinkData sink with
  | inr err => Some (makeInvalidFieldError sinkPath sink (Error err))
  | inl (trimmedHost, subDomains) =>
      if negb (HasSuffix trimmedHost clusterLocalURLSuffix)
      then Some (makeInvalidFieldError sinkPath sink suffixMissingErrDetail)
      else if negb (length subDomains =? subdomainSegments)%nat
      then Some (makeInvalidFieldError sinkPath sink (subDomainsErrDetail +:+ trimmedHost))
      else let svcNs := nth 1 subDomains "" in
        if negb (String.eqb namespace svcNs)
        then Some (makeInvalidFieldError namespacePath sink (namespaceMismatchErrDetail +:+ svcNs))
        else None
  end.

Definition ErrSinkValidationFailed : goerr :=
  sentinel "validator.ErrSinkValidationFailed" "Sink validation failed".
Definition ErrSubscriptionValidationFailed : goerr :=
  sentinel "validator.ErrSubscriptionValidationFailed" "Subscription validation failed".

Section validator.
Context (ceValid : string -> string -> bool).
Context (getService : string -> string -> option goerr). (* namespace, name *)
Context (ToAggregate : list FieldError -> goerr).

Definition isInvalidCE (source eventType : string) : bool :=
  if String.eqb source "" then false else negb (ceValid source eventType).

Definition validateSource (source typeMatching : string) : option FieldError :=
  if String.eqb source "" && negb (String.eqb typeMatching TypeMatchingExact)
  then Some (makeInvalidFieldError sourcePath source emptyErrDetail)
  else if isInvalidCE source "" then Some (makeInvalidFieldError sourcePath source invalidURIErrDetail)
  else None.

(** The body of the loop over the types. *)
Definition validateType (typeMatching eventType : string) : option FieldError :=
  if (len eventType =? 0)%nat then Some (makeInvalidFieldError typesPath eventType lengthErrDetail)
  else if (length (Split "." eventType) <? minEventTypeSegments)%nat
  then Some (makeInvalidFieldError typesPath eventType minSegmentErrDetail)
  else if negb (String.eqb typeMatching TypeMatchingExact) && HasPrefix eventType validPrefix
  then Some (makeInvalidFieldError typesPath eventType invalidPrefixErrDetail)
  else if isInvalidCE "source" eventType
  then Some (makeInvalidFieldError typesPath eventType invalidURIErrDetail)
  else None.

Fixpoint validateTypes_loop (types : list string) (typeMatching : string) : option FieldError :=
  match types with
  | [] => None
  | eventType :: types' =>
      match validateType typeMatching eventType with
      | Some err => Some err
      | None => validateTypes_loop types' typeMatching
      end
  end.

Definition validateTypes (types : list string) (typeMatching : string) : option FieldError :=
  if (length types =? 0)%nat then Some (makeInvalidFieldError typesPath "" emptyErrDetail)
  else match getDuplicates types with
  | (_ :: _) as duplicates =>
      Some (makeInvalidFieldError typesPath (Join duplicates ",") duplicateTypesErrDetail)
  | [] => validateTypes_loop types typeMatching
  end.

Definition validateSpec (subscription : Subscription) : list FieldError :=
  let spec := Spec subscription in
  (option_list (validateTypeMatching (TypeMatching spec)) ++
   option_list (validateSource (Source spec) (TypeMatching spec)) ++
   option_list (validateTypes (specTypes spec) (TypeMatching spec)) ++
   validateConfig (Config spec) ++
   option_list (validateSink (Sink spec) (Namespace (meta subscription))))%list.

(** ** [sink.go] and [subscription.go] *)
Definition serviceExists (namespace name : string) : bool :=
  match getService namespace name with None => true | Some _ => false end.

Definition sinkServiceValidator_validate (sink : string) : option goerr :=
  match GetSinkData sink with
  | inr err => Some (MakeError ErrSinkValidationFailed (Some err))
  | inl (_, subDomains) =>
      if (length subDomains <? 2)%nat
      then Some (GoErr ENew (Error ErrSinkValidationFailed +:+ ": sink format should contain the service name.namespace")
                   [ErrSinkValidationFailed])
      else
        let namespace := nth 1 subDomains "" in
        let name := nth 0 subDomains "" in
        if negb (serviceExists namespace name)
        then Some (GoErr ENew (Error ErrSinkValidationFailed +:+ ": service " +:+ name +:+ "." +:+ namespace
                     +:+ " not found in the cluster") [ErrSinkValidationFailed])
        else None
  end.

Definition Validate (subscription : Subscription) : option goerr :=
  match validateSpec subscription with
  | (_ :: _) as errs => Some (MakeError ErrSubscriptionValidationFailed (Some (ToAggregate errs)))
  | [] => match sinkServiceValidator_validate (Sink (Spec subscription)) with
          | Some err => Some (MakeError ErrSubscriptionValidationFailed (Some err))
          | None => None
          end
  end.

(** * Theorems *)

(** ** The well-formed specifications *)

(** The labels of the host of an accepted sink. *)
Definition sink_target (sink name namespace : string) : Prop :=
  exists u l3, ParseRequestURI sink = inl u /\ HasSuffix l3 "svc" = true /\
    Split "." (default "" (head (Split ":" (Host u)))) = [name; namespace; l3; "cluster"; "local"].

Record wf_type (typeMatching t : string) : Prop := {
  wt_nonempty : t <> "";
  wt_segments : HasByte "." t = true;
  wt_prefix : typeMatching <> TypeMatchingExact -> HasPrefix t validPrefix = false;
  wt_ce : ceValid "source" t = true
}.

Definition wf_config (config : gmap string string) : Prop :=
  (forall v, config !! MaxInFlightMessages = Some v -> exists n, Atoi v = Some n) /\
  (forall v, config !! ProtocolSettingsQos = Some v ->
     ReplaceByte v "-" "_" = QosAtLeastOnce \/ ReplaceByte v "-" "_" = QosAtMostOnce) /\
  (forall v, config !! WebhookAuthType = Some v -> v = AuthTypeClientCredentials) /\
  (forall v, config !! WebhookAuthGrantType = Some v -> v = GrantTypeClientCredentials).

Record wf_spec (s : Subscription) : Prop := {
  ws_matching : TypeMatching (Spec s) = TypeMatchingExact \/ TypeMatching (Spec s) = TypeMatchingStandard;
  ws_source : if decide (Source (Spec s) = "") then TypeMatching (Spec s) = TypeMatchingExact
              else ceValid (Source (Spec s)) "" = true;
  ws_types : specTypes (Spec s) <> [] /\ NoDup (specTypes (Spec s)) /\
             Forall (wf_type (TypeMatching (Spec s))) (specTypes (Spec s));
  ws_config : wf_config (Config (Spec s));
  ws_sink : IsValidScheme (Sink (Spec s)) = true /\
            exists name, sink_target (Sink (Spec s)) name (Namespace (meta s))
}.

(** ** Duplicates *)
Definition occurrences (x : string) (l : list string) : nat := length (filter (eq x) l).

Lemma occurrences_app x l1 l2 : occurrences x (l1 ++ l2) = occurrences x l1 + occurrences x l2.
Proof. unfold occurrences. by rewrite filter_app, length_app. Qed.

Lemma occurrences_one x t : occurrences x [t] = if decide (x = t) then 1 else 0.
Proof. unfold occurrences. rewrite filter_cons, filter_nil. by destruct (decide (x = t)). Qed.

Lemma getDuplicates_foldl items :
  let '(m, dup) := foldl getDuplicates_step (∅, []) items in
  (forall x, default 0 (m !! x) = occurrences x items) /\ NoDup dup /\
  (forall x, x ∈ dup <-> 2 <= occurrences x items).
Proof.
  induction items as [|t items IH] using rev_ind.
  - cbn. split_and!; [done|constructor|]. intros x. split; [by intros ?%not_elem_of_nil|].
    unfold occurrences. cbn. lia.
  - rewrite foldl_app. cbn [foldl]. destruct (foldl getDuplicates_step (∅, []) items) as [m dup].
    destruct IH as (Hm & Hnd & Hd). cbn zeta. unfold getDuplicates_step. split_and!.
    + intros x. rewrite occurrences_app, occurrences_one, lookup_insert.
      rewrite Hm. destruct (decide (t = x)) as [->|]; [|rewrite decide_False by congruence; rewrite Hm; lia].
      rewrite decide_True by done. cbn. lia.
    + rewrite Hm. destruct (Nat.eqb_spec (S (occurrences t items)) 2) as [E|]; [|done].
      apply NoDup_app. split_and!; [done| |apply NoDup_singleton].
      intros x Hx%Hd ->%list_elem_of_singleton. lia.
    + intros x. rewrite occurrences_app, occurrences_one, Hm.
      destruct (Nat.eqb_spec (S (occurrences t items)) 2) as [E|E].
      * rewrite elem_of_app, list_elem_of_singleton, Hd.
        destruct (decide (x = t)) as [->|]; [|split; [intros [?|?]; [lia|done]|lia]].
        split; [lia|by right].
      * rewrite Hd. destruct (decide (x = t)) as [->|]; lia.
Qed.

Lemma occurrences_NoDup l : (forall x, occurrences x l <= 1) <-> NoDup l.
Proof.
  induction l as [|y l IH]; [split; [constructor|unfold occurrences; cbn; lia]|].
  rewrite NoDup_cons, <- IH.
  assert (forall x, occurrences x (y :: l) = occurrences x l + occurrences x [y]) as Hc
    by (intros x; change (y :: l) with ([y] ++ l)%list; rewrite occurrences_app; lia).
  assert (y ∈ l <-> 1 <= occurrences y l) as Hin.
  { unfold occurrences. destruct (filter (eq y) l) as [|z f] eqn:E.
    - cbn. split; [|lia]. intros Hy. exfalso. apply (not_elem_of_nil y). rewrite <- E. by apply list_elem_of_filter.
    - cbn. split; [lia|]. intros _. assert (z ∈ filter (eq y) l) as Hz by (rewrite E; constructor).
      by apply list_elem_of_filter in Hz as [<- ?]. }
  setoid_rewrite Hc. setoid_rewrite occurrences_one. split.
  - intros H. split; [|intros x; specialize (H x); lia].
    rewrite Hin. specialize (H y). rewrite decide_True in H by done. lia.
  - intros [Hy H] x. specialize (H x). destruct (decide (x = y)) as [->|]; [|lia]. rewrite Hin in Hy. lia.
Qed.

Lemma getDuplicates_nil_iff items : getDuplicates items = [] <-> NoDup items.
Proof.
  assert (getDuplicates items = (foldl getDuplicates_step (∅, []) items).2) as E by (by destruct items).
  pose proof (getDuplicates_foldl items) as H. rewrite E. destruct (foldl _ _ _) as [m dup]. cbn [snd].
  destruct H as (_ & Hnd & Hd). rewrite <- occurrences_NoDup. split.
  - intros -> x. destruct (le_gt_dec (occurrences x items) 1) as [|Hgt]; [done|].
    apply Hd in Hgt. by apply not_elem_of_nil in Hgt.
  - intros Hle. destruct dup as [|x dup]; [done|]. assert (2 <= occurrences x items) by (apply Hd; constructor).
    specialize (Hle x). lia.
Qed.

(** The duplicates of a list are exactly the items that occur more than once,
    each reported once; so none is reported exactly when the items are distinct. *)
Theorem getDuplicates_spec items :
  NoDup (getDuplicates items) /\
  (forall x, x ∈ getDuplicates items <-> 2 <= occurrences x items) /\
  (getDuplicates items = [] <-> NoDup items).
Proof.
  assert (getDuplicates items = (foldl getDuplicates_step (∅, []) items).2) as E by (by destruct items).
  pose proof (getDuplicates_foldl items) as H. destruct (foldl _ _ _) as [m dup].
  destruct H as (_ & Hnd & Hd). cbn [snd] in E. rewrite <- (getDuplicates_nil_iff items), E. done.
Qed.

(** ** The parts of [validateSpec] *)
Lemma option_list_nil {A} (o : option A) : option_list o = [] <-> o = None.
Proof. by destruct o. Qed.

Lemma if_nil {A} (b : bool) (l : list A) : l <> [] -> ((if b then l else []) = [] <-> b = false).
Proof. by destruct b. Qed.

Lemma validateTypeMatching_None tm :
  validateTypeMatching tm = None <-> tm = TypeMatchingExact \/ tm = TypeMatchingStandard.
Proof.
  unfold validateTypeMatching.
  destruct (String.eqb_spec tm TypeMatchingExact), (String.eqb_spec tm TypeMatchingStandard); cbn; naive_solver.
Qed.

Lemma validateSource_None source tm :
  validateSource source tm = None <->
  if decide (source = "") then tm = TypeMatchingExact else ceValid source "" = true.
Proof.
  unfold validateSource, isInvalidCE.
  destruct (String.eqb_spec source ""), (decide (source = "")); try done; cbn.
  - destruct (String.eqb_spec tm TypeMatchingExact); cbn; done.
  - destruct (ceValid source ""); done.
Qed.

Lemma segments_lt_2 t : (length (Split "." t) <? 2)%nat = negb (HasByte "." t).
Proof.
  unfold HasByte. induction t as [|c t IH]; [done|]. cbn [Split chars String.list_ascii_of_string existsb].
  rewrite Ascii.eqb_sym. destruct (Ascii.eqb "." c) eqn:E; cbn.
  - destruct (Split "." t) eqn:Es; [by apply Split_ne in Es|done].
  - unfold chars in IH. rewrite <- IH. destruct (Split "." t) eqn:Es; [by apply Split_ne in Es|done].
Qed.

Lemma validateType_None tm t : validateType tm t = None <-> wf_type tm t.
Proof.
  unfold validateType, minEventTypeSegments, isInvalidCE. rewrite segments_lt_2. split.
  - intros H. destruct (Nat.eqb_spec (len t) 0) as [|Hl]; [done|].
    destruct (HasByte "." t) eqn:Hd; [|done]. cbn in H.
    destruct (String.eqb_spec tm TypeMatchingExact) as [He|He]; cbn in H;
      [|destruct (HasPrefix t validPrefix) eqn:Hp; [done|]];
      (destruct (ceValid "source" t) eqn:Hc; [|done]); split; try done; by intros ->.
  - intros [H1 H2 H3 H4]. destruct (Nat.eqb_spec (len t) 0) as [E|]; [by destruct t|].
    rewrite H2. cbn. rewrite H4. destruct (String.eqb_spec tm TypeMatchingExact) as [He|He]; [done|].
    by rewrite H3.
Qed.

Lemma validateTypes_loop_None types tm : validateTypes_loop types tm = None <-> Forall (wf_type tm) types.
Proof.
  induction types as [|t types IH]; cbn; [split; [constructor|done]|].
  rewrite Forall_cons, <- IH, <- validateType_None. destruct (validateType tm t); naive_solver.
Qed.

Lemma validateTypes_None types tm :
  validateTypes types tm = None <-> types <> [] /\ NoDup types /\ Forall (wf_type tm) types.
Proof.
  unfold validateTypes. rewrite <- getDuplicates_nil_iff, <- validateTypes_loop_None.
  destruct types as [|t types]; cbn [length Nat.eqb]; [naive_solver|].
  destruct (getDuplicates (t :: types)); naive_solver.
Qed.

Lemma config_entry (P : string -> Prop) (invalid : string -> bool) (config : gmap string string) key :
  (forall v, invalid v = false <-> P v) ->
  (ifKeyExistsInConfig config key && invalid (configValue config key) = false <->
   (forall v, config !! key = Some v -> P v)).
Proof.
  intros HP. unfold ifKeyExistsInConfig, configValue. destruct (config !! key) as [v|]; cbn; [|naive_solver].
  rewrite HP. naive_solver.
Qed.

Lemma validateConfig_nil config : validateConfig config = [] <-> wf_config config.
Proof.
  unfold validateConfig, wf_config. cbn zeta. rewrite !app_nil_iff, !if_nil by done.
  rewrite (config_entry (fun v => exists n, Atoi v = Some n)),
    (config_entry (fun v => ReplaceByte v "-" "_" = QosAtLeastOnce \/ ReplaceByte v "-" "_" = QosAtMostOnce)),
    (config_entry (fun v => v = AuthTypeClientCredentials)),
    (config_entry (fun v => v = GrantTypeClientCredentials)); [done|..]; intros v.
  - unfold IsInvalidGrantType. rewrite negb_false_iff. apply String.eqb_eq.
  - unfold IsInvalidAuthType. rewrite negb_false_iff. apply String.eqb_eq.
  - unfold IsInvalidQoS. by rewrite negb_false_iff, orb_true_iff, !String.eqb_eq.
  - unfold isNotInt. destruct (Atoi v); naive_solver.
Qed.

(** The five labels of a host that ends in [svc.cluster.local]. *)
Lemma suffix_labels host labels : Split "." host = labels -> length labels = 5 ->
  (HasSuffix host clusterLocalURLSuffix = true <->
   exists name ns l3, labels = [name; ns; l3; "cluster"; "local"] /\ HasSuffix l3 "svc" = true).
Proof.
  intros Hs Hlen. rewrite HasSuffix_iff. split.
  - intros (r & ->).
    assert (Split "." (r +:+ clusterLocalURLSuffix) = Split "." (r +:+ "svc") ++ ["cluster"; "local"])%list as Hd.
    { change clusterLocalURLSuffix with ("svc" +:+ String "." "cluster.local").
      rewrite <- app_assoc_s, Split_app. done. }
    rewrite Hd in Hs. subst labels. rewrite length_app in Hlen. cbn [length] in Hlen.
    assert (exists l, Split "." (r +:+ "svc") = l ++ [default "" (last (Split "." (r +:+ "svc")))] /\
      HasSuffix (default "" (last (Split "." (r +:+ "svc")))) "svc" = true)%list as (l & Hl & Hsuf).
    { clear. induction r as [|c r IH]; [exists []; done|]. cbn [String.append Split].
      destruct IH as (l & Hl & Hsuf). set (d := default "" (last (Split "." (r +:+ "svc")))) in *.
      rewrite Hl. destruct (Ascii.eqb c ".").
      - exists ("" :: l). rewrite app_comm_cons, last_snoc. done.
      - destruct l as [|x l]; cbn [app].
        + exists []. cbn. split; [done|]. change (HasSuffix (String c d) "svc" = true).
          cbn [HasSuffix]. by rewrite Hsuf, orb_true_r.
        + exists (String c x :: l). change (String c x :: l ++ [d])%list with ((String c x :: l) ++ [d])%list.
          by rewrite last_snoc. }
    set (d := default _ _) in *. rewrite Hl in Hlen |- *. rewrite length_app in Hlen. cbn in Hlen.
    destruct l as [|a [|b [|]]]; cbn in Hlen; try lia. by exists a, b, d.
  - intros (name & ns & l3 & -> & (q & ->)%HasSuffix_iff).
    exists (name +:+ "." +:+ ns +:+ "." +:+ q). rewrite <- (Join_Split "." host), Hs.
    unfold Join. cbn [String.concat]. rewrite !app_assoc_s. done.
Qed.

Lemma validateSink_None sink namespace :
  validateSink sink namespace = None <->
  IsValidScheme sink = true /\ exists name, sink_target sink name namespace.
Proof.
  unfold validateSink, sink_target, GetSinkData.
  destruct (String.eqb_spec sink "") as [->|_]; [by split; [|intros [? _]]|].
  destruct (IsValidScheme sink); cbn [negb]; [|by split; [|intros [? _]]].
  destruct (ParseRequestURI sink) as [u|e]; [|split; [done|intros (_ & ? & ? & ? & ? & _); done]].
  set (host := default "" _). cbv zeta. remember (Split "." host) as labels eqn:E. symmetry in E.
  destruct (Nat.eqb_spec (length labels) subdomainSegments) as [Hl|Hl]; cbn [negb].
  - pose proof (suffix_labels host labels E Hl) as Hsuf.
    destruct (HasSuffix host clusterLocalURLSuffix); cbn [negb].
    + destruct (proj1 Hsuf eq_refl) as (name & ns & l3 & Hlab & H3). subst labels. rewrite Hlab. cbn [nth].
      destruct (String.eqb_spec namespace ns) as [->|Hne]; cbn [negb]; split; try done.
      * intros _. split; [done|]. exists name, u, l3. split_and!; [done..|]. subst host. by rewrite Hlab.
      * intros (_ & n' & u' & l3' & [= <-] & _ & Hl'). fold host in Hl'. congruence.
    + split; [done|]. intros (_ & n' & u' & l3' & [= <-] & H3' & Hl'). fold host in Hl'.
      discriminate (proj2 Hsuf). exists n', namespace, l3'. split; [congruence|done].
  - split; [by destruct (HasSuffix host clusterLocalURLSuffix)|].
    intros (_ & n' & u' & l3' & [= <-] & H3' & Hl'). fold host in Hl'. destruct Hl. rewrite <- E, Hl'. done.
Qed.

(** The specification of a Subscription has no validation error exactly when it is
    well formed: a known type matching, a source the CloudEvents SDK accepts
    (it may be empty for exact matching only), at least one type, no type
    twice, each type of two segments or more and without the reserved
    prefix unless matching is exact, known values of the settings, and a sink
    of the form service.namespace.svc.cluster.local in the namespace of the Subscription. *)
Lemma validateSpec_nil subscription : validateSpec subscription = [] <-> wf_spec subscription.
Proof.
  unfold validateSpec. rewrite !app_nil_iff, !option_list_nil, validateTypeMatching_None, validateSource_None,
    validateTypes_None, validateConfig_nil, validateSink_None.
  split; [intros (? & ? & ? & ? & ?); by split|intros []; done].
Qed.

(** C23: a Subscription is valid exactly when its specification is well
    formed and the service its sink names exists in its namespace; every error says that the
    validation failed, and a missing service is reported as a sink error. *)
Theorem Validate_spec subscription :
  (Validate subscription = None <->
     wf_spec subscription /\
     exists name, sink_target (Sink (Spec subscription)) name (Namespace (meta subscription)) /\
       serviceExists (Namespace (meta subscription)) name = true) /\
  (forall err, Validate subscription = Some err ->
     errors_Is err (kind_of ErrSubscriptionValidationFailed) = true /\
     (wf_spec subscription -> errors_Is err (kind_of ErrSinkValidationFailed) = true)).
Proof.
  rewrite <- validateSpec_nil. unfold Validate.
  destruct (validateSpec subscription) as [|e es] eqn:E; [|split; [naive_solver|]].
  2:{ intros err [= <-]. split; [apply MakeError_Is_sentinel|]. intros Hw%validateSpec_nil. by rewrite E in Hw. }
  apply validateSpec_nil in E. destruct (ws_sink _ E) as (_ & name & Hname).
  destruct Hname as (u & l3 & Hu & H3 & Hl).
  unfold sinkServiceValidator_validate, GetSinkData. rewrite Hu. cbv zeta. rewrite Hl. cbn [length nth Nat.ltb Nat.leb].
  set (ns := Namespace (meta subscription)) in *. destruct (serviceExists ns name) eqn:Es; cbn [negb].
  - split; [|done]. split; [|done]. intros _. split; [done|]. exists name. split; [|done]. by exists u, l3.
  - split.
    2:{ intros err [= <-]. split; [apply MakeError_Is_sentinel|]. intros _.
        apply MakeError_Is_under, (errors_Is_wraps _ _ _ _ ErrSinkValidationFailed); [constructor|].
        by apply errors_Is_self. }
    split; [done|]. intros (_ & name' & (u' & l3' & Hu' & _ & Hl') & Hs).
    rewrite Hu in Hu'. injection Hu' as <-. rewrite Hl in Hl'. injection Hl' as -> _. congruence.
Qed.
End validator.

(** ** Concrete inputs *)
Definition example_sub (tm source : string) (types : list string) (sink ns : string) : Subscription :=
  mkSubscription (mkMeta "sub" ns "uid" None (Some [Finalizer]))
    (mkSpec sink tm source types ∅) zeroStatus.

Example validate_ok :
  validateSpec (fun _ _ => true)
    (example_sub "standard" "app" ["order.created.v1"] "http://svc.ns.svc.cluster.local:80/path" "ns") = [].
Proof. vm_compute. done. Qed.

Example validate_errors :
  detail <$> validateSpec (fun _ _ => true)
    (example_sub "strict" "" ["a"; "a"] "http://svc.ns.svc.cluster.local" "other") =
  [invalidTypeMatchingErrDetail; emptyErrDetail; duplicateTypesErrDetail;
   namespaceMismatchErrDetail +:+ "ns"].
Proof. vm_compute. done. Qed.

(** The suffix is compared as a string, not by label: a host under another
    domain of the same ending is accepted. *)
Example sink_suffix_not_a_label :
  validateSink "http://svc.ns.notsvc.cluster.local" "ns" = None.
Proof. vm_compute. done. Qed.
