(* ===== verification/Eventing.v ===== *)
(** * The Eventing API: [api/operator/v1alpha1]

    The Eventing resource ([eventing_types.go]) and the operations on its
    status ([status.go]).

    [meta.SetStatusCondition] (apimachinery) and [natsv1alpha1.ConditionsEquals]
    (nats-manager) are outside the repository: the class
    [StatusConditions] holds them, [StatusConditionsLaws] what their
    documentation promises. *)

From S2P Require Import Prelude GoStrings.

(** ** Types *)
Definition StateReady := "Ready".
Definition StateError := "Error".
Definition StateProcessing := "Processing".
Definition StateWarning := "Warning".

Definition ConditionBackendAvailable := "BackendAvailable".
Definition ConditionPublisherProxyReady := "PublisherProxyReady".
Definition ConditionSubscriptionManagerReady := "SubscriptionManagerReady".
Definition ConditionDeleted := "Deleted".

Definition ConditionReasonProcessing := "Processing".
Definition ConditionReasonDeleted := "Deleted".
Definition ConditionReasonStopped := "Stopped".
Definition ConditionReasonDeployed := "Deployed".
Definition ConditionReasonDeployedFailed := "DeployFailed".
Definition ConditionReasonDeploymentStatusSyncFailed := "DeploymentStatusSyncFailed".
Definition ConditionReasonNATSAvailable := "NATSAvailable".
Definition ConditionReasonNATSNotAvailable := "NATSUnavailable".
Definition ConditionReasonBackendNotSpecified := "BackendNotSpecified".
Definition ConditionReasonForbidden := "Forbidden".
Definition ConditionReasonDeletionError := "DeletionError".
Definition ConditionReasonEventMeshConfigAvailable := "EventMeshConfigAvailable".
Definition ConditionReasonEventMeshSubManagerReady := "EventMeshSubscriptionManagerReady".
Definition ConditionReasonEventMeshSubManagerFailed := "EventMeshSubscriptionManagerFailed".
Definition ConditionReasonEventMeshSubManagerStopFailed := "EventMeshSubscriptionManagerStopFailed".

Definition ConditionPublisherProxyReadyMessage := "Publisher proxy is deployed".
Definition ConditionPublisherProxyDeletedMessage := "Publisher proxy is deleted".
Definition ConditionNATSAvailableMessage := "NATS is available".
Definition ConditionPublisherProxyProcessingMessage := "Eventing publisher proxy deployment is in progress".
Definition ConditionSubscriptionManagerReadyMessage := "Subscription manager is ready".
Definition ConditionSubscriptionManagerStoppedMessage := "Subscription manager is stopped".
Definition ConditionBackendNotSpecifiedMessage := "Backend config is not provided. Please specify a backend.".
Definition ConditionEventMeshConfigAvailableMessage := "EventMesh config is available".

Definition getSupportedConditionsTypes : list string :=
  [ConditionBackendAvailable; ConditionPublisherProxyReady; ConditionSubscriptionManagerReady; ConditionDeleted].

(** [kmetav1.Condition]; the observed generation is not used. *)
Record KCondition := mkKCondition {
  kType : string;
  kStatus : string;
  kTime : Z;
  kReason : string;
  kMessage : string
}.
#[global] Instance KCondition_eq_dec : EqDecision KCondition.
Proof. solve_decision. Defined.

Definition KTrue := "True".
Definition KFalse := "False".

Record EventingStatus := mkEventingStatus {
  ActiveBackend : string;
  BackendConfigHash : Z; (* int64 *)
  State : string;
  PublisherService : string;
  eConditions : slice KCondition
}.
#[global] Instance EventingStatus_eq_dec : EqDecision EventingStatus.
Proof. solve_decision. Defined.

Definition EventMeshBackendType := "EventMesh".
Definition NatsBackendType := "NATS".

(** [BackendConfig]; [NATSStreamMaxSize] is the text of the quantity. *)
Record BackendSpecConfig := mkBackendSpecConfig {
  NATSStreamStorageType : string;
  NATSStreamReplicas : Z;
  NATSStreamMaxSize : string;
  NATSMaxMsgsPerTopic : Z;
  EventMeshSecret : string;
  cEventTypePrefix : string;
  Domain : string
}.
#[global] Instance BackendSpecConfig_eq_dec : EqDecision BackendSpecConfig.
Proof. solve_decision. Defined.

(** [Backend] of the Eventing resource. *)
Record BackendSpec := mkBackendSpec { bType : string; bConfig : BackendSpecConfig }.
#[global] Instance BackendSpec_eq_dec : EqDecision BackendSpec.
Proof. solve_decision. Defined.

(** [corev1.ResourceRequirements]: quantities are texts. *)
Record ResourceRequirements := mkResources { Limits : gmap string string; Requests : gmap string string }.
#[global] Instance ResourceRequirements_eq_dec : EqDecision ResourceRequirements.
Proof. solve_decision. Defined.

Record Publisher := mkPublisher { ReplicasMin : Z; ReplicasMax : Z; Resources : ResourceRequirements }.

Record EventingSpec := mkEventingSpec {
  eBackend : option BackendSpec;
  ePublisher : Publisher;
  LogLevel : string;
  sAnnotations : gmap string string;
  sLabels : gmap string string
}.

Record Eventing := mkEventing {
  eName : string;
  eNamespace : string;
  eUID : string;
  eDeletionTimestamp : option Z;
  eFinalizers : list string;
  eGeneration : Z;
  eSpec : EventingSpec;
  eStatus : EventingStatus
}.
Definition set_eStatus (e : Eventing) (s : EventingStatus) : Eventing :=
  mkEventing (eName e) (eNamespace e) (eUID e) (eDeletionTimestamp e) (eFinalizers e) (eGeneration e) (eSpec e) s.
Definition set_eFinalizers (e : Eventing) (f : list string) : Eventing :=
  mkEventing (eName e) (eNamespace e) (eUID e) (eDeletionTimestamp e) f (eGeneration e) (eSpec e) (eStatus e).

(** [Spec.Backend] is a pointer: reading through a nil one panics. *)
Definition backendType (e : Eventing) : option string := bType <$> eBackend (eSpec e).

Definition SyncStatusActiveBackend (e : Eventing) : option Eventing :=
  t ← backendType e;
  Some (set_eStatus e (mkEventingStatus t (BackendConfigHash (eStatus e)) (State (eStatus e))
    (PublisherService (eStatus e)) (eConditions (eStatus e)))).

Definition IsPreviousBackendEmpty (e : Eventing) : bool := String.eqb (ActiveBackend (eStatus e)) "".

Definition IsSpecBackendTypeChanged (e : Eventing) : option bool :=
  t ← backendType e; Some (negb (String.eqb (ActiveBackend (eStatus e)) t)).

Definition HasEmptyBackend (es : EventingSpec) : bool :=
  match eBackend es with None => true | Some b => is_blank (bType b) end.

(** ** Status *)
Definition set_State (s : EventingStatus) (x : string) : EventingStatus :=
  mkEventingStatus (ActiveBackend s) (BackendConfigHash s) x (PublisherService s) (eConditions s).
Definition set_eConditions (s : EventingStatus) (c : slice KCondition) : EventingStatus :=
  mkEventingStatus (ActiveBackend s) (BackendConfigHash s) (State s) (PublisherService s) c.
Definition set_PublisherService (s : EventingStatus) (p : string) : EventingStatus :=
  mkEventingStatus (ActiveBackend s) (BackendConfigHash s) (State s) p (eConditions s).
Definition set_BackendConfigHash (s : EventingStatus) (h : Z) : EventingStatus :=
  mkEventingStatus (ActiveBackend s) h (State s) (PublisherService s) (eConditions s).
Definition set_ActiveBackend (s : EventingStatus) (b : string) : EventingStatus :=
  mkEventingStatus b (BackendConfigHash s) (State s) (PublisherService s) (eConditions s).

Definition findKCondition (l : list KCondition) (t : string) : option KCondition :=
  list_find (fun c => kType c = t) l ≫= fun p => Some p.2.

#[global] Arguments findKCondition : simpl never.

(** The two library functions. *)
Class StatusConditions := {
  SetStatusCondition : list KCondition -> KCondition -> list KCondition;
  KConditionsEquals : list KCondition -> list KCondition -> bool
}.

(** What their documentation says: the condition of that type is set, with its
    transition time changed only when the status differs; no other condition is touched;
    equality looks at the type, the status, the reason and the message. *)
Class StatusConditionsLaws `{StatusConditions} := {
  SetStatusCondition_find_same : forall l c, exists t,
    findKCondition (SetStatusCondition l c) (kType c) =
      Some (mkKCondition (kType c) (kStatus c) t (kReason c) (kMessage c));
  SetStatusCondition_find_other : forall l c ty, ty <> kType c ->
    findKCondition (SetStatusCondition l c) ty = findKCondition l ty;
  KConditionsEquals_refl : forall l, KConditionsEquals l l = true
}.

Section status.
Context `{StatusConditions}.
Implicit Types (es : EventingStatus) (now : Z).

Definition UpdateCondition (ty : string) now es (status reason message : string) : EventingStatus :=
  set_eConditions es
    (Some (SetStatusCondition (elems (eConditions es)) (mkKCondition ty status now reason message))).

Definition UpdateConditionBackendAvailable now es (status reason message : string) : EventingStatus :=
  UpdateCondition ConditionBackendAvailable now es status reason message.
Definition UpdateConditionPublisherProxyReady now es (status reason message : string) : EventingStatus :=
  UpdateCondition ConditionPublisherProxyReady now es status reason message.
Definition UpdateConditionSubscriptionManagerReady now es (status reason message : string) : EventingStatus :=
  UpdateCondition ConditionSubscriptionManagerReady now es status reason message.
Definition UpdateConditionDeletion now es (status reason message : string) : EventingStatus :=
  UpdateCondition ConditionDeleted now es status reason message.

Definition SetSubscriptionManagerReadyConditionToTrue now es : EventingStatus :=
  UpdateConditionSubscriptionManagerReady now es KTrue ConditionReasonEventMeshSubManagerReady
    ConditionSubscriptionManagerReadyMessage.
Definition SetStateReady now es : EventingStatus :=
  let es := set_State es StateReady in
  let es := UpdateConditionBackendAvailable now es KTrue ConditionReasonNATSAvailable ConditionNATSAvailableMessage in
  UpdateConditionPublisherProxyReady now es KTrue ConditionReasonDeployed ConditionPublisherProxyReadyMessage.
Definition SetStateWarning es : EventingStatus := set_State es StateWarning.
Definition SetNATSAvailableConditionToTrue now es : EventingStatus :=
  UpdateConditionBackendAvailable now es KTrue ConditionReasonNATSAvailable ConditionNATSAvailableMessage.
Definition SetEventMeshAvailableConditionToTrue now es : EventingStatus :=
  UpdateConditionBackendAvailable now es KTrue ConditionReasonEventMeshConfigAvailable
    ConditionEventMeshConfigAvailableMessage.
Definition SetSubscriptionManagerReadyConditionToFalse now es (reason message : string) : EventingStatus :=
  UpdateConditionSubscriptionManagerReady now es KFalse reason message.
Definition SetPublisherProxyConditionToFalse now es (reason message : string) : EventingStatus :=
  UpdateConditionPublisherProxyReady now es KFalse reason message.
Definition SetPublisherProxyReadyToTrue now es : EventingStatus :=
  UpdateConditionPublisherProxyReady now (set_State es StateReady) KTrue ConditionReasonDeployed
    ConditionPublisherProxyReadyMessage.
Definition SetStateProcessing es : EventingStatus := set_State es StateProcessing.
Definition SetStateError es : EventingStatus := set_State es StateError.
Definition eClearConditions es : EventingStatus := set_eConditions es (Some []).

Definition EventingStatus_IsEqual es (status : EventingStatus) : bool :=
  bool_decide (set_eConditions es (Some []) = set_eConditions status (Some [])) &&
  KConditionsEquals (elems (eConditions es)) (elems (eConditions status)).

Definition ClearPublisherService es : EventingStatus := set_PublisherService es "".
Definition SetPublisherService es (name namespace : string) : EventingStatus :=
  set_PublisherService es (name +:+ "." +:+ namespace).

Definition RemoveUnsupportedConditions es : EventingStatus :=
  match elems (eConditions es) with
  | [] => es
  | conditions =>
      set_eConditions es (Some (filter (fun c => kType c ∈ getSupportedConditionsTypes) conditions))
  end.
End status.

(** * Theorems *)

(** A condition as a reader sees it: the status, the reason and the message. *)
Definition reads (es : EventingStatus) (ty status reason message : string) : Prop :=
  exists t, findKCondition (elems (eConditions es)) ty = Some (mkKCondition ty status t reason message).

Section status_lemmas.
Context `{StatusConditionsLaws}.

Lemma UpdateCondition_reads ty now es status reason message :
  reads (UpdateCondition ty now es status reason message) ty status reason message.
Proof.
  destruct (SetStatusCondition_find_same (elems (eConditions es)) (mkKCondition ty status now reason message)) as (t & Ht).
  by exists t.
Qed.

Lemma UpdateCondition_other ty now es status reason message ty' s r m : ty' <> ty ->
  reads (UpdateCondition ty now es status reason message) ty' s r m <-> reads es ty' s r m.
Proof. intros Hne. unfold reads. cbn. by rewrite SetStatusCondition_find_other. Qed.

Lemma UpdateCondition_frame ty now es status reason message :
  let es' := UpdateCondition ty now es status reason message in
  State es' = State es /\ ActiveBackend es' = ActiveBackend es /\ BackendConfigHash es' = BackendConfigHash es /\
  PublisherService es' = PublisherService es.
Proof. done. Qed.
End status_lemmas.

Lemma RemoveUnsupportedConditions_elems es :
  elems (eConditions (RemoveUnsupportedConditions es)) =
    filter (fun c => kType c ∈ getSupportedConditionsTypes) (elems (eConditions es)).
Proof. unfold RemoveUnsupportedConditions. by destruct (elems (eConditions es)) eqn:E; rewrite ?E. Qed.
