(* ===== verification/DeepCopy.v ===== *)
(** * Deep copies: [zz_generated.deepcopy.go] of [api/eventing/v1alpha2] and [api/operator/v1alpha1]

    The functions run on a store, so that sharing is visible: a pointer, a slice and a map of Go are locations of cells.  A slice
    is the location of its whole backing array.  An object of the store denotes a value of [Subscription] or [Eventing]; the theorems say
    that a copy denotes the same value and lives in new cells only, so that neither is changed by what is written to the
    other.  This is what lets the other files return a mutated copy as a value.

    A cell that is made and then written once is allocated with its contents.  The library types with a [DeepCopyInto] of their own are
    parameters with the promise of that function; [metav1.Time] is copied by assignment, as its documentation says. *)

From S2P Require Import Prelude Subscription Eventing.

Abbreviation loc := positive.
(** A pointer, a slice or a map; nil is [None]. *)
Abbreviation ptr := (option positive).
Definition dangling : string := "invalid memory address or nil pointer dereference".

(** ** The store *)
Section copied.
Context {cell : Type}.
Abbreviation mem := (gmap loc cell).
Implicit Types (m f : mem) (p : ptr).

(** A type whose values are stored in cells. *)
Class Stored (A : Type) := { inj : A -> cell; proj : cell -> option A; proj_inj : forall x, proj (inj x) = Some x }.

Definition load {A} `{Stored A} (l : loc) : M mem A := fun m =>
  match m !! l ≫= proj with Some x => (Ok x, m) | None => (Panic dangling, m) end.
Definition new {A} `{Stored A} (x : A) : M mem loc := fun m => let l := fresh (dom m) in (Ok l, <[l := inj x]> m).

(** [G] is a Go type, [V] the type of the values that its objects denote in a store.  The copy keeps the store, and denotes the same
    value in the new part of the store alone. *)
Class Copied (G V : Type) := {
  denotes : mem -> G -> V -> Prop;
  DeepCopyInto : G -> M mem G;
  denotes_mono : forall m m' g v, m ⊆ m' -> denotes m g v -> denotes m' g v;
  copy_ok : forall m g v, denotes m g v -> exists g' m', DeepCopyInto g m = (Ok g', m') /\ m ⊆ m' /\ denotes (m' ∖ m) g' v
}.

(** The computation keeps the store and makes something that satisfies [P] in the new part. *)
Definition makes {A} (c : M mem A) m (P : mem -> A -> Prop) : Prop := exists a m', c m = (Ok a, m') /\ m ⊆ m' /\ P (m' ∖ m) a.

Lemma makes_ret {A} (a : A) m (P : mem -> A -> Prop) : P ∅ a -> makes (retM a) m P.
Proof. intros Hp. exists a, m. split; [done|]. split; [done|]. by rewrite map_difference_diag. Qed.
Lemma makes_bind {A B} (c : M mem A) (k : A -> M mem B) m P Q : (forall f f' a, f ⊆ f' -> P f a -> P f' a) -> makes c m P ->
  (forall a m1, m ⊆ m1 -> P (m1 ∖ m) a -> makes (k a) m1 (fun f b => forall f', f ⊆ f' -> P f' a -> Q f' b)) -> makes (bindM c k) m Q.
Proof.
  intros Hmono (a & m1 & E1 & H1 & Pa) Hk. destruct (Hk a m1 H1 Pa) as (b & m2 & E2 & H2 & Hq). exists b, m2. rewrite (bindM_run _ _ _ _ _ E1).
  split; [done|]. split; [by etransitivity|]. apply Hq.
  - apply map_subseteq_spec. intros l x [Hl Hn]%lookup_difference_Some. apply lookup_difference_Some. split; [done|].
    apply eq_None_not_Some. intros [y Hy]. apply (lookup_weaken _ _ _ _ Hy) in H1. congruence.
  - eapply Hmono; [|exact Pa]. apply map_subseteq_spec. intros l x [Hl Hn]%lookup_difference_Some. apply lookup_difference_Some.
    split; [by eapply lookup_weaken|done].
Qed.
Lemma makes_load {A} `{Stored A} l (x : A) m : m !! l = Some (inj x) -> makes (load l) m (fun _ y => y = x).
Proof. intros Hl. exists x, m. unfold load. rewrite Hl. cbn. by rewrite proj_inj. Qed.
Lemma makes_new {A} `{Stored A} (x : A) m : makes (new x) m (fun f l => f !! l = Some (inj x)).
Proof.
  pose proof (is_fresh (dom m)) as Hf. apply not_elem_of_dom in Hf. eexists _, _. split; [done|]. split; [by apply insert_subseteq|].
  apply lookup_difference_Some. by rewrite lookup_insert_eq.
Qed.
Lemma makes_copy {G V} `{Copied G V} m m1 g v : denotes m g v -> m ⊆ m1 -> makes (DeepCopyInto g) m1 (fun f g' => denotes f g' v).
Proof. intros Hd Hm. by apply copy_ok, (denotes_mono m). Qed.
End copied.
#[global] Arguments Stored : clear implicits.
#[global] Arguments Copied : clear implicits.

(** ** The instances for the kinds of types *)
Section kinds.
Context {cell : Type}.
Abbreviation mem := (gmap loc cell).
Implicit Types (m f : mem) (p : ptr).

(** [*out = *in] of a type without pointers, and [copy] of a slice of them. *)
Definition assigned (A : Type) : Copied cell A A.
Proof.
  refine {| denotes _ g v := g = v; DeepCopyInto g := retM g |}; [done|].
  intros m g v ->. by exists v, m.
Defined.

(** A type whose [DeepCopyInto] is an assignment. *)
Definition assigning {A} (into : A -> M (gmap loc cell) A) (H : forall x, into x = retM x) : Copied cell A A.
Proof.
  refine {| denotes _ g v := g = v; DeepCopyInto := into |}; [done|]. intros m g v ->. rewrite H. by exists v, m.
Defined.

(** [for key, val := range *in { ( *out)[key] = val }]. *)
Definition copied_map : Copied cell (gmap string string) (gmap string string).
Proof.
  refine {| denotes _ g v := g = v; DeepCopyInto g := retM (list_to_map (map_to_list g)) |}; [done|].
  intros m g v ->. exists v, m. by rewrite list_to_map_to_list.
Defined.

Section slice.
Context {G V : Type} `{!Copied cell G V}.

(** [for i := range *in { ( *in)[i].DeepCopyInto(&( *out)[i]) }]. *)
Fixpoint copyElements (l : list G) : M mem (list G) :=
  match l with
  | [] => retM []
  | x :: l => y <- DeepCopyInto x ;; l' <- copyElements l ;; retM (y :: l')
  end.
Lemma Forall2_mono m m' (l : list G) (vs : list V) : m ⊆ m' -> Forall2 (denotes m) l vs -> Forall2 (denotes m') l vs.
Proof. intros Hm Hl. eapply Forall2_impl; [exact Hl|]. intros g v. by apply denotes_mono. Qed.
Lemma copyElements_ok m l vs : Forall2 (denotes m) l vs -> makes (copyElements l) m (fun f l' => Forall2 (denotes f) l' vs).
Proof.
  intros Hl. revert m Hl. induction l as [|x l IH] in vs |- *; intros m Hl; inversion Hl as [|? v ? vs' Hx Hl']; subst.
  - apply makes_ret. constructor.
  - cbn [copyElements]. eapply makes_bind; [|by eapply makes_copy|].
    { intros f f' a Hf. apply (denotes_mono f f'); done. }
    intros y m1 Hm1 _. eapply makes_bind; [|apply (IH vs'); by eapply Forall2_mono|].
    { intros f f' a Hf. by apply Forall2_mono. }
    intros l' m2 Hm2 _. apply makes_ret. intros f2 _ Hl2 f1 Hf1 Hy. constructor; [done|]. by eapply Forall2_mono.
Qed.
Definition copied_slice : Copied cell (list G) (list V).
Proof using Copied0. refine {| denotes m := Forall2 (denotes m); DeepCopyInto := copyElements |}; [apply Forall2_mono|apply copyElements_ok]. Defined.
End slice.

(** A field [F] of a pointer, slice or map type: [if in.F != nil { ... }]; and [DeepCopy], which has the same body. *)
Section pointer.
Context {G V : Type} `{!Copied cell G V} `{!Stored cell G}.

Definition points m p (v : option V) : Prop :=
  match p, v with
  | None, None => True
  | Some l, Some x => exists g, m !! l = Some (inj g) /\ denotes m g x
  | _, _ => False
  end.
Definition copyPtr p : M mem ptr :=
  match p with
  | None => retM None
  | Some l => x <- load l ;; y <- DeepCopyInto x ;; l' <- new y ;; retM (Some l')
  end.

Lemma points_mono m m' p v : m ⊆ m' -> points m p v -> points m' p v.
Proof.
  intros Hm. destruct p as [l|], v as [x|]; cbn; [|done..]. intros (g & Hl & Hd). exists g. split; [by eapply lookup_weaken|by eapply denotes_mono].
Qed.
Lemma makes_ptr m m1 p v : points m p v -> m ⊆ m1 -> makes (copyPtr p) m1 (fun f p' => points f p' v).
Proof.
  intros Hp Hm. apply (points_mono m m1 p v Hm) in Hp. destruct p as [l|], v as [x|]; [|done..|by apply makes_ret]. destruct Hp as (g & Hl & Hd). cbn [copyPtr].
  eapply makes_bind; [|by eapply makes_load|]; [done|]. intros ? m2 Hm2 ->.
  eapply makes_bind; [|by eapply makes_copy|]; [intros f f' a Hf; by apply denotes_mono|]. intros g' m3 Hm3 _.
  eapply makes_bind; [|by eapply makes_new|]; [intros f f' l' Hf Hl'; exact (lookup_weaken _ _ _ _ Hl' Hf)|]. intros l' m4 Hm4 _.
  apply makes_ret. intros f _ Hl' f' Hf' Hd' f'' Hf'' _. exists g'. split; [|by eapply denotes_mono]. exact (lookup_weaken _ _ _ _ (lookup_weaken _ _ _ _ Hl' Hf') Hf'').
Qed.

(** [c] makes a copy of what [p] denotes: [p] denotes it in every store that keeps the old cells, whatever became of the new ones, and
    the copy in every store that keeps the new cells, whatever became of the old ones. *)
Definition copies (c : ptr -> M mem ptr) m p (v : option V) : Prop := exists p' m', c p m = (Ok p', m') /\ m ⊆ m' /\
  (forall m2, m ⊆ m2 -> points m2 p v) /\ (forall m2, m' ∖ m ⊆ m2 -> points m2 p' v).
Lemma copyPtr_copies m p v : points m p v -> copies copyPtr m p v.
Proof.
  intros Hp. destruct (makes_ptr m m p v Hp ltac:(done)) as (p' & m' & E & Hm & Hp'). exists p', m'. split; [done|]. split; [done|].
  split; intros m2 H2; by eapply points_mono.
Qed.
(** [if c := in.DeepCopy(); c != nil { return c }; return nil]. *)
Lemma copies_object c m p v : copies c m p v -> copies (fun p => x <- c p ;; match x with Some x => retM (Some x) | None => retM None end) m p v.
Proof.
  intros (p' & m' & E & H). exists p', m'. cbn beta. rewrite (bindM_run _ _ _ _ _ E). split; [by destruct p'|done].
Qed.
End pointer.
End kinds.

(** ** Proofs about structs

    [copy_field H] runs the copy of the field that [H] is about; [copy_done] collects what was made. *)
Ltac copy_mono := intros ? ? ? ?; first [by apply points_mono | by apply denotes_mono].
Ltac copy_field H :=
  eapply makes_bind; [|first [eapply makes_ptr; [exact H|]|eapply makes_copy; [exact H|]]; repeat first [reflexivity|etransitivity; [eassumption|]]|];
  [copy_mono|intros ? ? ? _].
Ltac forward :=
  repeat match goal with
  | Hs : ?f ⊆ ?f', H : points ?f ?p ?v |- _ => apply (points_mono f f' p v Hs) in H
  | Hs : ?f ⊆ ?f', H : denotes ?f ?g ?v |- _ => apply (denotes_mono f f' g v Hs) in H
  end.
Ltac copy_done :=
  apply makes_ret; intros; forward; hnf;
  repeat match goal with |- exists _, _ => eexists | |- _ /\ _ => split end; cbn; first [eassumption|reflexivity].
Ltac struct_mono :=
  let m := fresh "m" in let m' := fresh "m'" in let x := fresh "x" in let v := fresh "v" in let Hm := fresh "Hm" in let H := fresh "H" in
  intros m m' x v Hm H; hnf in H; hnf; repeat (let y := fresh "y" in lazymatch type of H with (exists _, _) => destruct H as [y H] | _ /\ _ => destruct H as [y H] end);
  repeat match goal with |- exists _, _ => eexists | |- _ /\ _ => split end;
  first [exact H | eapply points_mono; [exact Hm|eassumption] | eapply denotes_mono; [exact Hm|eassumption]].

(** ** [api/eventing/v1alpha2] *)
Module v1alpha2.
Record TypeMeta := mkTypeMeta { Kind : string; APIVersion : string }.
Record gBackend := mkGBackend {
  gEv2hash : Z; gEventMeshHash : Z; gEventMeshLocalHash : Z; gWebhookAuthHash : Z;
  gExternalSink : string; gFailedActivation : string; gAPIRuleName : string;
  gEventMeshSubscriptionStatus : ptr; gbTypes : ptr; gEmsTypes : ptr }.
Record gSubscriptionStatus := mkGStatus { gConditions : ptr; gReady : bool; gTypes : ptr; gsBackend : gBackend }.
Record gSubscriptionSpec := mkGSpec { gSink : string; gTypeMatching : string; gSource : string; gspTypes : ptr; gConfig : ptr }.
Record gSubscription {GMeta : Type} := mkGSubscription { gTypeMeta : TypeMeta; gMeta : GMeta; gSpec : gSubscriptionSpec; gStatus : gSubscriptionStatus }.
#[global] Arguments gSubscription : clear implicits.
#[global] Arguments mkGSubscription {_} _ _ _ _.
Record gSubscriptionList {GListMeta : Type} := mkGSubscriptionList { glTypeMeta : TypeMeta; glMeta : GListMeta; glItems : ptr }.
#[global] Arguments gSubscriptionList : clear implicits.
#[global] Arguments mkGSubscriptionList {_} _ _ _.

(** What a list of Subscriptions denotes. *)
Record SubscriptionList {LV : Type} := mkSubscriptionList { slMeta : LV; slItems : slice Subscription }.
#[global] Arguments SubscriptionList : clear implicits.
#[global] Arguments mkSubscriptionList {_} _ _.

Inductive cell {LibCell GMeta GListMeta : Type} :=
  | CLib (x : LibCell)
  | CStrings (x : list string)
  | CMap (x : gmap string string)
  | CEMStatus (x : EventMeshSubscriptionStatus)
  | CEventMeshTypes (x : EventMeshTypes)
  | CEventType (x : EventType)
  | CJetStreamType (x : JetStreamTypes)
  | CJetStreamTypes (x : list JetStreamTypes)
  | CEmsTypes (x : list EventMeshTypes)
  | CEventTypes (x : list EventType)
  | CCondition (x : Condition)
  | CConditions (x : list Condition)
  | CBackend (x : gBackend)
  | CStatus (x : gSubscriptionStatus)
  | CSpec (x : gSubscriptionSpec)
  | CSubscription (x : gSubscription GMeta)
  | CSubscriptions (x : list (gSubscription GMeta))
  | CSubscriptionList (x : gSubscriptionList GListMeta).
#[global] Arguments cell : clear implicits.

Section functions.
Context (LibCell GMeta GListMeta LV : Type).
Abbreviation cells := (cell LibCell GMeta GListMeta).
Abbreviation mem := (gmap loc cells).
Implicit Types (m f : mem).

#[export] Instance stored_strings : Stored cells (list string) :=
  {| inj := CStrings; proj x := match x with CStrings y => Some y | _ => None end; proj_inj _ := eq_refl |}.
#[export] Instance stored_map : Stored cells (gmap string string) :=
  {| inj := CMap; proj x := match x with CMap y => Some y | _ => None end; proj_inj _ := eq_refl |}.
#[export] Instance stored_emstatus : Stored cells EventMeshSubscriptionStatus :=
  {| inj := CEMStatus; proj x := match x with CEMStatus y => Some y | _ => None end; proj_inj _ := eq_refl |}.
#[export] Instance stored_emtype : Stored cells EventMeshTypes :=
  {| inj := CEventMeshTypes; proj x := match x with CEventMeshTypes y => Some y | _ => None end; proj_inj _ := eq_refl |}.
#[export] Instance stored_eventtype : Stored cells EventType :=
  {| inj := CEventType; proj x := match x with CEventType y => Some y | _ => None end; proj_inj _ := eq_refl |}.
#[export] Instance stored_jstype : Stored cells JetStreamTypes :=
  {| inj := CJetStreamType; proj x := match x with CJetStreamType y => Some y | _ => None end; proj_inj _ := eq_refl |}.
#[export] Instance stored_jstypes : Stored cells (list JetStreamTypes) :=
  {| inj := CJetStreamTypes; proj x := match x with CJetStreamTypes y => Some y | _ => None end; proj_inj _ := eq_refl |}.
#[export] Instance stored_emtypes : Stored cells (list EventMeshTypes) :=
  {| inj := CEmsTypes; proj x := match x with CEmsTypes y => Some y | _ => None end; proj_inj _ := eq_refl |}.
#[export] Instance stored_eventtypes : Stored cells (list EventType) :=
  {| inj := CEventTypes; proj x := match x with CEventTypes y => Some y | _ => None end; proj_inj _ := eq_refl |}.
#[export] Instance stored_condition : Stored cells Condition :=
  {| inj := CCondition; proj x := match x with CCondition y => Some y | _ => None end; proj_inj _ := eq_refl |}.
#[export] Instance stored_conditions : Stored cells (list Condition) :=
  {| inj := CConditions; proj x := match x with CConditions y => Some y | _ => None end; proj_inj _ := eq_refl |}.
#[export] Instance stored_backend : Stored cells gBackend :=
  {| inj := CBackend; proj x := match x with CBackend y => Some y | _ => None end; proj_inj _ := eq_refl |}.
#[export] Instance stored_status : Stored cells gSubscriptionStatus :=
  {| inj := CStatus; proj x := match x with CStatus y => Some y | _ => None end; proj_inj _ := eq_refl |}.
#[export] Instance stored_spec : Stored cells gSubscriptionSpec :=
  {| inj := CSpec; proj x := match x with CSpec y => Some y | _ => None end; proj_inj _ := eq_refl |}.
#[export] Instance stored_subscription : Stored cells (gSubscription GMeta) :=
  {| inj := CSubscription; proj x := match x with CSubscription y => Some y | _ => None end; proj_inj _ := eq_refl |}.
#[export] Instance stored_subscriptions : Stored cells (list (gSubscription GMeta)) :=
  {| inj := CSubscriptions; proj x := match x with CSubscriptions y => Some y | _ => None end; proj_inj _ := eq_refl |}.
#[export] Instance stored_list : Stored cells (gSubscriptionList GListMeta) :=
  {| inj := CSubscriptionList; proj x := match x with CSubscriptionList y => Some y | _ => None end; proj_inj _ := eq_refl |}.

(** *** Types without pointers: [*out = *in] *)
Definition EventMeshSubscriptionStatus_DeepCopyInto (x : EventMeshSubscriptionStatus) : M mem EventMeshSubscriptionStatus := retM x.
Definition EventMeshTypes_DeepCopyInto (x : EventMeshTypes) : M mem EventMeshTypes := retM x.
Definition EventType_DeepCopyInto (x : EventType) : M mem EventType := retM x.
Definition JetStreamTypes_DeepCopyInto (x : JetStreamTypes) : M mem JetStreamTypes := retM x.
(** The time is copied by assignment. *)
Definition Condition_DeepCopyInto (x : Condition) : M mem Condition := retM x.

#[export] Instance EventMeshSubscriptionStatus_copied : Copied cells _ _ := assigning EventMeshSubscriptionStatus_DeepCopyInto (fun _ => eq_refl).
#[export] Instance EventMeshTypes_copied : Copied cells _ _ := assigning EventMeshTypes_DeepCopyInto (fun _ => eq_refl).
#[export] Instance EventType_copied : Copied cells _ _ := assigning EventType_DeepCopyInto (fun _ => eq_refl).
#[export] Instance JetStreamTypes_copied : Copied cells _ _ := assigning JetStreamTypes_DeepCopyInto (fun _ => eq_refl).
#[export] Instance Condition_copied : Copied cells _ _ := assigning Condition_DeepCopyInto (fun _ => eq_refl).
(** [copy( *out, *in)] and the loops over maps and conditions. *)
#[export] Instance strings_copied : Copied cells (list string) (list string) := assigned _.
#[export] Instance jstypes_copied : Copied cells (list JetStreamTypes) (list JetStreamTypes) := assigned _.
#[export] Instance emtypes_copied : Copied cells (list EventMeshTypes) (list EventMeshTypes) := assigned _.
#[export] Instance eventtypes_copied : Copied cells (list EventType) (list EventType) := assigned _.
#[export] Instance map_copied : Copied cells (gmap string string) (gmap string string) := copied_map.
#[export] Instance conditions_copied : Copied cells (list Condition) (list Condition) := copied_slice.

(** *** Structs *)
Definition Backend_DeepCopyInto (x : gBackend) : M mem gBackend :=
  s <- copyPtr (G := EventMeshSubscriptionStatus) (gEventMeshSubscriptionStatus x) ;;
  t <- copyPtr (G := list JetStreamTypes) (gbTypes x) ;;
  e <- copyPtr (G := list EventMeshTypes) (gEmsTypes x) ;;
  retM (mkGBackend (gEv2hash x) (gEventMeshHash x) (gEventMeshLocalHash x) (gWebhookAuthHash x) (gExternalSink x) (gFailedActivation x) (gAPIRuleName x) s t e).
Definition Backend_denotes m (x : gBackend) (b : Backend) : Prop := exists s t e,
  points m (gEventMeshSubscriptionStatus x) s /\ points m (gbTypes x) t /\ points m (gEmsTypes x) e /\
  b = mkBackend (gEv2hash x) (gEventMeshHash x) (gEventMeshLocalHash x) (gWebhookAuthHash x) (gExternalSink x) (gFailedActivation x) (gAPIRuleName x) s t e.
#[export] Instance Backend_copied : Copied cells gBackend Backend.
Proof.
  refine {| denotes := Backend_denotes; DeepCopyInto := Backend_DeepCopyInto |}; [struct_mono|].
  intros m x b (s & t & e & Hs & Ht & He & ->). change (makes (Backend_DeepCopyInto x) m (fun f y => Backend_denotes f y
    (mkBackend (gEv2hash x) (gEventMeshHash x) (gEventMeshLocalHash x) (gWebhookAuthHash x) (gExternalSink x) (gFailedActivation x) (gAPIRuleName x) s t e))).
  unfold Backend_DeepCopyInto. copy_field Hs. copy_field Ht. copy_field He. copy_done.
Defined.

Definition SubscriptionSpec_DeepCopyInto (x : gSubscriptionSpec) : M mem gSubscriptionSpec :=
  t <- copyPtr (G := list string) (gspTypes x) ;;
  c <- copyPtr (G := gmap string string) (gConfig x) ;;
  retM (mkGSpec (gSink x) (gTypeMatching x) (gSource x) t c).
(** The model does not tell a nil list of types, or a nil map, from an empty one. *)
Definition SubscriptionSpec_denotes m (x : gSubscriptionSpec) (s : SubscriptionSpec) : Prop := exists t c,
  points m (gspTypes x) t /\ points m (gConfig x) c /\ s = mkSpec (gSink x) (gTypeMatching x) (gSource x) (elems t) (default ∅ c).
#[export] Instance SubscriptionSpec_copied : Copied cells gSubscriptionSpec SubscriptionSpec.
Proof.
  refine {| denotes := SubscriptionSpec_denotes; DeepCopyInto := SubscriptionSpec_DeepCopyInto |}; [struct_mono|].
  intros m x s (t & c & Ht & Hc & ->). fold (makes (SubscriptionSpec_DeepCopyInto x) m (fun f y => SubscriptionSpec_denotes f y
    (mkSpec (gSink x) (gTypeMatching x) (gSource x) (elems t) (default ∅ c)))).
  unfold SubscriptionSpec_DeepCopyInto. copy_field Ht. copy_field Hc. copy_done.
Defined.

Definition SubscriptionStatus_DeepCopyInto (x : gSubscriptionStatus) : M mem gSubscriptionStatus :=
  c <- copyPtr (G := list Condition) (gConditions x) ;;
  t <- copyPtr (G := list EventType) (gTypes x) ;;
  b <- Backend_DeepCopyInto (gsBackend x) ;;
  retM (mkGStatus c (gReady x) t b).
Definition SubscriptionStatus_denotes m (x : gSubscriptionStatus) (s : SubscriptionStatus) : Prop := exists c t b,
  points m (gConditions x) c /\ points m (gTypes x) t /\ denotes m (gsBackend x) b /\ s = mkStatus (elems c) (gReady x) t b.
#[export] Instance SubscriptionStatus_copied : Copied cells gSubscriptionStatus SubscriptionStatus.
Proof.
  refine {| denotes := SubscriptionStatus_denotes; DeepCopyInto := SubscriptionStatus_DeepCopyInto |}; [struct_mono|].
  intros m x s (c & t & b & Hc & Ht & Hb & ->). fold (makes (SubscriptionStatus_DeepCopyInto x) m (fun f y => SubscriptionStatus_denotes f y
    (mkStatus (elems c) (gReady x) t b))).
  unfold SubscriptionStatus_DeepCopyInto. change (Backend_DeepCopyInto (gsBackend x)) with (DeepCopyInto (gsBackend x)).
  copy_field Hc. copy_field Ht. copy_field Hb. copy_done.
Defined.

(** The metadata of an object and of a list, with what the program sees of them. *)
Context `{!Copied cells GMeta ObjectMeta} `{!Copied cells GListMeta LV}.

Definition Subscription_DeepCopyInto (x : gSubscription GMeta) : M mem (gSubscription GMeta) :=
  m <- DeepCopyInto (gMeta x) ;;
  sp <- SubscriptionSpec_DeepCopyInto (gSpec x) ;;
  s <- SubscriptionStatus_DeepCopyInto (gStatus x) ;;
  retM (mkGSubscription (gTypeMeta x) m sp s).
Definition Subscription_denotes m (x : gSubscription GMeta) (s : Subscription) : Prop := exists o sp st,
  denotes m (gMeta x) o /\ denotes m (gSpec x) sp /\ denotes m (gStatus x) st /\ s = mkSubscription o sp st.
#[export] Instance Subscription_copied : Copied cells (gSubscription GMeta) Subscription.
Proof using Copied0.
  refine {| denotes := Subscription_denotes; DeepCopyInto := Subscription_DeepCopyInto |}; [struct_mono|].
  intros m x s (o & sp & st & Ho & Hsp & Hst & ->). fold (makes (Subscription_DeepCopyInto x) m (fun f y => Subscription_denotes f y (mkSubscription o sp st))).
  unfold Subscription_DeepCopyInto. change (SubscriptionSpec_DeepCopyInto (gSpec x)) with (DeepCopyInto (gSpec x)).
  change (SubscriptionStatus_DeepCopyInto (gStatus x)) with (DeepCopyInto (gStatus x)).
  copy_field Ho. copy_field Hsp. copy_field Hst. copy_done.
Defined.
#[export] Instance subscriptions_copied : Copied cells (list (gSubscription GMeta)) (list Subscription) := copied_slice.

Definition SubscriptionList_DeepCopyInto (x : gSubscriptionList GListMeta) : M mem (gSubscriptionList GListMeta) :=
  m <- DeepCopyInto (glMeta x) ;;
  i <- copyPtr (G := list (gSubscription GMeta)) (glItems x) ;;
  retM (mkGSubscriptionList (glTypeMeta x) m i).
Definition SubscriptionList_denotes m (x : gSubscriptionList GListMeta) (l : SubscriptionList LV) : Prop := exists o i,
  denotes m (glMeta x) o /\ points m (glItems x) i /\ l = mkSubscriptionList o i.
#[export] Instance SubscriptionList_copied : Copied cells (gSubscriptionList GListMeta) (SubscriptionList LV).
Proof using Copied0 Copied1.
  refine {| denotes := SubscriptionList_denotes; DeepCopyInto := SubscriptionList_DeepCopyInto |}; [struct_mono|].
  intros m x s (o & i & Ho & Hi & ->). fold (makes (SubscriptionList_DeepCopyInto x) m (fun f y => SubscriptionList_denotes f y (mkSubscriptionList o i))).
  unfold SubscriptionList_DeepCopyInto. copy_field Ho. copy_field Hi. copy_done.
Defined.

(** *** [DeepCopy]: nil for nil, otherwise a new object *)
Definition Backend_DeepCopy : ptr -> M mem ptr := copyPtr (G := gBackend).
Definition Condition_DeepCopy : ptr -> M mem ptr := copyPtr (G := Condition).
Definition EventMeshSubscriptionStatus_DeepCopy : ptr -> M mem ptr := copyPtr (G := EventMeshSubscriptionStatus).
Definition EventMeshTypes_DeepCopy : ptr -> M mem ptr := copyPtr (G := EventMeshTypes).
Definition EventType_DeepCopy : ptr -> M mem ptr := copyPtr (G := EventType).
Definition JetStreamTypes_DeepCopy : ptr -> M mem ptr := copyPtr (G := JetStreamTypes).
Definition SubscriptionSpec_DeepCopy : ptr -> M mem ptr := copyPtr (G := gSubscriptionSpec).
Definition SubscriptionStatus_DeepCopy : ptr -> M mem ptr := copyPtr (G := gSubscriptionStatus).
Definition Subscription_DeepCopy : ptr -> M mem ptr := copyPtr (G := gSubscription GMeta).
Definition SubscriptionList_DeepCopy : ptr -> M mem ptr := copyPtr (G := gSubscriptionList GListMeta).
(** [DeepCopyObject]: an interface that is nil when the pointer is. *)
Definition Subscription_DeepCopyObject (p : ptr) : M mem ptr := c <- Subscription_DeepCopy p ;; match c with Some c => retM (Some c) | None => retM None end.
Definition SubscriptionList_DeepCopyObject (p : ptr) : M mem ptr := c <- SubscriptionList_DeepCopy p ;; match c with Some c => retM (Some c) | None => retM None end.

(** C33: a deep copy of a Subscription, or of a list of them, is made without a panic, also of nil.  It denotes the same value as the
    original, and shares no cell with it: the original keeps its value whatever is written to the cells of the copy, and the copy keeps
    it whatever is written to the cells of the original. *)
Theorem Subscription_DeepCopy_independent :
  (forall m p v, points (G := gSubscription GMeta) m p v ->
    copies (G := gSubscription GMeta) Subscription_DeepCopy m p v /\ copies (G := gSubscription GMeta) Subscription_DeepCopyObject m p v) /\
  (forall m p v, points (G := gSubscriptionList GListMeta) m p v ->
    copies (G := gSubscriptionList GListMeta) SubscriptionList_DeepCopy m p v /\
    copies (G := gSubscriptionList GListMeta) SubscriptionList_DeepCopyObject m p v).
Proof using All.
  split; intros m p v Hp; (split; [|apply copies_object]); by apply copyPtr_copies.
Qed.
End functions.

(** ** An object in a store *)
#[local] Instance meta_copied : Copied (cell Empty_set ObjectMeta unit) ObjectMeta ObjectMeta := assigned _.
#[local] Instance listmeta_copied : Copied (cell Empty_set ObjectMeta unit) unit unit := assigned _.

Definition witnessCondition : Condition := mkCondition ConditionSubscriptionActive ConditionTrue 7 "NATS Subscription active" "".
Definition witnessObject : gSubscription ObjectMeta := mkGSubscription (mkTypeMeta "Subscription" "eventing.kyma-project.io/v1alpha2")
  (mkMeta "sub" "ns" "1" None None) (mkGSpec "http://s.ns.svc" "standard" "app" (Some 1%positive) (Some 2%positive))
  (mkGStatus (Some 3%positive) true (Some 4%positive) (mkGBackend 0 0 0 0 "" "" "" None (Some 5%positive) None)).
Definition witnessStore : gmap loc (cell Empty_set ObjectMeta unit) :=
  {[ 1%positive := CStrings ["order.created.v1"]; 2%positive := CMap {["maxInFlightMessages" := "10"]}; 3%positive := CConditions [witnessCondition];
     4%positive := CEventTypes [mkEventType "order.created.v1" "order.created.v1"]; 5%positive := CJetStreamTypes [mkJetStreamTypes "order.created.v1" "c"];
     6%positive := CSubscription witnessObject ]}.
Definition witnessValue : Subscription := mkSubscription (mkMeta "sub" "ns" "1" None None)
  (mkSpec "http://s.ns.svc" "standard" "app" ["order.created.v1"] {["maxInFlightMessages" := "10"]})
  (mkStatus [witnessCondition] true (Some [mkEventType "order.created.v1" "order.created.v1"])
    (mkBackend 0 0 0 0 "" "" "" None (Some [mkJetStreamTypes "order.created.v1" "c"]) None)).
Lemma witness_points : points (G := gSubscription ObjectMeta) witnessStore (Some 6%positive) (Some witnessValue).
Proof.
  exists witnessObject. split; [done|]. eexists _, _, _. split; [done|]. split; [|split; [|reflexivity]].
  - exists (Some ["order.created.v1"]), (Some {["maxInFlightMessages" := "10"]}). split; [by eexists|]. split; [by eexists|]. done.
  - exists (Some [witnessCondition]), (Some [mkEventType "order.created.v1" "order.created.v1"]).
    exists (mkBackend 0 0 0 0 "" "" "" None (Some [mkJetStreamTypes "order.created.v1" "c"]) None).
    split; [|split; [by eexists|split; [|done]]].
    + exists [witnessCondition]. split; [done|]. by repeat constructor.
    + exists None, (Some [mkJetStreamTypes "order.created.v1" "c"]), None. split; [done|]. split; [by eexists|]. done.
Qed.

(** The copy denotes the value, and the original still does after every cell of the copy was overwritten. *)
Lemma Subscription_DeepCopy_independent_witness : exists p' m',
  Subscription_DeepCopy Empty_set ObjectMeta unit (Some 6%positive) witnessStore = (Ok p', m') /\
  points (G := gSubscription ObjectMeta) m' p' (Some witnessValue) /\
  points (G := gSubscription ObjectMeta) (witnessStore ∪ (const (CStrings ["changed"]) <$> m')) (Some 6%positive) (Some witnessValue).
Proof.
  destruct (Subscription_DeepCopy_independent Empty_set ObjectMeta unit unit) as [H _].
  destruct (H _ _ _ witness_points) as [(p' & m' & E & Hm & H1 & H2) _]. exists p', m'. split; [exact E|]. split.
  - apply H2. apply map_subseteq_difference_l. done.
  - apply H1. apply map_union_subseteq_l.
Defined.
End v1alpha2.

(** ** [api/operator/v1alpha1] *)
Module v1alpha1.
Record Replicas := mkReplicas { Min : Z; Max : Z }.
Record Logging := mkLogging { gLogLevel : string }.
Record gBackendConfig {GQuantity : Type} := mkGBackendConfig {
  gNATSStreamStorageType : string; gNATSStreamReplicas : Z; gNATSStreamMaxSize : GQuantity; gNATSMaxMsgsPerTopic : Z;
  gEventMeshSecret : string; gEventTypePrefix : string; gDomain : string }.
#[global] Arguments gBackendConfig : clear implicits.
#[global] Arguments mkGBackendConfig {_} _ _ _ _ _ _ _.
Record gBackend {GQuantity : Type} := mkGBackend { gType : string; gbConfig : gBackendConfig GQuantity }.
#[global] Arguments gBackend : clear implicits.
#[global] Arguments mkGBackend {_} _ _.
Record gPublisher {GResources : Type} := mkGPublisher { gReplicas : Replicas; gResources : GResources }.
#[global] Arguments gPublisher : clear implicits.
#[global] Arguments mkGPublisher {_} _ _.
Record gEventingSpec {GResources : Type} := mkGEventingSpec {
  gBackendPtr : ptr; gsPublisher : gPublisher GResources; gLogging : Logging; gAnnotations : ptr; gLabels : ptr }.
#[global] Arguments gEventingSpec : clear implicits.
#[global] Arguments mkGEventingSpec {_} _ _ _ _ _.
Record gEventingStatus := mkGEventingStatus {
  gActiveBackend : string; gBackendConfigHash : Z; gState : string; gPublisherService : string; geConditions : ptr }.
Record gEventing {GMeta GResources : Type} := mkGEventing {
  geTypeMeta : v1alpha2.TypeMeta; geMeta : GMeta; geSpec : gEventingSpec GResources; geStatus : gEventingStatus }.
#[global] Arguments gEventing : clear implicits.
#[global] Arguments mkGEventing {_ _} _ _ _ _.
Record gEventingList {GListMeta : Type} := mkGEventingList { gelTypeMeta : v1alpha2.TypeMeta; gelMeta : GListMeta; gelItems : ptr }.
#[global] Arguments gEventingList : clear implicits.
#[global] Arguments mkGEventingList {_} _ _ _.

(** What the program sees of the metadata of an Eventing resource, and what a list of them denotes. *)
Record EventingMeta := mkEventingMeta {
  emName : string; emNamespace : string; emUID : string; emDeletionTimestamp : option Z; emFinalizers : list string; emGeneration : Z }.
Definition eventing (o : EventingMeta) (s : EventingSpec) (st : EventingStatus) : Eventing :=
  mkEventing (emName o) (emNamespace o) (emUID o) (emDeletionTimestamp o) (emFinalizers o) (emGeneration o) s st.
Record EventingList {LV : Type} := mkEventingList { elMeta : LV; elItems : slice Eventing }.
#[global] Arguments EventingList : clear implicits.
#[global] Arguments mkEventingList {_} _ _.

Inductive cell {LibCell GMeta GListMeta GQuantity GResources GCondition : Type} :=
  | CLib (x : LibCell)
  | CMap (x : gmap string string)
  | CReplicas (x : Replicas)
  | CLogging (x : Logging)
  | CBackendConfig (x : gBackendConfig GQuantity)
  | CBackend (x : gBackend GQuantity)
  | CPublisher (x : gPublisher GResources)
  | CConditions (x : list GCondition)
  | CSpec (x : gEventingSpec GResources)
  | CStatus (x : gEventingStatus)
  | CEventing (x : gEventing GMeta GResources)
  | CEventings (x : list (gEventing GMeta GResources))
  | CEventingList (x : gEventingList GListMeta).
#[global] Arguments cell : clear implicits.

Section functions.
Context (LibCell GMeta GListMeta GQuantity GResources GCondition LV : Type).
Abbreviation cells := (cell LibCell GMeta GListMeta GQuantity GResources GCondition).
Abbreviation mem := (gmap loc cells).
Implicit Types (m f : mem).

#[export] Instance stored_map : Stored cells (gmap string string) :=
  {| inj := CMap; proj x := match x with CMap y => Some y | _ => None end; proj_inj _ := eq_refl |}.
#[export] Instance stored_replicas : Stored cells Replicas :=
  {| inj := CReplicas; proj x := match x with CReplicas y => Some y | _ => None end; proj_inj _ := eq_refl |}.
#[export] Instance stored_logging : Stored cells Logging :=
  {| inj := CLogging; proj x := match x with CLogging y => Some y | _ => None end; proj_inj _ := eq_refl |}.
#[export] Instance stored_config : Stored cells (gBackendConfig GQuantity) :=
  {| inj := CBackendConfig; proj x := match x with CBackendConfig y => Some y | _ => None end; proj_inj _ := eq_refl |}.
#[export] Instance stored_backend : Stored cells (gBackend GQuantity) :=
  {| inj := CBackend; proj x := match x with CBackend y => Some y | _ => None end; proj_inj _ := eq_refl |}.
#[export] Instance stored_publisher : Stored cells (gPublisher GResources) :=
  {| inj := CPublisher; proj x := match x with CPublisher y => Some y | _ => None end; proj_inj _ := eq_refl |}.
#[export] Instance stored_conditions : Stored cells (list GCondition) :=
  {| inj := CConditions; proj x := match x with CConditions y => Some y | _ => None end; proj_inj _ := eq_refl |}.
#[export] Instance stored_spec : Stored cells (gEventingSpec GResources) :=
  {| inj := CSpec; proj x := match x with CSpec y => Some y | _ => None end; proj_inj _ := eq_refl |}.
#[export] Instance stored_status : Stored cells gEventingStatus :=
  {| inj := CStatus; proj x := match x with CStatus y => Some y | _ => None end; proj_inj _ := eq_refl |}.
#[export] Instance stored_eventing : Stored cells (gEventing GMeta GResources) :=
  {| inj := CEventing; proj x := match x with CEventing y => Some y | _ => None end; proj_inj _ := eq_refl |}.
#[export] Instance stored_eventings : Stored cells (list (gEventing GMeta GResources)) :=
  {| inj := CEventings; proj x := match x with CEventings y => Some y | _ => None end; proj_inj _ := eq_refl |}.
#[export] Instance stored_list : Stored cells (gEventingList GListMeta) :=
  {| inj := CEventingList; proj x := match x with CEventingList y => Some y | _ => None end; proj_inj _ := eq_refl |}.

(** The library types, with what the program sees of them. *)
Context `{!Copied cells GMeta EventingMeta} `{!Copied cells GListMeta LV} `{!Copied cells GQuantity string}
  `{!Copied cells GResources ResourceRequirements} `{!Copied cells GCondition KCondition}.

Definition Replicas_DeepCopyInto (x : Replicas) : M mem Replicas := retM x.
Definition Logging_DeepCopyInto (x : Logging) : M mem Logging := retM x.
#[export] Instance Replicas_copied : Copied cells Replicas Replicas := assigning Replicas_DeepCopyInto (fun _ => eq_refl).
#[export] Instance Logging_copied : Copied cells Logging Logging := assigning Logging_DeepCopyInto (fun _ => eq_refl).
#[export] Instance map_copied : Copied cells (gmap string string) (gmap string string) := copied_map.
#[export] Instance conditions_copied : Copied cells (list GCondition) (list KCondition) := copied_slice.

Definition BackendConfig_DeepCopyInto (x : gBackendConfig GQuantity) : M mem (gBackendConfig GQuantity) :=
  q <- DeepCopyInto (gNATSStreamMaxSize x) ;;
  retM (mkGBackendConfig (gNATSStreamStorageType x) (gNATSStreamReplicas x) q (gNATSMaxMsgsPerTopic x) (gEventMeshSecret x) (gEventTypePrefix x) (gDomain x)).
Definition BackendConfig_denotes m (x : gBackendConfig GQuantity) (c : BackendSpecConfig) : Prop := exists q, denotes m (gNATSStreamMaxSize x) q /\
  c = mkBackendSpecConfig (gNATSStreamStorageType x) (gNATSStreamReplicas x) q (gNATSMaxMsgsPerTopic x) (gEventMeshSecret x) (gEventTypePrefix x) (gDomain x).
#[export] Instance BackendConfig_copied : Copied cells (gBackendConfig GQuantity) BackendSpecConfig.
Proof using Copied2.
  refine {| denotes := BackendConfig_denotes; DeepCopyInto := BackendConfig_DeepCopyInto |}; [struct_mono|].
  intros m x c (q & Hq & ->). fold (makes (BackendConfig_DeepCopyInto x) m (fun f y => BackendConfig_denotes f y
    (mkBackendSpecConfig (gNATSStreamStorageType x) (gNATSStreamReplicas x) q (gNATSMaxMsgsPerTopic x) (gEventMeshSecret x) (gEventTypePrefix x) (gDomain x)))).
  unfold BackendConfig_DeepCopyInto. copy_field Hq. copy_done.
Defined.

Definition Backend_DeepCopyInto (x : gBackend GQuantity) : M mem (gBackend GQuantity) :=
  c <- BackendConfig_DeepCopyInto (gbConfig x) ;; retM (mkGBackend (gType x) c).
Definition Backend_denotes m (x : gBackend GQuantity) (b : BackendSpec) : Prop := exists c, denotes m (gbConfig x) c /\ b = mkBackendSpec (gType x) c.
#[export] Instance Backend_copied : Copied cells (gBackend GQuantity) BackendSpec.
Proof using Copied2.
  refine {| denotes := Backend_denotes; DeepCopyInto := Backend_DeepCopyInto |}; [struct_mono|].
  intros m x b (c & Hc & ->). fold (makes (Backend_DeepCopyInto x) m (fun f y => Backend_denotes f y (mkBackendSpec (gType x) c))).
  unfold Backend_DeepCopyInto. change (BackendConfig_DeepCopyInto (gbConfig x)) with (DeepCopyInto (gbConfig x)). copy_field Hc. copy_done.
Defined.

Definition Publisher_DeepCopyInto (x : gPublisher GResources) : M mem (gPublisher GResources) :=
  r <- DeepCopyInto (gResources x) ;; retM (mkGPublisher (gReplicas x) r).
Definition Publisher_denotes m (x : gPublisher GResources) (p : Publisher) : Prop := exists r,
  denotes m (gResources x) r /\ p = mkPublisher (Min (gReplicas x)) (Max (gReplicas x)) r.
#[export] Instance Publisher_copied : Copied cells (gPublisher GResources) Publisher.
Proof using Copied3.
  refine {| denotes := Publisher_denotes; DeepCopyInto := Publisher_DeepCopyInto |}; [struct_mono|].
  intros m x p (r & Hr & ->). fold (makes (Publisher_DeepCopyInto x) m (fun f y => Publisher_denotes f y (mkPublisher (Min (gReplicas x)) (Max (gReplicas x)) r))).
  unfold Publisher_DeepCopyInto. copy_field Hr. copy_done.
Defined.

Definition EventingSpec_DeepCopyInto (x : gEventingSpec GResources) : M mem (gEventingSpec GResources) :=
  b <- copyPtr (G := gBackend GQuantity) (gBackendPtr x) ;;
  p <- Publisher_DeepCopyInto (gsPublisher x) ;;
  a <- copyPtr (G := gmap string string) (gAnnotations x) ;;
  l <- copyPtr (G := gmap string string) (gLabels x) ;;
  retM (mkGEventingSpec b p (gLogging x) a l).
(** The model does not tell a nil map from an empty one. *)
Definition EventingSpec_denotes m (x : gEventingSpec GResources) (s : EventingSpec) : Prop := exists b p a l,
  points (G := gBackend GQuantity) m (gBackendPtr x) b /\ denotes m (gsPublisher x) p /\ points m (gAnnotations x) a /\ points m (gLabels x) l /\
  s = mkEventingSpec b p (gLogLevel (gLogging x)) (default ∅ a) (default ∅ l).
#[export] Instance EventingSpec_copied : Copied cells (gEventingSpec GResources) EventingSpec.
Proof using Copied2 Copied3.
  refine {| denotes := EventingSpec_denotes; DeepCopyInto := EventingSpec_DeepCopyInto |}; [struct_mono|].
  intros m x s (b & p & a & l & Hb & Hp & Ha & Hl & ->). fold (makes (EventingSpec_DeepCopyInto x) m (fun f y => EventingSpec_denotes f y
    (mkEventingSpec b p (gLogLevel (gLogging x)) (default ∅ a) (default ∅ l)))).
  unfold EventingSpec_DeepCopyInto. change (Publisher_DeepCopyInto (gsPublisher x)) with (DeepCopyInto (gsPublisher x)).
  copy_field Hb. copy_field Hp. copy_field Ha. copy_field Hl. copy_done.
Defined.

Definition EventingStatus_DeepCopyInto (x : gEventingStatus) : M mem gEventingStatus :=
  c <- copyPtr (G := list GCondition) (geConditions x) ;;
  retM (mkGEventingStatus (gActiveBackend x) (gBackendConfigHash x) (gState x) (gPublisherService x) c).
Definition EventingStatus_denotes m (x : gEventingStatus) (s : EventingStatus) : Prop := exists c,
  points (G := list GCondition) m (geConditions x) c /\ s = mkEventingStatus (gActiveBackend x) (gBackendConfigHash x) (gState x) (gPublisherService x) c.
#[export] Instance EventingStatus_copied : Copied cells gEventingStatus EventingStatus.
Proof using Copied4.
  refine {| denotes := EventingStatus_denotes; DeepCopyInto := EventingStatus_DeepCopyInto |}; [struct_mono|].
  intros m x s (c & Hc & ->). fold (makes (EventingStatus_DeepCopyInto x) m (fun f y => EventingStatus_denotes f y
    (mkEventingStatus (gActiveBackend x) (gBackendConfigHash x) (gState x) (gPublisherService x) c))).
  unfold EventingStatus_DeepCopyInto. copy_field Hc. copy_done.
Defined.

Definition Eventing_DeepCopyInto (x : gEventing GMeta GResources) : M mem (gEventing GMeta GResources) :=
  m <- DeepCopyInto (geMeta x) ;;
  sp <- EventingSpec_DeepCopyInto (geSpec x) ;;
  s <- EventingStatus_DeepCopyInto (geStatus x) ;;
  retM (mkGEventing (geTypeMeta x) m sp s).
Definition Eventing_denotes m (x : gEventing GMeta GResources) (e : Eventing) : Prop := exists o sp st,
  denotes m (geMeta x) o /\ denotes m (geSpec x) sp /\ denotes m (geStatus x) st /\ e = eventing o sp st.
#[export] Instance Eventing_copied : Copied cells (gEventing GMeta GResources) Eventing.
Proof using Copied0 Copied2 Copied3 Copied4.
  refine {| denotes := Eventing_denotes; DeepCopyInto := Eventing_DeepCopyInto |}; [struct_mono|].
  intros m x e (o & sp & st & Ho & Hsp & Hst & ->). fold (makes (Eventing_DeepCopyInto x) m (fun f y => Eventing_denotes f y (eventing o sp st))).
  unfold Eventing_DeepCopyInto. change (EventingSpec_DeepCopyInto (geSpec x)) with (DeepCopyInto (geSpec x)).
  change (EventingStatus_DeepCopyInto (geStatus x)) with (DeepCopyInto (geStatus x)).
  copy_field Ho. copy_field Hsp. copy_field Hst. copy_done.
Defined.
#[export] Instance eventings_copied : Copied cells (list (gEventing GMeta GResources)) (list Eventing) := copied_slice.

Definition EventingList_DeepCopyInto (x : gEventingList GListMeta) : M mem (gEventingList GListMeta) :=
  m <- DeepCopyInto (gelMeta x) ;;
  i <- copyPtr (G := list (gEventing GMeta GResources)) (gelItems x) ;;
  retM (mkGEventingList (gelTypeMeta x) m i).
Definition EventingList_denotes m (x : gEventingList GListMeta) (l : EventingList LV) : Prop := exists o i,
  denotes m (gelMeta x) o /\ points (G := list (gEventing GMeta GResources)) m (gelItems x) i /\ l = mkEventingList o i.
#[export] Instance EventingList_copied : Copied cells (gEventingList GListMeta) (EventingList LV).
Proof using Copied0 Copied1 Copied2 Copied3 Copied4.
  refine {| denotes := EventingList_denotes; DeepCopyInto := EventingList_DeepCopyInto |}; [struct_mono|].
  intros m x l (o & i & Ho & Hi & ->). fold (makes (EventingList_DeepCopyInto x) m (fun f y => EventingList_denotes f y (mkEventingList o i))).
  unfold EventingList_DeepCopyInto. copy_field Ho. copy_field Hi. copy_done.
Defined.

Definition Replicas_DeepCopy : ptr -> M mem ptr := copyPtr (G := Replicas).
Definition Logging_DeepCopy : ptr -> M mem ptr := copyPtr (G := Logging).
Definition BackendConfig_DeepCopy : ptr -> M mem ptr := copyPtr (G := gBackendConfig GQuantity).
Definition Backend_DeepCopy : ptr -> M mem ptr := copyPtr (G := gBackend GQuantity).
Definition Publisher_DeepCopy : ptr -> M mem ptr := copyPtr (G := gPublisher GResources).
Definition EventingSpec_DeepCopy : ptr -> M mem ptr := copyPtr (G := gEventingSpec GResources).
Definition EventingStatus_DeepCopy : ptr -> M mem ptr := copyPtr (G := gEventingStatus).
Definition Eventing_DeepCopy : ptr -> M mem ptr := copyPtr (G := gEventing GMeta GResources).
Definition EventingList_DeepCopy : ptr -> M mem ptr := copyPtr (G := gEventingList GListMeta).
Definition Eventing_DeepCopyObject (p : ptr) : M mem ptr := c <- Eventing_DeepCopy p ;; match c with Some c => retM (Some c) | None => retM None end.
Definition EventingList_DeepCopyObject (p : ptr) : M mem ptr := c <- EventingList_DeepCopy p ;; match c with Some c => retM (Some c) | None => retM None end.

(** The same of Eventing resources. *)
Theorem Eventing_DeepCopy_independent :
  (forall m p v, points (G := gEventing GMeta GResources) m p v ->
    copies (G := gEventing GMeta GResources) Eventing_DeepCopy m p v /\ copies (G := gEventing GMeta GResources) Eventing_DeepCopyObject m p v) /\
  (forall m p v, points (G := gEventingList GListMeta) m p v ->
    copies (G := gEventingList GListMeta) EventingList_DeepCopy m p v /\ copies (G := gEventingList GListMeta) EventingList_DeepCopyObject m p v).
Proof using All.
  split; intros m p v Hp; (split; [|apply copies_object]); by apply copyPtr_copies.
Qed.
End functions.
End v1alpha1.
