(* ===== verification/Config.v ===== *)
(** * Configuration: [pkg/env]

    The configuration records.  Their values come from the environment of
    the process through a library; [GetNewNATSConfig] combines them with the Eventing
    resource. *)

From S2P Require Import Prelude GoStrings Subscription Eventing.
From Stdlib Require Import Ascii.

(** [env.NATSConfig]; durations are nanoseconds. *)
Record NATSConfig := mkNATSConfig {
  URL : string;
  MaxReconnects : Z;
  ReconnectWait : Z;
  EventTypePrefix : string;
  MaxIdleConns : Z;
  MaxConnsPerHost : Z;
  MaxIdleConnsPerHost : Z;
  IdleConnTimeout : Z;
  JSStreamName : string;
  JSSubjectPrefix : string;
  JSStreamStorageType : string;
  JSStreamReplicas : Z;
  JSStreamRetentionPolicy : string;
  JSStreamMaxMessages : Z;
  JSStreamMaxBytes : string;
  JSStreamMaxMsgsPerTopic : Z;
  JSStreamDiscardPolicy : string;
  JSConsumerDeliverPolicy : string
}.
#[global] Instance NATSConfig_eq_dec : EqDecision NATSConfig.
Proof. solve_decision. Defined.

(** The backend of the Eventing resource is a pointer: [None] is the panic of
    reading through nil. *)
Definition GetNewNATSConfig (nc : NATSConfig) (eventingCR : Eventing) : option NATSConfig :=
  b ← eBackend (eSpec eventingCR);
  let c := bConfig b in
  Some {| URL := URL nc; MaxReconnects := MaxReconnects nc; ReconnectWait := ReconnectWait nc;
          MaxIdleConns := MaxIdleConns nc; MaxConnsPerHost := MaxConnsPerHost nc;
          MaxIdleConnsPerHost := MaxIdleConnsPerHost nc; IdleConnTimeout := IdleConnTimeout nc;
          JSStreamName := JSStreamName nc; JSSubjectPrefix := JSSubjectPrefix nc;
          JSStreamRetentionPolicy := JSStreamRetentionPolicy nc; JSStreamMaxMessages := JSStreamMaxMessages nc;
          JSStreamDiscardPolicy := JSStreamDiscardPolicy nc; JSConsumerDeliverPolicy := JSConsumerDeliverPolicy nc;
          EventTypePrefix := cEventTypePrefix c;
          JSStreamStorageType := ToLowerASCII (NATSStreamStorageType c);
          JSStreamReplicas := NATSStreamReplicas c;
          JSStreamMaxBytes := NATSStreamMaxSize c;
          JSStreamMaxMsgsPerTopic := NATSMaxMsgsPerTopic c |}.

(** [env.Config]: the EventMesh configuration. *)
Record EMConfig := mkEMConfig {
  BEBAPIURL : string;
  ClientID : string;
  ClientSecret : string;
  TokenEndpoint : string;
  WebhookActivationTimeout : Z;
  ExemptHandshake : bool;
  Qos : string;
  ContentMode : string;
  BEBNamespace : string;
  emEventTypePrefix : string;
  EventingWebhookAuthEnabled : bool;
  NATSProvisioningEnabled : bool
}.

(** [env.BackendConfig] and [env.PublisherConfig]. *)
Record PublisherConfig := mkPublisherConfig {
  Image : string;
  ImagePullPolicy : string;
  PortNum : Z;
  MetricsPortNum : Z;
  ServiceAccount : string;
  RequestTimeout : string;
  PriorityClassName : string;
  AppLogFormat : string;
  ApplicationCRDEnabled : bool
}.

Record BackendConfig := mkBackendConfig {
  pcfg : PublisherConfig;
  bcNamespace : string;
  EventingCRName : string;
  EventingCRNamespace : string;
  bcDefaultSubscriptionConfig : DefaultSubscriptionConfig;
  EventingWebhookAuthSecretName : string;
  EventingWebhookAuthSecretNamespace : string
}.

(** [env.Backend()], of the value of the variable BACKEND (an ASCII text). *)
Definition ErrInvalidBackend : goerr := sentinel "env.ErrInvalidBackend" "invalid backend".
Fixpoint ToUpperASCII (s : string) : string :=
  match s with
  | "" => ""
  | String c s' => String (if is_lower c then ascii_of_nat (nat_of_ascii c - 32) else c) (ToUpperASCII s')
  end.
Definition BackendFromEnv (env_BACKEND : string) : string + goerr :=
  let backend := ToUpperASCII env_BACKEND in
  if String.eqb backend "BEB" then inl "BEB"
  else if String.eqb backend "NATS" || String.eqb backend "" then inl "NATS"
  else inr (GoErr ENew (Error ErrInvalidBackend +:+ ": " +:+ backend) [ErrInvalidBackend]).
