(* ===== verification/Options.v ===== *)
(** * The options of the binary: [options/options.go]

    Flags with their defaults, the variables of the environment, and the rendering for the log.  The flag and
    envconfig libraries are parameters: what they found is an argument.  [Duration_String] is the method of
    [time.Duration] of Go's standard library; durations are nanoseconds. *)

From S2P Require Import Prelude.
From stdpp Require Import pretty.
From Stdlib Require Import Ascii.

(** ** [time.Duration] *)
Definition Microsecond : Z := 1000.
Definition Millisecond : Z := 1000 * Microsecond.
Definition Second : Z := 1000 * Millisecond.
Definition Minute : Z := 60 * Second.

(** The [prec] decimal digits of a fraction, without trailing zeros: what has been rendered, whether a digit other than 0 has been
    seen, and the digits that are left. *)
Fixpoint fmtFrac (prec : nat) (v : Z) (print : bool) (buf : string) : string * Z :=
  match prec with
  | O => (if print then String "." buf else buf, v)
  | S prec =>
      let digit := (v mod 10)%Z in
      let print := print || negb (digit =? 0)%Z in
      fmtFrac prec (v / 10)%Z print (if print then pretty digit +:+ buf else buf)
  end.

Definition Duration_String (d : Z) : string :=
  if (d =? 0)%Z then "0s"
  else
    let u := Z.abs d in
    let text :=
      if (u <? Second)%Z then
        if (u <? Microsecond)%Z then pretty u +:+ "ns"
        else if (u <? Millisecond)%Z then let '(s, v) := fmtFrac 3 u false "µs" in pretty v +:+ s
        else let '(s, v) := fmtFrac 6 u false "ms" in pretty v +:+ s
      else
        let '(s, v) := fmtFrac 9 u false "s" in
        let seconds := pretty (v mod 60)%Z +:+ s in
        let minutes := (v / 60)%Z in
        if (minutes =? 0)%Z then seconds
        else
          let rest := pretty (minutes mod 60)%Z +:+ "m" +:+ seconds in
          let hours := (minutes / 60)%Z in
          if (hours =? 0)%Z then rest else pretty hours +:+ "h" +:+ rest in
    if (d <? 0)%Z then String "-" text else text.

(** ** Options *)
Definition argNameMaxReconnects := "max-reconnects".
Definition argNameMetricsAddr := "metrics-addr".
Definition argNameReconnectWait := "reconnect-wait".
Definition argNameReconcilePeriod := "reconcile-period".
Definition argNameProbeAddr := "health-probe-bind-addr".
Definition argNameReadyEndpoint := "ready-check-endpoint".
Definition argNameHealthEndpoint := "health-check-endpoint".
Definition envNameLogFormat := "APP_LOG_FORMAT".
Definition envNameLogLevel := "APP_LOG_LEVEL".

Definition defaultMaxReconnects : Z := 10.
Definition defaultMetricsAddr := ":8080".
Definition defaultReconnectWait : Z := 3 * Second.
Definition defaultReconcilePeriod : Z := Minute * 10.
Definition defaultProbeAddr := ":8081".
Definition defaultReadyEndpoint := "readyz".
Definition defaultHealthEndpoint := "healthz".

Record Args := mkArgs {
  MaxReconnects : Z;
  MetricsAddr : string;
  ReconnectWait : Z;
  ReconcilePeriod : Z;
  ProbeAddr : string;
  ReadyEndpoint : string;
  HealthEndpoint : string
}.
Record Env := mkEnv { LogFormat : string; LogLevel : string }.
Record Options := mkOptions { oArgs : Args; oEnv : Env }.

Definition New : Options := mkOptions (mkArgs 0 "" 0 0 "" "" "") (mkEnv "" "").

(** The flags on the command line, by their names. *)
Record CommandLine := mkCommandLine {
  flag_Int : string -> option Z;
  flag_String : string -> option string;
  flag_Duration : string -> option Z
}.

(** [flag.Parse] ends the process when a flag cannot be parsed; the answer of [envconfig.Process] is what it read. *)
Definition Parse (flags : CommandLine) (processed : Env + goerr) (o : Options) : Options * option goerr :=
  let args := mkArgs
    (default defaultMaxReconnects (flag_Int flags argNameMaxReconnects))
    (default defaultMetricsAddr (flag_String flags argNameMetricsAddr))
    (default defaultReconnectWait (flag_Duration flags argNameReconnectWait))
    (default defaultReconcilePeriod (flag_Duration flags argNameReconcilePeriod))
    (default defaultProbeAddr (flag_String flags argNameProbeAddr))
    (default defaultReadyEndpoint (flag_String flags argNameReadyEndpoint))
    (default defaultHealthEndpoint (flag_String flags argNameHealthEndpoint)) in
  match processed with
  | inr err => (mkOptions args (oEnv o), Some err)
  | inl env => (mkOptions args env, None)
  end.

(** The dashes are those of the format. *)
Definition Options_String (o : Options) : string :=
  let a := oArgs o in let e := oEnv o in
  "--" +:+ argNameMaxReconnects +:+ "=" +:+ pretty (MaxReconnects a) +:+
  " --" +:+ argNameMetricsAddr +:+ "=" +:+ MetricsAddr a +:+
  " --" +:+ argNameReconnectWait +:+ "=" +:+ Duration_String (ReconnectWait a) +:+
  " --" +:+ argNameReconcilePeriod +:+ "=" +:+ Duration_String (ReconcilePeriod a) +:+
  " --" +:+ argNameProbeAddr +:+ "=" +:+ ProbeAddr a +:+
  " --" +:+ argNameReadyEndpoint +:+ "=" +:+ ReadyEndpoint a +:+
  " " +:+ argNameHealthEndpoint +:+ "=" +:+ HealthEndpoint a +:+
  " " +:+ envNameLogFormat +:+ "=" +:+ LogFormat e +:+
  " " +:+ envNameLogLevel +:+ "=" +:+ LogLevel e.

(** ** Facts *)
Lemma Parse_flag flags processed o : let '(o', err) := Parse flags processed o in
  (forall n, flag_Int flags argNameMaxReconnects = Some n -> MaxReconnects (oArgs o') = n) /\
  (flag_Int flags argNameMaxReconnects = None -> MaxReconnects (oArgs o') = defaultMaxReconnects) /\
  match processed with inl e => err = None /\ oEnv o' = e | inr e => err = Some e end.
Proof. unfold Parse. destruct processed; cbn; split_and!; by first [intros n ->|intros ->|done]. Qed.

Definition no_flags : CommandLine := mkCommandLine (fun _ => None) (fun _ => None) (fun _ => None).

(** The flag of the health endpoint is rendered as if it were a variable. *)
Example default_options : Options_String (Parse no_flags (inl (mkEnv "json" "warn")) New).1 =
  "--max-reconnects=10 --metrics-addr=:8080 --reconnect-wait=3s --reconcile-period=10m0s --health-probe-bind-addr=:8081 " +:+
  "--ready-check-endpoint=readyz health-check-endpoint=healthz APP_LOG_FORMAT=json APP_LOG_LEVEL=warn".
Proof. vm_compute. reflexivity. Qed.

Example durations : (Duration_String <$> [1; 1100; 2200000; 1500000000; -1500000000; 60000000000; 3661500000000]%Z) =
  ["1ns"; "1.1µs"; "2.2ms"; "1.5s"; "-1.5s"; "1m0s"; "1h1m1.5s"].
Proof. vm_compute. reflexivity. Qed.
