(* ===== verification/Signals.v ===== *)
(** * Termination signals: [pkg/signals/signals.go], and the authenticated client that waits for them:
    [pkg/ems/auth/auth.go], [pkg/ems/auth/config.go]

    Each context has a goroutine that reads the signals of a channel with room for two.  Go's [signal.Notify] drops a
    signal when the channel is full; the goroutines run at any time: a step relation. *)

From S2P Require Import Prelude Errors Config.

Definition ErrTerminationRequested := sentinel "signals.ErrTerminationRequested" "received a termination signal".
Definition chanSize : nat := 2.

(** A stop channel with its goroutine: the signals in the channel, and those that the goroutine has read.  The stop channel
    is closed by the first one. *)
Record Handler := mkHandler { osSignal : nat; consumed : nat }.
Record Signals := mkSignals {
  onlyOneSignalHandler : bool; (* closed *)
  handlers : list Handler;
  exited : bool
}.

Definition stopped (h : Handler) : bool := (1 <=? consumed h)%nat.

Definition setupStopChannel (s : Signals) : nat * Signals :=
  (length (handlers s), mkSignals (onlyOneSignalHandler s) (handlers s ++ [mkHandler 0 0])%list (exited s)).

(** Closing the channel a second time panics. *)
Definition SetupSignalHandler : M Signals nat := fun s =>
  if onlyOneSignalHandler s then (Panic "close of closed channel", s)
  else let '(i, s) := setupStopChannel (mkSignals true (handlers s) (exited s)) in (Ok i, s).

(** A context is the number of its stop channel. *)
Definition NewContext : M Signals nat := SetupSignalHandler.
Definition NewReusableContext : M Signals nat := fun s => let '(i, s) := setupStopChannel s in (Ok i, s).

Lemma stopped_iff h : stopped h = true <-> (1 <= consumed h)%nat.
Proof. apply Nat.leb_le. Qed.

Definition Done (s : Signals) (i : nat) : bool := default false (stopped <$> handlers s !! i).
Definition Err (s : Signals) (i : nat) : option goerr := if Done s i then Some ErrTerminationRequested else None.

(** The arrival of a signal, and a step of a goroutine. *)
Definition notify (h : Handler) : Handler := mkHandler (Nat.min chanSize (S (osSignal h))) (consumed h).
Definition signal (s : Signals) : Signals := mkSignals (onlyOneSignalHandler s) (notify <$> handlers s) (exited s).
Definition run (i : nat) (s : Signals) : option Signals :=
  h ← handlers s !! i;
  match osSignal h with
  | O => None
  | S n =>
      if (2 <=? consumed h)%nat then None
      else Some (mkSignals (onlyOneSignalHandler s) (<[i := mkHandler n (S (consumed h))]> (handlers s))
                   (exited s || (2 <=? S (consumed h))%nat))
  end.

(** What happens until the process ends; a context is known by the signals since it was made. *)
Inductive steps : list nat -> Signals -> Prop :=
  | steps_start : steps [] (mkSignals false [] false)
  | steps_setup sent s i s' : steps sent s -> exited s = false -> SetupSignalHandler s = (Ok i, s') -> steps (sent ++ [0%nat])%list s'
  | steps_context sent s : steps sent s -> exited s = false -> steps (sent ++ [0%nat])%list (NewReusableContext s).2
  | steps_signal sent s : steps sent s -> exited s = false -> steps (S <$> sent) (signal s)
  | steps_run sent s i s' : steps sent s -> exited s = false -> run i s = Some s' -> steps sent s'.

(** The signals that a goroutine can still act on are never dropped. *)
Definition counts (n : nat) (h : Handler) : Prop := Nat.min 2 (osSignal h + consumed h) = Nat.min 2 n /\ (osSignal h <= 2 /\ consumed h <= 2)%nat.

Lemma steps_counts sent s : steps sent s -> Forall2 counts sent (handlers s) /\ (exited s = true -> Exists (fun h => consumed h = 2%nat) (handlers s)).
Proof.
  induction 1 as [|sent s i s' _ [IH Hx] He Hs|sent s _ [IH Hx] He|sent s _ [IH Hx] He|sent s i s' _ [IH Hx] He Hr].
  - split; [constructor|done].
  - unfold SetupSignalHandler in Hs. destruct (onlyOneSignalHandler s); [done|]. injection Hs as <- <-. cbn. rewrite He.
    split; [|done]. apply Forall2_app; [done|]. repeat constructor; cbn; lia.
  - cbn. rewrite He. split; [|done]. apply Forall2_app; [done|]. repeat constructor; cbn; lia.
  - cbn. rewrite He. split; [|done]. apply Forall2_fmap. eapply Forall2_impl; [exact IH|]. intros n h. unfold counts, notify, chanSize. cbn [osSignal consumed]. lia.
  - unfold run in Hr. destruct (handlers s !! i) as [h|] eqn:Eh; cbn [mbind option_bind] in Hr; [|done]. destruct (osSignal h) as [|n] eqn:En; [done|].
    destruct (Nat.leb_spec 2 (consumed h)); [done|]. injection Hr as <-. cbn [handlers exited]. split.
    + destruct (Forall2_lookup_r _ _ _ _ _ IH Eh) as (k & Ek & Hk). rewrite <- (list_insert_id sent i k Ek).
      apply Forall2_insert; [done|]. unfold counts in *. cbn [osSignal consumed]. lia.
    + rewrite He. cbn [orb]. intros Hc. assert (consumed h = 1%nat) as H1 by (destruct (consumed h) as [|[|c]]; [done|done|lia]).
      apply Exists_exists. exists (mkHandler n (S (consumed h))). split; [|cbn; lia].
      apply list_elem_of_lookup. exists i. apply list_lookup_insert_eq. by apply lookup_lt_is_Some_1.
Qed.

(** In every interleaving of signals, contexts and goroutines: a context is done only after a signal that came since it was made, the
    process ends only after a second one; and while it runs, a goroutine whose context is not done although a signal
    came can take a step, which ends its context. *)
Theorem signals_spec sent s : steps sent s ->
  (forall i, Done s i = true -> exists n, sent !! i = Some n /\ (1 <= n)%nat) /\
  (exited s = true -> exists i n, sent !! i = Some n /\ (2 <= n)%nat /\ Err s i = Some ErrTerminationRequested) /\
  (forall i n, exited s = false -> sent !! i = Some n -> (1 <= n)%nat -> Done s i = false ->
    exists s', run i s = Some s' /\ Done s' i = true).
Proof.
  intros Hs. destruct (steps_counts _ _ Hs) as [Hc Hx]. split_and!.
  - intros i Hd. unfold Done in Hd. destruct (handlers s !! i) as [h|] eqn:Eh; [|done].
    destruct (Forall2_lookup_r _ _ _ _ _ Hc Eh) as (n & En & Hn). exists n. split; [done|]. apply stopped_iff in Hd. unfold counts in Hn. lia.
  - intros He. apply Hx, Exists_exists in He as (h & Hin & Hh). apply list_elem_of_lookup in Hin as [i Eh].
    destruct (Forall2_lookup_r _ _ _ _ _ Hc Eh) as (n & En & Hn). exists i, n. unfold counts in Hn.
    split_and!; [done|lia|]. unfold Err, Done, stopped. rewrite Eh. cbn. by rewrite Hh.
  - intros i n _ En Hn Hd. destruct (Forall2_lookup_l _ _ _ _ _ Hc En) as (h & Eh & Hh). unfold Done in *. rewrite Eh in Hd.
    change (stopped h = false) in Hd. assert (~ (1 <= consumed h)%nat) as Hd' by (rewrite <- stopped_iff; by rewrite Hd). unfold counts in Hh. unfold run. rewrite Eh. cbn [mbind option_bind].
    destruct (osSignal h) as [|k] eqn:Ek; [lia|]. destruct (Nat.leb_spec 2 (consumed h)); [lia|]. eexists. split; [done|]. cbn [handlers].
    rewrite list_lookup_insert_eq by (by apply lookup_lt_is_Some_1). done.
Qed.

Theorem SetupSignalHandler_once s i s' : SetupSignalHandler s = (Ok i, s') ->
  exists m, SetupSignalHandler s' = (Panic m, s').
Proof.
  unfold SetupSignalHandler. destruct (onlyOneSignalHandler s); [done|]. intros [= <- <-]. by eexists.
Qed.

(** ** The authenticated client *)
Definition ErrCreatingFailed := sentinel "auth.ErrCreatingFailed" "cannot create new authenticated client".
Record ClientCredentials := mkClientCredentials { ccClientID : string; ccClientSecret : string; ccTokenURL : string }.
Definition getDefaultOauth2Config (cfg : EMConfig) : ClientCredentials := mkClientCredentials (ClientID cfg) (ClientSecret cfg) (TokenEndpoint cfg).

(** Whether the default transport is Go's and the client of the oauth2 library has its transport; the context stays in both
    cases. *)
Definition NewAuthenticatedClient (isTransport isOauth2Transport : bool) (cfg : EMConfig) : M Signals (nat * ClientCredentials) :=
  ctx <- NewReusableContext ;;
  let config := getDefaultOauth2Config cfg in
  if negb isTransport then errM ErrCreatingFailed
  else if negb isOauth2Transport then errM ErrCreatingFailed
  else retM (ctx, config).

(** Each client has a context and a goroutine of its own, which stay. *)
Lemma NewAuthenticatedClient_spec b b' cfg s :
  let '(r, s') := NewAuthenticatedClient b b' cfg s in
  handlers s' = (handlers s ++ [mkHandler 0 0])%list /\ exited s' = exited s /\
  match r with
  | Ok (ctx, c) => b && b' = true /\ ctx = length (handlers s) /\ Done s' ctx = false /\ c = getDefaultOauth2Config cfg
  | Prelude.Err e => b && b' = false /\ e = ErrCreatingFailed
  | Panic _ => False
  end.
Proof.
  unfold NewAuthenticatedClient, NewReusableContext, bindM. cbn. destruct b, b'; cbn; split_and!; try done.
  unfold Done. cbn. by rewrite list_lookup_middle.
Qed.
