(* ===== verification/JetStreamUtils.v ===== *)
(** * JetStream backend, the pure part: [pkg/backend/jetstream]

    [utils.go], [config.go], [errors.go] and the data of [types.go].
    Outside the repository, so parameters: [sha256hex] (the hexadecimal
    SHA-256 of a text) and [ParseQuantity] (apimachinery's resource quantities). *)

From S2P Require Import Prelude GoStrings Errors Utils Subscription EventTypes Config.
From Stdlib Require Import Ascii.

(** ** NATS values *)
Inductive StorageType := MemoryStorage | FileStorage.
Inductive RetentionPolicy := LimitsPolicy | InterestPolicy.
Inductive DiscardPolicy := DiscardOld | DiscardNew.
Inductive DeliverPolicy := DeliverAllPolicy | DeliverLastPolicy | DeliverLastPerSubjectPolicy | DeliverNewPolicy.
#[global] Instance StorageType_eq_dec : EqDecision StorageType.
Proof. solve_decision. Defined.
#[global] Instance RetentionPolicy_eq_dec : EqDecision RetentionPolicy.
Proof. solve_decision. Defined.
#[global] Instance DiscardPolicy_eq_dec : EqDecision DiscardPolicy.
Proof. solve_decision. Defined.
#[global] Instance DeliverPolicy_eq_dec : EqDecision DeliverPolicy.
Proof. solve_decision. Defined.

(** [nats.StreamConfig] and [nats.ConsumerConfig], the fields the program sets
    or reads.  The policies that do not vary are kept as texts. *)
Record StreamConfig := mkStreamConfig {
  scName : string;
  scSubjects : slice string;
  scStorage : StorageType;
  scReplicas : Z;
  scRetention : RetentionPolicy;
  scMaxMsgs : Z;
  scMaxBytes : Z;
  scDiscard : DiscardPolicy;
  scMaxMsgsPerSubject : Z
}.

Record ConsumerConfig := mkConsumerConfig {
  ccDurable : string;
  ccDescription : string;
  ccDeliverPolicy : DeliverPolicy;
  ccFlowControl : bool;
  ccMaxAckPending : Z;
  ccAckPolicy : string;
  ccAckWait : Z;
  ccMaxDeliver : Z;
  ccFilterSubject : string;
  ccReplayPolicy : string;
  ccDeliverSubject : string;
  ccHeartbeat : Z
}.
Definition set_MaxAckPending (c : ConsumerConfig) (n : Z) : ConsumerConfig :=
  mkConsumerConfig (ccDurable c) (ccDescription c) (ccDeliverPolicy c) (ccFlowControl c) n (ccAckPolicy c)
    (ccAckWait c) (ccMaxDeliver c) (ccFilterSubject c) (ccReplayPolicy c) (ccDeliverSubject c) (ccHeartbeat c).

Record ConsumerInfo := mkConsumerInfo { ciName : string; ciPushBound : bool; ciConfig : ConsumerConfig }.

(** A [nats.SubOpt]. *)
Inductive SubOpt :=
  | Durable (name : string)
  | Description (d : string)
  | ManualAck
  | AckExplicit
  | IdleHeartbeat (d : Z)
  | EnableFlowControl
  | Deliver (p : DeliverPolicy)
  | OptMaxAckPending (n : Z)
  | OptMaxDeliver (n : Z)
  | OptAckWait (d : Z)
  | Bind (stream consumer : string).

(** ** [errors.go] *)
Definition ErrMissingSubscription := sentinel "jetstream.ErrMissingSubscription" "failed to find a NATS subscription for a subject".
Definition ErrAddConsumer := sentinel "jetstream.ErrAddConsumer" "failed to add a consumer".
Definition ErrGetConsumer := sentinel "jetstream.ErrGetConsumer" "failed to get consumer info".
Definition ErrUpdateConsumer := sentinel "jetstream.ErrUpdateConsumer" "failed to update consumer".
Definition ErrDeleteConsumer := sentinel "jetstream.ErrDeleteConsumer" "failed to delete consumer".
Definition ErrFailedSubscribe := sentinel "jetstream.ErrFailedSubscribe" "failed to create NATS JetStream subscription".
Definition ErrFailedUnsubscribe := sentinel "jetstream.ErrFailedUnsubscribe" "failed to unsubscribe from NATS JetStream".
Definition ErrConnect := sentinel "jetstream.ErrConnect" "failed to connect to NATS JetStream".
Definition ErrEmptyStreamName := sentinel "jetstream.ErrEmptyStreamName" "stream name cannot be empty".
Definition ErrStreamNameTooLong := sentinel "jetstream.ErrStreamNameTooLong" "stream name should be max 32 characters long".

(** The errors of the NATS client the program recognises. *)
Definition nats_ErrConsumerNotFound := sentinel "nats.ErrConsumerNotFound" "nats: consumer not found".
Definition nats_ErrStreamNotFound := sentinel "nats.ErrStreamNotFound" "nats: stream not found".
Definition is_consumer_not_found (e : goerr) : bool := errors_Is e (kind_of nats_ErrConsumerNotFound).
Definition is_stream_not_found (e : goerr) : bool := errors_Is e (kind_of nats_ErrStreamNotFound).

(** ** Constants *)
Definition second : Z := 1000000000.
Definition jsMaxStreamNameLength : nat := 32.
Definition idleHeartBeatDuration : Z := 60 * second.
Definition jsConsumerMaxRedeliver : Z := 100.
Definition jsConsumerNakDelay : Z := 30 * second.
Definition jsConsumerAckWait : Z := 30 * second.
Definition originalTypeHeaderName := "originaltype".
Definition separator : ascii := "/".

(** ** Conversions *)
Definition ErrInvalidStorageType := NewArgumentError "invalid stream storage type: %q".
Definition ErrInvalidRetentionPolicy := NewArgumentError "invalid stream retention policy: %q".
Definition ErrInvalidDiscardPolicy := NewArgumentError "invalid stream discard policy: %q".

Definition toJetStreamStorageType (storageType : string) : StorageType + goerr :=
  if String.eqb storageType "memory" then inl MemoryStorage
  else if String.eqb storageType "file" then inl FileStorage
  else inr (argument_error (WithArg ErrInvalidStorageType storageType)).

Definition toJetStreamRetentionPolicy (retentionPolicy : string) : RetentionPolicy + goerr :=
  if String.eqb retentionPolicy "limits" then inl LimitsPolicy
  else if String.eqb retentionPolicy "interest" then inl InterestPolicy
  else inr (argument_error (WithArg ErrInvalidRetentionPolicy retentionPolicy)).

Definition toJetStreamDiscardPolicy (discardPolicy : string) : DiscardPolicy + goerr :=
  if String.eqb discardPolicy "old" then inl DiscardOld
  else if String.eqb discardPolicy "new" then inl DiscardNew
  else inr (argument_error (WithArg ErrInvalidDiscardPolicy discardPolicy)).

Definition toJetStreamConsumerDeliverPolicy (deliverPolicy : string) : DeliverPolicy :=
  if String.eqb deliverPolicy "all" then DeliverAllPolicy
  else if String.eqb deliverPolicy "last" then DeliverLastPolicy
  else if String.eqb deliverPolicy "last_per_subject" then DeliverLastPerSubjectPolicy
  else DeliverNewPolicy.
Definition toJetStreamConsumerDeliverPolicyOptOrDefault (deliverPolicy : string) : SubOpt :=
  if String.eqb deliverPolicy "all" then Deliver DeliverAllPolicy
  else if String.eqb deliverPolicy "last" then Deliver DeliverLastPolicy
  else if String.eqb deliverPolicy "last_per_subject" then Deliver DeliverLastPerSubjectPolicy
  else Deliver DeliverNewPolicy.

(** [config.go]: [Validate], and the backend's own [validateConfig], which
    reports an empty name with a fresh error. *)
Definition validate_with (emptyErr : goerr) (natsConfig : NATSConfig) : option goerr :=
  if String.eqb (JSStreamName natsConfig) "" then Some emptyErr
  else if (jsMaxStreamNameLength <? len (JSStreamName natsConfig))%nat then Some ErrStreamNameTooLong
  else match toJetStreamStorageType (JSStreamStorageType natsConfig) with
  | inr err => Some err
  | inl _ => match toJetStreamRetentionPolicy (JSStreamRetentionPolicy natsConfig) with
    | inr err => Some err
    | inl _ => match toJetStreamDiscardPolicy (JSStreamDiscardPolicy natsConfig) with
      | inr err => Some err
      | inl _ => None
      end end end.
Definition JS_Validate (natsConfig : NATSConfig) : option goerr := validate_with ErrEmptyStreamName natsConfig.
Definition validateConfig (natsConfig : NATSConfig) : option goerr :=
  validate_with (errors_New "Stream name cannot be empty") natsConfig.

(** ** Subjects and names *)
Record SubscriptionSubjectIdentifier := mkSSI { consumerName : string; namespacedSubjectName : string }.
#[global] Instance SSI_eq_dec : EqDecision SubscriptionSubjectIdentifier.
Proof. solve_decision. Defined.
#[global] Instance SSI_countable : Countable SubscriptionSubjectIdentifier.
Proof.
  apply (inj_countable' (fun k => (consumerName k, namespacedSubjectName k)) (fun p => mkSSI p.1 p.2)).
  by intros [].
Defined.

(** [types.NamespacedName.String]. *)
Definition createKeyPrefix (sub : Subscription) : string :=
  Namespace (meta sub) +:+ "/" +:+ Name (meta sub).

Definition GetCleanEventTypesFromEventTypes (eventTypes : list EventType) : list string :=
  (fun eventtypes => CleanType eventtypes) <$> eventTypes.

(** [mapper] holds the values seen; [unique] their first occurrences. *)
Definition getUniqueEventTypes_step (st : gmap string bool * list string) (val : string) : gmap string bool * list string :=
  let '(mapper, unique) := st in
  match mapper !! val with
  | Some _ => (mapper, unique)
  | None => (<[val := true]> mapper, (unique ++ [val])%list)
  end.
Definition getUniqueEventTypes (eventTypes : list string) : list string :=
  (foldl getUniqueEventTypes_step (∅, []) eventTypes).2.

(** The value of a call whose error the code discards: the cleaners return
    the empty string with an error. *)
Definition value_or_empty (r : string + goerr) : string := match r with inl t => t | inr _ => "" end.

Definition GetCleanEventTypes (sub : Subscription) (cleaner : Cleaner) : list EventType :=
  (fun eventType =>
     mkEventType eventType
       (if negb (String.eqb (TypeMatching (Spec sub)) TypeMatchingExact)
        then value_or_empty (@CleanEventType cleaner eventType) else eventType))
  <$> getUniqueEventTypes (specTypes (Spec sub)).

(** [getJetStreamSubject] and [GetJetStreamSubject] have the same body. *)
Definition GetJetStreamSubject (config : NATSConfig) (cleaner : Cleaner) (source subject typeMatching : string) : string :=
  if String.eqb typeMatching TypeMatchingExact
  then JSSubjectPrefix config +:+ "." +:+ subject
  else let cleanSource := value_or_empty (@CleanSource cleaner source) in
       JSSubjectPrefix config +:+ "." +:+ cleanSource +:+ "." +:+ subject.

Definition GetJetStreamSubjects (config : NATSConfig) (cleaner : Cleaner) (source : string)
    (subjects : list string) (typeMatching : string) : list string :=
  (fun subject => GetJetStreamSubject config cleaner source subject typeMatching) <$> subjects.

(** [s.namespacedSubjectName[:strings.LastIndex(...)]]: slicing to -1 panics. *)
Definition NamespacedName (s : SubscriptionSubjectIdentifier) : option string :=
  n ← LastIndex (namespacedSubjectName s) separator; Some (take_bytes n (namespacedSubjectName s)).

Definition computeNamespacedSubjectName (subscription : Subscription) (subject : string) : string :=
  Namespace (meta subscription) +:+ String separator (Name (meta subscription) +:+ String separator subject).

Section names.
Context (sha256hex : string -> string) (ParseQuantity : string -> Z + goerr).

Definition computeConsumerName (subscription : Subscription) (subject : string) : string :=
  take_bytes 32 (sha256hex
    (Namespace (meta subscription) +:+ String separator (Name (meta subscription) +:+ String separator subject))).

Definition NewSubscriptionSubjectIdentifier (subscription : Subscription) (subject : string) : SubscriptionSubjectIdentifier :=
  mkSSI (computeConsumerName subscription subject) (computeNamespacedSubjectName subscription subject).

Definition GetBackendJetStreamTypes (subscription : Subscription) (jsSubjects : list string)
    : list JetStreamTypes + goerr :=
  if negb (length jsSubjects =? length (specTypes (Spec subscription)))%nat
  then inr (errors_New "length of JetStream subjects do not match with eventTypes from spec")
  else inl (zip_with (fun ot subject => mkJetStreamTypes ot (computeConsumerName subscription subject))
              (specTypes (Spec subscription)) jsSubjects).

Definition getStreamConfig (natsConfig : NATSConfig) : StreamConfig + goerr :=
  match toJetStreamStorageType (JSStreamStorageType natsConfig) with
  | inr err => inr err
  | inl storage => match toJetStreamRetentionPolicy (JSStreamRetentionPolicy natsConfig) with
    | inr err => inr err
    | inl retentionPolicy =>
      let text := if String.eqb (JSStreamMaxBytes natsConfig) "" then "-1" else JSStreamMaxBytes natsConfig in
      match ParseQuantity text with
      | inr err => inr err
      | inl maxBytes => match toJetStreamDiscardPolicy (JSStreamDiscardPolicy natsConfig) with
        | inr err => inr err
        | inl discardPolicy => inl {|
            scName := JSStreamName natsConfig;
            scStorage := storage;
            scReplicas := JSStreamReplicas natsConfig;
            scRetention := retentionPolicy;
            scMaxMsgs := JSStreamMaxMessages natsConfig;
            scMaxBytes := maxBytes;
            scDiscard := discardPolicy;
            scMaxMsgsPerSubject := JSStreamMaxMsgsPerTopic natsConfig;
            scSubjects := Some [JSSubjectPrefix natsConfig +:+ ".>"] |}
        end end end end.
End names.

(** [isJsSubAssociatedWithKymaSub]; [None] is the panic of [NamespacedName]. *)
Definition isJsSubAssociatedWithKymaSub (jsSubKey : SubscriptionSubjectIdentifier) (subscription : Subscription) : option bool :=
  nn ← NamespacedName jsSubKey; Some (String.eqb (createKeyPrefix subscription) nn).

Definition getConsumerConfig (config : NATSConfig) (inbox : string) (jsSubKey : SubscriptionSubjectIdentifier)
    (jsSubject : string) (maxInFlight : Z) : ConsumerConfig := {|
  ccDurable := consumerName jsSubKey;
  ccDescription := namespacedSubjectName jsSubKey;
  ccDeliverPolicy := toJetStreamConsumerDeliverPolicy (JSConsumerDeliverPolicy config);
  ccFlowControl := true;
  ccMaxAckPending := maxInFlight;
  ccAckPolicy := "explicit";
  ccAckWait := jsConsumerAckWait;
  ccMaxDeliver := jsConsumerMaxRedeliver;
  ccFilterSubject := jsSubject;
  ccReplayPolicy := "instant";
  ccDeliverSubject := inbox;
  ccHeartbeat := idleHeartBeatDuration |}.

Definition getDefaultSubscriptionOptions (config : NATSConfig) (consumer : SubscriptionSubjectIdentifier)
    (maxInFlightMessages : Z) : list SubOpt :=
  [ Durable (consumerName consumer); Description (namespacedSubjectName consumer); ManualAck; AckExplicit;
    IdleHeartbeat idleHeartBeatDuration; EnableFlowControl;
    toJetStreamConsumerDeliverPolicyOptOrDefault (JSConsumerDeliverPolicy config);
    OptMaxAckPending maxInFlightMessages; OptMaxDeliver jsConsumerMaxRedeliver; OptAckWait jsConsumerAckWait;
    Bind (JSStreamName config) (consumerName consumer) ].

Definition streamIsConfiguredCorrectly (got want : StreamConfig) : bool :=
  String.eqb (scName got) (scName want) && bool_decide (scStorage got = scStorage want) &&
  (scReplicas got =? scReplicas want)%Z && bool_decide (scRetention got = scRetention want) &&
  (scMaxMsgs got =? scMaxMsgs want)%Z && (scMaxBytes got =? scMaxBytes want)%Z &&
  bool_decide (scDiscard got = scDiscard want) && bool_decide (scSubjects got = scSubjects want).

(** * Theorems *)

(** ** Unique event types *)
Lemma getUniqueEventTypes_foldl (m : gmap string bool) acc l :
  (forall x, is_Some (m !! x) <-> x ∈ acc) ->
  (foldl getUniqueEventTypes_step (m, acc) l).2 = foldl dedup_step acc l.
Proof.
  revert m acc. induction l as [|v l IH]; intros m acc Hm; [done|]. cbn [foldl]. unfold getUniqueEventTypes_step at 2.
  unfold dedup_step at 2. destruct (m !! v) as [b|] eqn:E.
  - rewrite bool_decide_eq_true_2 by (apply Hm; by exists b). by apply IH.
  - rewrite bool_decide_eq_false_2 by (intros [b Hb]%Hm; congruence). apply IH.
    intros x. rewrite lookup_insert, elem_of_app, list_elem_of_singleton, <- Hm.
    destruct (decide (v = x)) as [->|]; split; [by right|by eexists|by left|intros [?|?]; congruence].
Qed.

Lemma getUniqueEventTypes_dedup l : getUniqueEventTypes l = foldl dedup_step [] l.
Proof. apply getUniqueEventTypes_foldl. intros x. rewrite lookup_empty. split; [by intros [? ?]|by intros ?%not_elem_of_nil]. Qed.

Lemma dedup_spec acc l : NoDup acc ->
  NoDup (foldl dedup_step acc l) /\ (forall x, x ∈ foldl dedup_step acc l <-> x ∈ acc \/ x ∈ l) /\
  (NoDup (acc ++ l) -> foldl dedup_step acc l = (acc ++ l)%list).
Proof.
  revert acc. induction l as [|v l IH]; intros acc Hnd; cbn [foldl].
  - split_and!; [done| |by rewrite app_nil_r]. intros x. split; [by left|]. by intros [?|?%not_elem_of_nil].
  - unfold dedup_step at 2 4 6. case_bool_decide as Hv.
    + destruct (IH acc Hnd) as (H1 & H2 & H3). split_and!; [done| |].
      * intros x. rewrite H2, elem_of_cons. naive_solver.
      * intros [_ [Hd _]]%NoDup_app. destruct (Hd v Hv). constructor.
    + assert (NoDup (acc ++ [v])) as Hnd'.
      { apply NoDup_app. split_and!; [done| |apply NoDup_singleton]. intros x Hx ->%list_elem_of_singleton. done. }
      destruct (IH _ Hnd') as (H1 & H2 & H3). split_and!; [done| |].
      * intros x. rewrite H2, elem_of_app, list_elem_of_singleton, elem_of_cons. naive_solver.
      * intros H. rewrite H3; by rewrite <- app_assoc.
Qed.

Lemma GetUniqueTypes_dedup s : GetUniqueTypes s = foldl dedup_step [] (specTypes (Spec s)).
Proof.
  unfold GetUniqueTypes. cut (forall acc : list string, foldl (fun result t =>
    if negb (ContainsString result t) then (result ++ [t])%list else result) acc (specTypes (Spec s)) =
    foldl dedup_step acc (specTypes (Spec s))); [done|].
  induction (specTypes (Spec s)) as [|v l IH]; intros acc; [done|]. cbn [foldl]. rewrite IH. f_equal.
  unfold dedup_step. case_bool_decide as Hv.
  - apply ContainsString_elem in Hv. by rewrite Hv.
  - apply ContainsString_false in Hv. by rewrite Hv.
Qed.

(** The two deduplications of event types, by a map in the JetStream
    backend and by scanning in the Subscription API, give the same list: each type once, in
    the order of first occurrence; distinct types are left as they are. *)
Theorem getUniqueEventTypes_spec s :
  getUniqueEventTypes (specTypes (Spec s)) = GetUniqueTypes s /\
  NoDup (GetUniqueTypes s) /\
  (forall x, x ∈ GetUniqueTypes s <-> x ∈ specTypes (Spec s)) /\
  (NoDup (specTypes (Spec s)) -> GetUniqueTypes s = specTypes (Spec s)).
Proof.
  rewrite getUniqueEventTypes_dedup, GetUniqueTypes_dedup.
  destruct (dedup_spec [] (specTypes (Spec s))) as (H1 & H2 & H3); [constructor|].
  split_and!; [done|done| |exact H3]. intros x. rewrite H2. split; [by intros [?%not_elem_of_nil|?]|by right].
Qed.

(** ** Names *)
Lemma NamespacedName_app a b c : HasByte separator b = false ->
  NamespacedName (mkSSI c (a +:+ String separator b)) = Some a.
Proof. intros Hb. unfold NamespacedName. cbn. rewrite LastIndex_app by done. cbn. by rewrite take_bytes_app. Qed.

Lemma namespacedSubject_split sub subject :
  computeNamespacedSubjectName sub subject = createKeyPrefix sub +:+ String separator subject.
Proof. unfold computeNamespacedSubjectName, createKeyPrefix. by rewrite !app_assoc_s. Qed.

(** A JetStream subscription key is recognised as belonging to the Kyma
    Subscription it was made for exactly when its subject has no slash: the
    namespaced name is recovered by cutting at the last slash. *)
Theorem association_iff sha sub subject :
  isJsSubAssociatedWithKymaSub (NewSubscriptionSubjectIdentifier sha sub subject) sub =
    Some (negb (HasByte separator subject)).
Proof.
  unfold isJsSubAssociatedWithKymaSub, NewSubscriptionSubjectIdentifier. rewrite namespacedSubject_split.
  destruct (HasByte separator subject) eqn:E.
  - unfold NamespacedName. cbn [namespacedSubjectName].
    destruct (LastIndex subject separator) as [n|] eqn:En.
    + destruct (LastIndex_Some _ _ _ En) as (a & b & -> & <- & Hb).
      change (String separator (a +:+ String separator b)) with (String separator a +:+ String separator b).
      rewrite <- app_assoc_s, LastIndex_app by done. cbn [mbind option_bind]. rewrite take_bytes_app. cbn. f_equal.
      apply String.eqb_neq. intros Heq. apply (f_equal len) in Heq. rewrite len_app in Heq. cbn in Heq. lia.
    + apply LastIndex_None_inv in En. congruence.
  - rewrite NamespacedName_app by done. cbn. by rewrite String.eqb_refl.
Qed.

(** The subjects of standard matching have no slash when the prefix of the stream has none. *)
Lemma standard_subject_no_slash config source eventType tm t :
  tm <> TypeMatchingExact -> HasByte "/" (JSSubjectPrefix config) = false ->
  JetStream_CleanEventType eventType = inl t ->
  HasByte separator (GetJetStreamSubject config JetStreamCleaner source t tm) = false.
Proof.
  intros Htm Hp Ht. unfold GetJetStreamSubject. rewrite (proj2 (String.eqb_neq _ _) Htm).
  apply JetStream_CleanEventType_no_slash in Ht.
  pose proof (JetStream_CleanSource_no_slash source _ eq_refl) as Hs.
  unfold separator. cbn [CleanSource JetStreamCleaner value_or_empty JetStream_CleanSource].
  rewrite !HasByte_app, Hp, Hs, Ht. done.
Qed.

(** ** Types of the backend status *)
Lemma GetCleanEventTypes_length sub cleaner : NoDup (specTypes (Spec sub)) ->
  length (GetCleanEventTypes sub cleaner) = length (specTypes (Spec sub)).
Proof.
  intros Hnd. unfold GetCleanEventTypes. rewrite length_fmap, getUniqueEventTypes_dedup.
  destruct (dedup_spec [] (specTypes (Spec sub))) as (_ & _ & H3); [constructor|]. by rewrite H3.
Qed.

Lemma fmap_zip_with_right {A B C D} (f : A -> B -> C) (g : C -> D) (h : B -> D) l k :
  (forall x y, g (f x y) = h y) -> length k = length l -> g <$> zip_with f l k = h <$> k.
Proof.
  intros Hg. revert k. induction l as [|x l IH]; intros [|y k] Hl; cbn in *; [done..|].
  rewrite Hg. f_equal. apply IH. by injection Hl.
Qed.

(** For a Subscription without duplicate types, the event types of the status
    and the consumer names of the backend status are computed without an error, one
    entry per type of the specification, in its order. *)
Theorem backend_types_computed sha config cleaner sub : NoDup (specTypes (Spec sub)) ->
  let statusTypes := GetCleanEventTypes sub cleaner in
  let subjects := GetJetStreamSubjects config cleaner (Source (Spec sub))
                    (GetCleanEventTypesFromEventTypes statusTypes) (TypeMatching (Spec sub)) in
  OriginalType <$> statusTypes = specTypes (Spec sub) /\
  exists jsTypes, GetBackendJetStreamTypes sha sub subjects = inl jsTypes /\
    jsOriginalType <$> jsTypes = specTypes (Spec sub) /\
    jsConsumerName <$> jsTypes = computeConsumerName sha sub <$> subjects.
Proof.
  intros Hnd statusTypes subjects.
  assert (OriginalType <$> statusTypes = specTypes (Spec sub)) as Ho.
  { subst statusTypes. unfold GetCleanEventTypes. rewrite <- list_fmap_compose, getUniqueEventTypes_dedup.
    destruct (dedup_spec [] (specTypes (Spec sub))) as (_ & _ & H3); [constructor|]. rewrite H3 by done.
    apply list_fmap_id. }
  split; [done|]. unfold GetBackendJetStreamTypes.
  assert (length subjects = length (specTypes (Spec sub))) as Hlen.
  { subst subjects. unfold GetJetStreamSubjects, GetCleanEventTypesFromEventTypes. rewrite !length_fmap.
    by apply GetCleanEventTypes_length. }
  rewrite Hlen, Nat.eqb_refl. cbn [negb]. eexists. split; [reflexivity|]. split.
  - apply fmap_zip_with_l; [done|by rewrite Hlen].
  - by apply fmap_zip_with_right.
Qed.

Lemma backend_types_computed_witness :
  let sub := mkSubscription (mkMeta "s" "ns" "" None None) (mkSpec "" "standard" "app" ["a.b"; "a.c"] ∅) zeroStatus in
  let config := mkNATSConfig "" 0 0 "" 0 0 0 0 "sap" "kyma" "" 0 "" 0 "" 0 "" "" in
  let statusTypes := GetCleanEventTypes sub JetStreamCleaner in
  let subjects := GetJetStreamSubjects config JetStreamCleaner (Source (Spec sub))
                    (GetCleanEventTypesFromEventTypes statusTypes) (TypeMatching (Spec sub)) in
  OriginalType <$> statusTypes = specTypes (Spec sub) /\
  exists jsTypes, GetBackendJetStreamTypes (fun s => s) sub subjects = inl jsTypes /\
    jsOriginalType <$> jsTypes = specTypes (Spec sub) /\
    jsConsumerName <$> jsTypes = computeConsumerName (fun s => s) sub <$> subjects.
Proof. apply backend_types_computed. apply (bool_decide_unpack _). vm_compute. exact I. Defined.

(** ** Stream configuration *)
Lemma validate_getStreamConfig pq config : JS_Validate config = None ->
  (exists sc, getStreamConfig pq config = inl sc) \/ (exists t e, pq t = inr e /\ getStreamConfig pq config = inr e).
Proof.
  unfold JS_Validate, validate_with, getStreamConfig. intros H.
  destruct (String.eqb (JSStreamName config) ""); [done|]. destruct (_ <? _)%nat; [done|].
  destruct (toJetStreamStorageType _); [|done]. destruct (toJetStreamRetentionPolicy _); [|done].
  destruct (toJetStreamDiscardPolicy _); [|done]. destruct (pq _) eqn:E; [left; by eexists|right; eauto].
Qed.

(** The limit on messages per subject is set on the stream but not compared:
    a stream that differs in it only counts as configured. *)
Theorem streamIsConfiguredCorrectly_ignores_MaxMsgsPerSubject want n :
  streamIsConfiguredCorrectly
    (mkStreamConfig (scName want) (scSubjects want) (scStorage want) (scReplicas want) (scRetention want)
       (scMaxMsgs want) (scMaxBytes want) (scDiscard want) n) want = true.
Proof.
  unfold streamIsConfiguredCorrectly. cbn. rewrite String.eqb_refl, !Z.eqb_refl.
  by rewrite !bool_decide_eq_true_2.
Qed.

Lemma streamIsConfiguredCorrectly_fields got want :
  streamIsConfiguredCorrectly got want = true <->
  got = mkStreamConfig (scName want) (scSubjects want) (scStorage want) (scReplicas want) (scRetention want)
          (scMaxMsgs want) (scMaxBytes want) (scDiscard want) (scMaxMsgsPerSubject got).
Proof.
  unfold streamIsConfiguredCorrectly.
  rewrite !andb_true_iff, String.eqb_eq, !Z.eqb_eq, !bool_decide_eq_true. destruct got, want; cbn. split.
  - intros H. destruct_and!. by subst.
  - intros [=]. by subst.
Qed.
