(* ===== verification/JetStream.v ===== *)
(** * JetStream backend: [pkg/backend/jetstream/jetstream.go]

    The backend keeps a NATS connection, a JetStream context, the map of
    its NATS subscriptions and the map of sinks.  Its calls to NATS, to the HTTP client and to
    the metrics are the events of [jsEvent]; an environment [JSEnv]
    answers them.  The order in which Go ranges over the map of
    subscriptions is an answer too: any enumeration of the map. *)

From S2P Require Import Prelude Effects GoStrings Tracing Errors Utils Subscription EventTypes Config JetStreamUtils.
From stdpp Require Import pretty.
From Stdlib Require Import Ascii.

(** ** State *)
Record JetStream := mkJetStream {
  jConfig : NATSConfig;
  Conn : option nat;
  jsCtx : option nat;
  client : bool; (* js.client != nil *)
  subscriptions : gmap SubscriptionSubjectIdentifier nat;
  sinks : gmap string string;
  connClosedHandler : option string;
  jCleaner : Cleaner;
  subsConfig : DefaultSubscriptionConfig
}.

Definition NewJetStream (config : NATSConfig) (cleaner : Cleaner) (subsConfig : DefaultSubscriptionConfig) : JetStream :=
  mkJetStream config None None false ∅ ∅ None cleaner subsConfig.

Definition set_Conn (c : nat) (h : option string) (j : JetStream) :=
  mkJetStream (jConfig j) (Some c) (jsCtx j) (client j) (subscriptions j) (sinks j) h (jCleaner j) (subsConfig j).
Definition set_jsCtx (c : nat) (j : JetStream) :=
  mkJetStream (jConfig j) (Conn j) (Some c) (client j) (subscriptions j) (sinks j) (connClosedHandler j) (jCleaner j) (subsConfig j).
Definition set_client (j : JetStream) :=
  mkJetStream (jConfig j) (Conn j) (jsCtx j) true (subscriptions j) (sinks j) (connClosedHandler j) (jCleaner j) (subsConfig j).
Definition upd_subscriptions (f : gmap SubscriptionSubjectIdentifier nat -> gmap SubscriptionSubjectIdentifier nat) (j : JetStream) :=
  mkJetStream (jConfig j) (Conn j) (jsCtx j) (client j) (f (subscriptions j)) (sinks j) (connClosedHandler j) (jCleaner j) (subsConfig j).
Definition upd_sinks (f : gmap string string -> gmap string string) (j : JetStream) :=
  mkJetStream (jConfig j) (Conn j) (jsCtx j) (client j) (subscriptions j) (f (sinks j)) (connClosedHandler j) (jCleaner j) (subsConfig j).

(** ** Messages *)

(** The result of a dispatch: whether it is an acknowledgement, and the HTTP
    status when the result has one. *)
Record SendResult := mkSendResult { isACK : bool; httpStatus : option Z }.

Inductive jsEvent :=
  | EvStatus (conn : nat) (r : Z)
  | EvConnect (url : string) (r : nat + goerr)
  | EvIsConnected (conn : nat) (r : bool)
  | EvIsClosed (conn : nat) (r : bool)
  | EvClose (conn : nat)
  | EvSetClosedHandler (conn : nat) (h : string)
  | EvSetReconnectHandler (conn : nat)
  | EvJetStream (conn : nat) (r : nat + goerr)
  | EvNewClient (r : unit + goerr)
  | EvStreamInfo (name : string) (r : StreamConfig + goerr)
  | EvAddStream (cfg : StreamConfig) (r : unit + goerr)
  | EvUpdateStream (cfg : StreamConfig) (r : unit + goerr)
  | EvConsumers (stream : string) (r : list ConsumerInfo)
  | EvConsumerInfo (stream name : string) (r : ConsumerInfo + goerr)
  | EvNewInbox (r : string)
  | EvAddConsumer (stream : string) (cfg : ConsumerConfig) (r : ConsumerInfo + goerr)
  | EvUpdateConsumer (stream : string) (cfg : ConsumerConfig) (r : unit + goerr)
  | EvDeleteConsumer (stream name : string) (r : option goerr)
  | EvSubscribe (subject callback : string) (opts : list SubOpt) (r : nat + goerr)
  | EvIsValid (sub : nat) (r : bool)
  | EvUnsubscribe (sub : nat) (r : option goerr)
  | EvRecordEventTypes (name namespace eventType consumer : string)
  | EvMsgConsumerInfo (r : ConsumerInfo + goerr)
  | EvSend (sink : string) (headers : option Header) (event : CEvent) (r : SendResult)
  | EvAck (r : option goerr)
  | EvNakWithDelay (delay : Z) (r : option goerr)
  | EvRecordDelivery (name namespace eventType consumer sink : string) (status : Z)
  | EvRecordLatency (name namespace eventType consumer sink : string) (status : Z).

Record JSEnv := mkJSEnv {
  a_Status : list jsEvent -> nat -> Z;
  a_Connect : list jsEvent -> string -> nat + goerr;
  a_IsConnected : list jsEvent -> nat -> bool;
  a_IsClosed : list jsEvent -> nat -> bool;
  a_JetStream : list jsEvent -> nat -> nat + goerr;
  a_NewClient : list jsEvent -> unit + goerr;
  a_StreamInfo : list jsEvent -> string -> StreamConfig + goerr;
  a_AddStream : list jsEvent -> StreamConfig -> unit + goerr;
  a_UpdateStream : list jsEvent -> StreamConfig -> unit + goerr;
  a_Consumers : list jsEvent -> string -> list ConsumerInfo;
  a_ConsumerInfo : list jsEvent -> string -> string -> ConsumerInfo + goerr;
  a_NewInbox : list jsEvent -> string;
  a_AddConsumer : list jsEvent -> string -> ConsumerConfig -> ConsumerInfo + goerr;
  a_UpdateConsumer : list jsEvent -> string -> ConsumerConfig -> unit + goerr;
  a_DeleteConsumer : list jsEvent -> string -> string -> option goerr;
  a_Subscribe : list jsEvent -> string -> list SubOpt -> nat + goerr;
  a_IsValid : list jsEvent -> nat -> bool;
  a_Unsubscribe : list jsEvent -> nat -> option goerr;
  a_MsgConsumerInfo : list jsEvent -> ConsumerInfo + goerr;
  a_Send : list jsEvent -> string -> option Header -> CEvent -> SendResult;
  a_Ack : list jsEvent -> option goerr;
  a_NakWithDelay : list jsEvent -> option goerr;
  (* range over the map of subscriptions *)
  a_range : list jsEvent -> gmap SubscriptionSubjectIdentifier nat -> list (SubscriptionSubjectIdentifier * nat);
  a_range_all : forall h m, a_range h m ≡ₚ map_to_list m
}.

Definition CONNECTED : Z := 1.

Section jetstream.
Context (sha256hex : string -> string) (ParseQuantity : string -> Z + goerr) (env : JSEnv).
(** The decoding of a message ([json.Unmarshal] and [event.Validate]). *)
Context (ConvertMsgToCE : string -> CEvent + goerr).

Abbreviation JS := (M (World JetStream jsEvent)).

Definition nilPointer : string := "invalid memory address or nil pointer dereference".

(** A call of a method of [js.jsCtx]. *)
Definition jsCall {R} (ev : R -> jsEvent) (f : list jsEvent -> R) : JS R :=
  c <- gets jsCtx ;; orPanic c nilPointer ;;; call ev f.

Definition rangeSubscriptions : JS (list (SubscriptionSubjectIdentifier * nat)) := fun w =>
  (Ok (a_range env (hist w) (subscriptions (st w))), w).

(** ** Connection *)

(** [js.Conn == nil || js.Conn.Status() != nats.CONNECTED]. *)
Definition notConnected : JS bool :=
  c <- gets Conn ;;
  match c with
  | None => retM true
  | Some c => s <- call (EvStatus c) (fun h => a_Status env h c) ;; retM (negb (s =? CONNECTED)%Z)
  end.

Definition failed_to_connect (err : option goerr) : goerr :=
  GoErr ENew ("failed to connect to NATS JetStream: " +:+ w_arg err) (option_list err).

Definition initNATSConn (connCloseHandler : option string) : JS unit :=
  disconnected <- notConnected ;;
  if (disconnected : bool) then
    config <- gets jConfig ;;
    r <- call (EvConnect (URL config)) (fun h => a_Connect env h (URL config)) ;;
    match r with
    | inr err => errM (failed_to_connect (Some err))
    | inl conn =>
        connected <- call (EvIsConnected conn) (fun h => a_IsConnected env h conn) ;;
        if negb connected then errM (failed_to_connect None)
        else puts (set_Conn conn connCloseHandler) ;;;
             match connCloseHandler with
             | Some h => call (fun _ => EvSetClosedHandler conn h) (fun _ => tt)
             | None => retM tt
             end ;;;
             call (fun _ => EvSetReconnectHandler conn) (fun _ => tt)
    end
  else retM tt.

Definition initJSContext : JS unit :=
  c <- gets Conn ;;
  conn <- orPanic c nilPointer ;;
  r <- call (EvJetStream conn) (fun h => a_JetStream env h conn) ;;
  match r with
  | inr err => errM (wrapf "failed to create the JetStream context" err)
  | inl ctx => puts (set_jsCtx ctx)
  end.

Definition initCloudEventClient : JS unit :=
  c <- gets client ;;
  if (c : bool) then retM tt
  else r <- call EvNewClient (fun h => a_NewClient env h) ;; okOr r ;;; puts set_client.

Definition ensureStreamExistsAndIsConfiguredCorrectly : JS unit :=
  config <- gets jConfig ;;
  streamConfig <- okOr (getStreamConfig ParseQuantity config) ;;
  info <- jsCall (EvStreamInfo (JSStreamName config)) (fun h => a_StreamInfo env h (JSStreamName config)) ;;
  match info with
  | inr err =>
      if is_stream_not_found err
      then r <- jsCall (EvAddStream streamConfig) (fun h => a_AddStream env h streamConfig) ;; okOr r
      else errM err
  | inl info =>
      if negb (streamIsConfiguredCorrectly info streamConfig)
      then r <- jsCall (EvUpdateStream streamConfig) (fun h => a_UpdateStream env h streamConfig) ;; okOr r
      else retM tt
  end.

(** [handleReconnect] logs the error. *)
Definition handleReconnect : JS unit := errOf ensureStreamExistsAndIsConfiguredCorrectly ;;; retM tt.

Definition Initialize (connCloseHandler : option string) : JS unit :=
  config <- gets jConfig ;;
  returnErr (validateConfig config) ;;;
  initNATSConn connCloseHandler ;;;
  initJSContext ;;;
  initCloudEventClient ;;;
  ensureStreamExistsAndIsConfiguredCorrectly.

Definition Shutdown : JS unit :=
  c <- gets Conn ;;
  match c with
  | None => retM tt
  | Some conn =>
      closed <- call (EvIsClosed conn) (fun h => a_IsClosed env h conn) ;;
      if (closed : bool) then retM tt else call (fun _ => EvClose conn) (fun _ => tt)
  end.

(** The status in the message is read from [js.Conn], which is still nil when
    the first connection failed. *)
Definition checkJetStreamConnection : JS unit :=
  disconnected <- notConnected ;;
  if (disconnected : bool) then
    h <- gets connClosedHandler ;;
    r <- errOf (Initialize h) ;;
    match r with
    | None => retM tt
    | Some err =>
        c <- gets Conn ;;
        conn <- orPanic c nilPointer ;;
        s <- call (EvStatus conn) (fun h => a_Status env h conn) ;;
        errM (wrapf ("failed to connect to JetStream with status " +:+ pretty s) err)
    end
  else retM tt.

(** ** Subjects and keys of a Subscription *)
Definition subjectOf (j : JetStream) (subscription : Subscription) (eventType : EventType) : string :=
  GetJetStreamSubject (jConfig j) (jCleaner j) (Source (Spec subscription)) (CleanType eventType)
    (TypeMatching (Spec subscription)).
Definition keyOf (j : JetStream) (subscription : Subscription) (eventType : EventType) : SubscriptionSubjectIdentifier :=
  NewSubscriptionSubjectIdentifier sha256hex subscription (subjectOf j subscription eventType).
Definition statusTypes (subscription : Subscription) : list EventType := elems (Types (Status subscription)).

Definition associated (key : SubscriptionSubjectIdentifier) (subscription : Subscription) : JS bool :=
  orPanic (isJsSubAssociatedWithKymaSub key subscription) "slice bounds out of range [:-1]".

(** ** Deleting *)
Definition deleteConsumerFromJetStream (name : string) : JS unit :=
  config <- gets jConfig ;;
  r <- jsCall (EvDeleteConsumer (JSStreamName config) name) (fun h => a_DeleteConsumer env h (JSStreamName config) name) ;;
  match r with
  | Some err => if is_consumer_not_found err then retM tt else errM (MakeConsumerError ErrDeleteConsumer err name)
  | None => retM tt
  end.

(** The common start of the two deletions: unsubscribe, when still valid. *)
Definition unsubscribeIfValid (jsSub : nat) : JS unit :=
  valid <- call (EvIsValid jsSub) (fun h => a_IsValid env h jsSub) ;;
  if (valid : bool)
  then r <- call (EvUnsubscribe jsSub) (fun h => a_Unsubscribe env h jsSub) ;;
       match r with
       | Some err => errM (MakeSubscriptionError ErrFailedUnsubscribe err (pretty jsSub))
       | None => retM tt
       end
  else retM tt.

Definition deleteSubscriptionFromJetStream (jsSub : nat) (jsSubKey : SubscriptionSubjectIdentifier) : JS unit :=
  unsubscribeIfValid jsSub ;;;
  deleteConsumerFromJetStream (consumerName jsSubKey) ;;;
  puts (upd_subscriptions (delete jsSubKey)).

Definition deleteSubscriptionFromJetStreamOnly (jsSub : nat) (jsSubKey : SubscriptionSubjectIdentifier) : JS unit :=
  unsubscribeIfValid jsSub ;;;
  puts (upd_subscriptions (delete jsSubKey)).

Definition DeleteSubscription (subscription : Subscription) : JS unit :=
  checkJetStreamConnection ;;;
  l <- rangeSubscriptions ;;
  forM_ l (fun '(key, jsSub) =>
    a <- associated key subscription ;;
    if negb a then retM tt else deleteSubscriptionFromJetStream jsSub key) ;;;
  forM_ (statusTypes subscription) (fun subject =>
    j <- gets id ;;
    deleteConsumerFromJetStream (consumerName (keyOf j subscription subject))) ;;;
  puts (upd_sinks (delete (createKeyPrefix subscription))).

Definition DeleteSubscriptionsOnly (subscription : Subscription) : JS unit :=
  checkJetStreamConnection ;;;
  l <- rangeSubscriptions ;;
  forM_ l (fun '(key, jsSub) =>
    a <- associated key subscription ;;
    if negb a then retM tt else deleteSubscriptionFromJetStreamOnly jsSub key).

(** ** Dangling consumers *)
Definition isConsumerUsedByKymaSub (j : JetStream) (consumerName : string) (subscriptions : list Subscription) : bool :=
  existsb (fun sub =>
    let cleanedTypes := GetCleanEventTypes sub (jCleaner j) in
    let jsSubjects := GetJetStreamSubjects (jConfig j) (jCleaner j) (Source (Spec sub))
                        (GetCleanEventTypesFromEventTypes cleanedTypes) (TypeMatching (Spec sub)) in
    existsb (fun jsSubject => String.eqb consumerName (computeConsumerName sha256hex sub jsSubject)) jsSubjects)
  subscriptions.

Definition DeleteInvalidConsumers (subscriptions : list Subscription) : JS unit :=
  config <- gets jConfig ;;
  consumers <- jsCall (EvConsumers (JSStreamName config)) (fun h => a_Consumers env h (JSStreamName config)) ;;
  forM_ consumers (fun con =>
    j <- gets id ;;
    if negb (ciPushBound con) && negb (isConsumerUsedByKymaSub j (ciName con) subscriptions)
    then deleteConsumerFromJetStream (ciName con)
    else retM tt).
(** ** Synchronising the event types *)

(** [runtimeSubscriptionExistsInKymaSub]. *)
Definition runtimeSubscriptionExistsInKymaSub (j : JetStream) (key : SubscriptionSubjectIdentifier)
    (subscription : Subscription) : bool :=
  existsb (fun subject => String.eqb (consumerName key) (consumerName (keyOf j subscription subject)))
    (statusTypes subscription).

(** [consumerSubjectExistsInKymaSub]. *)
Definition consumerSubjectExistsInKymaSub (j : JetStream) (consumer : ConsumerInfo) (subscription : Subscription) : bool :=
  ContainsString
    (GetJetStreamSubjects (jConfig j) (jCleaner j) (Source (Spec subscription))
       (GetCleanEventTypesFromEventTypes (statusTypes subscription)) (TypeMatching (Spec subscription)))
    (ccFilterSubject (ciConfig consumer)).

Definition cleanupUnnecessaryJetStreamSubscribers (jsSub : nat) (subscription : Subscription)
    (key : SubscriptionSubjectIdentifier) : JS unit :=
  j <- gets id ;;
  let stream := JSStreamName (jConfig j) in
  r <- jsCall (EvConsumerInfo stream (consumerName key)) (fun h => a_ConsumerInfo env h stream (consumerName key)) ;;
  match r with
  | inr err =>
      if is_consumer_not_found err
      then deleteConsumerFromJetStream (consumerName key) ;;; puts (upd_subscriptions (delete key))
      else errM err
  | inl consumer =>
      if negb (consumerSubjectExistsInKymaSub j consumer subscription)
      then deleteSubscriptionFromJetStream jsSub key
      else retM tt
  end.

Definition syncSubscriptionEventType (key : SubscriptionSubjectIdentifier) (subscription : Subscription)
    (subscriber : nat) : JS unit :=
  valid <- call (EvIsValid subscriber) (fun h => a_IsValid env h subscriber) ;;
  j <- gets id ;;
  if negb valid && runtimeSubscriptionExistsInKymaSub j key subscription then retM tt
  else cleanupUnnecessaryJetStreamSubscribers subscriber subscription key.

Definition syncSubscriptionEventTypes (subscription : Subscription) : JS unit :=
  l <- rangeSubscriptions ;;
  forM_ l (fun '(key, jsSub) =>
    a <- associated key subscription ;;
    if (a : bool) then syncSubscriptionEventType key subscription jsSub else retM tt).

(** ** Consumers and NATS subscriptions *)
Definition maxInFlightOf (j : JetStream) (subscription : Subscription) : Z :=
  GetMaxInFlightMessages subscription (subsConfig j).

Definition getOrCreateConsumer (subscription : Subscription) (subject : EventType) : JS ConsumerInfo :=
  j <- gets id ;;
  let jsSubject := subjectOf j subscription subject in
  let jsSubKey := keyOf j subscription subject in
  let stream := JSStreamName (jConfig j) in
  r <- jsCall (EvConsumerInfo stream (consumerName jsSubKey))
         (fun h => a_ConsumerInfo env h stream (consumerName jsSubKey)) ;;
  match r with
  | inl consumerInfo => retM consumerInfo
  | inr err =>
      if is_consumer_not_found err then
        inbox <- call EvNewInbox (fun h => a_NewInbox env h) ;;
        let cfg := getConsumerConfig (jConfig j) inbox jsSubKey jsSubject (maxInFlightOf j subscription) in
        r <- jsCall (EvAddConsumer stream cfg) (fun h => a_AddConsumer env h stream cfg) ;;
        match r with
        | inl consumerInfo => retM consumerInfo
        | inr err => errM (MakeError ErrAddConsumer (Some err))
        end
      else errM (MakeError ErrGetConsumer (Some err))
  end.

(** [js.jsCtx.Subscribe] with the callback of [subKeyPrefix]. *)
Definition subscribe (jsSubject asyncCallback : string) (opts : list SubOpt) : JS nat :=
  r <- jsCall (EvSubscribe jsSubject asyncCallback opts) (fun h => a_Subscribe env h jsSubject opts) ;;
  match r with
  | inr err => errM (MakeError ErrFailedSubscribe (Some err))
  | inl jsSubscription => retM jsSubscription
  end.

Definition createNATSSubscription (subscription : Subscription) (subject : EventType) (asyncCallback : string) : JS unit :=
  j <- gets id ;;
  let jsSubKey := keyOf j subscription subject in
  jsSubscription <- subscribe (subjectOf j subscription subject) asyncCallback
    (getDefaultSubscriptionOptions (jConfig j) jsSubKey (maxInFlightOf j subscription)) ;;
  puts (upd_subscriptions (insert jsSubKey jsSubscription)) ;;;
  call (fun _ => EvRecordEventTypes (Name (meta subscription)) (Namespace (meta subscription)) (CleanType subject)
                   (consumerName jsSubKey)) (fun _ => tt).

Definition bindInvalidSubscriptions (subscription : Subscription) (subject : EventType) (asyncCallback : string) : JS unit :=
  j <- gets id ;;
  let jsSubKey := keyOf j subscription subject in
  jsSubscription <- subscribe (subjectOf j subscription subject) asyncCallback
    [Bind (JSStreamName (jConfig j)) (consumerName jsSubKey)] ;;
  puts (upd_subscriptions (insert jsSubKey jsSubscription)).

Definition syncConsumerMaxInFlight (subscription : Subscription) (consumerInfo : ConsumerInfo) : JS unit :=
  j <- gets id ;;
  let maxInFlight := maxInFlightOf j subscription in
  if (ccMaxAckPending (ciConfig consumerInfo) =? maxInFlight)%Z then retM tt
  else
    let consumerConfig := set_MaxAckPending (ciConfig consumerInfo) maxInFlight in
    let stream := JSStreamName (jConfig j) in
    r <- jsCall (EvUpdateConsumer stream consumerConfig) (fun h => a_UpdateConsumer env h stream consumerConfig) ;;
    match r with
    | inr updateErr => errM (MakeError ErrUpdateConsumer (Some updateErr))
    | inl _ => retM tt
    end.

(** The body of the loop of [syncConsumerAndSubscription]. *)
Definition syncEventType (subscription : Subscription) (asyncCallback : string) (eventType : EventType) : JS unit :=
  j <- gets id ;;
  let jsSubKey := keyOf j subscription eventType in
  consumerInfo <- getOrCreateConsumer subscription eventType ;;
  natsSubscription <- gets (fun j => subscriptions j !! jsSubKey) ;;
  (match natsSubscription with
   | None => if negb (ciPushBound consumerInfo)
             then createNATSSubscription subscription eventType asyncCallback else retM tt
   | Some _ => retM tt
   end) ;;;
  present <- gets (fun j => subscriptions j !! jsSubKey) ;;
  match present with
  | None => errM (MakeError ErrMissingSubscription None)
  | Some _ =>
      (match natsSubscription with
       | Some s => valid <- call (EvIsValid s) (fun h => a_IsValid env h s) ;;
                   if negb valid then bindInvalidSubscriptions subscription eventType asyncCallback else retM tt
       | None => retM tt
       end) ;;;
      syncConsumerMaxInFlight subscription consumerInfo
  end.

Definition syncConsumerAndSubscription (subscription : Subscription) (asyncCallback : string) : JS unit :=
  forM_ (statusTypes subscription) (syncEventType subscription asyncCallback).

Definition SyncSubscription (subscription : Subscription) : JS unit :=
  let subKeyPrefix := createKeyPrefix subscription in
  checkJetStreamConnection ;;;
  syncSubscriptionEventTypes subscription ;;;
  sinkURL <- gets (fun j => sinks j !! subKeyPrefix) ;;
  (if bool_decide (sinkURL = Some (Sink (Spec subscription))) then retM tt
   else puts (upd_sinks (insert subKeyPrefix (Sink (Spec subscription))))) ;;;
  syncConsumerAndSubscription subscription subKeyPrefix.

(** ** Dispatching *)
Definition revertEventTypeToOriginal (config : NATSConfig) (event : CEvent) : CEvent :=
  match ceExtensions event !! originalTypeHeaderName with
  | Some orgType =>
      if negb (String.eqb orgType "") then set_ceType event orgType
      else set_ceType event (TrimPrefix (ceType event) (JSSubjectPrefix config +:+ "." +:+ ceSource event +:+ "."))
  | None => set_ceType event (TrimPrefix (ceType event) (JSSubjectPrefix config +:+ "." +:+ ceSource event +:+ "."))
  end.

(** The callback that [getCallback] returns, run on a message of data [data]. *)
Definition callback (subKeyPrefix subscriptionName subscriptionNamespace data : string) : JS unit :=
  sinkValue <- gets (fun j => sinks j !! subKeyPrefix) ;;
  match sinkValue with
  | None => retM tt
  | Some sink =>
      r <- call EvMsgConsumerInfo (fun h => a_MsgConsumerInfo env h) ;;
      match r with
      | inr _ => retM tt
      | inl info =>
          match ConvertMsgToCE data with
          | inr _ => retM tt
          | inl event =>
              config <- gets jConfig ;;
              let '(headers, event) := AddTracingHeadersToContext event in
              let event := revertEventTypeToOriginal config event in
              result <- call (EvSend sink headers event) (fun h => a_Send env h sink headers event) ;;
              let record (status : Z) : JS unit :=
                call (fun _ => EvRecordDelivery subscriptionName subscriptionNamespace (ceType event)
                                 (ciName info) sink status) (fun _ => tt) ;;;
                call (fun _ => EvRecordLatency subscriptionName subscriptionNamespace (ceType event)
                                 (ciName info) sink status) (fun _ => tt) in
              if negb (isACK result) then
                record (default 500%Z (httpStatus result)) ;;;
                call (EvNakWithDelay jsConsumerNakDelay) (fun h => a_NakWithDelay env h) ;;; retM tt
              else
                call EvAck (fun h => a_Ack env h) ;;;
                record (default 200%Z (httpStatus result))
          end
      end
  end.
End jetstream.
