(* ===== verification/JetStreamFacts.v ===== *)
(** * JetStream backend: what its operations do

    Theorems about [JetStream]: the connection, deletion, synchronisation,
    dangling consumers and the dispatch of messages, for every environment. *)

From S2P Require Import Prelude Effects GoStrings Tracing Errors Utils Subscription EventTypes Config JetStreamUtils JetStream.
From Stdlib Require Import Ascii.

Abbreviation JSWorld := (World JetStream jsEvent).

Section facts.
Context (sha : string -> string) (pq : string -> Z + goerr) (env : JSEnv) (conv : string -> CEvent + goerr).
Implicit Types (w : JSWorld) (sub : Subscription) (key : SubscriptionSubjectIdentifier) (j : JetStream).

(** ** Invariants kept by the operations

    A section per kind of write: [I] holds across every call, and across the writes named. *)
(** An event other than the deletion of a consumer, or the deletion of one that may be deleted. *)
Definition allowed (D : string -> Prop) (e : jsEvent) : Prop :=
  match e with EvDeleteConsumer _ name _ => D name | _ => True end.

Section kept.
Context (I : JSWorld -> Prop) (D : string -> Prop).
Context (Hev : forall w e, allowed D e -> I w -> I (mkWorld (st w) (e :: hist w))).

Lemma jsCall_keeps {R} (ev : R -> jsEvent) f : (forall r, allowed D (ev r)) -> keeps I (jsCall ev f).
Proof. intros Ha. unfold jsCall. repeat keeps_step. by apply Hev. Qed.

Lemma range_keeps : keeps I (rangeSubscriptions env).
Proof. intros w Hw. exact Hw. Qed.

Lemma associated_keeps key sub : keeps I (associated key sub).
Proof. unfold associated. keeps_step. Qed.

#[local] Hint Resolve range_keeps associated_keeps : keeps.

Ltac kept := repeat first
  [ keeps_step
  | apply jsCall_keeps; intros; solve [exact Logic.I | assumption]
  | apply keeps_puts; unfold id; solve [auto]
  | apply Hev; [solve [exact Logic.I | assumption] | assumption]
  | solve [auto] ].

Lemma ensureStream_keeps : keeps I (ensureStreamExistsAndIsConfiguredCorrectly pq env).
Proof. unfold ensureStreamExistsAndIsConfiguredCorrectly. kept. Qed.

Lemma deleteConsumer_keeps name : D name -> keeps I (deleteConsumerFromJetStream env name).
Proof. intros HD. unfold deleteConsumerFromJetStream. kept. Qed.

Lemma unsubscribeIfValid_keeps s : keeps I (unsubscribeIfValid env s).
Proof. unfold unsubscribeIfValid. kept. Qed.

Lemma notConnected_keeps : keeps I (notConnected env).
Proof. unfold notConnected. kept. Qed.

#[local] Hint Resolve ensureStream_keeps deleteConsumer_keeps unsubscribeIfValid_keeps notConnected_keeps : keeps.

Lemma getOrCreateConsumer_keeps sub t : keeps I (getOrCreateConsumer sha env sub t).
Proof. unfold getOrCreateConsumer. kept. Qed.

Lemma subscribe_keeps s cb opts : keeps I (subscribe env s cb opts).
Proof. unfold subscribe. kept. Qed.

Lemma syncMax_keeps sub ci : keeps I (syncConsumerMaxInFlight env sub ci).
Proof. unfold syncConsumerMaxInFlight. kept. Qed.

Lemma callback_keeps p n ns data : keeps I (callback env conv p n ns data).
Proof. unfold callback. kept. Qed.

#[local] Hint Resolve getOrCreateConsumer_keeps subscribe_keeps syncMax_keeps : keeps.

Section connecting.
Context (Hconn : forall w c h, I w -> I (mkWorld (set_Conn c h (st w)) (hist w))).
Context (Hctx : forall w c, I w -> I (mkWorld (set_jsCtx c (st w)) (hist w))).
Context (Hclient : forall w, I w -> I (mkWorld (set_client (st w)) (hist w))).

Lemma initNATSConn_keeps h : keeps I (initNATSConn env h).
Proof. unfold initNATSConn. kept. Qed.
Lemma initJSContext_keeps : keeps I (initJSContext env).
Proof. unfold initJSContext. kept. Qed.
Lemma initCloudEventClient_keeps : keeps I (initCloudEventClient env).
Proof. unfold initCloudEventClient. kept. Qed.
#[local] Hint Resolve initNATSConn_keeps initJSContext_keeps initCloudEventClient_keeps : keeps.

Lemma Initialize_keeps h : keeps I (Initialize pq env h).
Proof. unfold Initialize. kept. Qed.
#[local] Hint Resolve Initialize_keeps : keeps.

Lemma checkConnection_keeps : keeps I (checkJetStreamConnection pq env).
Proof. unfold checkJetStreamConnection. kept. Qed.
End connecting.

Section deleting.
Context (key : SubscriptionSubjectIdentifier).
Context (Hdel : forall w, I w -> I (mkWorld (upd_subscriptions (delete key) (st w)) (hist w))).

Lemma deleteSubscriptionOnly_keeps s : keeps I (deleteSubscriptionFromJetStreamOnly env s key).
Proof. unfold deleteSubscriptionFromJetStreamOnly. kept. Qed.
Context (HD : D (consumerName key)).
Lemma deleteSubscription_keeps s : keeps I (deleteSubscriptionFromJetStream env s key).
Proof. unfold deleteSubscriptionFromJetStream. kept. Qed.
#[local] Hint Resolve deleteSubscription_keeps : keeps.
Lemma cleanup_keeps s sub : keeps I (cleanupUnnecessaryJetStreamSubscribers env s sub key).
Proof. unfold cleanupUnnecessaryJetStreamSubscribers. kept. Qed.
#[local] Hint Resolve cleanup_keeps : keeps.
Lemma syncEventTypeOf_keeps s sub : keeps I (syncSubscriptionEventType sha env key sub s).
Proof. unfold syncSubscriptionEventType. kept. Qed.
End deleting.

Section inserting.
Context (sub : Subscription) (t : EventType).
Context (Hins : forall w0 w v, I w0 -> I w ->
  I (mkWorld (upd_subscriptions (insert (keyOf sha (st w0) sub t) v) (st w)) (hist w))).

Lemma create_keeps cb : keeps I (createNATSSubscription sha env sub t cb).
Proof. unfold createNATSSubscription. kept. Qed.
Lemma bindInvalid_keeps cb : keeps I (bindInvalidSubscriptions sha env sub t cb).
Proof. unfold bindInvalidSubscriptions. kept. Qed.
#[local] Hint Resolve create_keeps bindInvalid_keeps : keeps.
Lemma syncEventType_keeps cb : keeps I (syncEventType sha env sub cb t).
Proof. unfold syncEventType. kept. Qed.
End inserting.
End kept.

(** Any event is allowed when any consumer may be deleted. *)
Definition any (_ : string) : Prop := True.

(** ** What does not change *)

(** The configuration of the backend is fixed. *)
Definition static j w : Prop :=
  jConfig (st w) = jConfig j /\ jCleaner (st w) = jCleaner j /\ subsConfig (st w) = subsConfig j.

Lemma keyOf_static j w sub t : static j w -> keyOf sha (st w) sub t = keyOf sha j sub t.
Proof. intros (H1 & H2 & _). unfold keyOf, subjectOf. by rewrite H1, H2. Qed.

Lemma subjectOf_static j w sub t : static j w -> subjectOf (st w) sub t = subjectOf j sub t.
Proof. intros (H1 & H2 & _). unfold subjectOf. by rewrite H1, H2. Qed.

Lemma maxInFlightOf_static j w sub : static j w -> maxInFlightOf (st w) sub = maxInFlightOf j sub.
Proof. intros (_ & _ & H3). unfold maxInFlightOf. by rewrite H3. Qed.

Definition is_mine key sub : Prop := isJsSubAssociatedWithKymaSub key sub = Some true.

(** Later, with the configuration unchanged. *)
Definition later (w0 w : JSWorld) : Prop := ext w0 w /\ static (st w0) w.

Lemma later_refl w : later w w.
Proof. split; [reflexivity|done]. Qed.
Lemma later_event w0 w e : later w0 w -> later w0 (mkWorld (st w) (e :: hist w)).
Proof. intros [H1 H2]. split; [|done]. etransitivity; [exact H1|by eapply ext_cons]. Qed.
Lemma later_trans w0 w1 w2 : later w0 w1 -> later w1 w2 -> later w0 w2.
Proof.
  intros [H1 (S1 & S2 & S3)] [H2 (T1 & T2 & T3)]. split; [by etransitivity|].
  unfold static. by rewrite T1, T2, T3.
Qed.
#[local] Hint Resolve later_refl later_event : core.

(** The maps of NATS subscriptions and of sinks agree outside of one Subscription. *)
Definition others_kept sub (own : SubscriptionSubjectIdentifier -> Prop) (w0 w : JSWorld) : Prop :=
  (forall key, ~ is_mine key sub -> ~ own key ->
     subscriptions (st w) !! key = subscriptions (st w0) !! key) /\
  (forall p, p <> createKeyPrefix sub -> sinks (st w) !! p = sinks (st w0) !! p).

Lemma check_maps w :
  let w' := (checkJetStreamConnection pq env w).2 in
  later w w' /\ subscriptions (st w') = subscriptions (st w) /\ sinks (st w') = sinks (st w).
Proof.
  cbn zeta. apply (checkConnection_keeps (fun w' => later w w' /\ subscriptions (st w') = subscriptions (st w) /\
    sinks (st w') = sinks (st w)) any); [|done..|by auto].
  intros w1 e _ (H & H1 & H2). auto.
Qed.

(** ** Deletion *)
Definition gone (r : option goerr) : Prop :=
  match r with None => True | Some e => is_consumer_not_found e = true end.

(** The server has confirmed, since [w0], that it has no consumer of that name. *)
Definition consumer_deleted (w0 w : JSWorld) (name : string) : Prop :=
  exists r, happened w0 w (EvDeleteConsumer (JSStreamName (jConfig (st w0))) name r) /\ gone r.

Lemma jsCall_Ok {R} (ev : R -> jsEvent) f w r w' : jsCall ev f w = (Ok r, w') ->
  r = f (hist w) /\ w' = mkWorld (st w) (ev r :: hist w).
Proof. unfold jsCall, bindM, gets, orPanic. destruct (jsCtx (st w)); cbn; [|done]. intros [= <- <-]. done. Qed.

Lemma deleteConsumer_Ok name w w' : deleteConsumerFromJetStream env name w = (Ok tt, w') ->
  st w' = st w /\ consumer_deleted w w' name.
Proof.
  unfold deleteConsumerFromJetStream. intros H. apply bindM_Ok in H as (c & w1 & [= <- <-] & H).
  apply bindM_Ok in H as (r & w1 & Hr & H). apply jsCall_Ok in Hr as [Hr ->].
  assert (consumer_deleted w (mkWorld (st w) (EvDeleteConsumer (JSStreamName (jConfig (st w))) name r :: hist w)) name
    \/ ~ gone r) as Hd.
  { destruct r as [e|]; cbn; [destruct (is_consumer_not_found e) eqn:E; [left|by right]|left].
    - exists (Some e). split; [by eapply happened_now|exact E].
    - exists None. split; [by eapply happened_now|done]. }
  destruct r as [e|]; [destruct (is_consumer_not_found e) eqn:E; [|done]|]; injection H as <-;
    (split; [done|]); destruct Hd as [Hd|Hd]; [done| |done|]; exfalso; apply Hd; cbn; auto.
Qed.

Lemma unsubscribeIfValid_Ok s w w' : unsubscribeIfValid env s w = (Ok tt, w') -> st w' = st w /\ ext w w'.
Proof.
  intros H. assert (keeps (fun w' => st w' = st w /\ ext w w') (unsubscribeIfValid env s)) as Hk.
  { apply (unsubscribeIfValid_keeps _ any). intros w1 e _ [H1 H2]. split; [done|]. etransitivity; [exact H2|by eapply ext_cons]. }
  specialize (Hk w). rewrite H in Hk. apply Hk. done.
Qed.

Lemma consumer_deleted_later w0 w w' n : consumer_deleted w0 w n -> ext w w' -> consumer_deleted w0 w' n.
Proof. intros (r & Hr & Hg) Hx. exists r. split; [|done]. by eapply happened_later. Qed.

Lemma consumer_deleted_earlier w0 w1 w n : later w0 w1 -> consumer_deleted w1 w n -> consumer_deleted w0 w n.
Proof.
  intros [Hx (Hc & _)] (r & Hr & Hg). exists r. rewrite Hc in Hr. split; [|done]. by eapply happened_earlier.
Qed.

Lemma is_mine_dec key sub : {is_mine key sub} + {~ is_mine key sub}.
Proof. unfold is_mine. destruct (decide (isJsSubAssociatedWithKymaSub key sub = Some true)); auto. Qed.

Lemma range_Ok w l w' : rangeSubscriptions env w = (Ok l, w') ->
  w' = w /\ l ≡ₚ map_to_list (subscriptions (st w)).
Proof. intros [= <- <-]. split; [done|]. apply a_range_all. Qed.

Lemma associated_Ok key sub w b w' : associated key sub w = (Ok b, w') ->
  w' = w /\ isJsSubAssociatedWithKymaSub key sub = Some b.
Proof. unfold associated. by intros [H ->]%orPanic_Ok. Qed.

(** One iteration of the two deletion loops. *)
Definition deletes (del : nat -> SubscriptionSubjectIdentifier -> M JSWorld unit) : Prop :=
  forall s key w w', del s key w = (Ok tt, w') ->
    later w w' /\ subscriptions (st w') = delete key (subscriptions (st w)) /\ sinks (st w') = sinks (st w).

Definition deletion_body sub (del : nat -> SubscriptionSubjectIdentifier -> M JSWorld unit) : _ -> M JSWorld unit :=
  fun '(key, s) => a <- associated key sub ;; if negb a then retM tt else del s key.

Lemma deletion_body_Ok del sub ks w w' : deletes del -> deletion_body sub del ks w = (Ok tt, w') ->
  later w w' /\ sinks (st w') = sinks (st w) /\
  (is_mine ks.1 sub -> subscriptions (st w') !! ks.1 = None) /\
  (forall key, subscriptions (st w) !! key = None -> subscriptions (st w') !! key = None).
Proof.
  intros Hdel H. destruct ks as [k s]. apply bindM_Ok in H as (b & w1 & Ha & H). apply associated_Ok in Ha as [-> Ha].
  unfold is_mine. cbn [fst]. rewrite Ha. destruct b; cbn in H.
  - apply Hdel in H as (L & -> & ->). split_and!; [done|done|by intros _; apply lookup_delete_eq|].
    intros key Hk. rewrite lookup_delete. by case_decide.
  - injection H as <-. split_and!; [apply later_refl|done..].
Qed.

Lemma deletion_loop_Ok del sub l w w' : deletes del -> forM_ l (deletion_body sub del) w = (Ok tt, w') ->
  l ≡ₚ map_to_list (subscriptions (st w)) ->
  later w w' /\ sinks (st w') = sinks (st w) /\
  (forall key, is_mine key sub -> subscriptions (st w') !! key = None).
Proof.
  intros Hdel Hrun Hl.
  assert (later w w' /\ sinks (st w') = sinks (st w) /\
    forall key, subscriptions (st w) !! key = None -> subscriptions (st w') !! key = None) as (L & S & Hn).
  { refine (forM_Ok_inv (fun w' => later w w' /\ sinks (st w') = sinks (st w) /\
      forall key, subscriptions (st w) !! key = None -> subscriptions (st w') !! key = None) _ _ _ _ Hrun _ _);
      [|split_and!; [apply later_refl|done..]].
    intros ks w1 w2 _ H (L1 & S1 & N1). apply (deletion_body_Ok _ _ _ _ _ Hdel) in H as (L2 & S2 & _ & N2).
    split_and!; [by eapply later_trans|congruence|auto]. }
  split_and!; [done..|]. intros key Hm. destruct (subscriptions (st w) !! key) as [s|] eqn:Ek; [|auto].
  refine (forM_Ok (fun ks w => is_mine ks.1 sub -> subscriptions (st w) !! ks.1 = None) _ _ _ _ Hrun _ _ (key, s) _ Hm).
  - intros ks w1 w2 _ H. by apply (deletion_body_Ok _ _ _ _ _ Hdel) in H as (_ & _ & ? & _).
  - intros ks ks2 w1 w2 _ _ H Hk Hks. apply (deletion_body_Ok _ _ _ _ _ Hdel) in H as (_ & _ & _ & ?). auto.
  - rewrite Hl. by apply elem_of_map_to_list.
Qed.

Lemma deleteSubscription_Ok s key w w' : deleteSubscriptionFromJetStream env s key w = (Ok tt, w') ->
  later w w' /\ subscriptions (st w') = delete key (subscriptions (st w)) /\ sinks (st w') = sinks (st w).
Proof.
  unfold deleteSubscriptionFromJetStream. intros H.
  apply bindM_Ok in H as ([] & w1 & H1 & H). apply unsubscribeIfValid_Ok in H1 as [E1 X1].
  apply bindM_Ok in H as ([] & w2 & H2 & H). apply deleteConsumer_Ok in H2 as (E2 & r & (l & Hl & _) & _).
  injection H as <-. cbn [st hist]. rewrite E2, E1. split; [|done]. split; [|done].
  etransitivity; [exact X1|]. exists l. exact Hl.
Qed.

Lemma deleteSubscriptionOnly_Ok s key w w' : deleteSubscriptionFromJetStreamOnly env s key w = (Ok tt, w') ->
  later w w' /\ subscriptions (st w') = delete key (subscriptions (st w)) /\ sinks (st w') = sinks (st w).
Proof.
  unfold deleteSubscriptionFromJetStreamOnly. intros H.
  apply bindM_Ok in H as ([] & w1 & H1 & H). apply unsubscribeIfValid_Ok in H1 as [E1 X1].
  injection H as <-. cbn [st hist]. rewrite E1. split; [|done]. split; [exact X1|done].
Qed.

(** The frame of every operation on one Subscription. *)
Definition framed sub (own : SubscriptionSubjectIdentifier -> Prop) (w0 w : JSWorld) : Prop :=
  later w0 w /\ others_kept sub own w0 w.

Lemma framed_event D sub own w0 w e : allowed D e -> framed sub own w0 w -> framed sub own w0 (mkWorld (st w) (e :: hist w)).
Proof. intros _ [H1 H2]. split; [by apply later_event|exact H2]. Qed.

Lemma framed_delete sub own w0 w key : is_mine key sub \/ own key -> framed sub own w0 w ->
  framed sub own w0 (mkWorld (upd_subscriptions (delete key) (st w)) (hist w)).
Proof.
  intros Hk [H1 [H2 H3]]. split; [exact H1|]. split; [|exact H3]. intros k Hm Ho. cbn.
  rewrite lookup_delete_ne; [auto|]. intros ->. by destruct Hk.
Qed.

Lemma framed_insert sub own w0 w key v : own key -> framed sub own w0 w ->
  framed sub own w0 (mkWorld (upd_subscriptions (insert key v) (st w)) (hist w)).
Proof.
  intros Hk [H1 [H2 H3]]. split; [exact H1|]. split; [|exact H3]. intros k Hm Ho. cbn.
  rewrite lookup_insert_ne; [auto|]. by intros ->.
Qed.

Lemma framed_check sub own w0 : keeps (framed sub own w0) (checkJetStreamConnection pq env).
Proof. apply (checkConnection_keeps _ any); [apply framed_event|done..]. Qed.

Lemma associated_bind_keeps I key sub (k : bool -> M JSWorld unit) :
  (is_mine key sub -> keeps I (k true)) -> keeps I (k false) ->
  keeps I (a <- associated key sub ;; k a).
Proof.
  intros Ht Hf w Hw. unfold bindM, associated, orPanic. destruct (isJsSubAssociatedWithKymaSub key sub) as [[]|] eqn:E; cbn;
    [by apply Ht|by apply Hf|done].
Qed.

Lemma deletion_loop_keeps sub own w0 l (del : nat -> SubscriptionSubjectIdentifier -> M JSWorld unit) :
  (forall s key, is_mine key sub -> keeps (framed sub own w0) (del s key)) ->
  keeps (framed sub own w0) (forM_ l (deletion_body sub del)).
Proof.
  intros Hdel. apply keeps_forM. intros [key s] _. apply associated_bind_keeps; [|apply keeps_ret].
  intros Hm. by apply Hdel.
Qed.

Lemma delete_consumers_Ok sub l w w' :
  forM_ l (fun t => j <- gets id ;; deleteConsumerFromJetStream env (consumerName (keyOf sha j sub t))) w = (Ok tt, w') ->
  later w w' /\ subscriptions (st w') = subscriptions (st w) /\
  forall t, t ∈ l -> consumer_deleted w w' (consumerName (keyOf sha (st w) sub t)).
Proof.
  revert w. induction l as [|t l IH]; intros w H.
  - injection H as <-. split_and!; [apply later_refl|done|by intros t ?%not_elem_of_nil].
  - cbn [forM_] in H. apply bindM_Ok in H as ([] & w1 & Ht & H). apply deleteConsumer_Ok in Ht as [Hst Hcd].
    assert (later w w1) as L1.
    { destruct Hcd as (r & (x & Hx & _) & _). split; [by exists x|]. unfold static; by rewrite Hst. }
    destruct (IH _ H) as (L2 & S2 & Hall). rewrite Hst in Hall, S2.
    split_and!; [by eapply later_trans|done|]. intros t' [->|Hin]%elem_of_cons.
    + eapply consumer_deleted_later; [exact Hcd|apply L2].
    + eapply consumer_deleted_earlier; [exact L1|auto].
Qed.

Lemma DeleteSubscription_framed sub w0 : keeps (framed sub (fun _ => False) w0) (DeleteSubscription sha pq env sub).
Proof.
  unfold DeleteSubscription. keeps_step; [apply framed_check|]. keeps_step; [by apply range_keeps|]. keeps_step.
  { apply deletion_loop_keeps. intros s key Hm. apply (deleteSubscription_keeps _ any); [apply framed_event| |done].
    intros w1. apply framed_delete. by left. }
  keeps_step.
  { apply keeps_forM. intros t _. apply keeps_gets_bind. intros w1 _. apply (deleteConsumer_keeps _ any); [apply framed_event|done]. }
  apply keeps_puts. intros w1 [H1 [H2 H3]]. split; [exact H1|]. split; [exact H2|]. cbn.
  intros p Hp. by rewrite lookup_delete_ne; auto.
Qed.

Lemma framed_refl sub own w : framed sub own w w.
Proof. split; [apply later_refl|split; done]. Qed.

Lemma DeleteSubscription_Ok sub w w' : DeleteSubscription sha pq env sub w = (Ok tt, w') ->
  (forall key, is_mine key sub -> subscriptions (st w') !! key = None) /\
  sinks (st w') !! createKeyPrefix sub = None /\
  (forall t, t ∈ statusTypes sub -> consumer_deleted w w' (consumerName (keyOf sha (st w) sub t))).
Proof.
  intros E. unfold DeleteSubscription in E. apply bindM_Ok in E as ([] & w1 & Hc & E).
  pose proof (check_maps w) as Hm. rewrite Hc in Hm. destruct Hm as (L1 & S1 & _).
  apply bindM_Ok in E as (l & w2 & Hr & E). apply range_Ok in Hr as [-> Hl].
  apply bindM_Ok in E as ([] & w2 & Hd & E). apply bindM_Ok in E as ([] & w3 & Ht & E). injection E as <-.
  apply (deletion_loop_Ok _ _ _ _ _ deleteSubscription_Ok) in Hd as (L2 & _ & Hnone); [|done].
  apply delete_consumers_Ok in Ht as (L3 & S3 & Hall). cbn [st hist].
  split_and!; [intros key Hm; cbn; rewrite S3; auto|cbn; apply lookup_delete_eq|].
  intros t Hin. specialize (Hall t Hin). pose proof (later_trans _ _ _ L1 L2) as L.
  rewrite (keyOf_static (st w) w2) in Hall by apply L.
  exact (consumer_deleted_earlier _ _ _ _ L Hall).
Qed.


(** Only consumers in [D] were deleted since [w0]. *)
Definition only (D : string -> Prop) (w0 w : JSWorld) : Prop :=
  exists l, hist w = (l ++ hist w0)%list /\ Forall (allowed D) l.

Lemma only_refl D w : only D w w.
Proof. exists []. split; [done|constructor]. Qed.

Lemma only_event D w0 w e : allowed D e -> only D w0 w -> only D w0 (mkWorld (st w) (e :: hist w)).
Proof. intros He (l & Hl & Hall). exists (e :: l). cbn. rewrite Hl. split; [done|by constructor]. Qed.

Lemma only_not_deleted D w0 w stream name r : only D w0 w -> happened w0 w (EvDeleteConsumer stream name r) -> D name.
Proof.
  intros (l & Hl & Hall) (l' & Hl' & Hin). rewrite Hl in Hl'. apply app_inv_tail in Hl' as ->.
  rewrite Forall_forall in Hall. by apply Hall in Hin.
Qed.

Lemma DeleteSubscriptionsOnly_keeps sub w0 :
  keeps (fun w => framed sub (fun _ => False) w0 w /\ only (fun _ => False) w0 w /\ sinks (st w) = sinks (st w0))
    (DeleteSubscriptionsOnly pq env sub).
Proof.
  set (I := fun w => _ /\ _ /\ _).
  assert (forall w e, allowed (fun _ => False) e -> I w -> I (mkWorld (st w) (e :: hist w))) as Hev.
  { intros w e Ha (H1 & H2 & H3). split_and!; [by apply (framed_event _ _ _ _ _ _ Ha)|by apply only_event|done]. }
  unfold DeleteSubscriptionsOnly. keeps_step; [by apply (checkConnection_keeps _ _ Hev)|].
  keeps_step; [by apply range_keeps|]. apply keeps_forM. intros [key s] _.
  apply associated_bind_keeps; [intros Hm|apply keeps_ret].
  apply (deleteSubscriptionOnly_keeps _ _ Hev). intros w (H1 & H2 & H3). split_and!; [|done..].
  apply framed_delete; [by left|done].
Qed.

Lemma DeleteSubscriptionsOnly_Ok sub w w' : DeleteSubscriptionsOnly pq env sub w = (Ok tt, w') ->
  forall key, is_mine key sub -> subscriptions (st w') !! key = None.
Proof.
  intros E. unfold DeleteSubscriptionsOnly in E. apply bindM_Ok in E as ([] & w1 & Hc & E).
  apply bindM_Ok in E as (l & w2 & Hr & E). apply range_Ok in Hr as [-> Hl].
  by apply (deletion_loop_Ok _ _ _ _ _ deleteSubscriptionOnly_Ok) in E as (_ & _ & ?).
Qed.

(** Taking a Subscription off NATS without deleting its consumers removes its NATS
    subscriptions from memory, keeps everything else, sinks included, and never deletes a consumer. *)
Theorem DeleteSubscriptionsOnly_spec sub w :
  let '(o, w') := DeleteSubscriptionsOnly pq env sub w in
  others_kept sub (fun _ => False) w w' /\ sinks (st w') = sinks (st w) /\
  (forall stream name r, ~ happened w w' (EvDeleteConsumer stream name r)) /\
  (o = Ok tt -> forall key, is_mine key sub -> subscriptions (st w') !! key = None).
Proof.
  pose proof (DeleteSubscriptionsOnly_keeps sub w w (conj (framed_refl _ _ _) (conj (only_refl _ _) eq_refl))) as Hf.
  destruct (DeleteSubscriptionsOnly pq env sub w) as [o w'] eqn:E. destruct Hf as ([_ Hf] & Ho & Hs).
  split_and!; [done|done|intros stream name r H; exact (only_not_deleted _ _ _ _ _ _ Ho H)|].
  intros ->. by eapply DeleteSubscriptionsOnly_Ok.
Qed.

(** ** Dangling consumers *)
Lemma isConsumerUsedByKymaSub_iff j name subs :
  isConsumerUsedByKymaSub sha j name subs = true <->
  exists sub t, sub ∈ subs /\ t ∈ GetCleanEventTypes sub (jCleaner j) /\ name = consumerName (keyOf sha j sub t).
Proof.
  unfold isConsumerUsedByKymaSub. rewrite existsb_app_iff. setoid_rewrite existsb_app_iff. split.
  - intros (sub & Hs & subject & Hin & ->%String.eqb_eq). unfold GetJetStreamSubjects, GetCleanEventTypesFromEventTypes in Hin.
    rewrite <- list_fmap_compose in Hin. apply list_elem_of_fmap in Hin as (t & -> & Ht). by exists sub, t.
  - intros (sub & t & Hs & Ht & ->). exists sub. split; [done|]. exists (subjectOf j sub t). split; [|by apply String.eqb_eq].
    unfold GetJetStreamSubjects, GetCleanEventTypesFromEventTypes. rewrite <- list_fmap_compose.
    apply list_elem_of_fmap. by exists t.
Qed.

Definition dangling (j : JetStream) (subs : list Subscription) (con : ConsumerInfo) : Prop :=
  ciPushBound con = false /\
  ~ exists sub t, sub ∈ subs /\ t ∈ GetCleanEventTypes sub (jCleaner j) /\ ciName con = consumerName (keyOf sha j sub t).

Lemma dangling_iff j subs con :
  negb (ciPushBound con) && negb (isConsumerUsedByKymaSub sha j (ciName con) subs) = true <-> dangling j subs con.
Proof.
  unfold dangling. rewrite <- isConsumerUsedByKymaSub_iff, andb_true_iff, !negb_true_iff.
  by rewrite not_true_iff_false.
Qed.

(** The body of the loop over the listed consumers. *)
Definition invalid_body (subs : list Subscription) (con : ConsumerInfo) : M JSWorld unit :=
  j <- gets id ;;
  if negb (ciPushBound con) && negb (isConsumerUsedByKymaSub sha j (ciName con) subs)
  then deleteConsumerFromJetStream env (ciName con) else retM tt.

Lemma invalid_body_Ok subs con w w' : invalid_body subs con w = (Ok tt, w') ->
  later w w' /\ st w' = st w /\ (dangling (st w) subs con -> consumer_deleted w w' (ciName con)).
Proof.
  unfold invalid_body, gets, id. unfold bindM at 1. destruct (negb _ && _) eqn:Ed; intros H.
  - apply deleteConsumer_Ok in H as [Hst Hcd]. split_and!; [|done..].
    destruct Hcd as (r & (x & Hx & _) & _). split; [by exists x|]. unfold static. by rewrite Hst.
  - injection H as <-. split_and!; [apply later_refl|done|]. intros Hd%dangling_iff. congruence.
Qed.

Lemma invalid_loop_Ok subs l w w' : forM_ l (invalid_body subs) w = (Ok tt, w') ->
  forall con, con ∈ l -> dangling (st w) subs con -> consumer_deleted w w' (ciName con).
Proof.
  revert w. induction l as [|c l IH]; intros w H con Hin Hd; [by apply not_elem_of_nil in Hin|].
  cbn [forM_] in H. apply bindM_Ok in H as ([] & w1 & H1 & H). apply invalid_body_Ok in H1 as (L1 & S1 & D1).
  assert (keeps (fun w => ext w1 w) (forM_ l (invalid_body subs))) as Hk.
  { apply keeps_forM. intros c' _. apply keeps_gets_bind. intros w2 _. destruct (negb _ && _); [|apply keeps_ret].
    apply (deleteConsumer_keeps _ any); [|done]. intros w3 e _ X. etransitivity; [exact X|by eapply ext_cons]. }
  specialize (Hk w1 (reflexivity _)). rewrite H in Hk. apply elem_of_cons in Hin as [->|Hin].
  - by eapply consumer_deleted_later; [apply D1|].
  - eapply consumer_deleted_earlier; [exact L1|]. eapply IH; [exact H|done|]. by rewrite S1.
Qed.

Lemma invalid_loop_keeps subs l w0 :
  keeps (fun w => st w = st w0 /\
      only (fun name => exists con, con ∈ l /\ ciName con = name /\ dangling (st w0) subs con) w0 w)
    (forM_ l (invalid_body subs)).
Proof.
  apply keeps_forM. intros con Hin. apply keeps_gets_bind. intros w2 [S2 _].
  destruct (negb _ && _) eqn:Ed; [|apply keeps_ret]. unfold id in Ed. rewrite S2 in Ed. apply dangling_iff in Ed.
  apply (deleteConsumer_keeps _ (fun name => exists con, con ∈ l /\ ciName con = name /\ dangling (st w0) subs con));
    [|by exists con].
  intros w3 e He [S O]. split; [done|by apply only_event].
Qed.

(** The cleanup of dangling consumers deletes only consumers that the server
    listed, that nothing is bound to and that no event type of the given Subscriptions uses;
    when it succeeds, every such consumer is deleted; and the memory of the backend is as before. *)
Theorem DeleteInvalidConsumers_spec subs w :
  let listed := a_Consumers env (hist w) (JSStreamName (jConfig (st w))) in
  let '(o, w') := DeleteInvalidConsumers sha env subs w in
  st w' = st w /\
  (forall stream name r, happened w w' (EvDeleteConsumer stream name r) ->
     exists con, con ∈ listed /\ ciName con = name /\ dangling (st w) subs con) /\
  (o = Ok tt -> forall con, con ∈ listed -> dangling (st w) subs con -> consumer_deleted w w' (ciName con)).
Proof.
  cbn zeta. set (listed := a_Consumers _ _ _).
  change (DeleteInvalidConsumers sha env subs w) with
    ((consumers <- jsCall (EvConsumers (JSStreamName (jConfig (st w)))) (fun h => a_Consumers env h (JSStreamName (jConfig (st w)))) ;;
      forM_ consumers (invalid_body subs)) w).
  unfold bindM at 1, jsCall, gets. unfold bindM at 1, orPanic. destruct (jsCtx (st w)) as [c|]; cbn -[forM_].
  2:{ split_and!; [done| |done]. intros stream name r (l & Hl & Hin). apply (app_inv_tail (hist w) []) in Hl as <-.
      by apply not_elem_of_nil in Hin. }
  fold listed. set (w1 := mkWorld (st w) _). assert (later w w1) as L1 by apply later_event, later_refl.
  pose proof (invalid_loop_keeps subs listed w w1) as Hk.
  destruct (forM_ listed (invalid_body subs) w1) as [o w'] eqn:E. destruct Hk as [S O].
  { split; [done|]. apply only_event; [done|apply only_refl]. }
  split_and!; [done|intros stream name r H; exact (only_not_deleted _ _ _ _ _ _ O H)|]. intros -> con Hin Hd.
  eapply consumer_deleted_earlier; [exact L1|]. by eapply invalid_loop_Ok.
Qed.

(** ** Synchronisation *)
Section sync.
Context (sub : Subscription).
Abbreviation cb := (createKeyPrefix sub).
Definition streamOf w : string := JSStreamName (jConfig (st w)).

(** The consumer of an event type exists on the server and its limit of messages in
    flight is that of the Subscription. *)
Definition consumer_synced (w0 w : JSWorld) (t : EventType) : Prop :=
  let key := keyOf sha (st w0) sub t in
  let limit := maxInFlightOf (st w0) sub in
  exists ci,
    (happened w0 w (EvConsumerInfo (streamOf w0) (consumerName key) (inl ci)) \/
     exists cfg, happened w0 w (EvAddConsumer (streamOf w0) cfg (inl ci)) /\ ccDurable cfg = consumerName key /\
       ccFilterSubject cfg = subjectOf (st w0) sub t /\ ccMaxAckPending cfg = limit) /\
    (ccMaxAckPending (ciConfig ci) = limit \/
     happened w0 w (EvUpdateConsumer (streamOf w0) (set_MaxAckPending (ciConfig ci) limit) (inl tt))).

(** The NATS subscription [s] was valid when looked at, or was created, since [w0]. *)
Definition live (w0 w : JSWorld) (subject : string) (s : nat) : Prop :=
  happened w0 w (EvIsValid s true) \/ exists opts, happened w0 w (EvSubscribe subject cb opts (inl s)).

Definition subscribed (w0 w : JSWorld) (t : EventType) : Prop :=
  exists s, subscriptions (st w) !! keyOf sha (st w0) sub t = Some s /\ live w0 w (subjectOf (st w0) sub t) s.

Lemma consumer_synced_later w0 w1 w2 w t : later w0 w1 -> later w2 w -> consumer_synced w1 w2 t -> consumer_synced w0 w t.
Proof.
  intros [X S] [Y _] (ci & H1 & H2). unfold consumer_synced, streamOf in *.
  rewrite (keyOf_static (st w0) w1), (subjectOf_static (st w0) w1), (maxInFlightOf_static (st w0) w1) in * by done.
  rewrite (proj1 S) in *.
  assert (forall e, happened w1 w2 e -> happened w0 w e) as Hm
    by (intros e He; by eapply happened_earlier, happened_later).
  exists ci. split.
  - destruct H1 as [H1|(cfg & H1 & Hc)]; [left; auto|right; exists cfg; auto].
  - destruct H2 as [H2|H2]; [by left|right; auto].
Qed.

Lemma live_later w0 w1 w2 w subject s : later w0 w1 -> later w2 w -> live w1 w2 subject s -> live w0 w subject s.
Proof.
  intros [X _] [Y _] [H|(opts & H)]; [left|right; exists opts]; by eapply happened_earlier, happened_later.
Qed.

Lemma later_of_state w w' : st w' = st w -> ext w w' -> later w w'.
Proof. intros H X. split; [done|]. unfold static. by rewrite H. Qed.

Lemma getOrCreate_Ok t w ci w' : getOrCreateConsumer sha env sub t w = (Ok ci, w') ->
  st w' = st w /\ ext w w' /\
  (happened w w' (EvConsumerInfo (streamOf w) (consumerName (keyOf sha (st w) sub t)) (inl ci)) \/
   exists cfg, happened w w' (EvAddConsumer (streamOf w) cfg (inl ci)) /\
     ccDurable cfg = consumerName (keyOf sha (st w) sub t) /\
     ccFilterSubject cfg = subjectOf (st w) sub t /\ ccMaxAckPending cfg = maxInFlightOf (st w) sub).
Proof.
  unfold getOrCreateConsumer, gets, id. unfold bindM at 1. intros H.
  apply bindM_Ok in H as (r & w1 & Hr & H). apply jsCall_Ok in Hr as [Hr ->].
  destruct r as [ci'|err].
  - injection H as <- <-. split; [done|]. split; [by eapply ext_cons|]. left. by eapply happened_now.
  - clear Hr. destruct (is_consumer_not_found err); [|done].
    apply bindM_Ok in H as (inbox & w2 & Hi & H). rewrite call_run in Hi. injection Hi as _ <-.
    apply bindM_Ok in H as (r & w3 & Ha & H). apply jsCall_Ok in Ha as [_ ->].
    destruct r as [ci'|]; [|done]. injection H as <- <-. cbn [st hist]. split; [done|].
    split; [by eexists [_; _; _]|]. right. eexists.
    split; [eexists [_; _; _]; split; [reflexivity|constructor]|done].
Qed.

Lemma subscribe_Ok subject c opts w s w' : subscribe env subject c opts w = (Ok s, w') ->
  st w' = st w /\ ext w w' /\ happened w w' (EvSubscribe subject c opts (inl s)).
Proof.
  unfold subscribe. intros H. apply bindM_Ok in H as (r & w1 & Hr & H). apply jsCall_Ok in Hr as [_ ->].
  destruct r as [s'|]; [|done]. injection H as <- <-. split; [done|]. split; [by eapply ext_cons|by eapply happened_now].
Qed.

(** After either way to subscribe, the subscription of that key is new and bound. *)
Definition inserts (c : M JSWorld unit) (t : EventType) : Prop := forall w w', c w = (Ok tt, w') ->
  later w w' /\ sinks (st w') = sinks (st w) /\ subscribed w w' t /\
  (forall k, k <> keyOf sha (st w) sub t -> subscriptions (st w') !! k = subscriptions (st w) !! k).

Lemma create_Ok t : inserts (createNATSSubscription sha env sub t cb) t.
Proof.
  intros w w'. unfold createNATSSubscription, gets, id. unfold bindM at 1. intros H.
  apply bindM_Ok in H as (s & w1 & Hs & H). apply subscribe_Ok in Hs as (S & X & Hh).
  unfold puts, bindM, call in H. injection H as <-. cbn [st hist]. rewrite S. split_and!.
  - split; [|done]. etransitivity; [exact X|by eapply ext_cons].
  - done.
  - exists s. split; [apply lookup_insert_eq|]. right. eexists. eapply happened_later; [exact Hh|by eapply ext_cons].
  - intros k Hk. cbn. by rewrite lookup_insert_ne.
Qed.

Lemma bindInvalid_Ok t : inserts (bindInvalidSubscriptions sha env sub t cb) t.
Proof.
  intros w w'. unfold bindInvalidSubscriptions, gets, id. unfold bindM at 1. intros H.
  apply bindM_Ok in H as (s & w1 & Hs & H). apply subscribe_Ok in Hs as (S & X & Hh).
  injection H as <-. cbn [st hist]. rewrite S. split_and!; [split; [exact X|done]|done| |].
  - exists s. split; [apply lookup_insert_eq|]. right. by eexists.
  - intros k Hk. cbn. by rewrite lookup_insert_ne.
Qed.

Lemma syncMax_Ok ci w w' : syncConsumerMaxInFlight env sub ci w = (Ok tt, w') ->
  st w' = st w /\ ext w w' /\
  (ccMaxAckPending (ciConfig ci) = maxInFlightOf (st w) sub \/
   happened w w' (EvUpdateConsumer (streamOf w) (set_MaxAckPending (ciConfig ci) (maxInFlightOf (st w) sub)) (inl tt))).
Proof.
  unfold syncConsumerMaxInFlight, gets, id. unfold bindM at 1. intros H.
  destruct (Z.eqb_spec (ccMaxAckPending (ciConfig ci)) (maxInFlightOf (st w) sub)) as [He|_].
  - injection H as <-. split_and!; [done|reflexivity|by left].
  - apply bindM_Ok in H as (r & w1 & Hr & H). apply jsCall_Ok in Hr as [_ ->]. destruct r as [[]|]; [|done].
    injection H as <-. split_and!; [done|by eapply ext_cons|right; by eapply happened_now].
Qed.

(** What one iteration over the event types does when it succeeds. *)
Definition iteration (t : EventType) (w w' : JSWorld) : Prop :=
  later w w' /\ sinks (st w') = sinks (st w) /\ subscribed w w' t /\
  (forall k, k <> keyOf sha (st w) sub t -> subscriptions (st w') !! k = subscriptions (st w) !! k).

Lemma iteration_later w0 w1 w2 w t : st w0 = st w1 -> ext w0 w1 -> st w2 = st w -> ext w2 w ->
  iteration t w1 w2 -> iteration t w0 w.
Proof.
  intros S0 X0 S2 X2 (L & K & (s & Hs & Hl) & F).
  assert (later w0 w1) as L0 by (by apply later_of_state).
  assert (later w2 w) as L2 by (by apply later_of_state).
  unfold iteration, subscribed. rewrite <- S2, S0.
  split_and!; [by eapply later_trans; [eapply later_trans|]|done| |done].
  exists s. split; [done|]. by eapply live_later.
Qed.

(** The middle of the iteration: subscribe when absent, bind anew when invalid. *)
Lemma ensure_subscribed_Ok t ci w w1 w' :
  (match subscriptions (st w) !! keyOf sha (st w) sub t with
   | None => if negb (ciPushBound ci) then createNATSSubscription sha env sub t cb else retM tt
   | Some _ => retM tt
   end) w = (Ok tt, w1) ->
  is_Some (subscriptions (st w1) !! keyOf sha (st w) sub t) ->
  (match subscriptions (st w) !! keyOf sha (st w) sub t with
   | Some s => valid <- call (EvIsValid s) (fun h => a_IsValid env h s) ;;
               if negb valid then bindInvalidSubscriptions sha env sub t cb else retM tt
   | None => retM tt
   end) w1 = (Ok tt, w') ->
  iteration t w w'.
Proof.
  destruct (subscriptions (st w) !! keyOf sha (st w) sub t) as [s|] eqn:Es; intros H1 Hp H2.
  - injection H1 as <-. apply bindM_Ok in H2 as (v & w2 & Hv & H2). unfold call in Hv. injection Hv as Hv <-.
    rewrite Hv in H2. clear Hv. destruct v; cbn [negb] in H2.
    + injection H2 as <-. split_and!; [apply later_event, later_refl|done| |done].
      exists s. split; [done|]. left. by eapply happened_now.
    + apply bindInvalid_Ok in H2. eapply iteration_later; [| |reflexivity|reflexivity|exact H2]; [done|by eapply ext_cons].
  - injection H2 as <-. destruct (ciPushBound ci); cbn [negb] in H1.
    + injection H1 as <-. rewrite Es in Hp. by destruct Hp.
    + by apply create_Ok in H1.
Qed.

Lemma syncEventType_Ok t w w' : syncEventType sha env sub cb t w = (Ok tt, w') ->
  iteration t w w' /\ consumer_synced w w' t.
Proof.
  unfold syncEventType, gets, id. unfold bindM at 1. intros H.
  apply bindM_Ok in H as (ci & w1 & Hc & H). apply getOrCreate_Ok in Hc as (S1 & X1 & Hci).
  unfold bindM at 1 in H. apply bindM_Ok in H as ([] & w2 & H1 & H).
  unfold bindM at 1 in H. destruct (subscriptions (st w2) !! _) as [s|] eqn:Es; [|done].
  apply bindM_Ok in H as ([] & w3 & H2 & H). apply syncMax_Ok in H as (S4 & X4 & Hmax).
  rewrite <- S1 in H1, H2, Es.
  assert (iteration t w1 w3) as Hit by (eapply ensure_subscribed_Ok; [exact H1|by eexists|exact H2]).
  assert (later w w1) as L1 by (by apply later_of_state). assert (later w w3) as L3 by (by eapply later_trans, Hit).
  split; [eapply iteration_later; [..|exact Hit]; done|].
  assert (ext w1 w') as Xw by (etransitivity; [apply Hit|exact X4]).
  exists ci. split.
  - destruct Hci as [Hci|(cfg & Hci & Hcfg)]; [left|right; exists cfg; split; [|done]]; by eapply happened_later.
  - unfold streamOf in Hmax. rewrite (proj1 (proj2 L3)), (maxInFlightOf_static (st w) w3) in Hmax by apply L3.
    destruct Hmax as [?|Hmax]; [by left|right]. eapply happened_earlier; [apply L3|exact Hmax].
Qed.

Lemma keyOf_subject j t1 t2 : keyOf sha j sub t1 = keyOf sha j sub t2 -> subjectOf j sub t1 = subjectOf j sub t2.
Proof.
  unfold keyOf, NewSubscriptionSubjectIdentifier. intros [= _ H]. rewrite !namespacedSubject_split in H.
  apply app_inj_len in H as [_ H]; [|done]. by injection H.
Qed.

(** All iterations. *)
Lemma syncConsumerAndSubscription_Ok w w' : syncConsumerAndSubscription sha env sub cb w = (Ok tt, w') ->
  later w w' /\ sinks (st w') = sinks (st w) /\
  (forall t, t ∈ statusTypes sub -> subscribed w w' t /\ consumer_synced w w' t) /\
  (forall k, (forall t, t ∈ statusTypes sub -> k <> keyOf sha (st w) sub t) ->
     subscriptions (st w') !! k = subscriptions (st w) !! k).
Proof.
  unfold syncConsumerAndSubscription. generalize (statusTypes sub) as l. intros l. revert w.
  induction l as [|t l IH]; intros w H.
  { injection H as <-. split_and!; [apply later_refl|done|by intros t ?%not_elem_of_nil|done]. }
  cbn [forM_] in H. apply bindM_Ok in H as ([] & w1 & H1 & H).
  apply syncEventType_Ok in H1 as ((L1 & K1 & (s & Hs & Hl) & F1) & C1). destruct (IH _ H) as (L2 & K2 & A2 & F2).
  assert (forall t, keyOf sha (st w1) sub t = keyOf sha (st w) sub t) as Hkey by (intros; by apply keyOf_static, L1).
  assert (forall t, t ∈ l -> subscribed w w' t /\ consumer_synced w w' t) as A.
  { intros t' Hin. destruct (A2 t' Hin) as [(s' & Hs' & Hl') C']. rewrite Hkey in Hs'.
    split; [exists s'; split; [done|]|by eapply consumer_synced_later; [exact L1|apply later_refl|]].
    rewrite (subjectOf_static (st w)) in Hl' by apply L1. eapply live_later; [exact L1|apply later_refl|exact Hl']. }
  setoid_rewrite Hkey in F2.
  split_and!; [by eapply later_trans|congruence| |].
  - intros t' [->|Hin]%elem_of_cons; [|by apply A]. split; [|by eapply consumer_synced_later; [apply later_refl|exact L2|]].
    destruct (decide (Exists (fun t' => keyOf sha (st w) sub t = keyOf sha (st w) sub t') l)) as [Hex|Hex].
    + apply Exists_exists in Hex as (t' & Hin & Hk). destruct (A t' Hin) as [(s' & Hs' & Hl') _].
      exists s'. rewrite Hk. split; [done|]. by rewrite (keyOf_subject _ _ _ Hk).
    + exists s. rewrite F2; [split; [done|]; eapply live_later; [apply later_refl|exact L2|exact Hl]|].
      intros t' Hin Hk. apply Hex, Exists_exists. eauto.
  - intros k Hk. rewrite F2, F1; [done|apply Hk; by constructor|intros t' Hin; apply Hk; by constructor].
Qed.

(** Why a NATS subscription of this Subscription is kept: its consumer is that
    of an event type, or the server says that it filters the subject of one. *)
Definition justified (w0 w : JSWorld) key : Prop :=
  (exists t, t ∈ statusTypes sub /\ consumerName key = consumerName (keyOf sha (st w0) sub t)) \/
  (exists t ci, t ∈ statusTypes sub /\ happened w0 w (EvConsumerInfo (streamOf w0) (consumerName key) (inl ci)) /\
     ccFilterSubject (ciConfig ci) = subjectOf (st w0) sub t).

Lemma justified_later w0 w1 w2 w key : later w0 w1 -> later w2 w -> justified w1 w2 key -> justified w0 w key.
Proof.
  intros [X S] [Y _] [(t & Hin & Ht)|(t & ci & Hin & Hh & Hf)].
  - left. exists t. by rewrite <- (keyOf_static (st w0) w1).
  - right. exists t, ci. unfold streamOf in *. rewrite (proj1 S) in Hh. rewrite (subjectOf_static (st w0) w1) in Hf by done.
    split_and!; [done| |done]. by eapply happened_earlier, happened_later.
Qed.

Lemma runtime_exists_iff j key : runtimeSubscriptionExistsInKymaSub sha j key sub = true <->
  exists t, t ∈ statusTypes sub /\ consumerName key = consumerName (keyOf sha j sub t).
Proof. unfold runtimeSubscriptionExistsInKymaSub. rewrite existsb_app_iff. by setoid_rewrite String.eqb_eq. Qed.

Lemma consumer_subject_iff j ci : consumerSubjectExistsInKymaSub j ci sub = true <->
  exists t, t ∈ statusTypes sub /\ ccFilterSubject (ciConfig ci) = subjectOf j sub t.
Proof.
  unfold consumerSubjectExistsInKymaSub. rewrite ContainsString_elem.
  unfold GetJetStreamSubjects, GetCleanEventTypesFromEventTypes. rewrite <- list_fmap_compose, list_elem_of_fmap.
  split; intros (t & H1 & H2); exists t; done.
Qed.

(** One iteration over the NATS subscriptions in memory. *)
Definition sync_body : SubscriptionSubjectIdentifier * nat -> M JSWorld unit := fun '(key, jsSub) =>
  a <- associated key sub ;; if (a : bool) then syncSubscriptionEventType sha env key sub jsSub else retM tt.

Definition pruned (key : SubscriptionSubjectIdentifier) (w w' : JSWorld) : Prop :=
  later w w' /\ sinks (st w') = sinks (st w) /\
  (forall k, subscriptions (st w) !! k = None -> subscriptions (st w') !! k = None) /\
  (subscriptions (st w') !! key = None \/ justified w w' key).

Lemma pruned_delete key w w' : later w w' -> subscriptions (st w') = delete key (subscriptions (st w)) ->
  sinks (st w') = sinks (st w) -> pruned key w w'.
Proof.
  intros L E K. split_and!; [done|done| |left; rewrite E; apply lookup_delete_eq].
  intros k Hk. rewrite E, lookup_delete. by case_decide.
Qed.

Lemma cleanup_Ok s key w w' : cleanupUnnecessaryJetStreamSubscribers env s sub key w = (Ok tt, w') -> pruned key w w'.
Proof.
  unfold cleanupUnnecessaryJetStreamSubscribers, gets, id. unfold bindM at 1. intros H.
  apply bindM_Ok in H as (r & w1 & Hr & H). apply jsCall_Ok in Hr as [_ ->].
  set (w1 := mkWorld (st w) _) in H. assert (later w w1) as L1 by apply later_event, later_refl.
  destruct r as [ci|err].
  - destruct (consumerSubjectExistsInKymaSub (st w) ci sub) eqn:Ec; cbn [negb] in H.
    + injection H as <-. split_and!; [done..|right; right].
      apply consumer_subject_iff in Ec as (t & Hin & Hf). exists t, ci. split_and!; [done| |done]. by eapply happened_now.
    + apply deleteSubscription_Ok in H as (L & E & K). apply pruned_delete; [by eapply later_trans|done..].
  - destruct (is_consumer_not_found err); [|done]. apply bindM_Ok in H as ([] & w2 & Hd & H).
    apply deleteConsumer_Ok in Hd as [S2 (x & (l & Hl & _) & _)]. injection H as <-. unfold w1 in *. cbn [st hist] in *.
    apply pruned_delete; cbn [st hist]; rewrite ?S2; [|done..]. split; [|done].
    cbn. rewrite Hl. eexists (l ++ [_])%list. by rewrite <- app_assoc.
Qed.

Lemma sync_body_Ok ks w w' : sync_body ks w = (Ok tt, w') ->
  later w w' /\ sinks (st w') = sinks (st w) /\
  (forall k, subscriptions (st w) !! k = None -> subscriptions (st w') !! k = None) /\
  (is_mine ks.1 sub -> subscriptions (st w') !! ks.1 = None \/ justified w w' ks.1).
Proof.
  destruct ks as [key s]. intros H. apply bindM_Ok in H as (a & w1 & Ha & H). apply associated_Ok in Ha as [-> Ha].
  unfold is_mine. cbn [fst]. rewrite Ha. destruct a; [|by injection H as <-].
  unfold syncSubscriptionEventType in H. apply bindM_Ok in H as (v & w1 & Hv & H). unfold call in Hv. injection Hv as _ <-.
  unfold gets, id in H. unfold bindM at 1 in H. set (w1 := mkWorld (st w) _) in H.
  assert (later w w1) as L1 by apply later_event, later_refl.
  destruct (negb v && runtimeSubscriptionExistsInKymaSub sha (st w1) key sub) eqn:E.
  - injection H as <-. apply andb_true_iff in E as [_ E%runtime_exists_iff].
    split_and!; [done..|]. intros _. right. by left.
  - apply cleanup_Ok in H as (L & K & N & P). split_and!; [by eapply later_trans|done..|]. intros _.
    destruct P as [P|P]; [by left|right]. eapply justified_later; [exact L1|apply later_refl|done].
Qed.

Lemma syncSubscriptionEventTypes_Ok w w' : syncSubscriptionEventTypes sha env sub w = (Ok tt, w') ->
  later w w' /\ sinks (st w') = sinks (st w) /\
  (forall key, is_mine key sub -> subscriptions (st w') !! key = None \/ justified w w' key).
Proof.
  intros H. apply bindM_Ok in H as (l & w1 & Hl & Hrun). apply range_Ok in Hl as [-> Hl].
  set (P := fun w' => later w w' /\ sinks (st w') = sinks (st w) /\
    forall k, subscriptions (st w) !! k = None -> subscriptions (st w') !! k = None).
  assert (P w') as (L & K & N).
  { refine (forM_Ok_inv P l sync_body _ _ Hrun _ _); [|split_and!; [apply later_refl|done..]].
    intros ks w1 w2 _ H (L1 & K1 & N1). apply sync_body_Ok in H as (L2 & K2 & N2 & _).
    split_and!; [by eapply later_trans|congruence|auto]. }
  split_and!; [done..|]. intros key Hm. destruct (subscriptions (st w) !! key) as [s|] eqn:Ek; [|left; auto].
  assert ((key, s) ∈ l) as Hin by (rewrite Hl; by apply elem_of_map_to_list).
  clear N L K P Hl Ek. revert w Hrun. induction l as [|ks l IH]; intros w Hrun; [by apply not_elem_of_nil in Hin|].
  cbn [forM_] in Hrun. apply bindM_Ok in Hrun as ([] & w1 & H1 & H2). fold sync_body in H1.
  apply (sync_body_Ok ks) in H1 as (L1 & K1 & N1 & J1).
  assert (later w1 w' /\ forall k, subscriptions (st w1) !! k = None -> subscriptions (st w') !! k = None) as [L2 N2].
  { refine (forM_Ok_inv (fun w' => later w1 w' /\ forall k, subscriptions (st w1) !! k = None -> subscriptions (st w') !! k = None)
      l sync_body _ _ H2 _ _); [|split; [apply later_refl|done]].
    intros ks' w3 w4 _ H (L3 & N3). apply sync_body_Ok in H as (L4 & _ & N4 & _). split; [by eapply later_trans|auto]. }
  apply elem_of_cons in Hin as [<-|Hin].
  - destruct (J1 Hm) as [J|J]; [left; auto|right]. eapply justified_later; [apply later_refl|exact L2|exact J].
  - destruct (IH Hin w1 H2) as [J|J]; [by left|right]. eapply justified_later; [exact L1|apply later_refl|exact J].
Qed.

Definition own (w0 : JSWorld) key : Prop := exists t, t ∈ statusTypes sub /\ key = keyOf sha (st w0) sub t.

Lemma SyncSubscription_framed w0 : keeps (framed sub (own w0) w0) (SyncSubscription sha pq env sub).
Proof.
  assert (forall D w e, allowed D e -> framed sub (own w0) w0 w -> framed sub (own w0) w0 (mkWorld (st w) (e :: hist w)))
    as Hev by (intros D w e; apply framed_event).
  unfold SyncSubscription. keeps_step; [apply framed_check|]. keeps_step.
  { unfold syncSubscriptionEventTypes. keeps_step; [by apply range_keeps|]. apply keeps_forM. intros [key s] _.
    apply associated_bind_keeps; [intros Hm|apply keeps_ret].
    apply (syncEventTypeOf_keeps _ any); [apply Hev| |done]. intros w1. apply framed_delete. by left. }
  apply keeps_gets_bind. intros w1 _. keeps_step.
  { destruct (bool_decide _); [apply keeps_ret|]. apply keeps_puts. intros w2 [H1 [H2 H3]]. split; [exact H1|].
    split; [exact H2|]. intros p Hp. cbn. by rewrite lookup_insert_ne; auto. }
  apply keeps_forM. intros t Hin. apply (syncEventType_keeps _ any); [apply Hev|].
  intros w2 w3 v [L2 _]. apply framed_insert. exists t. split; [done|]. by apply keyOf_static, L2.
Qed.
End sync.

Lemma SyncSubscription_Ok sub w w' : SyncSubscription sha pq env sub w = (Ok tt, w') ->
  later w w' /\
  sinks (st w') !! createKeyPrefix sub = Some (Sink (Spec sub)) /\
  (forall t, t ∈ statusTypes sub -> subscribed sub w w' t /\ consumer_synced sub w w' t) /\
  (forall key, is_mine key sub -> is_Some (subscriptions (st w') !! key) -> own sub w key \/ justified sub w w' key).
Proof.
  intros E.
  unfold SyncSubscription in E. apply bindM_Ok in E as ([] & w1 & Hc & E).
  pose proof (check_maps w) as Hm. rewrite Hc in Hm. destruct Hm as (L1 & S1 & K1). clear Hc.
  apply bindM_Ok in E as ([] & w2 & Hs & E). apply syncSubscriptionEventTypes_Ok in Hs as (L2 & K2 & J2).
  unfold gets in E. unfold bindM at 1 in E. apply bindM_Ok in E as ([] & w3 & H3 & E).
  assert (later w2 w3 /\ subscriptions (st w3) = subscriptions (st w2) /\
    sinks (st w3) !! createKeyPrefix sub = Some (Sink (Spec sub))) as (L3 & S3 & K3).
  { destruct (bool_decide_reflect (sinks (st w2) !! createKeyPrefix sub = Some (Sink (Spec sub)))).
    - by injection H3 as <-.
    - injection H3 as <-. split; [by split; [exists []|]|]. split; [done|]. apply lookup_insert_eq. }
  apply syncConsumerAndSubscription_Ok in E as (L4 & K4 & A4 & F4).
  pose proof (later_trans _ _ _ L1 (later_trans _ _ _ L2 L3)) as L.
  setoid_rewrite (keyOf_static (st w) w3) in F4; [|apply L..]. split_and!.
  - by eapply later_trans.
  - by rewrite K4.
  - intros t Hin. destruct (A4 t Hin) as [(s & Hs & Hl) C]. split.
    + exists s. rewrite (keyOf_static (st w)) in Hs by apply L. rewrite (subjectOf_static (st w)) in Hl by apply L.
      split; [done|]. eapply live_later; [exact L|apply later_refl|exact Hl].
    + eapply consumer_synced_later; [exact L|apply later_refl|exact C].
  - intros key Hm Hsome. destruct (J2 key Hm) as [J|J].
    + left. destruct (decide (Exists (fun t => key = keyOf sha (st w) sub t) (statusTypes sub))) as [Hex|Hex].
      * by apply Exists_exists in Hex as (t & ? & ?); exists t.
      * rewrite F4, S3, J in Hsome; [by destruct Hsome|]. intros t Hin Hk. apply Hex, Exists_exists. eauto.
    + right. apply (justified_later _ _ w1 w2); [exact L1|by eapply later_trans|exact J].
Qed.


(** ** The stream *)


(** ** Dispatching a message *)
Lemma revert_header config event h : ceExtensions event !! originalTypeHeaderName = Some h -> h <> "" ->
  ceType (revertEventTypeToOriginal config event) = h.
Proof. intros H Hne. unfold revertEventTypeToOriginal. rewrite H. by rewrite (proj2 (String.eqb_neq _ _) Hne). Qed.

Lemma revert_subject config event t : ceExtensions event !! originalTypeHeaderName = None ->
  ceType event = JSSubjectPrefix config +:+ "." +:+ ceSource event +:+ "." +:+ t ->
  ceType (revertEventTypeToOriginal config event) = t.
Proof.
  intros H Ht. unfold revertEventTypeToOriginal. rewrite H. cbn. rewrite Ht.
  replace (JSSubjectPrefix config +:+ "." +:+ ceSource event +:+ "." +:+ t) with
    ((JSSubjectPrefix config +:+ "." +:+ ceSource event +:+ ".") +:+ t) by (by rewrite !app_assoc_s).
  apply TrimPrefix_app.
Qed.

Lemma happened_cons w w1 e0 e : ext w w1 ->
  (happened w (mkWorld (st w1) (e0 :: hist w1)) e <-> e = e0 \/ happened w w1 e).
Proof.
  intros (l & Hl). split.
  - intros (l' & Hl' & Hin). cbn in Hl'. rewrite Hl in Hl'. apply (app_inv_tail (hist w) (e0 :: l)) in Hl' as <-.
    apply elem_of_cons in Hin as [->|Hin]; [by left|right; by exists l].
  - intros [->|H]; [by eapply happened_now; [exists l|]|]. eapply happened_later; [exact H|by eapply ext_cons].
Qed.

(** Name the witnesses of the hypotheses. *)
Ltac destruct_ex := repeat match goal with H : ex _ |- _ => destruct H end.

(** C22: a message is dispatched to the stored sink, with its original event type,
    exactly when the sink is known, the consumer can be read and the message is an event; the tracing
    extensions of the event are sent as headers and all others in the event.  Then the message is
    acknowledged exactly when the sink acknowledges, and otherwise sent back with the
    redelivery delay: never both, never neither.  In the other cases it is left alone. *)
Theorem callback_spec p name namespace data w :
  let '(o, w') := callback env conv p name namespace data w in
  let acked := exists r, happened w w' (EvAck r) in
  let naked := exists d r, happened w w' (EvNakWithDelay d r) in
  o = Ok tt /\ st w' = st w /\
  match sinks (st w) !! p, a_MsgConsumerInfo env (hist w), conv data with
  | Some sink, inl info, inl event =>
      exists headers, traced_headers event headers /\
      let event' := revertEventTypeToOriginal (jConfig (st w)) (untraced event) in
      let result := a_Send env (EvMsgConsumerInfo (inl info) :: hist w) sink headers event' in
      (forall s hs e r, happened w w' (EvSend s hs e r) <-> EvSend s hs e r = EvSend sink headers event' result) /\
      (acked <-> isACK result = true) /\ (naked <-> isACK result = false) /\
      (forall d r, happened w w' (EvNakWithDelay d r) -> d = jsConsumerNakDelay)
  | _, _, _ => (forall s hs e r, ~ happened w w' (EvSend s hs e r)) /\ ~ acked /\ ~ naked
  end.
Proof.
  destruct w as [j h]. unfold callback. unfold bindM at 1, gets. cbn [st].
  pose proof (happened_none (mkWorld j h) j : forall e, happened (mkWorld j h) (mkWorld j h) e <-> False) as Hnone.
  destruct (sinks j !! p) as [sink|]; cbn [retM].
  2:{ cbn zeta. setoid_rewrite Hnone. naive_solver. }
  unfold bindM at 1, call at 1. cbn [st hist]. destruct (a_MsgConsumerInfo env h) as [info|e].
  2:{ cbn [retM]. cbn zeta. setoid_rewrite (happened_one (mkWorld j h) j). naive_solver. }
  destruct (conv data) as [event|e].
  2:{ cbn [retM]. cbn zeta. setoid_rewrite (happened_one (mkWorld j h) j). naive_solver. }
  pose proof (AddTracingHeadersToContext_spec event) as Htr.
  destruct (AddTracingHeadersToContext event) as [headers event0]. destruct Htr as (-> & Hth & _).
  unfold bindM at 1 2, gets, call at 1. cbn [st hist].
  set (event' := revertEventTypeToOriginal _ _). set (result := a_Send _ _ _ _ _).
  destruct (isACK result) eqn:Ea; cbn [negb]; unfold bindM, call, retM; cbn [st hist];
    match goal with |- context [mkWorld j (?a :: ?b :: ?c :: ?d :: ?e :: h)] =>
      pose proof (happened_app (mkWorld j h) j [a; b; c; d; e]) as Hl end; cbn [app hist] in Hl;
    setoid_rewrite Hl; repeat setoid_rewrite elem_of_cons; setoid_rewrite not_elem_of_nil_iff;
    (split; [done|split; [done|exists headers; split; [exact Hth|cbn zeta; fold event' result; split_and!]]]);
    (naive_solver || (rewrite Ea; split; [intros; destruct_ex; by destruct_or?|done])).
Qed.

(** ** Panics *)

(** A backend that has been connected once: the connection and the context are not nil, and
    every key in memory has a namespaced name. *)
Definition ready w : Prop :=
  is_Some (Conn (st w)) /\ is_Some (jsCtx (st w)) /\
  forall key, is_Some (subscriptions (st w) !! key) -> is_Some (NamespacedName key).

Lemma ready_event w e : ready w -> ready (mkWorld (st w) (e :: hist w)).
Proof. done. Qed.

Lemma keyOf_named j sub t : is_Some (NamespacedName (keyOf sha j sub t)).
Proof.
  unfold keyOf, NewSubscriptionSubjectIdentifier. rewrite namespacedSubject_split. unfold NamespacedName. cbn.
  destruct (LastIndex (createKeyPrefix sub +:+ String separator (subjectOf j sub t)) separator) as [n|] eqn:E; [by eexists|].
  apply LastIndex_None_inv in E. rewrite HasByte_app in E. apply orb_false_iff in E as [_ E].
  unfold HasByte in E. cbn in E. done.
Qed.

Lemma ready_delete w key : ready w -> ready (mkWorld (upd_subscriptions (delete key) (st w)) (hist w)).
Proof.
  intros (H1 & H2 & H3). split_and!; [done..|]. intros k Hk. cbn in Hk. rewrite lookup_delete in Hk.
  case_decide; [by destruct Hk|auto].
Qed.

Lemma ready_insert w sub t v j : ready w -> ready (mkWorld (upd_subscriptions (insert (keyOf sha j sub t) v) (st w)) (hist w)).
Proof.
  intros (H1 & H2 & H3). split_and!; [done..|]. intros k Hk. cbn in Hk. rewrite lookup_insert in Hk.
  case_decide; [subst; apply keyOf_named|auto].
Qed.

Lemma jsCall_safe {R} (ev : R -> jsEvent) f : safe ready (jsCall ev f).
Proof.
  intros w Hw. unfold jsCall, gets, bindM, orPanic. destruct Hw as (H1 & [c H2] & H3). rewrite H2. cbn. split; [done|].
  split_and!; [done|by eexists|done].
Qed.

Lemma Conn_safe {A} (k : nat -> M JSWorld A) : (forall c, safe ready (k c)) ->
  safe ready (c <- gets Conn ;; conn <- orPanic c nilPointer ;; k conn).
Proof. intros Hk w Hw. destruct (proj1 Hw) as [c Hc]. unfold bindM at 1, gets. unfold bindM, orPanic. rewrite Hc. by apply Hk. Qed.

Ltac safely := repeat first
  [ apply jsCall_safe | apply Conn_safe; intros | safe_step
  | apply safe_puts; unfold id; intros; solve [auto using ready_delete, ready_insert]
  | solve [auto using ready_event] ].

Lemma puts_conn_safe c h : safe ready (puts (set_Conn c h)).
Proof. apply safe_puts. intros w (H1 & H2 & H3). split_and!; [by eexists|done..]. Qed.
Lemma puts_ctx_safe c : safe ready (puts (set_jsCtx c)).
Proof. apply safe_puts. intros w (H1 & H2 & H3). split_and!; [done|by eexists|done]. Qed.
Lemma puts_client_safe : safe ready (puts set_client).
Proof. apply safe_puts. by intros w. Qed.
Lemma puts_sinks_safe f : safe ready (puts (upd_sinks f)).
Proof. apply safe_puts. by intros w. Qed.
#[local] Hint Resolve puts_conn_safe puts_ctx_safe puts_client_safe puts_sinks_safe : safe.

Lemma notConnected_safe : safe ready (notConnected env).
Proof. unfold notConnected. safely. Qed.
#[local] Hint Resolve notConnected_safe : safe.
Lemma initNATSConn_safe h : safe ready (initNATSConn env h).
Proof. unfold initNATSConn. safely. Qed.
Lemma initJSContext_safe : safe ready (initJSContext env).
Proof. unfold initJSContext. safely. Qed.
Lemma initCloudEventClient_safe : safe ready (initCloudEventClient env).
Proof. unfold initCloudEventClient. safely. Qed.
Lemma ensureStream_safe : safe ready (ensureStreamExistsAndIsConfiguredCorrectly pq env).
Proof. unfold ensureStreamExistsAndIsConfiguredCorrectly. safely. Qed.
#[local] Hint Resolve initNATSConn_safe initJSContext_safe initCloudEventClient_safe ensureStream_safe : safe.
Lemma Initialize_safe h : safe ready (Initialize pq env h).
Proof. unfold Initialize. safely. Qed.
#[local] Hint Resolve Initialize_safe : safe.
Lemma checkConnection_safe : safe ready (checkJetStreamConnection pq env).
Proof. unfold checkJetStreamConnection. safely. Qed.
Lemma deleteConsumer_safe name : safe ready (deleteConsumerFromJetStream env name).
Proof. unfold deleteConsumerFromJetStream. safely. Qed.
Lemma unsubscribeIfValid_safe s : safe ready (unsubscribeIfValid env s).
Proof. unfold unsubscribeIfValid. safely. Qed.
#[local] Hint Resolve checkConnection_safe deleteConsumer_safe unsubscribeIfValid_safe : safe.
Lemma deleteSubscription_safe s key : safe ready (deleteSubscriptionFromJetStream env s key).
Proof. unfold deleteSubscriptionFromJetStream. safely. Qed.
Lemma deleteSubscriptionOnly_safe s key : safe ready (deleteSubscriptionFromJetStreamOnly env s key).
Proof. unfold deleteSubscriptionFromJetStreamOnly. safely. Qed.
#[local] Hint Resolve deleteSubscription_safe deleteSubscriptionOnly_safe : safe.

(** A loop over the map of subscriptions: its keys have names. *)
Definition named (l : list (SubscriptionSubjectIdentifier * nat)) : Prop :=
  Forall (fun ks => is_Some (NamespacedName ks.1)) l.

Lemma range_safe {A} (k : _ -> M JSWorld A) : (forall l, named l -> safe ready (k l)) ->
  safe ready (l <- rangeSubscriptions env ;; k l).
Proof.
  intros Hk w Hw. unfold bindM, rangeSubscriptions. apply Hk; [|done]. apply Forall_forall. intros [key s] Hin.
  rewrite (a_range_all env) in Hin. apply elem_of_map_to_list in Hin. apply Hw. by eexists.
Qed.

Lemma named_loop_safe sub l (body : SubscriptionSubjectIdentifier -> nat -> bool -> M JSWorld unit) : named l ->
  (forall b key s, safe ready (body key s b)) ->
  safe ready (forM_ l (fun '(key, s) => a <- associated key sub ;; body key s a)).
Proof.
  intros Hl Hb. apply safe_forM. intros [key s] Hin. unfold named in Hl. rewrite Forall_forall in Hl.
  destruct (Hl _ Hin) as [nn Hn]. cbn in Hn.
  unfold associated, isJsSubAssociatedWithKymaSub. rewrite Hn. cbn. apply safe_bind; [apply safe_ret|]. intros b. apply Hb.
Qed.

Lemma getOrCreate_safe sub t : safe ready (getOrCreateConsumer sha env sub t).
Proof. unfold getOrCreateConsumer. safely. Qed.
Lemma subscribe_safe subject c opts : safe ready (subscribe env subject c opts).
Proof. unfold subscribe. safely. Qed.
#[local] Hint Resolve getOrCreate_safe subscribe_safe : safe.
Lemma create_safe sub t c : safe ready (createNATSSubscription sha env sub t c).
Proof. unfold createNATSSubscription. safely. Qed.
Lemma bindInvalid_safe sub t c : safe ready (bindInvalidSubscriptions sha env sub t c).
Proof. unfold bindInvalidSubscriptions. safely. Qed.
Lemma syncMax_safe sub ci : safe ready (syncConsumerMaxInFlight env sub ci).
Proof. unfold syncConsumerMaxInFlight. safely. Qed.
#[local] Hint Resolve create_safe bindInvalid_safe syncMax_safe : safe.
Lemma syncEventType_safe sub c t : safe ready (syncEventType sha env sub c t).
Proof. unfold syncEventType. safely. Qed.
Lemma syncSubscriptionEventType_safe key sub s : safe ready (syncSubscriptionEventType sha env key sub s).
Proof. unfold syncSubscriptionEventType, cleanupUnnecessaryJetStreamSubscribers. safely. Qed.
#[local] Hint Resolve syncEventType_safe syncSubscriptionEventType_safe : safe.

(** C34: once the backend has been connected, none of its operations panics, whatever
    NATS answers, and it stays connected in that sense. *)
Theorem operations_never_panic sub subs :
  safe ready (SyncSubscription sha pq env sub) /\ safe ready (DeleteSubscription sha pq env sub) /\
  safe ready (DeleteSubscriptionsOnly pq env sub) /\ safe ready (DeleteInvalidConsumers sha env subs) /\
  safe ready (handleReconnect pq env).
Proof.
  split_and!.
  - unfold SyncSubscription. safe_step; [apply checkConnection_safe|]. safe_step.
    { unfold syncSubscriptionEventTypes. apply range_safe. intros l Hl. apply (named_loop_safe sub l (fun key s (a : bool) =>
        if a then syncSubscriptionEventType sha env key sub s else retM tt)); [done|]. intros [] key s; safely. }
    unfold syncConsumerAndSubscription. safely.
  - unfold DeleteSubscription. safe_step; [apply checkConnection_safe|]. apply range_safe. intros l Hl. safe_step.
    { apply (named_loop_safe sub l (fun key s a => if negb a then retM tt else deleteSubscriptionFromJetStream env s key));
        [done|]. intros [] key s; safely. }
    safely.
  - unfold DeleteSubscriptionsOnly. safe_step; [apply checkConnection_safe|]. apply range_safe. intros l Hl.
    apply (named_loop_safe sub l (fun key s a => if negb a then retM tt else deleteSubscriptionFromJetStreamOnly env s key));
      [done|]. intros [] key s; safely.
  - unfold DeleteInvalidConsumers. safely.
  - unfold handleReconnect. safely.
Qed.

(** Before the backend has been connected, a failing first connection makes every
    operation panic: the status in the error message is read from the nil connection. *)
Theorem first_connection_failure_panics sub w err :
  Conn (st w) = None -> validateConfig (jConfig (st w)) = None ->
  (forall h, a_Connect env h (URL (jConfig (st w))) = inr err) ->
  (SyncSubscription sha pq env sub w).1 = Panic nilPointer /\
  (DeleteSubscription sha pq env sub w).1 = Panic nilPointer /\
  (DeleteSubscriptionsOnly pq env sub w).1 = Panic nilPointer.
Proof.
  intros Hc Hv He. assert ((checkJetStreamConnection pq env w).1 = Panic nilPointer) as Hp.
  { unfold checkJetStreamConnection, notConnected, gets, bindM. rewrite Hc. cbn.
    unfold errOf, Initialize, initNATSConn, notConnected, gets, bindM, returnErr. cbn. rewrite Hv. cbn. rewrite Hc. cbn.
    unfold call. rewrite He. cbn. by rewrite Hc. }
  assert (forall A (k : unit -> M JSWorld A), (bindM (checkJetStreamConnection pq env) k w).1 = Panic nilPointer) as H.
  { intros A k. unfold bindM. destruct (checkJetStreamConnection pq env w) as [[]]; cbn in *; congruence. }
  split_and!; apply H.
Qed.
End facts.

(** ** A concrete environment: a server that cannot be reached *)
Definition unreachable_env : JSEnv.
Proof.
  refine {|
    a_Status := fun _ _ => 0%Z; a_Connect := fun _ _ => inr (errors_New "nats: no servers available for connection");
    a_IsConnected := fun _ _ => false; a_IsClosed := fun _ _ => true; a_JetStream := fun _ c => inl c;
    a_NewClient := fun _ => inl tt; a_StreamInfo := fun _ _ => inr nats_ErrStreamNotFound;
    a_AddStream := fun _ _ => inl tt; a_UpdateStream := fun _ _ => inl tt; a_Consumers := fun _ _ => [];
    a_ConsumerInfo := fun _ _ _ => inr nats_ErrConsumerNotFound; a_NewInbox := fun _ => "inbox";
    a_AddConsumer := fun _ _ cfg => inl (mkConsumerInfo (ccDurable cfg) false cfg);
    a_UpdateConsumer := fun _ _ _ => inl tt; a_DeleteConsumer := fun _ _ _ => None;
    a_Subscribe := fun h _ _ => inl (length h); a_IsValid := fun _ _ => true; a_Unsubscribe := fun _ _ => None;
    a_MsgConsumerInfo := fun _ => inr (errors_New "no consumer"); a_Send := fun _ _ _ _ => mkSendResult true (Some 200%Z);
    a_Ack := fun _ => None; a_NakWithDelay := fun _ => None; a_range := fun _ m => map_to_list m |}.
  done.
Defined.

(** A server where everything works. *)
Definition connected_env : JSEnv.
Proof.
  refine {|
    a_Status := fun _ _ => CONNECTED; a_Connect := fun _ _ => inl 0;
    a_IsConnected := fun _ _ => true; a_IsClosed := fun _ _ => false; a_JetStream := fun _ c => inl c;
    a_NewClient := fun _ => inl tt; a_StreamInfo := fun _ _ => inr nats_ErrStreamNotFound;
    a_AddStream := fun _ _ => inl tt; a_UpdateStream := fun _ _ => inl tt; a_Consumers := fun _ _ => [];
    a_ConsumerInfo := fun _ _ _ => inr nats_ErrConsumerNotFound; a_NewInbox := fun _ => "inbox";
    a_AddConsumer := fun _ _ cfg => inl (mkConsumerInfo (ccDurable cfg) false cfg);
    a_UpdateConsumer := fun _ _ _ => inl tt; a_DeleteConsumer := fun _ _ _ => None;
    a_Subscribe := fun h _ _ => inl (length h); a_IsValid := fun _ _ => true; a_Unsubscribe := fun _ _ => None;
    a_MsgConsumerInfo := fun _ => inr (errors_New "no consumer"); a_Send := fun _ _ _ _ => mkSendResult true (Some 200%Z);
    a_Ack := fun _ => None; a_NakWithDelay := fun _ => None; a_range := fun _ m => map_to_list m |}.
  done.
Defined.

Definition example_config : NATSConfig :=
  mkNATSConfig "nats://nats:4222" 10 1 "" 0 0 0 0 "sap" "kyma" "memory" 1 "interest" (-1) "" 0 "new" "new".
Definition fresh_backend : JSWorld := mkWorld (NewJetStream example_config JetStreamCleaner (mkDefaults 10 300000000000 10)) [].
Definition example_subscription : Subscription :=
  mkSubscription (mkMeta "s" "ns" "uid" None None)
    (mkSpec "http://svc.ns.svc.cluster.local" "standard" "app" ["order.created.v1"] ∅)
    (set_Types zeroStatus (Some [mkEventType "order.created.v1" "order.created.v1"])).

Lemma first_connection_failure_panics_witness :
  (SyncSubscription (fun s => s) (fun _ => inl (-1)%Z) unreachable_env example_subscription fresh_backend).1 = Panic nilPointer /\
  (DeleteSubscription (fun s => s) (fun _ => inl (-1)%Z) unreachable_env example_subscription fresh_backend).1 = Panic nilPointer /\
  (DeleteSubscriptionsOnly (fun _ => inl (-1)%Z) unreachable_env example_subscription fresh_backend).1 = Panic nilPointer.
Proof.
  apply (first_connection_failure_panics (fun s => s) (fun _ => inl (-1)%Z) unreachable_env example_subscription
    fresh_backend (errors_New "nats: no servers available for connection")); reflexivity.
Defined.
