(* ===== verification/JetStreamLiveness.v ===== *)
(** * JetStream backend: with a healthy NATS server every operation succeeds

    A healthy server accepts what it is asked, and reports a consumer as bound only while a NATS subscription of
    this process is bound to it.  Then the synchronisation of a Subscription and its deletion never fail, and
    the map of NATS subscriptions has every subscription that is active. *)

From S2P Require Import Prelude Effects GoStrings Errors Utils Subscription EventTypes Config JetStreamUtils JetStream JetStreamFacts.

(** ** Active subscriptions

    [active h n name]: in the log [h] the NATS subscription [n] was bound to the consumer [name], and since then it was
    neither found invalid nor unsubscribed, and the consumer was not deleted. *)
Definition deleted (r : option goerr) : bool := match r with None => true | Some e => is_consumer_not_found e end.
Fixpoint active (h : list jsEvent) (n : nat) (name : string) : Prop :=
  match h with
  | [] => False
  | EvSubscribe _ _ opts (inl m) :: h => (m = n /\ exists stream, Bind stream name ∈ opts) \/ active h n name
  | EvIsValid m false :: h => m <> n /\ active h n name
  | EvUnsubscribe m None :: h => m <> n /\ active h n name
  | EvDeleteConsumer _ x r :: h => (if deleted r then x <> name else True) /\ active h n name
  | _ :: h => active h n name
  end.

Definition is_subscribe (e : jsEvent) : bool := match e with EvSubscribe _ _ _ _ => true | _ => false end.
Lemma active_earlier e h n name : is_subscribe e = false -> active (e :: h) n name -> active h n name.
Proof. destruct e; try done; cbn; [tauto|destruct r; tauto|destruct r; tauto]. Qed.

Section liveness.
Context (sha : string -> string) (pq : string -> Z + goerr) (env : JSEnv).

(** ** A healthy server *)
Record healthy_nats : Prop := {
  hn_Status : forall h c, a_Status env h c = CONNECTED;
  hn_Connect : forall h url, exists c, a_Connect env h url = inl c;
  hn_IsConnected : forall h c, a_IsConnected env h c = true;
  hn_JetStream : forall h c, exists x, a_JetStream env h c = inl x;
  hn_NewClient : forall h, a_NewClient env h = inl tt;
  hn_StreamInfo : forall h s e, a_StreamInfo env h s = inr e -> is_stream_not_found e = true;
  hn_AddStream : forall h cfg, a_AddStream env h cfg = inl tt;
  hn_UpdateStream : forall h cfg, a_UpdateStream env h cfg = inl tt;
  hn_ConsumerInfo : forall h s n e, a_ConsumerInfo env h s n = inr e -> is_consumer_not_found e = true;
  hn_PushBound : forall h s n ci, a_ConsumerInfo env h s n = inl ci -> ciPushBound ci = true -> exists x, active h x n;
  hn_AddConsumer : forall h s cfg, exists ci, a_AddConsumer env h s cfg = inl ci /\ ciPushBound ci = false;
  hn_UpdateConsumer : forall h s cfg, a_UpdateConsumer env h s cfg = inl tt;
  hn_DeleteConsumer : forall h s n, deleted (a_DeleteConsumer env h s n) = true;
  hn_Subscribe : forall h s opts, exists x, a_Subscribe env h s opts = inl x;
  hn_Unsubscribe : forall h x, a_Unsubscribe env h x = None
}.
Context (Hn : healthy_nats).

(** The configuration of the backend is valid. *)
Context (j0 : JetStream) (Hcfg : validateConfig (jConfig j0) = None) (sc : StreamConfig) (Hsc : getStreamConfig pq (jConfig j0) = inl sc).
(** The keys that come up: they have names and their consumers do not collide. *)
Context (known : SubscriptionSubjectIdentifier -> Prop) (Hnamed : forall key, known key -> is_Some (NamespacedName key))
  (Hinj : forall key key', known key -> known key' -> consumerName key = consumerName key' -> key = key').

(** ** The invariant *)
Definition tracked (w : JSWorld) : Prop := forall n name, active (hist w) n name ->
  exists key, subscriptions (st w) !! key = Some n /\ consumerName key = name.
Record good (w : JSWorld) : Prop := {
  good_static : static j0 w;
  good_known : forall key, is_Some (subscriptions (st w) !! key) -> known key;
  good_tracked : tracked w
}.
Definition connected (w : JSWorld) : Prop := good w /\ is_Some (Conn (st w)) /\ is_Some (jsCtx (st w)).
(** Before the first connection there is neither connection nor context. *)
Definition startable (w : JSWorld) : Prop := good w /\ (Conn (st w) = None \/ is_Some (Conn (st w)) /\ is_Some (jsCtx (st w))).

Abbreviation succeeds P c Q := (triple P c Q (fun _ : JSWorld => False)).

Lemma good_event w e : is_subscribe e = false -> good w -> good (mkWorld (st w) (e :: hist w)).
Proof using All. intros He [Hs Hk Ht]. constructor; [done|done|]. intros n name Ha. apply active_earlier in Ha; [|done]. by apply Ht. Qed.
Lemma good_cons x h e : is_subscribe e = false -> good (mkWorld x h) -> good (mkWorld x (e :: h)).
Proof using All. apply (good_event (mkWorld x h)). Qed.
Lemma connected_event w e : is_subscribe e = false -> connected w -> connected (mkWorld (st w) (e :: hist w)).
Proof using All. intros He (Hg & Hc). split; [by apply good_event|done]. Qed.

(** A call that is not a subscription. *)
Lemma call_good {R} (ev : R -> jsEvent) f (Q : R -> Prop) : (forall r, is_subscribe (ev r) = false) -> (forall h, Q (f h)) ->
  succeeds connected (call ev f) (fun r w => connected w /\ Q r).
Proof using All. intros He HQ. apply triple_call. intros w Hw. split; [by apply connected_event|apply HQ]. Qed.
Lemma jsCall_good {R} (ev : R -> jsEvent) f (P : JSWorld -> Prop) (Q : R -> JSWorld -> Prop) :
  (forall w, P w -> connected w) -> (forall w, P w -> Q (f (hist w)) (mkWorld (st w) (ev (f (hist w)) :: hist w))) ->
  succeeds P (jsCall ev f) Q.
Proof using All.
  intros HP HQ w Hw. unfold jsCall, gets, bindM, orPanic, call. destruct (HP w Hw) as (_ & _ & [c Hc]). rewrite Hc. cbn. by apply HQ.
Qed.

(** ** Connecting *)
Lemma good_state w x : good w -> static j0 (mkWorld x (hist w)) -> subscriptions x = subscriptions (st w) -> good (mkWorld x (hist w)).
Proof using All.
  intros [Hs Hk Ht] Hs' E. constructor; [done|cbn; by rewrite E|]. intros n name Ha. cbn. rewrite E. by apply Ht.
Qed.

Lemma ensureStream_good : succeeds connected (ensureStreamExistsAndIsConfiguredCorrectly pq env) (fun _ => connected).
Proof using All.
  intros w Hw. unfold ensureStreamExistsAndIsConfiguredCorrectly. unfold gets at 1. unfold bindM at 1.
  destruct (good_static w (proj1 Hw)) as (Ec & _). rewrite Ec, Hsc. unfold okOr at 1, retM at 1, bindM at 1. revert w Hw Ec. 
  assert (succeeds connected (info <- jsCall (EvStreamInfo (JSStreamName (jConfig j0))) (fun h => a_StreamInfo env h (JSStreamName (jConfig j0))) ;;
    match info with
    | inr err => if is_stream_not_found err then r <- jsCall (EvAddStream sc) (fun h => a_AddStream env h sc) ;; okOr r else errM err
    | inl info => if negb (streamIsConfiguredCorrectly info sc)
                  then r <- jsCall (EvUpdateStream sc) (fun h => a_UpdateStream env h sc) ;; okOr r else retM tt
    end) (fun _ => connected)) as Hall; [|intros w Hw _; exact (Hall w Hw)].
  eapply (triple_bind _ _ _ (fun r w => connected w /\ match r with inr e => is_stream_not_found e = true | inl _ => True end)).
  { apply jsCall_good; [done|]. intros w Hw. split; [by apply connected_event|]. destruct (a_StreamInfo _ _ _) eqn:E; [done|by eapply hn_StreamInfo]. }
  intros [info|err].
  - destruct (negb _); [|intros w [Hw _]; exact Hw]. eapply (triple_bind _ _ _ (fun r w => connected w /\ r = inl tt)).
    + apply jsCall_good; [by intros w [? _]|]. intros w [Hw _]. split; [by apply connected_event|by apply hn_UpdateStream].
    + intros r w [Hw ->]. exact Hw.
  - apply (triple_weaken (fun w => connected w /\ is_stream_not_found err = true) _ _ (fun _ => connected) _ (fun _ => False) _); [|by intros ? ?|done..].
    apply triple_pure. intros ->. eapply (triple_bind _ _ _ (fun r w => connected w /\ r = inl tt)).
    + apply jsCall_good; [done|]. intros w Hw. split; [by apply connected_event|by apply hn_AddStream].
    + intros r w [Hw ->]. exact Hw.
Qed.

Lemma triple_gets {A} (P : JSWorld -> Prop) (f : JetStream -> A) : succeeds P (gets f) (fun a w => P w /\ a = f (st w)).
Proof using All. by intros w Hw. Qed.

Lemma initNATSConn_good h : succeeds (fun w => good w /\ Conn (st w) = None) (initNATSConn env h) (fun _ w => good w /\ is_Some (Conn (st w))).
Proof using All.
  unfold initNATSConn. intros w [Hg Hc]. unfold notConnected, gets. unfold bindM at 1 2 3. rewrite Hc. unfold retM at 1.
  unfold call. destruct (hn_Connect Hn (hist w) (URL (jConfig (st w)))) as [c Ec].
  unfold bindM. cbn. rewrite Ec. cbn. rewrite hn_IsConnected by done. cbn.
  destruct h as [h|]; cbn; (split; [|by eexists]); repeat (apply good_cons; [done|]); [apply (good_state (mkWorld (st w) (hist w))); [by destruct w|apply Hg|done]..].
Qed.

Lemma initJSContext_good : succeeds (fun w => good w /\ is_Some (Conn (st w))) (initJSContext env) (fun _ => connected).
Proof using All.
  intros w [Hg [c Hc]]. unfold initJSContext, gets, bindM, orPanic, retM, call, puts. rewrite Hc. cbn.
  destruct (hn_JetStream Hn (hist w) c) as [x Ex]. rewrite Ex. cbn. split; [|split; [by eexists|by eexists]].
  apply (good_state (mkWorld (st w) (EvJetStream c (inl x) :: hist w))); [by apply good_event|apply Hg|done].
Qed.

Lemma initCloudEventClient_good : succeeds connected (initCloudEventClient env) (fun _ => connected).
Proof using All.
  intros w Hw. unfold initCloudEventClient, gets, bindM, call. destruct (client (st w)) eqn:E; [exact Hw|]. rewrite hn_NewClient by done. cbn.
  destruct Hw as (Hg & Hc). split; [|exact Hc]. apply (good_state (mkWorld (st w) (EvNewClient (inl tt) :: hist w))); [by apply good_event|apply Hg|done].
Qed.

Lemma Initialize_good h : succeeds (fun w => good w /\ Conn (st w) = None) (Initialize pq env h) (fun _ => connected).
Proof using All.
  unfold Initialize. eapply triple_bind; [apply triple_gets|]. intros cfg.
  apply (triple_bind _ _ _ (fun _ w => good w /\ Conn (st w) = None)).
  { intros w [Hw ->]. destruct (good_static w (proj1 Hw)) as (-> & _). rewrite Hcfg. exact Hw. }
  intros []. eapply triple_bind; [apply initNATSConn_good|]. intros []. eapply triple_bind; [apply initJSContext_good|].
  intros []. eapply triple_bind; [apply initCloudEventClient_good|]. intros []. apply ensureStream_good.
Qed.

Lemma check_good : succeeds startable (checkJetStreamConnection pq env) (fun _ => connected).
Proof using All.
  intros w [Hg [Hc|[[c Hc] Hx]]]; unfold checkJetStreamConnection, notConnected, gets.
  - unfold bindM at 1 2. rewrite Hc. unfold retM at 1. unfold bindM at 1. unfold bindM, errOf.
    pose proof (Initialize_good (connClosedHandler (st w)) w (conj Hg Hc)) as Hi.
    destruct (Initialize pq env (connClosedHandler (st w)) w) as [[[]|e|m] w']; [exact Hi|done..].
  - unfold bindM at 1 2. rewrite Hc. unfold bindM at 1, call. rewrite hn_Status by done. cbn.
    split; [by apply good_event|]. split; [by eexists|exact Hx].
Qed.

(** ** Deleting *)
Definition unbound (name : string) (w : JSWorld) : Prop := forall n, ~ active (hist w) n name.

Lemma deleteConsumer_good name : succeeds connected (deleteConsumerFromJetStream env name) (fun _ w => connected w /\ unbound name w).
Proof using All.
  unfold deleteConsumerFromJetStream. eapply triple_bind; [apply triple_gets|]. intros cfg.
  eapply (triple_bind _ _ _ (fun r w => (connected w /\ unbound name w) /\ deleted r = true)).
  - apply jsCall_good; [by intros w [? _]|]. intros w [Hw _]. pose proof (hn_DeleteConsumer Hn (hist w) (JSStreamName cfg) name) as Hd.
    split; [|done]. split; [by apply connected_event|]. intros n. cbn. rewrite Hd. tauto.
  - intros [e|] w [Hw Hd]; [|exact Hw]. cbn in Hd. rewrite Hd. exact Hw.
Qed.

Lemma forget_good key w : connected w -> unbound (consumerName key) w -> connected (mkWorld (upd_subscriptions (delete key) (st w)) (hist w)).
Proof using All.
  intros [[Hs Hk Ht] Hc] Hu. split; [|exact Hc]. constructor; [done| |].
  - intros k Hk'. apply Hk. cbn in Hk'. rewrite lookup_delete in Hk'. case_decide; [by destruct Hk'|done].
  - intros n name Ha. destruct (Ht n name Ha) as (k & Hk' & <-). exists k. cbn. rewrite lookup_delete_ne; [done|]. intros <-. by eapply Hu.
Qed.

Lemma unsubscribe_good n : succeeds connected (unsubscribeIfValid env n) (fun _ => connected).
Proof using All.
  unfold unsubscribeIfValid. eapply triple_bind; [apply (call_good (EvIsValid n) _ (fun _ => True)); done|]. intros [].
  - eapply triple_bind; [eapply (triple_weaken connected); [apply (call_good (EvUnsubscribe n) _ (fun r => r = None)); [done|by intros; apply hn_Unsubscribe]|by intros w [? _]|done|done]|].
    intros r w [Hw ->]. exact Hw.
  - intros w [Hw _]. exact Hw.
Qed.

Lemma deleteSubscription_good n key : succeeds connected (deleteSubscriptionFromJetStream env n key) (fun _ => connected).
Proof using All.
  unfold deleteSubscriptionFromJetStream. eapply triple_bind; [apply unsubscribe_good|]. intros [].
  eapply triple_bind; [apply deleteConsumer_good|]. intros [] w [Hw Hu]. by apply forget_good.
Qed.

Lemma range_good : succeeds connected (rangeSubscriptions env) (fun l w => connected w /\ Forall (fun ks => known ks.1) l).
Proof using All.
  intros w Hw. unfold rangeSubscriptions. split; [done|]. apply Forall_forall. intros [key n] Hin. rewrite (a_range_all env) in Hin.
  apply elem_of_map_to_list in Hin. apply (good_known w (proj1 Hw)). by eexists.
Qed.

Lemma loop_good sub l (body : SubscriptionSubjectIdentifier -> nat -> bool -> M JSWorld unit) : Forall (fun ks => known ks.1) l ->
  (forall b key n, known key -> succeeds connected (body key n b) (fun _ => connected)) ->
  succeeds connected (forM_ l (fun '(key, n) => a <- associated key sub ;; body key n a)) (fun _ => connected).
Proof using All.
  intros Hl Hb. apply triple_forM. intros [key n] Hin. rewrite Forall_forall in Hl. specialize (Hl _ Hin). cbn in Hl.
  destruct (Hnamed key Hl) as [nn Hnn]. unfold associated, isJsSubAssociatedWithKymaSub. rewrite Hnn. cbn.
  intros w Hw. by apply Hb.
Qed.

(** Deleting a Subscription. *)
Lemma DeleteSubscription_good sub : succeeds startable (DeleteSubscription sha pq env sub) (fun _ => connected).
Proof using All.
  unfold DeleteSubscription. eapply triple_bind; [apply check_good|]. intros []. eapply triple_bind; [apply range_good|]. intros l.
  apply (triple_weaken (fun w => connected w /\ Forall (fun ks => known ks.1) l) _ _ (fun _ => connected) _ (fun _ => False) _); [|done..].
  apply triple_pure. intros Hl. eapply triple_bind.
  { apply (loop_good sub l (fun key n a => if negb a then retM tt else deleteSubscriptionFromJetStream env n key)); [done|].
    intros [] key n _; [apply deleteSubscription_good|by intros w Hw]. }
  intros []. eapply triple_bind.
  { apply triple_forM. intros t _. eapply triple_bind; [apply triple_gets|]. intros j. eapply (triple_weaken connected _ _ _ (fun _ => connected));
      [apply deleteConsumer_good|by intros w [? _]|by intros ? w [? _]|done]. }
  intros [] w [[Hs Hk Ht] Hc]. split; [|exact Hc]. by constructor.
Qed.

(** ** Synchronising *)
Section sync.
Context (sub : Subscription) (Hsub : forall t, t ∈ statusTypes sub -> known (keyOf sha j0 sub t)).
Abbreviation key t := (keyOf sha j0 sub t).

Lemma key_now w t : connected w -> keyOf sha (st w) sub t = key t.
Proof using All. intros [[Hs _ _] _]. by apply keyOf_static. Qed.

Lemma cleanup_good n k : succeeds connected (cleanupUnnecessaryJetStreamSubscribers env n sub k) (fun _ => connected).
Proof using All.
  unfold cleanupUnnecessaryJetStreamSubscribers. eapply triple_bind; [apply triple_gets|]. intros j.
  eapply (triple_bind _ _ _ (fun r w => connected w /\ match r with inr e => is_consumer_not_found e = true | inl _ => True end)).
  { apply jsCall_good; [by intros w [? _]|]. intros w [Hw _]. split; [by apply connected_event|].
    destruct (a_ConsumerInfo _ _ _ _) eqn:E; [done|by eapply hn_ConsumerInfo]. }
  intros [ci|e].
  - destruct (negb _); [|by intros w [Hw _]]. intros w [Hw _]. by apply deleteSubscription_good.
  - intros w [Hw He]. rewrite He. revert w Hw. eapply triple_bind; [apply deleteConsumer_good|]. intros [] w [Hw Hu]. by apply forget_good.
Qed.

Lemma syncSubscriptionEventTypes_good : succeeds connected (syncSubscriptionEventTypes sha env sub) (fun _ => connected).
Proof using All.
  unfold syncSubscriptionEventTypes. eapply triple_bind; [apply range_good|]. intros l.
  apply (triple_weaken (fun w => connected w /\ Forall (fun ks => known ks.1) l) _ _ (fun _ => connected) _ (fun _ => False) _); [|done..].
  apply triple_pure. intros Hl. apply (loop_good sub l (fun k n (a : bool) => if a then syncSubscriptionEventType sha env k sub n else retM tt)); [done|].
  intros [] k n _; [|by intros w Hw]. unfold syncSubscriptionEventType.
  eapply triple_bind; [apply (call_good (EvIsValid n) _ (fun _ => True)); done|]. intros valid.
  eapply triple_bind; [apply triple_gets|]. intros j w [[Hw _] _]. destruct (negb valid && _); [exact Hw|]. by apply cleanup_good.
Qed.

(** The consumer of an event type: if it is bound, then to a NATS subscription of ours. *)
Definition ours t (ci : ConsumerInfo) (w : JSWorld) : Prop := ciPushBound ci = true -> is_Some (subscriptions (st w) !! key t).

Lemma getOrCreate_good t : t ∈ statusTypes sub -> succeeds connected (getOrCreateConsumer sha env sub t) (fun ci w => connected w /\ ours t ci w).
Proof using All.
  intros Hin. unfold getOrCreateConsumer. eapply triple_bind; [apply triple_gets|]. intros j. cbn zeta.
  eapply (triple_bind _ _ _ (fun r w => connected w /\ match r with inr e => is_consumer_not_found e = true | inl ci => ours t ci w end)).
  { apply jsCall_good; [by intros w [? _]|]. intros w [Hw ->]. split; [by apply connected_event|].
    unfold id. rewrite key_now by done. destruct (a_ConsumerInfo _ _ _ _) as [ci|e] eqn:E; [|by eapply hn_ConsumerInfo].
    intros Hb. cbn [st]. destruct (hn_PushBound Hn _ _ _ _ E Hb) as [n Ha]. destruct (good_tracked w (proj1 Hw) _ _ Ha) as (k & Hk & Hkn).
    assert (k = key t) as <-; [|by eexists]. apply Hinj; [|by apply Hsub|done]. apply (good_known w (proj1 Hw)). by eexists. }
  intros [ci|e]; [by intros w Hw|]. intros w [Hw He]. rewrite He. revert w Hw.
  eapply triple_bind; [apply (call_good EvNewInbox _ (fun _ => True)); done|]. intros inbox. cbn zeta.
  eapply (triple_bind _ _ _ (fun r w => connected w /\ exists ci, r = inl ci /\ ciPushBound ci = false)).
  { apply jsCall_good; [by intros w [? _]|]. intros w [Hw _]. split; [by apply connected_event|]. by apply hn_AddConsumer. }
  intros r w (Hw & ci & -> & Hb). split; [exact Hw|]. intros Hb'. congruence.
Qed.

(** A new NATS subscription that is stored under the key of its consumer. *)
Lemma subscribe_good t cb opts n w : connected w -> t ∈ statusTypes sub -> (forall stream name, Bind stream name ∈ opts -> name = consumerName (key t)) ->
  (forall m, subscriptions (st w) !! key t = Some m -> forall name, ~ active (hist w) m name) ->
  connected (mkWorld (upd_subscriptions (insert (key t) n) (st w)) (EvSubscribe (subjectOf (st w) sub t) cb opts (inl n) :: hist w)).
Proof using All.
  intros [[Hs Hk Ht] Hc] Hin Ho Hold. split; [|exact Hc]. constructor; [done| |].
  - intros k Hk'. cbn in Hk'. rewrite lookup_insert in Hk'. case_decide; [subst k; by apply Hsub|by apply Hk].
  - intros m name [[-> [stream Hb]]|Ha]; cbn.
    + exists (key t). rewrite lookup_insert_eq. by rewrite (Ho _ _ Hb).
    + destruct (Ht m name Ha) as (k & Hk' & Hkn). exists k. rewrite lookup_insert_ne; [done|]. intros <-. by eapply Hold.
Qed.

Lemma create_good t cb : t ∈ statusTypes sub ->
  succeeds (fun w => connected w /\ subscriptions (st w) !! key t = None) (createNATSSubscription sha env sub t cb)
    (fun _ w => connected w /\ is_Some (subscriptions (st w) !! key t)).
Proof using All.
  intros Hin w [Hw Hnone]. unfold createNATSSubscription, subscribe, jsCall, gets, bindM, orPanic, call, puts, retM, id. cbn [st hist].
  destruct Hw as (Hg & Hconn & [c Hc]). rewrite Hc. set (opts := getDefaultSubscriptionOptions _ _ _).
  destruct (hn_Subscribe Hn (hist w) (subjectOf (st w) sub t) opts) as [n En]. cbn. rewrite En. cbn.
  assert (connected w) as Hw by (split; [done|]; split; [done|by eexists]). rewrite (key_now w t Hw).
  pose proof (subscribe_good t cb opts n w Hw Hin) as Hs. split; [|by rewrite lookup_insert_eq].
  apply (connected_event (mkWorld (upd_subscriptions (insert (key t) n) (st w)) _)); [done|]. apply Hs; [|by rewrite Hnone].
  intros stream name Hb. unfold opts, getDefaultSubscriptionOptions in Hb. rewrite key_now in Hb by done.
  unfold toJetStreamConsumerDeliverPolicyOptOrDefault in Hb.
  repeat (apply elem_of_cons in Hb as [Hb|Hb]; [solve [congruence|by injection Hb|repeat case_match; congruence]|]). by apply not_elem_of_nil in Hb.
Qed.

Lemma bindInvalid_good t cb m : t ∈ statusTypes sub ->
  succeeds (fun w => connected w /\ subscriptions (st w) !! key t = Some m /\ forall name, ~ active (hist w) m name)
    (bindInvalidSubscriptions sha env sub t cb) (fun _ => connected).
Proof using All.
  intros Hin w (Hw & Hm & Hina). unfold bindInvalidSubscriptions, subscribe, jsCall, gets, bindM, orPanic, call, puts, retM, id. cbn [st hist].
  destruct Hw as (Hg & Hconn & [c Hc]). rewrite Hc. set (opts := [Bind _ _]).
  destruct (hn_Subscribe Hn (hist w) (subjectOf (st w) sub t) opts) as [n En]. cbn. rewrite En. cbn.
  assert (connected w) as Hw by (split; [done|]; split; [done|by eexists]). rewrite (key_now w t Hw).
  apply (subscribe_good t cb opts n w Hw Hin); [|intros m'; rewrite Hm; by intros [= <-]].
  intros stream name Hb. unfold opts in Hb. rewrite key_now in Hb by done. apply list_elem_of_singleton in Hb. congruence.
Qed.

Lemma syncMax_good ci : succeeds connected (syncConsumerMaxInFlight env sub ci) (fun _ => connected).
Proof using All.
  unfold syncConsumerMaxInFlight. eapply triple_bind; [apply triple_gets|]. intros j. cbn zeta. destruct (_ =? _)%Z; [by intros w [Hw _]|].
  eapply (triple_bind _ _ _ (fun r w => connected w /\ r = inl tt)).
  - apply jsCall_good; [by intros w [? _]|]. intros w [Hw _]. split; [by apply connected_event|by apply hn_UpdateConsumer].
  - intros r w [Hw ->]. exact Hw.
Qed.

Lemma syncEventType_good cb t : t ∈ statusTypes sub -> succeeds connected (syncEventType sha env sub cb t) (fun _ => connected).
Proof using All.
  intros Hin. unfold syncEventType. eapply (triple_bind _ _ _ (fun j w => connected w /\ keyOf sha j sub t = key t)).
  { intros w Hw. split; [exact Hw|by apply key_now]. }
  intros j. apply triple_pure. intros ->. cbn zeta. eapply triple_bind; [by apply getOrCreate_good|]. intros ci.
  eapply triple_bind; [apply triple_gets|]. intros present. destruct present as [m|].
  - eapply (triple_bind _ _ _ (fun _ w => connected w /\ subscriptions (st w) !! key t = Some m)); [by intros w [[Hw _] Hm]|].
    intros []. eapply triple_bind; [apply triple_gets|]. intros present. intros w [[Hw Hm] ->]. rewrite Hm. revert w Hw Hm.
    enough (succeeds (fun w => connected w /\ subscriptions (st w) !! key t = Some m)
      ((valid <- call (EvIsValid m) (fun h => a_IsValid env h m) ;;
        if negb valid then bindInvalidSubscriptions sha env sub t cb else retM tt) ;;; syncConsumerMaxInFlight env sub ci) (fun _ => connected)) as Hall
      by (intros w Hw Hm; exact (Hall w (conj Hw Hm))).
    eapply (triple_bind _ _ _ (fun _ => connected)); [|intros []; apply syncMax_good].
    eapply (triple_bind _ _ _ (fun valid w => connected w /\ subscriptions (st w) !! key t = Some m /\
      (valid = false -> forall name, ~ active (hist w) m name))).
    { apply triple_call. intros w [Hw Hm]. split; [by apply connected_event|]. split; [done|]. intros Hv name. cbn. rewrite Hv. tauto. }
    intros [].
    + by intros w [Hw _].
    + intros w (Hw & Hm & Ha). apply (bindInvalid_good t cb m Hin). split; [exact Hw|]. split; [exact Hm|by apply Ha].
  - eapply (triple_bind _ _ _ (fun _ w => connected w /\ is_Some (subscriptions (st w) !! key t))).
    { intros w [[Hw Ho] Hnone]. destruct (ciPushBound ci) eqn:Hb; cbn [negb].
      - destruct (Ho Hb) as [x Hx]. congruence.
      - by apply create_good. }
    intros []. eapply triple_bind; [apply triple_gets|]. intros present w [[Hw [m Hm]] ->]. rewrite Hm. by apply syncMax_good.
Qed.

(** Synchronising a Subscription. *)
Lemma SyncSubscription_good : succeeds startable (SyncSubscription sha pq env sub) (fun _ => connected).
Proof using All.
  unfold SyncSubscription. cbn zeta. eapply triple_bind; [apply check_good|]. intros [].
  eapply triple_bind; [apply syncSubscriptionEventTypes_good|]. intros []. eapply triple_bind; [apply triple_gets|]. intros sink.
  eapply (triple_bind _ _ _ (fun _ => connected)).
  { intros w [Hw _]. destruct (bool_decide _); [exact Hw|]. destruct Hw as [[Hs Hk Ht] Hc]. split; [|exact Hc]. by constructor. }
  intros []. apply triple_forM. intros t Hin. by apply syncEventType_good.
Qed.
End sync.

(** C12: with a healthy NATS server, a backend that is connected or was never connected, and keys whose consumers do not
    collide, the synchronisation of a Subscription and its deletion succeed and leave the backend in such a
    state again; in it every NATS subscription that is active is in the map, under the key of its consumer. *)
Theorem JetStream_operations_succeed sub w : startable w ->
  ((forall t, t ∈ statusTypes sub -> known (keyOf sha j0 sub t)) ->
     exists w', SyncSubscription sha pq env sub w = (Ok tt, w') /\ connected w') /\
  (exists w', DeleteSubscription sha pq env sub w = (Ok tt, w') /\ connected w').
Proof using All.
  intros Hw. split.
  - intros Hk. pose proof (SyncSubscription_good sub Hk w Hw) as Hs.
    destruct (SyncSubscription sha pq env sub w) as [[[]|e|m] w']; [by exists w'|done..].
  - pose proof (DeleteSubscription_good sub w Hw) as Hs.
    destruct (DeleteSubscription sha pq env sub w) as [[[]|e|m] w']; [by exists w'|done..].
Qed.
End liveness.
