(* ===== verification/JSReconciler.v ===== *)
(** * JetStream subscription reconciler:
      [internal/controller/eventing/subscription/jetstream]

    [Reconcile] and the functions it calls, over an abstract backend: the
    interface [jetstream.Backend] is the class [JSBackend].  The calls to the
    API server, to the recorder, to the validator and to the metrics are the events
    of [recEvent]; a call of the backend runs it on its own world and logs the outcome. *)

From S2P Require Import Prelude Effects GoStrings Errors Utils Subscription EventTypes Config JetStreamUtils Validator.

(** ** The interface of the backend ([types.go]) *)
Class JSBackend (W : Type) := {
  be_SyncSubscription : Subscription -> M W unit;
  be_DeleteSubscription : Subscription -> M W unit;
  be_DeleteSubscriptionsOnly : Subscription -> M W unit;
  be_GetJetStreamSubjects : W -> string -> list string -> string -> list string;
  be_GetConfig : W -> NATSConfig
}.

Inductive recEvent :=
  | RGet (namespace name : string) (r : Subscription + goerr)
  | RList (r : list Subscription + goerr)
  | RUpdate (sub : Subscription) (r : Subscription + goerr)
  | RStatusUpdate (sub : Subscription) (r : unit + goerr)
  | RRecorder (warning : bool) (reason message : string)
  | RValidate (sub : Subscription) (r : option goerr)
  | RSync (sub : Subscription) (r : option goerr)
  | RDelete (sub : Subscription) (r : option goerr)
  | RDeleteOnly (sub : Subscription) (r : option goerr)
  | RRemoveStatus (name namespace consumer stream : string)
  | RRecordStatus (ready : bool) (name namespace consumer stream : string)
  | REnqueue (sub : Subscription).

Record RecEnv := mkRecEnv {
  r_now : list recEvent -> Z;
  r_Get : list recEvent -> string -> string -> Subscription + goerr;
  r_List : list recEvent -> list Subscription + goerr;
  r_Update : list recEvent -> Subscription -> Subscription + goerr;
  r_StatusUpdate : list recEvent -> Subscription -> unit + goerr;
  r_Validate : list recEvent -> Subscription -> option goerr
}.

Definition errFailedToUpdateStatus := sentinel "jsreconciler.errFailedToUpdateStatus" "failed to update JetStream subscription status".
Definition errFailedToDeleteSub := sentinel "jsreconciler.errFailedToDeleteSub" "failed to delete JetStream subscription".
Definition errFailedToUpdateFinalizers := sentinel "jsreconciler.errFailedToUpdateFinalizers" "failed to update subscription's finalizers".
Definition requeueDuration : Z := 10 * second.

Definition isInDeletion (subscription : Subscription) : bool :=
  match DeletionTimestamp (meta subscription) with Some _ => true | None => false end.
Definition containsFinalizer (sub : Subscription) : bool :=
  ContainsString (elems (Finalizers (meta sub))) Finalizer.

Section reconciler.
Context {W : Type} `{JSBackend W} (env : RecEnv) (sha256hex : string -> string) (cleaner : Cleaner).

Abbreviation R := (M (World W recEvent)).

(** The result of a reconciliation: the delay of [RequeueAfter], or an error. *)
Definition Result : Type := option Z + goerr.

Definition now : R Z := fun w => (Ok (r_now env (hist w)), w).

(** A call of the backend, with its outcome in the log. *)
Definition backend (ev : option goerr -> recEvent) (c : M W unit) : R (option goerr) :=
  r <- errOf (inside c) ;; call (fun _ => ev r) (fun _ => r).

(** ** Status *)
Definition updateStatus (oldSubscription newSubscription : Subscription) : R (option goerr) :=
  if IsSubscriptionStatusEqual (Status oldSubscription) (Status newSubscription) then retM None
  else
    r <- call (RStatusUpdate newSubscription) (fun h => r_StatusUpdate env h newSubscription) ;;
    match r with
    | inr err =>
        call (fun _ => RRecorder true "UpdateFailed" ("Update Subscription status failed " +:+ Name (meta newSubscription)))
          (fun _ => tt) ;;;
        retM (Some (MakeError errFailedToUpdateStatus (Some err)))
    | inl _ =>
        call (fun _ => RRecorder false "Update" ("Update Subscription status succeeded " +:+ Name (meta newSubscription)))
          (fun _ => tt) ;;;
        retM None
    end.

Definition updateSubscriptionStatus (sub : Subscription) : R (option goerr) :=
  r <- call (RGet (Namespace (meta sub)) (Name (meta sub))) (fun h => r_Get env h (Namespace (meta sub)) (Name (meta sub))) ;;
  match r with
  | inr err => retM (Some err)
  | inl actualSubscription =>
      let desiredSubscription := set_Status actualSubscription (Status sub) in
      e <- updateStatus actualSubscription desiredSubscription ;;
      match e with
      | Some err => retM (Some (MakeError errFailedToUpdateStatus (Some err)))
      | None => retM None
      end
  end.

(** The Subscription as it is after the call, and the error. *)
Definition syncSubscriptionStatus (desiredSubscription : Subscription) (err : option goerr) : R (Subscription * option goerr) :=
  t <- now ;;
  let ready := match err with None => true | Some _ => false end in
  let status := SetSubscriptionActiveCondition t (set_Ready (Status desiredSubscription) ready) err in
  let desiredSubscription := set_Status desiredSubscription status in
  e <- updateSubscriptionStatus desiredSubscription ;;
  retM (desiredSubscription, e).

(** ** Validation *)
Definition validateSubscription (subscription : Subscription) : R (Subscription * option goerr) :=
  err <- call (RValidate subscription) (fun h => r_Validate env h subscription) ;;
  let status := match err with
                | Some _ => ClearConditions (ClearBackend (ClearTypes (SetNotReady (Status subscription))))
                | None => Status subscription
                end in
  t <- now ;;
  retM (set_Status subscription (SetSubscriptionSpecValidCondition t status err), err).

(** ** Event types *)
Definition set_bTypes (b : Backend) (t : slice JetStreamTypes) : Backend :=
  mkBackend (Ev2hash b) (EventMeshHash b) (EventMeshLocalHash b) (WebhookAuthHash b) (ExternalSink b)
    (FailedActivation b) (APIRuleName b) (emSubscriptionStatus b) t (EmsTypes b).

Definition syncEventTypes (w : W) (desiredSubscription : Subscription) : Subscription * option goerr :=
  let cleanedTypes := GetCleanEventTypes desiredSubscription cleaner in
  let status := Status desiredSubscription in
  let status := if bool_decide (Types status = nil_if_empty cleanedTypes) then status
                else set_Types status (nil_if_empty cleanedTypes) in
  let desiredSubscription := set_Status desiredSubscription status in
  let jsSubjects := be_GetJetStreamSubjects w (Source (Spec desiredSubscription))
                      (GetCleanEventTypesFromEventTypes cleanedTypes) (TypeMatching (Spec desiredSubscription)) in
  match GetBackendJetStreamTypes sha256hex desiredSubscription jsSubjects with
  | inr err => (desiredSubscription, Some err)
  | inl jsTypes =>
      let status := if bool_decide (bTypes (sBackend status) = nil_if_empty jsTypes) then status
                    else set_Backend status (set_bTypes (sBackend status) (nil_if_empty jsTypes)) in
      (set_Status desiredSubscription status, None)
  end.

(** ** Finalizers and deletion *)
Definition addFinalizer (sub : Subscription) : R (Subscription * Result) :=
  let sub := set_Finalizers sub (Some (elems (Finalizers (meta sub)) ++ [Finalizer])%list) in
  r <- call (RUpdate sub) (fun h => r_Update env h sub) ;;
  match r with
  | inr err => retM (sub, inr (MakeError errFailedToUpdateFinalizers (Some err)))
  | inl stored => retM (stored, inl None)
  end.

Definition backendTypes (sub : Subscription) : list JetStreamTypes := elems (bTypes (sBackend (Status sub))).
Definition streamName : R string := w <- gets id ;; retM (JSStreamName (be_GetConfig w)).

Definition handleSubscriptionDeletion (subscription : Subscription) : R Result :=
  if negb (ContainsString (elems (Finalizers (meta subscription))) Finalizer) then retM (inl None)
  else
    err <- backend (RDelete subscription) (be_DeleteSubscription subscription) ;;
    match err with
    | Some err =>
        let deleteSubErr := MakeError errFailedToDeleteSub (Some err) in
        r <- syncSubscriptionStatus subscription (Some deleteSubErr) ;;
        match r.2 with
        | Some syncErr => retM (inr syncErr)
        | None => retM (inr deleteSubErr)
        end
    | None =>
        let types := backendTypes subscription in
        let subscription := set_Finalizers subscription
          (RemoveString (elems (Finalizers (meta subscription))) Finalizer) in
        r <- call (RUpdate subscription) (fun h => r_Update env h subscription) ;;
        match r with
        | inr err => retM (inr (MakeError errFailedToUpdateFinalizers (Some err)))
        | inl subscription =>
            forM_ types (fun t =>
              stream <- streamName ;;
              call (fun _ => RRemoveStatus (Name (meta subscription)) (Namespace (meta subscription)) (jsConsumerName t) stream)
                (fun _ => tt)) ;;;
            retM (inl None)
        end
    end.

(** ** Metrics *)
Definition updateSubscriptionMetrics (current desired : Subscription) : R unit :=
  forM_ (backendTypes current) (fun currentType =>
    if existsb (fun dc => String.eqb (jsConsumerName currentType) (jsConsumerName dc)) (backendTypes desired) then retM tt
    else stream <- streamName ;;
         call (fun _ => RRemoveStatus (Name (meta current)) (Namespace (meta current)) (jsConsumerName currentType) stream)
           (fun _ => tt)) ;;;
  forM_ (backendTypes desired) (fun desiredType =>
    stream <- streamName ;;
    call (fun _ => RRecordStatus (Ready (Status desired)) (Name (meta desired)) (Namespace (meta desired))
                     (jsConsumerName desiredType) stream) (fun _ => tt)).

(** ** Reconciliation *)

(** What follows the validation. *)
Definition afterValidation (desired : Subscription) : R (Subscription * Result) :=
  w <- gets id ;;
  let '(desired, err) := syncEventTypes w desired in
  match err with
  | Some err => r <- syncSubscriptionStatus desired (Some err) ;; retM (r.1, inr err)
  | None =>
      syncSubErr <- backend (RSync desired) (be_SyncSubscription desired) ;;
      match syncSubErr with
      | Some syncSubErr =>
          r <- syncSubscriptionStatus desired (Some syncSubErr) ;;
          match r.2 with
          | Some syncErr => retM (r.1, inr syncErr)
          | None =>
              if errors_Is syncSubErr (kind_of ErrMissingSubscription)
              then retM (r.1, inl (Some requeueDuration))
              else retM (r.1, inr syncSubErr)
          end
      | None =>
          r <- syncSubscriptionStatus desired None ;;
          retM (r.1, match r.2 with Some e => inr e | None => inl None end)
      end
  end.

(** What follows a failed validation. *)
Definition afterInvalid (desired : Subscription) (validationErr : goerr) : R (Subscription * Result) :=
  deleteErr <- (if errors_Is validationErr (kind_of ErrSinkValidationFailed)
                then backend (RDeleteOnly desired) (be_DeleteSubscriptionsOnly desired) else retM None) ;;
  match deleteErr with
  | Some deleteErr => retM (desired, inr deleteErr)
  | None =>
      updateErr <- updateSubscriptionStatus desired ;;
      match updateErr with
      | Some updateErr => retM (desired, match errors_Join [Some validationErr; Some updateErr] with
                                         | Some e => inr e | None => inl None end)
      | None => retM (desired, inr (TerminalError validationErr))
      end
  end.

(** The body between the deferred metrics update and the returns. *)
Definition reconcileActive (desired : Subscription) : R (Subscription * Result) :=
  if negb (containsFinalizer desired) then addFinalizer desired
  else
    v <- validateSubscription desired ;;
    match v.2 with
    | Some validationErr => afterInvalid v.1 validationErr
    | None => afterValidation v.1
    end.

Definition Reconcile (namespace name : string) : R Result :=
  r <- call (RGet namespace name) (fun h => r_Get env h namespace name) ;;
  match r with
  | inr err => retM (match IgnoreNotFound err with None => inl None | Some e => inr e end)
  | inl currentSubscription =>
      let desiredSubscription := currentSubscription in
      if isInDeletion desiredSubscription then handleSubscriptionDeletion desiredSubscription
      else
        r <- reconcileActive desiredSubscription ;;
        updateSubscriptionMetrics currentSubscription r.1 ;;;
        retM r.2
  end.

(** ** A closed connection *)
Definition enqueueReconciliationForSubscriptions (subs : list Subscription) : R unit :=
  forM_ subs (fun sub => call (fun _ => REnqueue sub) (fun _ => tt)).

Definition HandleNatsConnClose : R unit :=
  r <- call RList (fun h => r_List env h) ;;
  match r with
  | inr err => panicM (Error err)
  | inl subs => enqueueReconciliationForSubscriptions subs
  end.
End reconciler.
