(* ===== verification/JSReconcilerFacts.v ===== *)
(** * JetStream subscription reconciler: what a reconciliation does

    Safety of every run, against the interface of the backend only; success
    and deletion, against the contract [JSBackendLaws]; and the JetStream backend as
    an implementation of that contract. *)

From S2P Require Import Prelude Effects Traces GoStrings Errors Utils Subscription EventTypes Config JetStreamUtils JetStream JetStreamFacts Validator JSReconciler.

Section safety.
Context {W : Type} `{JSBackend W} (env : RecEnv) (sha : string -> string) (cleaner : Cleaner).
Abbreviation RW := (World W recEvent).
Implicit Types (w : RW) (sub : Subscription).

(** ** Traces

    When an event is justified by the events before it, since [w0]. *)
Definition rec_justified (w0 w : RW) (e : recEvent) : Prop :=
  match e with
  | RStatusUpdate s _ =>
      Ready (Status s) = true ->
      exists d, happened w0 w (RSync d None) /\ Types (Status s) = Types (Status d) /\
        sBackend (Status s) = sBackend (Status d)
  | RUpdate s _ => Finalizer ∉ elems (Finalizers (meta s)) ->
      exists d, happened w0 w (RDelete d None) /\ Name (meta d) = Name (meta s) /\ Namespace (meta d) = Namespace (meta s)
  | RSync s _ => exists v, happened w0 w (RValidate v None) /\ Spec v = Spec s /\ meta v = meta s /\
                   isInDeletion s = false /\ containsFinalizer s = true
  | RDelete s _ => isInDeletion s = true /\ containsFinalizer s = true
  | RDeleteOnly s _ => exists v e, happened w0 w (RValidate v (Some e)) /\
                         errors_Is e (kind_of ErrSinkValidationFailed) = true /\ meta v = meta s
  | _ => True
  end.

Lemma rec_justified_later w0 w w' e : rec_justified w0 w e -> ext w w' -> rec_justified w0 w' e.
Proof.
  intros He Hx. assert (forall e, happened w0 w e -> happened w0 w' e) as Hm by (intros; by eapply happened_later).
  destruct e; cbn in *; try done; naive_solver.
Qed.

#[global] Instance rec_justification : Justification W recEvent := {
  justified_event := rec_justified; justified_event_later := rec_justified_later }.

Section with_facts.
Context (w0 : RW) (K : RW -> Prop).
Context (HK : stable K).

Abbreviation traceK := (traceK w0 K).

Lemma now_traceK : keeps traceK (now env).
Proof. intros w Hw. exact Hw. Qed.

Lemma streamName_traceK : keeps traceK streamName.
Proof. unfold streamName. repeat keeps_step. Qed.
#[local] Hint Resolve now_traceK streamName_traceK : keeps.

(** A call of the backend that may be made. *)
Lemma backend_traceK ev c : (forall r w, traceK w -> justified_event w0 w (ev r)) -> keeps traceK (backend ev c).
Proof.
  intros He. unfold backend. keeps_step; [by apply keeps_errOf, inside_traceK|]. apply call_traceK; [done|]. intros; by apply He.
Qed.

Lemma updateStatus_traceK old new : (forall r w, traceK w -> justified_event w0 w (RStatusUpdate new r)) ->
  keeps traceK (updateStatus env old new).
Proof.
  intros He. unfold updateStatus. destruct (IsSubscriptionStatusEqual _ _); [apply keeps_ret|].
  repeat first [apply call_traceK; intros; solve [auto|exact Logic.I]|keeps_step].
Qed.

Lemma updateSubscriptionStatus_traceK sub :
  (forall s r w, Status s = Status sub -> traceK w -> justified_event w0 w (RStatusUpdate s r)) ->
  keeps traceK (updateSubscriptionStatus env sub).
Proof.
  intros He. unfold updateSubscriptionStatus. apply keeps_bind; [by apply call_traceK|intros [actual|e]; [|apply keeps_ret]].
  apply keeps_bind; [apply updateStatus_traceK; intros; by apply He|intros []; apply keeps_ret].
Qed.

Lemma syncSubscriptionStatus_traceK sub err :
  (err = None -> forall w, traceK w -> exists d, happened w0 w (RSync d None) /\ Types (Status sub) = Types (Status d) /\
     sBackend (Status sub) = sBackend (Status d)) ->
  keeps traceK (syncSubscriptionStatus env sub err).
Proof.
  intros Hd. unfold syncSubscriptionStatus. keeps_step; [apply now_traceK|]. keeps_step; [|apply keeps_ret].
  apply updateSubscriptionStatus_traceK. intros s r w Hs Hw. cbn. rewrite Hs. cbn [Status set_Status].
  unfold SetSubscriptionActiveCondition. destruct (setCondition_frame (set_Ready (Status sub) (match err with None => true | Some _ => false end))
    (makeSubscriptionActiveCondition a err)) as (-> & -> & ->). cbn.
  destruct err; [done|]. intros _. by apply Hd.
Qed.

Lemma updateSubscriptionMetrics_traceK current desired : keeps traceK (updateSubscriptionMetrics current desired).
Proof.
  unfold updateSubscriptionMetrics. repeat first [apply call_traceK; intros; solve [auto|exact Logic.I]|keeps_step].
Qed.
End with_facts.

Lemma backend_learn w0 K {B} ev c (k : option goerr -> M RW B) :
  stable K ->
  (forall r w, traceK w0 K w -> justified_event w0 w (ev r)) ->
  (forall r, keeps (traceK w0 (fun w => K w /\ happened w0 w (ev r))) (k r)) ->
  keeps (traceK w0 K) (bindM (backend ev c) k).
Proof.
  intros HK He Hk w Hw. pose proof (inside_traceK w0 K HK c w Hw) as H1. unfold backend, bindM, errOf.
  assert (forall r w1, traceK w0 K w1 -> traceK w0 K (k r (mkWorld (st w1) (ev r :: hist w1))).2) as Hr.
  { intros r w1 Hw1. assert (traceK w0 K (mkWorld (st w1) (ev r :: hist w1))) as Hw2 by (apply traceK_event; auto).
    destruct (Hk r (mkWorld (st w1) (ev r :: hist w1))) as [Ht [HK' _]]; [|by split].
    split; [apply Hw2|]. split; [apply Hw2|]. eapply happened_now; [apply Hw1|reflexivity]. }
  destruct (inside c w) as [[[]|e|m] w1]; cbn [snd] in H1; unfold call; cbn [st hist]; [by apply Hr|by apply Hr|done].
Qed.

(** ** The branches of the reconciliation *)
Section branches.
Context (w0 : RW).
Abbreviation T K := (traceK w0 K).
Lemma handleDeletion_trace sub : isInDeletion sub = true ->
  keeps (T always) (handleSubscriptionDeletion env sub).
Proof.
  intros Hd. unfold handleSubscriptionDeletion. destruct (ContainsString _ _) eqn:Hf; cbn [negb]; [|apply keeps_ret].
  apply backend_learn; [auto|done|]. intros [err|].
  - apply keeps_bind; [by apply syncSubscriptionStatus_traceK; [apply stable_happened|]|].
    intros [s [e|]]; apply keeps_ret.
  - set (sub' := set_Finalizers _ _). apply keeps_bind.
    + apply call_traceK; [by apply stable_happened|]. intros r w [_ [_ Hr]] _. by exists sub.
    + intros [stored|e]; [|apply keeps_ret]. apply keeps_bind; [|intros _; apply keeps_ret].
      apply keeps_forM. intros t _. apply keeps_bind; [apply streamName_traceK|]. intros st0.
      by apply call_traceK; [apply stable_happened|].
Qed.

Lemma addFinalizer_trace sub : keeps (T always) (addFinalizer env sub).
Proof.
  unfold addFinalizer. apply keeps_bind; [|intros [s|e]; apply keeps_ret].
  apply call_traceK; [auto|]. intros r w _ Hn. destruct Hn. apply elem_of_app. right. by apply list_elem_of_singleton.
Qed.

(** The Subscription passed to the backend is the validated one, up to its status. *)
Lemma syncEventTypes_frame (w : W) sub sub' e : syncEventTypes sha cleaner w sub = (sub', e) ->
  Spec sub' = Spec sub /\ meta sub' = meta sub.
Proof.
  unfold syncEventTypes. destruct (GetBackendJetStreamTypes _ _ _); intros [= <- <-]; done.
Qed.

Lemma afterValidation_trace sub v K : stable K ->
  (forall w, K w -> happened w0 w (RValidate v None)) ->
  Spec v = Spec sub -> meta v = meta sub -> isInDeletion sub = false -> containsFinalizer sub = true ->
  keeps (T K) (afterValidation env sha cleaner sub).
Proof.
  intros HK Hv Hs Hm Hd Hf. unfold afterValidation. apply keeps_gets_bind. intros w1 _.
  destruct (syncEventTypes sha cleaner (id (st w1)) sub) as [sub' [err|]] eqn:E; apply syncEventTypes_frame in E as [Es Em].
  - apply keeps_bind; [by apply syncSubscriptionStatus_traceK|]. intros [s e]. apply keeps_ret.
  - apply backend_learn; [done| |].
    + intros r w [_ Hw]. exists v. split_and!; [by apply Hv|congruence|congruence|..].
      * unfold isInDeletion. by rewrite Em.
      * unfold containsFinalizer. by rewrite Em.
    + intros [err|].
      * apply keeps_bind; [by apply syncSubscriptionStatus_traceK; [apply stable_happened|]|].
        intros [s [e|]]; [apply keeps_ret|]. destruct (errors_Is _ _); apply keeps_ret.
      * apply keeps_bind; [|intros [s e]; apply keeps_ret].
        apply syncSubscriptionStatus_traceK; [by apply stable_happened|]. intros _ w [_ [_ Hw]]. by exists sub'.
Qed.

Lemma afterInvalid_trace sub v err K : stable K ->
  (forall w, K w -> happened w0 w (RValidate v (Some err))) -> meta v = meta sub -> Ready (Status sub) = false ->
  keeps (T K) (afterInvalid env sub err).
Proof.
  intros HK Hv Hm Hr. unfold afterInvalid. apply keeps_bind.
  - destruct (errors_Is _ _) eqn:Ee; [|apply keeps_ret]. apply backend_traceK; [done|].
    intros r w [_ Hw]. exists v, err. split_and!; [by apply Hv|done|done].
  - intros [e|]; [apply keeps_ret|]. apply keeps_bind; [|intros [e|]; [destruct (errors_Join _)|]; apply keeps_ret].
    apply updateSubscriptionStatus_traceK; [done|]. intros s r w Hs _ Hready. rewrite Hs in Hready. congruence.
Qed.

Lemma reconcileActive_trace sub : isInDeletion sub = false ->
  keeps (T always) (reconcileActive env sha cleaner sub).
Proof.
  intros Hd. unfold reconcileActive. destruct (containsFinalizer sub) eqn:Hf; cbn [negb]; [|apply addFinalizer_trace].
  unfold validateSubscription. apply keeps_assoc. apply call_learn; [done|done|]. intros verr.
  apply keeps_assoc. apply keeps_bind; [apply now_traceK|]. intros t.
  assert (forall w, bindM (retM (set_Status sub (SetSubscriptionSpecValidCondition t
    (match verr with Some _ => ClearConditions (ClearBackend (ClearTypes (SetNotReady (Status sub)))) | None => Status sub end) verr), verr))
    (fun v => match v.2 with Some e => afterInvalid env v.1 e | None => afterValidation env sha cleaner v.1 end) w =
    (match verr with
     | Some e => afterInvalid env (set_Status sub (SetSubscriptionSpecValidCondition t
         (ClearConditions (ClearBackend (ClearTypes (SetNotReady (Status sub))))) (Some e))) e
     | None => afterValidation env sha cleaner (set_Status sub (SetSubscriptionSpecValidCondition t (Status sub) None))
     end) w) as Heq by (by destruct verr).
  intros w Hw. rewrite Heq. revert w Hw. destruct verr as [err|].
  - apply (afterInvalid_trace _ sub); [by apply stable_happened|by intros w [_ ?]|done|].
    cbn [Status set_Status]. unfold SetSubscriptionSpecValidCondition. by rewrite (proj1 (setCondition_frame _ _)).
  - apply (afterValidation_trace _ sub); [by apply stable_happened|by intros w [_ ?]|done..].
Qed.
End branches.

(** C4: in every reconciliation of the JetStream reconciler, whatever the API server, the
    validator and the backend answer: a status is stored as ready only after the backend has
    synchronised the Subscription with these types; our finalizer is removed only after
    the backend has deleted the Subscription; the backend is asked to synchronise only a
    Subscription that was validated, is not being deleted and has the finalizer, and to
    delete only one that is being deleted; and subscriptions are taken off NATS only
    when the sink is invalid. *)
Theorem Reconcile_trace namespace name w :
  all_justified w (Reconcile env sha cleaner namespace name w).2.
Proof.
  enough (keeps (traceK w always) (Reconcile env sha cleaner namespace name)) as Hk.
  { exact (proj2 (proj1 (Hk w (conj (trace_refl w) I)))). }
  unfold Reconcile. apply keeps_bind; [by apply call_traceK|].
  intros [sub|err]; [|apply keeps_ret]. destruct (isInDeletion sub) eqn:Hd; [by apply handleDeletion_trace|].
  apply keeps_bind; [by apply reconcileActive_trace|]. intros r.
  apply keeps_bind; [by apply updateSubscriptionMetrics_traceK|]. intros _. apply keeps_ret.
Qed.
End safety.

(** ** The contract of a backend

    What the reconciler relies on: after a successful synchronisation the backend serves
    the Subscription, after a successful deletion it holds nothing of it. *)
Class JSBackendLaws (W : Type) `{JSBackend W} := {
  be_serves : W -> Subscription -> Prop;
  be_absent : W -> Subscription -> Prop;
  be_Sync_Ok : forall sub w w', be_SyncSubscription sub w = (Ok tt, w') -> be_serves w' sub;
  be_Delete_Ok : forall sub w w', be_DeleteSubscription sub w = (Ok tt, w') -> be_absent w' sub;
  be_DeleteOnly_Ok : forall sub w w', be_DeleteSubscriptionsOnly sub w = (Ok tt, w') -> be_absent w' sub
}.

Section outcome.
Context {W : Type} `{JSBackendLaws W} (env : RecEnv) (sha : string -> string) (cleaner : Cleaner).
Implicit Types (w : World W recEvent) (sub : Subscription).

(** The API server has that status: it accepted it since [w], or the one it
    returned differs in the transition times only. *)
Definition status_stored (w w' : World W recEvent) (status : SubscriptionStatus) : Prop :=
  (exists s, happened w w' (RStatusUpdate s (inl tt)) /\ Status s = status) \/
  (exists a namespace name, happened w w' (RGet namespace name (inl a)) /\ IsSubscriptionStatusEqual (Status a) status = true).

Lemma status_stored_earlier w w1 w' status : ext w w1 -> status_stored w1 w' status -> status_stored w w' status.
Proof.
  intros Hx [(s & Hs & E)|(a & ns & n & Ha & E)]; [left; exists s|right; exists a, ns, n];
    (split; [by eapply happened_earlier|done]).
Qed.

(** The calls that leave the backend alone. *)
Definition same_backend (w0 w : World W recEvent) : Prop := ext w0 w /\ st w = st w0.
Lemma same_backend_event w0 w e : same_backend w0 w -> same_backend w0 (mkWorld (st w) (e :: hist w)).
Proof. intros [Hx Hs]. split; [|done]. etransitivity; [exact Hx|by eapply ext_cons]. Qed.
Lemma same_backend_refl w : same_backend w w.
Proof. split; [reflexivity|done]. Qed.
Lemma same_backend_trans w w1 w2 : same_backend w w1 -> same_backend w1 w2 -> same_backend w w2.
Proof. intros [X1 S1] [X2 S2]. split; [by etransitivity|congruence]. Qed.

Lemma call_same {A} w0 (ev : A -> recEvent) f : keeps (same_backend w0) (call ev f).
Proof. apply keeps_call. intros w r. apply same_backend_event. Qed.
Lemma streamName_same w0 : keeps (same_backend w0) streamName.
Proof. unfold streamName. repeat keeps_step. Qed.
#[local] Hint Resolve call_same streamName_same : keeps.

Lemma updateStatus_None old new w w' : updateStatus env old new w = (Ok None, w') ->
  same_backend w w' /\ (IsSubscriptionStatusEqual (Status old) (Status new) = true \/ happened w w' (RStatusUpdate new (inl tt))).
Proof.
  unfold updateStatus. destruct (IsSubscriptionStatusEqual _ _) eqn:E; intros H1.
  - injection H1 as <-. split; [apply same_backend_refl|by left].
  - unfold bindM, call in H1. cbn in H1. destruct (r_StatusUpdate env (hist w) new) as [[]|err]; injection H1; [|done].
    intros <-. split; [split; [by eexists [_; _]|done]|right]. eexists [_; _]. split; [reflexivity|]. right. by left.
Qed.

Lemma updateSubscriptionStatus_None sub w w' : updateSubscriptionStatus env sub w = (Ok None, w') ->
  same_backend w w' /\ status_stored w w' (Status sub).
Proof.
  unfold updateSubscriptionStatus. intros H1. apply bindM_Ok in H1 as (r & w1 & Hr & H1).
  unfold call in Hr. injection Hr as Hr <-. destruct r as [a|]; [|done]. rewrite Hr in H1.
  set (w1 := mkWorld (st w) _) in H1. assert (same_backend w w1) as S1 by apply same_backend_event, same_backend_refl.
  apply bindM_Ok in H1 as ([e|] & w2 & Hu & H1); [done|]. injection H1 as <-.
  apply updateStatus_None in Hu as [S2 Hs]. split; [by eapply same_backend_trans|].
  destruct Hs as [Hs|Hs].
  - right. eexists a, _, _. split; [|exact Hs]. eapply happened_later; [|apply S2]. by eapply happened_now.
  - left. eexists. split; [eapply happened_earlier; [apply S1|exact Hs]|done].
Qed.

Lemma syncSubscriptionStatus_None sub err w s w' : syncSubscriptionStatus env sub err w = (Ok (s, None), w') ->
  same_backend w w' /\ exists t, status_stored w w'
    (SetSubscriptionActiveCondition t (set_Ready (Status sub) (match err with None => true | Some _ => false end)) err).
Proof.
  unfold syncSubscriptionStatus. intros H1. apply bindM_Ok in H1 as (t & w1 & Ht & H1). injection Ht as <- <-.
  apply bindM_Ok in H1 as (e & w2 & Hu & H1). injection H1 as <- -> <-.
  apply updateSubscriptionStatus_None in Hu as [S Hs]. split; [done|]. eexists. exact Hs.
Qed.

Lemma backend_None ev (c : M W unit) w w' : backend ev c w = (Ok None, w') ->
  ext w w' /\ c (st w) = (Ok tt, st w').
Proof.
  unfold backend, bindM, errOf, inside, call. destruct (c (st w)) as [[[]|e|m] x] eqn:E; cbn; intros H1; [|done..].
  injection H1 as <-. split; [by eexists [_]|done].
Qed.

Lemma updateSubscriptionMetrics_same w0 current desired : keeps (same_backend w0) (updateSubscriptionMetrics current desired).
Proof. unfold updateSubscriptionMetrics. repeat first [apply call_same|keeps_step]. Qed.

(** The validation of a Subscription that passes it. *)
Lemma validateSubscription_Ok sub v w w' : validateSubscription env sub w = (Ok (v, None), w') ->
  same_backend w w' /\ Spec v = Spec sub /\ meta v = meta sub.
Proof.
  unfold validateSubscription. intros H1. apply bindM_Ok in H1 as (r & w1 & Hr & H1). unfold call in Hr.
  injection Hr as _ <-. apply bindM_Ok in H1 as (t & w2 & Ht & H1). injection Ht as <- <-.
  injection H1 as <- -> <-. split; [apply same_backend_event, same_backend_refl|done].
Qed.

Lemma GetCleanEventTypes_status sub st' : GetCleanEventTypes (set_Status sub st') cleaner = GetCleanEventTypes sub cleaner.
Proof. done. Qed.

Lemma syncEventTypes_types (x : W) sub sub' : syncEventTypes sha cleaner x sub = (sub', None) ->
  Types (Status sub') = nil_if_empty (GetCleanEventTypes sub cleaner).
Proof.
  unfold syncEventTypes. destruct (GetBackendJetStreamTypes _ _ _); [|done]. intros [= <-].
  destruct (bool_decide_reflect (Types (Status sub) = nil_if_empty (GetCleanEventTypes sub cleaner)));
    cbn; destruct (bool_decide _); cbn; done.
Qed.

(** What a completed reconciliation of an active Subscription has achieved. *)
Definition reconciled w w' sub : Prop :=
  exists d, be_serves (st w') d /\ Spec d = Spec sub /\ meta d = meta sub /\
    Types (Status d) = nil_if_empty (GetCleanEventTypes sub cleaner) /\
    exists t, status_stored w w' (SetSubscriptionActiveCondition t (set_Ready (Status d) true) None).

Lemma status_stored_later w w1 w' status : ext w1 w' -> status_stored w w1 status -> status_stored w w' status.
Proof.
  intros Hx [(s & Hs & E)|(a & ns & n & Ha & E)]; [left; exists s|right; exists a, ns, n];
    (split; [by eapply happened_later|done]).
Qed.

Lemma reconciled_around w0 w w' w1 sub : ext w0 w -> same_backend w' w1 -> reconciled w w' sub -> reconciled w0 w1 sub.
Proof.
  intros Hx [Hx' Hs] (d & Hd & E1 & E2 & E3 & t & Ht). exists d. rewrite Hs. split_and!; [done..|]. exists t.
  eapply status_stored_earlier; [exact Hx|]. by eapply status_stored_later.
Qed.

Lemma afterValidation_done sub s w w' : afterValidation env sha cleaner sub w = (Ok (s, inl None), w') ->
  ext w w' /\ reconciled w w' sub.
Proof.
  unfold afterValidation, gets, id. unfold bindM at 1. destruct (syncEventTypes sha cleaner (st w) sub) as [d [err|]] eqn:Es; intros E.
  { apply bindM_Ok in E as ([s1 e1] & w1 & _ & E). discriminate E. }
  apply bindM_Ok in E as ([err|] & w1 & Hb & E).
  - apply bindM_Ok in E as ([s1 [e1|]] & w2 & _ & E); [discriminate E|]. cbn [fst snd] in E.
    destruct (errors_Is _ _); discriminate E.
  - apply backend_None in Hb as [X1 Hc]. apply be_Sync_Ok in Hc.
    apply bindM_Ok in E as ([s1 e1] & w2 & Hs & E). cbn [fst snd] in E. destruct e1; [discriminate E|]. injection E as <- <-.
    apply syncSubscriptionStatus_None in Hs as ([X2 S2] & t & Ht).
    split; [by etransitivity|]. exists d. rewrite S2. pose proof (syncEventTypes_frame _ _ _ _ _ _ Es) as [Ef1 Ef2].
    split_and!; [done..|by eapply syncEventTypes_types|]. exists t. by eapply status_stored_earlier.
Qed.

Lemma handleDeletion_done sub w w' : containsFinalizer sub = true ->
  handleSubscriptionDeletion env sub w = (Ok (inl None), w') ->
  be_absent (st w') sub /\
  exists s r, happened w w' (RUpdate s (inl r)) /\ Spec s = Spec sub /\
    (forall f, f ∈ elems (Finalizers (meta s)) <-> f ∈ elems (Finalizers (meta sub)) /\ f <> Finalizer).
Proof.
  unfold containsFinalizer, handleSubscriptionDeletion. intros ->. cbn [negb]. intros E.
  apply bindM_Ok in E as ([err|] & w1 & Hb & E).
  { apply bindM_Ok in E as ([s [e|]] & w2 & _ & E); discriminate E. }
  apply backend_None in Hb as [X1 Hc]. apply be_Delete_Ok in Hc.
  apply bindM_Ok in E as (r & w2 & Hu & E). unfold call in Hu. injection Hu as Hu <-. destruct r as [stored|]; [|discriminate E].
  rewrite Hu in E. set (s := set_Finalizers sub _) in *. set (w2 := mkWorld (st w1) _) in E.
  apply bindM_Ok in E as ([] & w3 & Hl & E). injection E as <-.
  assert (same_backend w2 w3) as [X3 S3].
  { change w3 with (Ok tt, w3).2. rewrite <- Hl. apply keeps_forM; [|apply same_backend_refl]. intros t _.
    apply keeps_bind; [apply streamName_same|intros; apply call_same]. }
  rewrite S3. split; [exact Hc|]. exists s, stored. split; [|split; [done|]].
  - eapply happened_later; [|exact X3]. by eapply happened_now.
  - intros f. unfold s, set_Finalizers, RemoveString. cbn [meta Finalizers]. rewrite elems_nil_if_empty, RemoveString_elems_spec. done.
Qed.

End outcome.

(** ** The JetStream backend implements the interface and its contract *)
Section jetstream_backend.
Context (sha : string -> string) (pq : string -> Z + goerr) (jenv : JSEnv).

#[local] Instance JetStream_backend : JSBackend JSWorld := {
  be_SyncSubscription := SyncSubscription sha pq jenv;
  be_DeleteSubscription := DeleteSubscription sha pq jenv;
  be_DeleteSubscriptionsOnly := DeleteSubscriptionsOnly pq jenv;
  be_GetJetStreamSubjects := fun w source subjects tm =>
    GetJetStreamSubjects (jConfig (st w)) (jCleaner (st w)) source subjects tm;
  be_GetConfig := fun w => jConfig (st w)
}.

#[local] Instance JetStream_laws : JSBackendLaws JSWorld.
Proof.
  refine {|
    be_serves := fun w sub =>
      sinks (st w) !! createKeyPrefix sub = Some (Sink (Spec sub)) /\
      forall t, t ∈ statusTypes sub -> is_Some (subscriptions (st w) !! keyOf sha (st w) sub t);
    be_absent := fun w sub => forall key, is_mine key sub -> subscriptions (st w) !! key = None |}.
  - intros sub w w' Hs. apply SyncSubscription_Ok in Hs as (L & Hsink & Hall & _). split; [done|].
    intros t Hin. destruct (Hall t Hin) as [(s & Hk & _) _]. rewrite (keyOf_static _ _ _ _ _ (proj2 L)). by eexists.
  - intros sub w w' Hs. apply DeleteSubscription_Ok in Hs as [Hn _]. exact Hn.
  - intros sub w w' Hs. exact (DeleteSubscriptionsOnly_Ok _ _ _ _ _ Hs).
Defined.
End jetstream_backend.

(** ** A concrete reconciliation *)
Definition example_active : Subscription := set_Finalizers example_subscription (Some [Finalizer]).
Definition example_recenv : RecEnv := {|
  r_now := fun _ => 0%Z; r_Get := fun _ _ _ => inl example_active; r_List := fun _ => inl [example_active];
  r_Update := fun _ s => inl s; r_StatusUpdate := fun _ _ => inl tt; r_Validate := fun _ _ => None |}.
Definition example_sha (s : string) : string := s.
Definition example_pq (_ : string) : Z + goerr := inl (-1)%Z.

#[local] Existing Instance JetStream_backend.
Definition example_run : outcome Result * World JSWorld recEvent :=
  @Reconcile JSWorld (JetStream_backend example_sha example_pq connected_env) example_recenv example_sha JetStreamCleaner
    "ns" "s" (mkWorld fresh_backend []).

