(* ===== verification/Metrics.v ===== *)
(** * Metrics: [pkg/backend/metrics/collector.go]

    The vectors are Prometheus': a class for each kind, with the operations that the collector uses, and a class
    of laws with what the documentation of the library says of a gauge.  A metric with labels
    panics unless the labels are those of its vector: [None]. *)

From S2P Require Import Prelude.
From stdpp Require Import pretty.

Abbreviation labels := (gmap string string).

(** ** Vectors *)
Class GaugeVec (G : Type) := {
  gv_new : list string -> G;
  gv_names : G -> list string;
  gv_set : labels -> Z -> G -> G;
  gv_delete : labels -> G -> G;
  gv_reset : G -> G;
  gv_value : G -> labels -> option Z
}.
Class CounterVec (C : Type) := { cv_new : list string -> C; cv_names : C -> list string; cv_inc : labels -> C -> C }.
(** The buckets are given in milliseconds, observations in nanoseconds. *)
Class HistogramVec (H : Type) := {
  hv_new : list Z -> list string -> H; hv_names : H -> list string; hv_observe : labels -> Z -> H -> H }.

(** A gauge exists from its first value until it is deleted. *)
Class GaugeVecLaws (G : Type) `{GaugeVec G} := {
  gv_names_new : forall names, gv_names (gv_new names) = names;
  gv_names_set : forall l v g, gv_names (gv_set l v g) = gv_names g;
  gv_names_delete : forall l g, gv_names (gv_delete l g) = gv_names g;
  gv_names_reset : forall g, gv_names (gv_reset g) = gv_names g;
  gv_value_new : forall names l, gv_value (gv_new names) l = None;
  gv_value_set : forall l v g l', gv_value (gv_set l v g) l' = if decide (l = l') then Some v else gv_value g l';
  gv_value_delete : forall l g l', gv_value (gv_delete l g) l' = if decide (l = l') then None else gv_value g l';
  gv_value_reset : forall g l, gv_value (gv_reset g) l = None
}.

(** [WithLabelValues] and [With]: the labels of a metric. *)
Definition withLabelValues (names values : list string) : option labels :=
  if (length names =? length values)%nat then Some (list_to_map (zip names values)) else None.
Definition withLabels (names : list string) (l : labels) : option labels :=
  if bool_decide (dom l = list_to_set names) then Some l else None.

(** ** Names *)
Definition healthMetricKey := "eventing_ec_health".
Definition latencyMetricKey := "eventing_ec_nats_subscriber_dispatch_duration_seconds".
Definition deliveryMetricKey := "eventing_ec_nats_delivery_per_subscription_total".
Definition eventTypeSubscribedMetricKey := "eventing_ec_event_type_subscribed_total".
Definition subscriptionStatusMetricKey := "eventing_ec_subscription_status".

Definition subscriptionNameLabel := "subscription_name".
Definition eventTypeLabel := "event_type".
Definition sinkLabel := "sink".
Definition responseCodeLabel := "response_code".
Definition subscriptionNamespaceLabel := "subscription_namespace".
Definition consumerNameLabel := "consumer_name".
Definition backendTypeLabel := "eventing_backend".
Definition streamNameLabel := "stream_name".

(** ** The collector *)
Record Collector {G C H : Type} := mkCollector {
  deliveryPerSubscription : C;
  eventTypes : C;
  latencyPerSubscriber : H;
  health : G;
  subscriptionStatus : G
}.
Arguments Collector : clear implicits.
Arguments mkCollector {G C H}.

(** The arguments of the functions, in the order of the labels of the vectors. *)
Definition deliveryLabels : list string :=
  [subscriptionNameLabel; subscriptionNamespaceLabel; eventTypeLabel; sinkLabel; responseCodeLabel; consumerNameLabel].
Definition eventTypeLabels : list string := [subscriptionNameLabel; subscriptionNamespaceLabel; eventTypeLabel; consumerNameLabel].
Definition statusLabelNames : list string :=
  [subscriptionNameLabel; subscriptionNamespaceLabel; consumerNameLabel; backendTypeLabel; streamNameLabel].

Definition statusLabels (subscriptionName subscriptionNamespace backendType consumer streamName : string) : labels :=
  <[subscriptionNameLabel := subscriptionName]> (<[subscriptionNamespaceLabel := subscriptionNamespace]>
    (<[consumerNameLabel := consumer]> (<[backendTypeLabel := backendType]> {[streamNameLabel := streamName]}))).

Section collector.
Context {G C H : Type} `{GaugeVec G, CounterVec C, HistogramVec H}.
Abbreviation Collector := (Collector G C H).

(** [prometheus.ExponentialBuckets(0.002, 2, 10)]. *)
Definition latencyBuckets : list Z := (fun i => 2 * 2 ^ Z.of_nat i)%Z <$> seq 0 10.

Definition NewCollector : Collector :=
  mkCollector (cv_new deliveryLabels) (cv_new eventTypeLabels) (hv_new latencyBuckets deliveryLabels) (gv_new []) (gv_new statusLabelNames).

Definition on_delivery (f : C -> C) (c : Collector) : Collector :=
  mkCollector (f (deliveryPerSubscription c)) (eventTypes c) (latencyPerSubscriber c) (health c) (subscriptionStatus c).
Definition on_eventTypes (f : C -> C) (c : Collector) : Collector :=
  mkCollector (deliveryPerSubscription c) (f (eventTypes c)) (latencyPerSubscriber c) (health c) (subscriptionStatus c).
Definition on_latency (f : H -> H) (c : Collector) : Collector :=
  mkCollector (deliveryPerSubscription c) (eventTypes c) (f (latencyPerSubscriber c)) (health c) (subscriptionStatus c).
Definition on_health (f : G -> G) (c : Collector) : Collector :=
  mkCollector (deliveryPerSubscription c) (eventTypes c) (latencyPerSubscriber c) (f (health c)) (subscriptionStatus c).
Definition on_status (f : G -> G) (c : Collector) : Collector :=
  mkCollector (deliveryPerSubscription c) (eventTypes c) (latencyPerSubscriber c) (health c) (f (subscriptionStatus c)).

(** [RegisterMetrics] in a registry with the metrics [registered]; a second registration panics. *)
Definition MustRegister (registered : list string) (key : string) : option (list string) :=
  if bool_decide (key ∈ registered) then None else Some (registered ++ [key])%list.
Definition RegisterMetrics (registered : list string) (c : Collector) : option (list string * Collector) :=
  registered ← MustRegister registered deliveryMetricKey;
  registered ← MustRegister registered eventTypeSubscribedMetricKey;
  registered ← MustRegister registered latencyMetricKey;
  registered ← MustRegister registered healthMetricKey;
  registered ← MustRegister registered subscriptionStatusMetricKey;
  l ← withLabelValues (gv_names (health c)) [];
  Some (registered, on_health (gv_set l 1) c).

(** The labels of a delivery: the sink and the code come before the consumer. *)
Definition RecordDeliveryPerSubscription (subscriptionName subscriptionNamespace eventType consumerName sink : string)
    (statusCode : Z) (c : Collector) : option Collector :=
  l ← withLabelValues (cv_names (deliveryPerSubscription c))
        [subscriptionName; subscriptionNamespace; eventType; sink; pretty statusCode; consumerName];
  Some (on_delivery (cv_inc l) c).
Definition RecordLatencyPerSubscription (duration : Z) (subscriptionName subscriptionNamespace eventType consumerName sink : string)
    (statusCode : Z) (c : Collector) : option Collector :=
  l ← withLabelValues (hv_names (latencyPerSubscriber c))
        [subscriptionName; subscriptionNamespace; eventType; sink; pretty statusCode; consumerName];
  Some (on_latency (hv_observe l duration) c).
Definition RecordEventTypes (subscriptionName subscriptionNamespace eventType consumer : string) (c : Collector) : option Collector :=
  l ← withLabelValues (cv_names (eventTypes c)) [subscriptionName; subscriptionNamespace; eventType; consumer];
  Some (on_eventTypes (cv_inc l) c).

Definition RecordSubscriptionStatus (isActive : bool)
    (subscriptionName subscriptionNamespace backendType consumer streamName : string) (c : Collector) : option Collector :=
  let metricValue := if isActive then 1%Z else 0%Z in
  l ← withLabels (gv_names (subscriptionStatus c)) (statusLabels subscriptionName subscriptionNamespace backendType consumer streamName);
  Some (on_status (gv_set l metricValue) c).
(** [Delete] of labels that are not those of the vector does nothing. *)
Definition RemoveSubscriptionStatus (subscriptionName subscriptionNamespace backendType consumer streamName : string) (c : Collector) : Collector :=
  match withLabels (gv_names (subscriptionStatus c)) (statusLabels subscriptionName subscriptionNamespace backendType consumer streamName) with
  | Some l => on_status (gv_delete l) c
  | None => c
  end.
Definition ResetSubscriptionStatus (c : Collector) : Collector := on_status gv_reset c.
End collector.

(** ** What the status gauges say *)
Section status.
Context {G C H : Type} `{GaugeVecLaws G, CounterVec C, HistogramVec H}.
Implicit Types (c : Collector G C H).

Definition status_of c (name namespace backendType consumer stream : string) : option Z :=
  gv_value (subscriptionStatus c) (statusLabels name namespace backendType consumer stream).
Definition status_labelled c : Prop := gv_names (subscriptionStatus c) = statusLabelNames.

Lemma NewCollector_labelled : status_labelled NewCollector.
Proof. apply gv_names_new. Qed.

Lemma statusLabels_inj n ns b s t n' ns' b' s' t' : statusLabels n ns b s t = statusLabels n' ns' b' s' t' ->
  n = n' /\ ns = ns' /\ b = b' /\ s = s' /\ t = t'.
Proof.
  intros E. assert (forall k, statusLabels n ns b s t !! k = statusLabels n' ns' b' s' t' !! k) as Hk by (by rewrite E).
  pose proof (Hk subscriptionNameLabel) as E1. pose proof (Hk subscriptionNamespaceLabel) as E2. pose proof (Hk backendTypeLabel) as E3.
  pose proof (Hk consumerNameLabel) as E4. pose proof (Hk streamNameLabel) as E5. unfold statusLabels in E1, E2, E3, E4, E5.
  simplify_map_eq. done.
Qed.

Lemma withLabels_status n ns b s t : withLabels statusLabelNames (statusLabels n ns b s t) = Some (statusLabels n ns b s t).
Proof.
  unfold withLabels, statusLabels. rewrite bool_decide_true; [done|]. rewrite !dom_insert_L, dom_singleton_L. by vm_compute.
Qed.

Lemma RecordSubscriptionStatus_labelled active n ns b s t c : status_labelled c -> exists c',
  RecordSubscriptionStatus active n ns b s t c = Some c' /\ status_labelled c' /\
  forall l, gv_value (subscriptionStatus c') l =
    if decide (statusLabels n ns b s t = l) then Some (if active then 1%Z else 0%Z) else gv_value (subscriptionStatus c) l.
Proof.
  intros Hc. unfold RecordSubscriptionStatus. rewrite Hc, withLabels_status. eexists. split; [done|]. split.
  - unfold status_labelled. cbn. by rewrite gv_names_set.
  - intros l. cbn. apply gv_value_set.
Qed.
Lemma RemoveSubscriptionStatus_labelled n ns b s t c : status_labelled c ->
  let c' := RemoveSubscriptionStatus n ns b s t c in status_labelled c' /\
  forall l, gv_value (subscriptionStatus c') l =
    if decide (statusLabels n ns b s t = l) then None else gv_value (subscriptionStatus c) l.
Proof.
  intros Hc. unfold RemoveSubscriptionStatus. rewrite Hc, withLabels_status. split.
  - unfold status_labelled. cbn. by rewrite gv_names_delete.
  - intros l. cbn. apply gv_value_delete.
Qed.
Lemma ResetSubscriptionStatus_labelled c : status_labelled c -> status_labelled (ResetSubscriptionStatus c) /\
  forall l, gv_value (subscriptionStatus (ResetSubscriptionStatus c)) l = None.
Proof. intros Hc. split; [unfold status_labelled; cbn; by rewrite gv_names_reset|]. intros l. cbn. apply gv_value_reset. Qed.
End status.

(** ** Vectors as maps *)
#[export] Instance map_gauges : GaugeVec (list string * gmap labels Z) := {|
  gv_new names := (names, ∅); gv_names := fst; gv_set l v g := (g.1, <[l := v]> g.2); gv_delete l g := (g.1, delete l g.2);
  gv_reset g := (g.1, ∅); gv_value g l := g.2 !! l |}.
#[export] Instance map_gauges_laws : GaugeVecLaws (list string * gmap labels Z).
Proof.
  split; try done; intros; cbn.
  - destruct (decide (l = l')) as [->|]; [apply lookup_insert_eq|by apply lookup_insert_ne].
  - destruct (decide (l = l')) as [->|]; [apply lookup_delete_eq|by apply lookup_delete_ne].
Qed.
#[export] Instance map_counters : CounterVec (list string * gmap labels nat) := {|
  cv_new names := (names, ∅); cv_names := fst; cv_inc l c := (c.1, <[l := S (default 0 (c.2 !! l))]> c.2) |}.
#[export] Instance map_histograms : HistogramVec (list string * gmap labels (list Z)) := {|
  hv_new _ names := (names, ∅); hv_names := fst; hv_observe l v h := (h.1, <[l := v :: default [] (h.2 !! l)]> h.2) |}.
Abbreviation MapCollector := (Collector (list string * gmap labels Z) (list string * gmap labels nat) (list string * gmap labels (list Z))).

Example registered_twice : (RegisterMetrics [] (NewCollector : MapCollector) ≫= fun r => RegisterMetrics r.1 r.2) = None.
Proof. vm_compute. done. Qed.
Example healthy_when_registered :
  (fun r => gv_value (health r.2) ∅) <$> RegisterMetrics [] (NewCollector : MapCollector) = Some (Some 1%Z).
Proof. vm_compute. done. Qed.
Example delivery_labels :
  (fun c => snd (deliveryPerSubscription c) !! (list_to_map (zip deliveryLabels ["s"; "ns"; "order.created"; "http://sink"; "204"; "c1"]) : labels))
    <$> RecordDeliveryPerSubscription "s" "ns" "order.created" "c1" "http://sink" 204 (NewCollector : MapCollector) = Some (Some 1).
Proof. vm_compute. done. Qed.
