(* ===== verification/JSMetrics.v ===== *)
(** * The metrics of a JetStream Subscription

    The calls of the collector in the log of a reconciliation, replayed on a collector; and what the status
    gauges say of a Subscription after it. *)

From S2P Require Import Prelude Effects GoStrings Errors Utils Subscription EventTypes Config JetStreamUtils JetStream JetStreamFacts Metrics Validator JSReconciler JSReconcilerFacts.

Definition backendType := "NATS_Jetstream".

(** A backend whose configuration stays what it is. *)
Class ConstantConfig (W : Type) `{JSBackend W} := {
  be_Sync_config : forall sub w, be_GetConfig (be_SyncSubscription sub w).2 = be_GetConfig w;
  be_Delete_config : forall sub w, be_GetConfig (be_DeleteSubscription sub w).2 = be_GetConfig w;
  be_DeleteOnly_config : forall sub w, be_GetConfig (be_DeleteSubscriptionsOnly sub w).2 = be_GetConfig w
}.

Section metrics.
Context {G C H : Type} `{GaugeVec G, GL : !GaugeVecLaws G, CounterVec C, HistogramVec H}.
Abbreviation Collector := (Collector G C H).

(** ** Replay *)
Definition record (e : recEvent) (c : Collector) : option Collector :=
  match e with
  | RRecordStatus ready name namespace consumer stream => RecordSubscriptionStatus ready name namespace backendType consumer stream c
  | RRemoveStatus name namespace consumer stream => Some (RemoveSubscriptionStatus name namespace backendType consumer stream c)
  | _ => Some c
  end.
Definition replay (c : Collector) (h : list recEvent) : option Collector := foldr (fun e oc => oc ≫= record e) (Some c) h.

Lemma replay_cons c e h : replay c (e :: h) = replay c h ≫= record e.
Proof using Type. done. Qed.

(** The gauges of a Subscription are those of the consumers in its status, with its readiness. *)
Definition consumers (sub : Subscription) : list string := jsConsumerName <$> backendTypes sub.
Definition exposed (sub : Subscription) (consumer : string) : option Z :=
  if decide (consumer ∈ consumers sub) then Some (if Ready (Status sub) then 1%Z else 0%Z) else None.
Definition gauge (stream : string) (sub : Subscription) (c : Collector) (consumer : string) : option Z :=
  status_of c (Name (meta sub)) (Namespace (meta sub)) backendType consumer stream.
Definition exposes (stream : string) (sub : Subscription) (c : Collector) : Prop :=
  forall consumer, gauge stream sub c consumer = exposed sub consumer.

(** The gauges of other Subscriptions. *)
Definition gauges_kept (sub : Subscription) (c c' : Collector) : Prop :=
  forall l, l !! subscriptionNameLabel <> Some (Name (meta sub)) \/ l !! subscriptionNamespaceLabel <> Some (Namespace (meta sub)) ->
  gv_value (subscriptionStatus c') l = gv_value (subscriptionStatus c) l.

(** ** What the calls of the collector add up to *)
Definition removed (stream : string) sub (l : list string) (c : Collector) : Collector :=
  foldl (fun c consumer => RemoveSubscriptionStatus (Name (meta sub)) (Namespace (meta sub)) backendType consumer stream c) c l.

Lemma removed_spec stream sub l c : status_labelled c ->
  status_labelled (removed stream sub l c) /\ gauges_kept sub c (removed stream sub l c) /\
  forall consumer, gauge stream sub (removed stream sub l c) consumer = if decide (consumer ∈ l) then None else gauge stream sub c consumer.
Proof.
  revert c. induction l as [|x l IH]; intros c Hc; [split_and!; [done|by intros ?|]; intros consumer; by rewrite decide_False by set_solver|].
  destruct (RemoveSubscriptionStatus_labelled (Name (meta sub)) (Namespace (meta sub)) backendType x stream c Hc) as [Hc' Hv].
  cbn [removed foldl]. destruct (IH _ Hc') as (Hl & Ho & Hg). split_and!; [done| |].
  - intros lb Hlb. unfold removed in Ho. rewrite (Ho lb Hlb), Hv. rewrite decide_False; [done|]. intros <-.
    unfold statusLabels in Hlb. simplify_map_eq. naive_solver.
  - intros consumer. unfold removed in Hg. rewrite Hg. unfold gauge, status_of. rewrite Hv.
    destruct (decide (consumer ∈ l)) as [Hin|Hin]; [by rewrite decide_True by (by constructor)|].
    destruct (decide (consumer = x)) as [->|Hne]; [by rewrite !decide_True by (done || constructor)|].
    rewrite !decide_False; [done|by intros [|]%elem_of_cons|by intros (_ & _ & _ & ? & _)%statusLabels_inj].
Qed.

Definition recorded (stream : string) (ready : bool) sub (l : list string) (c : Collector) : option Collector :=
  foldl (fun oc consumer => oc ≫= RecordSubscriptionStatus ready (Name (meta sub)) (Namespace (meta sub)) backendType consumer stream) (Some c) l.

Lemma recorded_spec stream ready sub l c : status_labelled c -> exists c',
  recorded stream ready sub l c = Some c' /\ status_labelled c' /\ gauges_kept sub c c' /\
  forall consumer, gauge stream sub c' consumer =
    if decide (consumer ∈ l) then Some (if ready then 1%Z else 0%Z) else gauge stream sub c consumer.
Proof.
  revert c. induction l as [|x l IH]; intros c Hc.
  { exists c. split_and!; [done|done|by intros ?|]. intros consumer. by rewrite decide_False by (by intros ?%not_elem_of_nil). }
  destruct (RecordSubscriptionStatus_labelled ready (Name (meta sub)) (Namespace (meta sub)) backendType x stream c Hc) as (c1 & E1 & Hc1 & Hv).
  destruct (IH _ Hc1) as (c2 & E2 & Hl & Ho & Hg). exists c2. split_and!; [|done| |].
  - unfold recorded. cbn [foldl]. rewrite <- E2. cbn. by rewrite E1.
  - intros lb Hlb. rewrite (Ho lb Hlb), Hv. rewrite decide_False; [done|]. intros <-.
    unfold statusLabels in Hlb. simplify_map_eq. naive_solver.
  - intros consumer. rewrite Hg. unfold gauge, status_of. rewrite Hv.
    destruct (decide (consumer ∈ l)) as [Hin|Hin]; [by rewrite decide_True by (by constructor)|].
    destruct (decide (consumer = x)) as [->|Hne]; [by rewrite !decide_True by (done || constructor)|].
    rewrite !decide_False; [done|by intros [|]%elem_of_cons|by intros (_ & _ & _ & ? & _)%statusLabels_inj].
Qed.

Context {W : Type} `{JSBackend W, !ConstantConfig W} (env : RecEnv) (sha : string -> string) (cleaner : Cleaner).
Implicit Types (w : World W recEvent) (sub : Subscription).

Definition stream_of w : string := JSStreamName (be_GetConfig (st w)).

(** ** Runs *)
Definition succeeded (o : Result) : bool := match o with inl None => true | _ => false end.

Section runs.
Context (c0 : Collector) (stream : string).

(** The log adds up to [c], and the backend has the stream [stream]. *)
Definition adds_up (c : Collector) w : Prop := replay c0 (hist w) = Some c /\ stream_of w = stream.

Lemma call_quiet {A} c (ev : A -> recEvent) f : (forall r, record (ev r) c = Some c) -> keeps (adds_up c) (call ev f).
Proof using Type. intros Hr. apply keeps_call. intros w r [Hw Hs]. split; [|done]. cbn [hist]. rewrite replay_cons, Hw. apply Hr. Qed.

Lemma backend_quiet c ev (m : M W unit) : (forall r c, record (ev r) c = Some c) ->
  (forall x, be_GetConfig (m x).2 = be_GetConfig x) -> keeps (adds_up c) (backend ev m).
Proof using Type.
  intros Hr Hm. unfold backend. apply keeps_bind; [|intros r; apply call_quiet; intros; apply Hr].
  intros w [Hw Hs]. unfold errOf, inside. pose proof (Hm (st w)) as Hc. destruct (m (st w)) as [[[]|e|p] x]; cbn in *;
    (split; [done|]); unfold stream_of in *; cbn; by rewrite Hc.
Qed.
Lemma now_quiet c : keeps (adds_up c) (now env).
Proof using Type. by intros w Hw. Qed.
#[local] Hint Resolve now_quiet : keeps.

Ltac quiet := repeat first [apply call_quiet; by intros|apply backend_quiet; [by intros|intros; first [apply be_Sync_config|apply be_Delete_config|apply be_DeleteOnly_config]]|keeps_step].

Lemma updateSubscriptionStatus_quiet c sub : keeps (adds_up c) (updateSubscriptionStatus env sub).
Proof using Type. unfold updateSubscriptionStatus, updateStatus. quiet. Qed.
Lemma syncSubscriptionStatus_quiet c sub err : keeps (adds_up c) (syncSubscriptionStatus env sub err).
Proof using Type. unfold syncSubscriptionStatus. keeps_step; [apply now_quiet|]. keeps_step; [|apply keeps_ret]. apply updateSubscriptionStatus_quiet. Qed.
#[local] Hint Resolve updateSubscriptionStatus_quiet syncSubscriptionStatus_quiet : keeps.
Lemma reconcileActive_quiet c sub : keeps (adds_up c) (reconcileActive env sha cleaner sub).
Proof using ConstantConfig0.
  unfold reconcileActive, addFinalizer, validateSubscription, afterInvalid, afterValidation. quiet.
Qed.

(** ** The loops over the consumers *)
Lemma removal_run {A} sub (keep : A -> bool) (consumer : A -> string) l c w : adds_up c w ->
  exists w', forM_ l (fun t => if keep t then retM tt else
      stream <- streamName ;;
      call (fun _ => RRemoveStatus (Name (meta sub)) (Namespace (meta sub)) (consumer t) stream) (fun _ => tt)) w = (Ok tt, w') /\
    st w' = st w /\ adds_up (removed stream sub (consumer <$> filter (fun t => keep t = false) l) c) w'.
Proof using Type.
  revert c w. induction l as [|t l IH]; intros c w Hw; [by exists w|]. cbn [forM_]. unfold bindM at 1. destruct (keep t) eqn:Hk.
  - cbn [retM]. destruct (IH c w Hw) as (w' & E & Hs & Ha). exists w'. split; [exact E|]. split; [done|].
    rewrite filter_cons_False by congruence. exact Ha.
  - destruct Hw as [Hw Hst]. unfold streamName, gets, id, bindM at 1, bindM at 1, retM at 1, call. cbn [st hist fst].
    fold (stream_of w). rewrite Hst.
    destruct (IH (RemoveSubscriptionStatus (Name (meta sub)) (Namespace (meta sub)) backendType (consumer t) stream c)
      (mkWorld (st w) (RRemoveStatus (Name (meta sub)) (Namespace (meta sub)) (consumer t) stream :: hist w))) as (w' & E & Hs & Ha).
    { split; [|done]. cbn [hist]. by rewrite replay_cons, Hw. }
    exists w'. split; [exact E|]. split; [done|]. rewrite filter_cons_True by done. exact Ha.
Qed.

Lemma recording_run {A} sub ready (consumer : A -> string) l c c' w : adds_up c w ->
  recorded stream ready sub (consumer <$> l) c = Some c' ->
  exists w', forM_ l (fun t => stream <- streamName ;;
      call (fun _ => RRecordStatus ready (Name (meta sub)) (Namespace (meta sub)) (consumer t) stream) (fun _ => tt)) w = (Ok tt, w') /\
    st w' = st w /\ adds_up c' w'.
Proof using Type.
  revert c w. induction l as [|t l IH]; intros c w Hw Hc; [exists w; by injection Hc as <-|]. cbn [forM_]. unfold bindM at 1.
  destruct Hw as [Hw Hst]. unfold streamName, gets, id, bindM at 1, bindM at 1, retM at 1, call. cbn [st hist fst].
  fold (stream_of w). rewrite Hst. unfold recorded in Hc. cbn [fmap list_fmap foldl] in Hc.
  cbn in Hc. destruct (RecordSubscriptionStatus ready (Name (meta sub)) (Namespace (meta sub)) backendType (consumer t) stream c) as [c1|] eqn:E1.
  2: { exfalso. revert Hc. clear. induction (consumer <$> l) as [|x k IH]; [done|]. exact IH. }
  destruct (IH c1 (mkWorld (st w) (RRecordStatus ready (Name (meta sub)) (Namespace (meta sub)) (consumer t) stream :: hist w))) as (w' & E & Hs & Ha);
    [|exact Hc|by exists w'].
  split; [|done]. cbn [hist]. by rewrite replay_cons, Hw.
Qed.

Lemma updateSubscriptionMetrics_run current desired c w :
  adds_up c w -> status_labelled c -> exposes stream current c ->
  Name (meta desired) = Name (meta current) -> Namespace (meta desired) = Namespace (meta current) ->
  exists c' w', updateSubscriptionMetrics current desired w = (Ok tt, w') /\ st w' = st w /\ adds_up c' w' /\
    status_labelled c' /\ gauges_kept current c c' /\ exposes stream desired c'.
Proof using Type*.
  intros Hw Hc He Hn Hns. unfold updateSubscriptionMetrics.
  set (keep := fun t => existsb (fun dc => String.eqb (jsConsumerName t) (jsConsumerName dc)) (backendTypes desired)).
  destruct (removal_run current keep jsConsumerName (backendTypes current) c w Hw) as (w1 & E1 & S1 & A1).
  set (gone := jsConsumerName <$> filter (fun t => keep t = false) (backendTypes current)) in A1.
  destruct (removed_spec stream current gone c Hc) as (L1 & O1 & V1). set (c1 := removed stream current gone c) in *.
  destruct (recorded_spec stream (Ready (Status desired)) desired (jsConsumerName <$> backendTypes desired) c1 L1) as (c2 & E2 & L2 & O2 & V2).
  destruct (recording_run desired (Ready (Status desired)) jsConsumerName (backendTypes desired) c1 c2 w1 A1 E2) as (w2 & E3 & S2 & A2).
  exists c2, w2. split; [cbv beta delta [keep] in E1; unfold bindM at 1; by rewrite E1|]. split_and!; [congruence|done|done| |].
  - intros l Hl. rewrite O2, O1; [done|done|by rewrite Hn, Hns].
  - intros consumer. rewrite V2. unfold exposed, consumers. destruct (decide _) as [Hin|Hin]; [done|].
    unfold gauge in V1 |- *. rewrite Hn, Hns, V1. destruct (decide (consumer ∈ gone)) as [|Hg]; [done|].
    specialize (He consumer). unfold gauge in He. rewrite He. unfold exposed. rewrite decide_False; [done|]. intros Hcur. apply Hg.
    apply list_elem_of_fmap in Hcur as (t & -> & Ht). apply list_elem_of_fmap. exists t. split; [done|].
    apply list_elem_of_filter. split; [|done]. unfold keep. apply not_true_iff_false. intros (dc & Hdc & Heq%String.eqb_eq)%existsb_exists.
    apply Hin, list_elem_of_fmap. exists dc. split; [done|by apply list_elem_of_In].
Qed.

Lemma handleDeletion_run sub c w o w' : adds_up c w -> status_labelled c -> exposes stream sub c ->
  (forall h s s', r_Update env h s = inl s' -> Name (meta s') = Name (meta s) /\ Namespace (meta s') = Namespace (meta s)) ->
  handleSubscriptionDeletion env sub w = (Ok o, w') ->
  exists c', adds_up c' w' /\ status_labelled c' /\ gauges_kept sub c c' /\
    (if succeeded o && containsFinalizer sub then forall consumer, gauge stream sub c' consumer = None else exposes stream sub c').
Proof using ConstantConfig0 GL.
  intros Hw Hc He Hu. unfold handleSubscriptionDeletion. change (ContainsString _ _) with (containsFinalizer sub).
  destruct (containsFinalizer sub) eqn:Hf; cbn [negb].
  2: { intros [= <- <-]. by exists c. }
  intros E. apply bindM_Ok in E as (err & w1 & Hb & E).
  assert (adds_up c w1) as Hw1.
  { change w1 with (Ok err, w1).2. rewrite <- Hb. apply backend_quiet; [done|intros; apply be_Delete_config|done]. }
  destruct err as [err|].
  { apply bindM_Ok in E as ([s e] & w2 & Hs & E). exists c.
    assert (w' = w2 /\ succeeded o = false) as [-> ->] by (by destruct e; injection E as <- <-). split_and!; [|done|done|done].
    change w2 with (Ok (s, e), w2).2. rewrite <- Hs. by apply syncSubscriptionStatus_quiet. }
  apply bindM_Ok in E as (r & w2 & Hup & E). unfold call in Hup. injection Hup as Hr <-.
  set (fsub := set_Finalizers _ _) in *. rewrite Hr in E. destruct r as [stored|err].
  2: { injection E as <- <-. exists c. split_and!; [|done|done|done].
       destruct Hw1 as [Hw1 Hs1]. split; [|done]. cbn [hist]. by rewrite replay_cons, Hw1. }
  apply Hu in Hr as [Hn Hns]. cbn in Hn, Hns.
  destruct (removal_run stored (fun _ => false) jsConsumerName (backendTypes sub) c
    (mkWorld (st w1) (RUpdate fsub (inl stored) :: hist w1))) as (w3 & E3 & S3 & A3).
  { destruct Hw1 as [Hw1 Hs1]. split; [|done]. cbn [hist]. by rewrite replay_cons, Hw1. }
  unfold bindM at 1 in E. cbv beta in E3. rewrite E3 in E. injection E as <- <-.
  destruct (removed_spec stream stored (jsConsumerName <$> filter (fun t => false = false) (backendTypes sub)) c Hc) as (L & O & V).
  eexists. split; [exact A3|]. split_and!; [done| |].
  - intros l Hl. apply O. by rewrite Hn, Hns.
  - cbn. intros consumer. specialize (V consumer). unfold gauge in V. rewrite Hn, Hns in V. unfold gauge. rewrite V.
    destruct (decide _) as [|Hnin]; [done|]. specialize (He consumer). unfold gauge in He. rewrite He. unfold exposed.
    rewrite decide_False; [done|]. intros Hin. apply Hnin. unfold consumers in Hin. apply list_elem_of_fmap in Hin as (t & -> & Ht).
    apply list_elem_of_fmap. exists t. split; [done|]. by apply list_elem_of_filter.
Qed.
End runs.

(** ** The status that the API server has *)
Lemma reconcileActive_stored sub d t w w' : reconcileActive env sha cleaner sub w = (Ok (d, inl t), w') ->
  containsFinalizer sub = true -> status_stored w w' (Status d).
Proof using Type.
  unfold reconcileActive. intros E Hf. rewrite Hf in E. cbn [negb] in E. apply bindM_Ok in E as ([v [verr|]] & w1 & Hv & E); cbn [fst snd] in E.
  { unfold afterInvalid in E. apply bindM_Ok in E as ([e|] & w2 & _ & E); [discriminate E|].
    apply bindM_Ok in E as ([e|] & w3 & _ & E); [|discriminate E]. discriminate E. }
  apply validateSubscription_Ok in Hv as ([X1 _] & _ & _). eapply status_stored_earlier; [exact X1|].
  unfold afterValidation, gets, id, bindM at 1 in E. destruct (syncEventTypes sha cleaner (st w1) v) as [v' [err|]].
  { apply bindM_Ok in E as ([s e] & w2 & _ & E). discriminate E. }
  apply bindM_Ok in E as (r & w2 & Hb & E).
  assert (ext w1 w2) as X2.
  { unfold backend in Hb. apply bindM_Ok in Hb as (r' & w3 & Hi & Hb). unfold call in Hb. injection Hb as <- <-.
    unfold errOf, inside in Hi. destruct (be_SyncSubscription v' (st w1)) as [[[]|e|m] x]; [..|done]; injection Hi as _ <-; by eexists [_]. }
  eapply status_stored_earlier; [exact X2|].
  assert (exists err s, syncSubscriptionStatus env v' err w2 = (Ok (s, None), w') /\ d = s) as (err & s & Hs & ->).
  { destruct r as [err|]; apply bindM_Ok in E as ([s e] & w3 & Hs & E); cbn [fst snd] in E.
    - destruct e; [discriminate E|]. exists (Some err), s. destruct (errors_Is _ _); [|discriminate E]. by injection E as <- _ <-.
    - destruct e; [discriminate E|]. exists None, s. by injection E as <- _ <-. }
  unfold syncSubscriptionStatus in Hs. apply bindM_Ok in Hs as (t0 & w3 & Ht & Hs). injection Ht as <- <-.
  apply bindM_Ok in Hs as (e & w4 & Hu & Hs). injection Hs as <- -> <-. by apply updateSubscriptionStatus_None in Hu as [_ Hu].
Qed.

Lemma syncSubscriptionStatus_meta sub err s e w w' : syncSubscriptionStatus env sub err w = (Ok (s, e), w') -> meta s = meta sub.
Proof using Type.
  unfold syncSubscriptionStatus. intros E. apply bindM_Ok in E as (t & w1 & _ & E). apply bindM_Ok in E as (e' & w2 & _ & E).
  by injection E as <- _ _.
Qed.

Lemma afterValidation_meta sub d o w w' : afterValidation env sha cleaner sub w = (Ok (d, o), w') -> meta d = meta sub.
Proof using Type.
  unfold afterValidation, gets, id, bindM at 1. destruct (syncEventTypes sha cleaner (st w) sub) as [v err] eqn:Ev.
  apply syncEventTypes_frame in Ev as [_ Em]. rewrite <- Em. destruct err as [err|]; intros E.
  { apply bindM_Ok in E as ([s e] & w2 & Hs & E). apply syncSubscriptionStatus_meta in Hs. by injection E as <- _ _. }
  apply bindM_Ok in E as ([err|] & w2 & _ & E); apply bindM_Ok in E as ([s e] & w3 & Hs & E); cbn [fst snd] in E;
    apply syncSubscriptionStatus_meta in Hs as <-; destruct e; try destruct (errors_Is _ _); by injection E as <- _ _.
Qed.

Context (Hupdate : forall h s s', r_Update env h s = inl s' -> Name (meta s') = Name (meta s) /\ Namespace (meta s') = Namespace (meta s)).

Lemma reconcileActive_name sub d o w w' : reconcileActive env sha cleaner sub w = (Ok (d, o), w') ->
  Name (meta d) = Name (meta sub) /\ Namespace (meta d) = Namespace (meta sub).
Proof using Hupdate.
  unfold reconcileActive. destruct (containsFinalizer sub); cbn [negb]; intros E.
  2: { unfold addFinalizer in E. apply bindM_Ok in E as (r & w1 & Hr & E). unfold call in Hr. injection Hr as Hr <-. rewrite Hr in E.
       destruct r as [s|err]; injection E as <- _ _; [apply Hupdate in Hr as [-> ->]|]; done. }
  apply bindM_Ok in E as ([v verr] & w1 & Hv & E).
  assert (meta v = meta sub) as <-.
  { unfold validateSubscription in Hv. apply bindM_Ok in Hv as (r & w2 & _ & Hv). apply bindM_Ok in Hv as (t & w3 & _ & Hv).
    by injection Hv as <- _ _. }
  destruct verr as [verr|]; cbn [fst snd] in E; [|by apply afterValidation_meta in E as ->].
  unfold afterInvalid in E. apply bindM_Ok in E as ([e|] & w2 & _ & E); [by injection E as <- _ _|].
  apply bindM_Ok in E as ([e|] & w3 & _ & E); by injection E as <- _ _.
Qed.

End metrics.

(** ** The JetStream backend *)
Section jetstream_backend.
Context (sha : string -> string) (pq : string -> Z + goerr) (jenv : JSEnv).

Lemma framed_config sub own w w' : framed sub own w w' -> jConfig (st w') = jConfig (st w).
Proof. by intros [[_ [Hc _]] _]. Qed.

#[export] Instance JetStream_config : @ConstantConfig JSWorld (JetStream_backend sha pq jenv).
Proof.
  split; intros sub w; cbn.
  - eapply framed_config, SyncSubscription_framed. split; [apply later_refl|done].
  - eapply framed_config, DeleteSubscription_framed. split; [apply later_refl|done].
  - assert (framed sub (fun _ => False) w w) as Hf by (split; [apply later_refl|done]).
    eapply framed_config. eapply (DeleteSubscriptionsOnly_keeps pq jenv sub w w). split_and!; [done| |done]. by exists [].
Qed.
End jetstream_backend.

(** ** Concrete reconciliations *)
#[local] Existing Instance JetStream_backend.
Definition run_with (env : RecEnv) (w : World JSWorld recEvent) : outcome Result * World JSWorld recEvent :=
  @Reconcile JSWorld (JetStream_backend example_sha example_pq connected_env) env example_sha JetStreamCleaner "ns" "s" w.
Definition new_collector : MapCollector := NewCollector.
Definition status_gauge (w : World JSWorld recEvent) (consumer : string) : option Z :=
  replay new_collector (hist w) ≫= fun c => status_of c "s" "ns" backendType consumer "sap".
Definition example_gauges_run := run_with example_recenv (mkWorld fresh_backend []).


(** When the status could not be stored and the event types change before the next attempt, the gauge of the consumer
    that was never stored is not removed any more. *)
Definition conflict_recenv : RecEnv := {|
  r_now := fun _ => 0%Z; r_Get := fun _ _ _ => inl example_active; r_List := fun _ => inl [];
  r_Update := fun _ s => inl s; r_StatusUpdate := fun _ _ => inr (errors_New "conflict"); r_Validate := fun _ _ => None |}.
Definition changed_types : Subscription :=
  mkSubscription (meta example_active) (mkSpec "http://svc.ns.svc.cluster.local" "standard" "app" ["order.changed.v1"] ∅) (Status example_active).
Definition changed_recenv : RecEnv := {|
  r_now := fun _ => 0%Z; r_Get := fun _ _ _ => inl changed_types; r_List := fun _ => inl [];
  r_Update := fun _ s => inl s; r_StatusUpdate := fun _ _ => inl tt; r_Validate := fun _ _ => None |}.
Definition after_conflict := run_with changed_recenv (run_with conflict_recenv (mkWorld fresh_backend [])).2.
Example stale_status_gauge :
  after_conflict.1 = Ok (inl None) /\
  status_gauge after_conflict.2 "ns/s/kyma.app.order.changed.v1" = Some 1%Z /\
  status_gauge after_conflict.2 "ns/s/kyma.app.order.created.v1" = Some 1%Z.
Proof. vm_compute. done. Qed.
