(* ===== verification/JSLiveness.v ===== *)
(** * JetStream subscription reconciler: in a healthy cluster a Subscription becomes Ready

    A healthy API server stores what it accepts and answers with what it stores; a healthy backend synchronises
    and deletes without an error.  Both are laws over the environment and the backend. *)

From S2P Require Import Prelude Effects GoStrings Errors Utils Subscription EventTypes Config JetStreamUtils Validator JSReconciler JSReconcilerFacts.

(** ** A healthy API server *)
Definition is_write (e : recEvent) : bool := match e with RUpdate _ _ | RStatusUpdate _ _ => true | _ => false end.

(** The Subscriptions are read and written by this reconciler only; the status is a subresource: an update keeps it,
    and an update of the status keeps the rest.  An object that is being deleted disappears with its last finalizer. *)
Class HealthyAPI (env : RecEnv) := {
  stored : list recEvent -> string -> string -> option Subscription;
  stored_named : forall h ns n s, stored h ns n = Some s -> Namespace (meta s) = ns /\ Name (meta s) = n;
  stored_read : forall e h, is_write e = false -> stored (e :: h) = stored h;
  api_Get : forall h ns n s, stored h ns n = Some s -> r_Get env h ns n = inl s;
  api_Update : forall h s old, stored h (Namespace (meta s)) (Name (meta s)) = Some old ->
    DeletionTimestamp (meta s) = DeletionTimestamp (meta old) ->
    let new := set_Status s (Status old) in
    r_Update env h s = inl new /\
    stored (RUpdate s (inl new) :: h) (Namespace (meta s)) (Name (meta s)) =
      if isInDeletion s && bool_decide (elems (Finalizers (meta s)) = []) then None else Some new;
  api_StatusUpdate : forall h s old, stored h (Namespace (meta s)) (Name (meta s)) = Some old ->
    r_StatusUpdate env h s = inl tt /\
    stored (RStatusUpdate s (inl tt) :: h) (Namespace (meta s)) (Name (meta s)) = Some (set_Status old (Status s))
}.

(** ** A healthy backend

    [hb] holds of its healthy states; [hb_ok] says of a Subscription that it has the types to be served. *)
Class HealthyJSBackend (W : Type) `{JSBackendLaws W} := {
  hb : W -> Prop;
  hb_subjects : string -> list string -> string -> list string;
  hb_GetJetStreamSubjects : forall w source subjects tm, hb w -> be_GetJetStreamSubjects w source subjects tm = hb_subjects source subjects tm;
  hb_ok : Subscription -> Prop;
  hb_Sync : forall sub w, hb w -> hb_ok sub -> exists w', be_SyncSubscription sub w = (Ok tt, w') /\ hb w';
  hb_Delete : forall sub w, hb w -> exists w', be_DeleteSubscription sub w = (Ok tt, w') /\ hb w'
}.

Section liveness.
Context {W : Type} `{HealthyJSBackend W} (env : RecEnv) `{!HealthyAPI env} (sha : string -> string) (cleaner : Cleaner).
Context (namespace name : string).
Abbreviation RW := (World W recEvent).
Implicit Types (w : RW) (sub s d : Subscription).

(** ** The state that a Subscription reaches *)
Definition wantTypes sub : slice EventType := nil_if_empty (GetCleanEventTypes sub cleaner).
Definition wantBackendTypes sub : list JetStreamTypes + goerr :=
  GetBackendJetStreamTypes sha sub (hb_subjects (Source (Spec sub))
    (GetCleanEventTypesFromEventTypes (GetCleanEventTypes sub cleaner)) (TypeMatching (Spec sub))).

(** The backend can serve the Subscription once its types are in the status. *)
Definition serviceable sub : Prop := forall d, Spec d = Spec sub -> Namespace (meta d) = Namespace (meta sub) -> Name (meta d) = Name (meta sub) ->
  Types (Status d) = wantTypes sub -> hb_ok d.

Record converged s : Prop := {
  cv_finalizer : containsFinalizer s = true;
  cv_ready : Ready (Status s) = true;
  cv_types : Types (Status s) = wantTypes s;
  cv_backend : exists js, wantBackendTypes s = inl js /\ bTypes (sBackend (Status s)) = nil_if_empty js;
  cv_wf : wf_conditions (Conditions (Status s));
  cv_valid : has_condition (Conditions (Status s)) (makeSubscriptionSpecValidCondition 0 None);
  cv_active : has_condition (Conditions (Status s)) (makeSubscriptionActiveCondition 0 None)
}.

(** The backend serves the Subscription with the event types of its status. *)
Definition served (x : W) s : Prop :=
  exists d, be_serves x d /\ Spec d = Spec s /\ meta d = meta s /\ Types (Status d) = Types (Status s).

Lemma serviceable_same sub s : serviceable sub -> Spec s = Spec sub -> Namespace (meta s) = Namespace (meta sub) -> Name (meta s) = Name (meta sub) ->
  serviceable s.
Proof using Type.
  intros Hok E1 E2 E3 d D1 D2 D3 D4. apply Hok; [congruence..|]. rewrite D4. unfold wantTypes, GetCleanEventTypes. by rewrite E1.
Qed.

(** ** Steps *)
Definition writes w : nat := length (filter (fun e => is_write e = true) (hist w)).
(** Nothing was written in between. *)
Definition unwritten w w' : Prop := (forall ns n, stored (hist w') ns n = stored (hist w) ns n) /\ writes w' = writes w.

Lemma unwritten_refl w : unwritten w w.
Proof using Type. done. Qed.
Lemma unwritten_trans w w1 w2 : unwritten w w1 -> unwritten w1 w2 -> unwritten w w2.
Proof using Type. intros [S1 N1] [S2 N2]. split; [intros; by rewrite S2|congruence]. Qed.
Lemma unwritten_event w x e : is_write e = false -> unwritten w (mkWorld x (e :: hist w)).
Proof using Type.
  intros He. split; [intros ns n; cbn; by rewrite stored_read|]. unfold writes. cbn [hist].
  by rewrite filter_cons_False by congruence.
Qed.

Lemma backend_run ev (m : M W unit) w x' : m (st w) = (Ok tt, x') -> is_write (ev None) = false ->
  exists w', backend ev m w = (Ok None, w') /\ st w' = x' /\ unwritten w w' /\ ext w w'.
Proof using Type.
  intros Hm He. unfold backend, bindM, errOf, inside, call. rewrite Hm. cbn. eexists. split; [done|]. split; [done|].
  split; [by apply (unwritten_event w)|by eexists [_]].
Qed.

(** Computations that succeed and neither write nor touch the backend. *)
Definition quick (c : M RW unit) : Prop := forall w, exists w', c w = (Ok tt, w') /\ st w' = st w /\ unwritten w w'.
Lemma quick_bind c (k : unit -> M RW unit) : quick c -> quick (k tt) -> quick (bindM c k).
Proof using Type.
  intros Hc Hk w. destruct (Hc w) as (w1 & E1 & S1 & U1). destruct (Hk w1) as (w2 & E2 & S2 & U2). exists w2.
  unfold bindM. rewrite E1, E2. split; [done|]. split; [congruence|]. by eapply unwritten_trans.
Qed.
Lemma quick_forM {A} (l : list A) f : (forall x, quick (f x)) -> quick (forM_ l f).
Proof using Type. intros Hf. induction l as [|x l IH]; [by intros w; exists w|]. by apply quick_bind. Qed.

Lemma metrics_quick current desired : quick (updateSubscriptionMetrics current desired).
Proof using Type.
  unfold updateSubscriptionMetrics. apply quick_bind; apply quick_forM; intros t; [destruct (existsb _ _); [by intros w; exists w|]|];
    intros w; eexists; (split; [done|]); (split; [done|]); by apply (unwritten_event w).
Qed.

Lemma syncEventTypes_run (x : W) sub js : hb x -> wantBackendTypes sub = inl js ->
  syncEventTypes sha cleaner x sub =
    (set_Status sub (set_Backend (set_Types (Status sub) (wantTypes sub)) (set_bTypes (sBackend (Status sub)) (nil_if_empty js))), None).
Proof using Type.
  intros Hx Hjs. unfold syncEventTypes. cbn zeta. set (T := GetCleanEventTypes sub cleaner).
  set (stat := if bool_decide (Types (Status sub) = nil_if_empty T) then Status sub else set_Types (Status sub) (nil_if_empty T)).
  assert (stat = set_Types (Status sub) (wantTypes sub)) as Hs.
  { unfold stat. case_bool_decide as E; [|done]. unfold wantTypes. fold T. rewrite <- E. by destruct (Status sub). }
  rewrite hb_GetJetStreamSubjects by done.
  assert (GetBackendJetStreamTypes sha (set_Status sub stat)
    (hb_subjects (Source (Spec (set_Status sub stat))) (GetCleanEventTypesFromEventTypes T) (TypeMatching (Spec (set_Status sub stat)))) = inl js) as ->
    by exact Hjs.
  f_equal. cbn [set_Status meta Spec]. f_equal. rewrite Hs. case_bool_decide as E; [|done]. rewrite <- E. clear. by destruct (Status sub) as [? ? ? [] ].
Qed.

(** ** The status at the end of a synchronisation *)
Definition finalStatus (t1 t2 : Z) (js : list JetStreamTypes) sub : SubscriptionStatus :=
  let checked := SetSubscriptionSpecValidCondition t1 (Status sub) None in
  SetSubscriptionActiveCondition t2
    (set_Ready (set_Backend (set_Types checked (wantTypes sub)) (set_bTypes (sBackend checked) (nil_if_empty js))) true) None.

Lemma finalStatus_conditions t1 t2 js sub : wf_conditions (Conditions (Status sub)) ->
  Conditions (finalStatus t1 t2 js sub) =
    upsertCondition (makeSubscriptionActiveCondition t2 None) (upsertCondition (makeSubscriptionSpecValidCondition t1 None) (Conditions (Status sub))).
Proof using Type.
  intros Hwf. unfold finalStatus, SetSubscriptionActiveCondition, SetSubscriptionSpecValidCondition. rewrite !setCondition_ref; [done|done|].
  cbn. by apply setCondition_wf.
Qed.

Lemma finalStatus_frame t1 t2 js sub : Ready (finalStatus t1 t2 js sub) = true /\ Types (finalStatus t1 t2 js sub) = wantTypes sub /\
  sBackend (finalStatus t1 t2 js sub) = set_bTypes (sBackend (Status sub)) (nil_if_empty js).
Proof using Type.
  unfold finalStatus, SetSubscriptionActiveCondition, SetSubscriptionSpecValidCondition.
  destruct (setCondition_frame (Status sub) (makeSubscriptionSpecValidCondition t1 None)) as (_ & _ & Hb).
  destruct (setCondition_frame (set_Ready (set_Backend (set_Types (setCondition (Status sub) (makeSubscriptionSpecValidCondition t1 None)) (wantTypes sub))
    (set_bTypes (sBackend (setCondition (Status sub) (makeSubscriptionSpecValidCondition t1 None))) (nil_if_empty js))) true)
    (makeSubscriptionActiveCondition t2 None)) as (-> & -> & ->). cbn [Ready Types sBackend set_Ready set_Backend set_Types]. by rewrite Hb.
Qed.

Lemma finalStatus_converged t1 t2 js sub : wf_conditions (Conditions (Status sub)) -> containsFinalizer sub = true ->
  wantBackendTypes sub = inl js -> converged (set_Status sub (finalStatus t1 t2 js sub)).
Proof using Type.
  intros Hwf Hf Hjs. destruct (finalStatus_frame t1 t2 js sub) as (F1 & F2 & F3).
  pose proof (upsertCondition_wf (makeSubscriptionSpecValidCondition t1 None) _ Hwf) as Hwf'.
  constructor; cbn [Status set_Status]; [done..| | | |].
  - exists js. split; [exact Hjs|]. by rewrite F3.
  - rewrite finalStatus_conditions by done. by apply upsertCondition_wf.
  - rewrite finalStatus_conditions by done. apply has_condition_kept; [done|]. by apply (has_condition_upsert _ (makeSubscriptionSpecValidCondition t1 None)).
  - rewrite finalStatus_conditions by done. by apply (has_condition_upsert _ (makeSubscriptionActiveCondition t2 None)).
Qed.

(** A status that is stored already is the final one. *)
Lemma converged_fixpoint t1 t2 js s : converged s -> wantBackendTypes s = inl js -> finalStatus t1 t2 js s = Status s.
Proof using Type.
  intros [Hf Hr Ht (js' & E & Hb) Hwf Hv Ha] Hjs. rewrite Hjs in E. injection E as <-.
  unfold finalStatus, SetSubscriptionActiveCondition, SetSubscriptionSpecValidCondition.
  assert (forall st c, wf_conditions (Conditions st) -> has_condition (Conditions st) c -> setCondition st c = st) as Hsame.
  { intros st0 c Hw0 Hc0. rewrite setCondition_ref by done. rewrite upsertCondition_same by done. by destruct st0. }
  rewrite (Hsame (Status s)) by done. rewrite Hsame by done. rewrite <- Ht, <- Hb, <- Hr. clear. by destruct (Status s) as [? ? ? [] ].
Qed.

(** A status that compares equal to a converged one is converged. *)
Lemma equal_converged s st' : wf_conditions (Conditions (Status s)) -> containsFinalizer s = true ->
  IsSubscriptionStatusEqual (Status s) st' = true -> converged (set_Status s st') -> converged s.
Proof using Type.
  intros Hwf Hf He [_ Hr Ht (js & E & Hb) _ Hv Ha]. cbn [Status set_Status] in *. unfold IsSubscriptionStatusEqual in He.
  apply andb_true_iff in He as [He Hc]. apply andb_true_iff in He as [He Eb%bool_decide_eq_true]. apply andb_true_iff in He as [Er%bool_decide_eq_true Et%bool_decide_eq_true].
  constructor; [done|congruence| | |done| |].
  - rewrite Et. exact Ht.
  - exists js. split; [exact E|]. congruence.
  - by eapply ConditionsEquals_has.
  - by eapply ConditionsEquals_has.
Qed.

Lemma IsSubscriptionStatusEqual_refl st0 : wf_conditions (Conditions st0) -> IsSubscriptionStatusEqual st0 st0 = true.
Proof using Type. intros Hwf. unfold IsSubscriptionStatusEqual. rewrite !bool_decide_true by done. cbn. by apply ConditionsEquals_refl. Qed.

(** ** Runs *)
Lemma updateSubscriptionStatus_run sub old w : stored (hist w) namespace name = Some old ->
  Namespace (meta sub) = namespace -> Name (meta sub) = name -> exists w',
  updateSubscriptionStatus env sub w = (Ok None, w') /\ st w' = st w /\
  if IsSubscriptionStatusEqual (Status old) (Status sub) then unwritten w w'
  else stored (hist w') namespace name = Some (set_Status old (Status sub)).
Proof using HealthyAPI0.
  intros Hs Hns Hn. unfold updateSubscriptionStatus. rewrite Hns, Hn. unfold bindM at 1, call at 1. rewrite (api_Get _ _ _ _ Hs).
  set (w1 := mkWorld (st w) _). assert (unwritten w w1) as U1 by (by apply unwritten_event).
  unfold updateStatus. cbn [Status set_Status]. destruct (IsSubscriptionStatusEqual (Status old) (Status sub)); [by exists w1|].
  destruct (stored_named _ _ _ _ Hs) as [Hons Hon]. set (new := set_Status old (Status sub)).
  assert (stored (hist w1) (Namespace (meta new)) (Name (meta new)) = Some old) as Hs1.
  { unfold new. cbn. rewrite Hons, Hon. rewrite <- Hs. apply (proj1 U1). }
  destruct (api_StatusUpdate (hist w1) new old Hs1) as [Ea Es].
  unfold bindM, call, retM. rewrite Ea. cbn [st hist]. eexists. split; [done|]. split; [done|]. cbn [hist]. rewrite stored_read by done.
  cbn [meta new set_Status] in Es. rewrite Hons, Hon in Es. exact Es.
Qed.

(** What the validator accepts. *)
Definition valid sub : Prop := forall h s, Spec s = Spec sub -> Namespace (meta s) = Namespace (meta sub) ->
  Name (meta s) = Name (meta sub) -> r_Validate env h s = None.

Lemma validateSubscription_run sub w : valid sub -> exists t w',
  validateSubscription env sub w = (Ok (set_Status sub (SetSubscriptionSpecValidCondition t (Status sub) None), None), w') /\
  st w' = st w /\ unwritten w w'.
Proof using HealthyAPI0.
  intros Hv. unfold validateSubscription, bindM, call, now, retM. rewrite Hv by done. eexists _, _. split; [done|]. split; [done|].
  by apply unwritten_event.
Qed.

Lemma afterValidation_run t1 sub js w : let checked := set_Status sub (SetSubscriptionSpecValidCondition t1 (Status sub) None) in
  hb (st w) -> serviceable sub -> stored (hist w) namespace name = Some sub -> wantBackendTypes sub = inl js -> exists t2 w',
  afterValidation env sha cleaner checked w = (Ok (set_Status sub (finalStatus t1 t2 js sub), inl None), w') /\ hb (st w') /\
  served (st w') (set_Status sub (finalStatus t1 t2 js sub)) /\
  if IsSubscriptionStatusEqual (Status sub) (finalStatus t1 t2 js sub) then unwritten w w'
  else stored (hist w') namespace name = Some (set_Status sub (finalStatus t1 t2 js sub)).
Proof using HealthyAPI0.
  intros checked Hb Hok Hs Hjs. destruct (stored_named _ _ _ _ Hs) as [Hns Hn].
  unfold afterValidation, gets, id, bindM at 1. rewrite (syncEventTypes_run (st w) checked js Hb Hjs). cbn iota beta.
  set (d := set_Status checked _).
  destruct (hb_Sync d (st w) Hb) as (x' & Hsync & Hb'); [by apply Hok|].
  destruct (backend_run (RSync d) (be_SyncSubscription d) w x' Hsync eq_refl) as (w1 & E1 & S1 & U1 & X1).
  unfold bindM at 1. rewrite E1. cbn iota beta. set (t2 := r_now env (hist w1)).
  pose (fin := set_Status sub (finalStatus t1 t2 js sub)).
  destruct (updateSubscriptionStatus_run fin sub w1) as (w2 & E2 & S2 & U2); [by rewrite (proj1 U1)|done|done|].
  assert (syncSubscriptionStatus env d None w1 = (Ok (fin, None), w2)) as Esync.
  { unfold syncSubscriptionStatus, bindM, now. fold t2. change (updateSubscriptionStatus env ?x w1) with (updateSubscriptionStatus env fin w1).
    by rewrite E2. }
  exists t2, w2. unfold bindM. rewrite Esync. split; [done|]. split; [by rewrite S2, S1|]. split.
  - exists d. rewrite S2, S1. split; [by eapply be_Sync_Ok|]. split; [done|]. split; [done|].
    cbn [Status set_Status]. by rewrite (proj1 (proj2 (finalStatus_frame t1 t2 js sub))).
  - cbn [Status set_Status fin] in U2. destruct (IsSubscriptionStatusEqual (Status sub) (finalStatus t1 t2 js sub)); [by eapply unwritten_trans|]. exact U2.
Qed.

Abbreviation reconcile := (Reconcile env sha cleaner namespace name).

Lemma reconcile_active_run sub js w : hb (st w) -> stored (hist w) namespace name = Some sub -> isInDeletion sub = false ->
  containsFinalizer sub = true -> valid sub -> serviceable sub -> wf_conditions (Conditions (Status sub)) -> wantBackendTypes sub = inl js ->
  exists w' s, reconcile w = (Ok (inl None), w') /\ hb (st w') /\ stored (hist w') namespace name = Some s /\ converged s /\
    served (st w') s /\ Spec s = Spec sub /\ meta s = meta sub /\ (converged sub -> s = sub /\ unwritten w w').
Proof using HealthyAPI0.
  intros Hb Hs Hd Hf Hv Hok Hwf Hjs. unfold Reconcile, bindM at 1, call at 1. rewrite (api_Get _ _ _ _ Hs), Hd.
  set (w1 := mkWorld (st w) _). assert (unwritten w w1) as U1 by (by apply unwritten_event).
  destruct (validateSubscription_run sub w1 Hv) as (t1 & w2 & E2 & S2 & U2).
  destruct (afterValidation_run t1 sub js w2) as (t2 & w3 & E3 & Hb3 & Hserved & Hst); [by rewrite S2|done|by rewrite (proj1 U2), (proj1 U1)|done|].
  set (fin := set_Status sub (finalStatus t1 t2 js sub)) in *.
  assert (reconcileActive env sha cleaner sub w1 = (Ok (fin, inl None), w3)) as Ea.
  { unfold reconcileActive. rewrite Hf. cbn [negb]. unfold bindM. rewrite E2. exact E3. }
  destruct (metrics_quick sub fin w3) as (w4 & E4 & S4 & U4).
  pose proof (finalStatus_converged t1 t2 js sub Hwf Hf Hjs) as Hconv. fold fin in Hconv.
  destruct (IsSubscriptionStatusEqual (Status sub) (finalStatus t1 t2 js sub)) eqn:Heq.
  - exists w4, sub. unfold bindM. rewrite Ea. cbn [fst snd]. rewrite E4. split; [done|]. rewrite S4. split; [done|].
    assert (unwritten w w4) as U by (eapply unwritten_trans; [exact U1|]; eapply unwritten_trans; [exact U2|]; by eapply unwritten_trans).
    split; [by rewrite (proj1 U)|]. split; [by eapply equal_converged|]. split_and!; [|done..].
    destruct Hserved as (d & Hd1 & Hd2 & Hd3 & Hd4). exists d. split_and!; [done|done|done|]. rewrite Hd4. unfold IsSubscriptionStatusEqual in Heq.
    apply andb_true_iff in Heq as [[[_ ->%bool_decide_eq_true]%andb_true_iff _]%andb_true_iff _]. done.
  - exists w4, fin. unfold bindM. rewrite Ea. cbn [fst snd]. rewrite E4. split; [done|]. rewrite S4. split; [done|].
    split; [by rewrite (proj1 U4)|]. split_and!; [done..|]. intros Hc. exfalso. rewrite (converged_fixpoint t1 t2 js sub) in Heq by done.
    by rewrite IsSubscriptionStatusEqual_refl in Heq by done.
Qed.

(** A first reconciliation only adds the finalizer. *)
Lemma reconcile_finalizer_run sub w : stored (hist w) namespace name = Some sub -> isInDeletion sub = false -> containsFinalizer sub = false ->
  exists w' s, reconcile w = (Ok (inl None), w') /\ st w' = st w /\ stored (hist w') namespace name = Some s /\
    containsFinalizer s = true /\ Spec s = Spec sub /\ Status s = Status sub /\ DeletionTimestamp (meta s) = DeletionTimestamp (meta sub).
Proof using HealthyAPI0.
  intros Hs Hd Hf. destruct (stored_named _ _ _ _ Hs) as [Hns Hn].
  unfold Reconcile, bindM at 1, call at 1. rewrite (api_Get _ _ _ _ Hs), Hd. set (w1 := mkWorld (st w) _).
  assert (unwritten w w1) as U1 by (by apply unwritten_event).
  set (s := set_Finalizers sub (Some (elems (Finalizers (meta sub)) ++ [Finalizer])%list)).
  destruct (api_Update (hist w1) s sub) as [Ea Es]; [cbn; rewrite Hns, Hn; by rewrite (proj1 U1)|done|].
  set (new := set_Status s (Status sub)) in *.
  assert (reconcileActive env sha cleaner sub w1 = (Ok (new, inl None), mkWorld (st w) (RUpdate s (inl new) :: hist w1))) as Er.
  { unfold reconcileActive. rewrite Hf. cbn [negb]. unfold addFinalizer, bindM, call. fold s. rewrite Ea. done. }
  destruct (metrics_quick sub new (mkWorld (st w) (RUpdate s (inl new) :: hist w1))) as (w4 & E4 & S4 & U4).
  exists w4, new. unfold bindM. rewrite Er. cbn [fst snd]. rewrite E4. split; [done|]. split; [done|]. split; [|split_and!; try done].
  - rewrite (proj1 U4). cbn [hist]. unfold new in Es. cbn [meta s set_Finalizers Namespace Name] in Es. rewrite Hns, Hn in Es. fold new in Es. rewrite Es.
    unfold isInDeletion. cbn. unfold isInDeletion in Hd. by destruct (DeletionTimestamp (meta sub)).
  - unfold containsFinalizer. apply ContainsString_elem, elem_of_app. right. by apply list_elem_of_singleton.
Qed.

Lemma reconcile_deletion_run sub w : hb (st w) -> stored (hist w) namespace name = Some sub -> isInDeletion sub = true ->
  containsFinalizer sub = true ->
  exists w', reconcile w = (Ok (inl None), w') /\ hb (st w') /\ be_absent (st w') sub /\
    stored (hist w') namespace name =
      let rest := RemoveString (elems (Finalizers (meta sub))) Finalizer in
      if bool_decide (elems rest = []) then None else Some (set_Finalizers sub rest).
Proof using HealthyAPI0.
  intros Hb Hs Hd Hf. destruct (stored_named _ _ _ _ Hs) as [Hns Hn].
  unfold Reconcile, bindM at 1, call at 1. rewrite (api_Get _ _ _ _ Hs), Hd. set (w1 := mkWorld (st w) _).
  assert (unwritten w w1) as U1 by (by apply unwritten_event).
  destruct (hb_Delete sub (st w1) Hb) as (x' & Hdel & Hb').
  destruct (backend_run (RDelete sub) (be_DeleteSubscription sub) w1 x' Hdel eq_refl) as (w2 & E2 & S2 & U2 & X2).
  set (s := set_Finalizers sub (RemoveString (elems (Finalizers (meta sub))) Finalizer)).
  destruct (api_Update (hist w2) s sub) as [Ea Es]; [cbn; rewrite Hns, Hn; by rewrite (proj1 U2), (proj1 U1)|done|].
  set (new := set_Status s (Status sub)) in *. assert (new = s) as En by done.
  unfold handleSubscriptionDeletion. change (ContainsString _ _) with (containsFinalizer sub). rewrite Hf. cbn [negb].
  unfold bindM at 1. rewrite E2. cbn iota beta. fold s. unfold bindM at 1, call at 1. rewrite Ea.
  set (w3 := mkWorld (st w2) _).
  assert (quick (forM_ (backendTypes sub) (fun t => stream <- streamName ;;
    call (fun _ => RRemoveStatus (Name (meta new)) (Namespace (meta new)) (jsConsumerName t) stream) (fun _ => tt)))) as Hq.
  { apply quick_forM. intros t w4. eexists. split; [done|]. split; [done|]. by apply (unwritten_event w4). }
  destruct (Hq w3) as (w4 & E4 & S4 & U4). exists w4. unfold bindM at 1. rewrite E4. split; [done|].
  rewrite S4. cbn [st w3]. rewrite S2. split; [done|]. split; [by eapply be_Delete_Ok|].
  rewrite (proj1 U4). cbn [hist w3]. cbn [meta s set_Finalizers Namespace Name] in Es. rewrite Hns, Hn in Es. fold s in Es. rewrite Es.
  unfold isInDeletion. unfold isInDeletion in Hd. cbn. destruct (DeletionTimestamp (meta sub)); [|done]. cbn. rewrite En. done.
Qed.

(** What a step leaves of the state. *)
Definition step w : RW := (reconcile w).2.

(** C6: in a healthy cluster the reconciler brings a valid Subscription to the state Ready and keeps it there: after two
    reconciliations, and after any number more, the same Subscription is stored, with our
    finalizer, the cleaned types, the consumers, and the conditions of a valid and active one; the backend serves it; and a further
    reconciliation succeeds without a retry and writes nothing.  A Subscription in deletion is gone from the backend
    after one reconciliation, and so is our finalizer. *)
Theorem Subscription_becomes_Ready sub js w :
  hb (st w) -> stored (hist w) namespace name = Some sub -> valid sub -> serviceable sub -> wf_conditions (Conditions (Status sub)) -> wantBackendTypes sub = inl js ->
  if isInDeletion sub then
    containsFinalizer sub = true ->
    (reconcile w).1 = Ok (inl None) /\ be_absent (st (step w)) sub /\
    stored (hist (step w)) namespace name =
      let rest := RemoveString (elems (Finalizers (meta sub))) Finalizer in
      if bool_decide (elems rest = []) then None else Some (set_Finalizers sub rest)
  else exists s, converged s /\ Spec s = Spec sub /\
    forall k, let w' := Nat.iter (2 + k) step w in
      stored (hist w') namespace name = Some s /\ served (st w') s /\
      (reconcile w').1 = Ok (inl None) /\ writes (step w') = writes w'.
Proof using HealthyAPI0.
  intros Hb Hs Hv Hok Hwf Hjs. destruct (isInDeletion sub) eqn:Hd.
  { intros Hf. destruct (reconcile_deletion_run sub w Hb Hs Hd Hf) as (w' & E & _ & Ha & Hst). unfold step. rewrite E. by split_and!. }
  assert (forall s w', hb (st w') -> stored (hist w') namespace name = Some s -> converged s -> isInDeletion s = false -> valid s -> serviceable s ->
    exists w2, reconcile w' = (Ok (inl None), w2) /\ hb (st w2) /\ stored (hist w2) namespace name = Some s /\ served (st w2) s /\ writes w2 = writes w')
    as Hstay.
  { intros s w' Hb' Hs' Hc Hd' Hv' Hok'. destruct (cv_backend _ Hc) as (js' & Hjs' & _).
    destruct (reconcile_active_run s js' w' Hb' Hs' Hd') as (w2 & s2 & E & Hb2 & Hs2 & _ & Hserved & _ & _ & Hkeep);
      [apply Hc|done|done|apply Hc|done|]. destruct (Hkeep Hc) as [-> [_ Hw]]. by exists w2. }
  assert (exists s, converged s /\ Spec s = Spec sub /\ isInDeletion s = false /\ valid s /\ serviceable s /\ hb (st (step (step w))) /\
    stored (hist (step (step w))) namespace name = Some s /\ served (st (step (step w))) s) as (s & Hc & Hspec & Hds & Hvs & Hoks & Hb2 & Hs2 & Hse2).
  { destruct (stored_named _ _ _ _ Hs) as [Hns Hn]. destruct (containsFinalizer sub) eqn:Hf.
    - destruct (reconcile_active_run sub js w Hb Hs Hd Hf Hv Hok Hwf Hjs) as (w1 & s & E1 & Hb1 & Hs1 & Hc & _ & Hsp & Hm & _).
      assert (isInDeletion s = false) as Hds by (unfold isInDeletion; rewrite Hm; exact Hd).
      assert (valid s) as Hvs by (intros h s' H1' H2' H3'; apply Hv; congruence).
      assert (serviceable s) as Hoks by (apply (serviceable_same sub); [done|congruence..]).
      destruct (Hstay s w1 Hb1 Hs1 Hc Hds Hvs Hoks) as (w2 & E2 & Hb2 & Hs2 & Hse2 & _). exists s. unfold step at 2 4 6. rewrite E1. cbn [snd].
      unfold step. rewrite E2. by split_and!.
    - destruct (reconcile_finalizer_run sub w Hs Hd Hf) as (w1 & s1 & E1 & St1 & Hs1 & Hf1 & Hsp1 & Hst1 & Hdel1).
      destruct (stored_named _ _ _ _ Hs1) as [Hns1 Hn1].
      assert (isInDeletion s1 = false) as Hd1 by (unfold isInDeletion; rewrite Hdel1; exact Hd).
      assert (valid s1) as Hv1 by (intros h s' H1' H2' H3'; apply Hv; congruence).
      assert (serviceable s1) as Hok1 by (apply (serviceable_same sub); [done|congruence..]).
      assert (wantBackendTypes s1 = inl js) as Hjs1.
      { rewrite <- Hjs. destruct s1 as [m1 sp1 st1], sub as [m sp st0]. cbn in *. subst sp1.
        unfold wantBackendTypes, GetBackendJetStreamTypes, computeConsumerName. cbn [Spec meta]. by rewrite Hns1, Hn1, Hns, Hn. }
      destruct (reconcile_active_run s1 js w1) as (w2 & s & E2 & Hb2 & Hs2 & Hc & Hse & Hsp & Hm & _);
        [by rewrite St1|done|done|done|done|done|by rewrite Hst1|done|].
      exists s. unfold step at 2 4 6. rewrite E1. cbn [snd]. unfold step. rewrite E2. split_and!; try done; [congruence| | |].
      + unfold isInDeletion. by rewrite Hm.
      + intros h s' H1' H2' H3'. apply Hv1; congruence.
      + apply (serviceable_same s1); [done|congruence..]. }
  exists s. split; [done|]. split; [done|]. intros k w'.
  assert (hb (st w') /\ stored (hist w') namespace name = Some s /\ served (st w') s) as (Hbk & Hsk & Hsek).
  { subst w'. induction k as [|k IH]; [done|]. destruct IH as (Hbk & Hsk & _).
    replace (2 + S k)%nat with (S (2 + k)) by lia. cbn [Nat.iter nat_rect]. set (x := Nat.iter (2 + k) step w) in *.
    destruct (Hstay s x Hbk Hsk Hc Hds Hvs Hoks) as (w2 & E2 & Hb3 & Hs3 & Hse3 & _).
    change (nat_rect _ w (fun _ => step) (2 + k)) with x. unfold step. by rewrite E2. }
  destruct (Hstay s w' Hbk Hsk Hc Hds Hvs Hoks) as (w2 & E2 & _ & _ & _ & Hw2). unfold step. rewrite E2. done.
Qed.
End liveness.
