(* ===== verification/JSCluster.v ===== *)
(** * A cluster for the JetStream reconciler

    The JetStream backend with a healthy NATS server is a healthy backend; and a concrete cluster, an API server and
    a NATS server that answer from the log of their calls. *)

From S2P Require Import Prelude Effects GoStrings Errors Utils Subscription EventTypes Config JetStreamUtils JetStream JetStreamFacts Validator JSReconciler JSReconcilerFacts JSLiveness JetStreamLiveness.

(** ** The backend *)
Section backend.
Context (sha : string -> string) (pq : string -> Z + goerr) (env : JSEnv) (Hn : healthy_nats env).
Context (j0 : JetStream) (Hcfg : JetStreamUtils.validateConfig (jConfig j0) = None) (sc : StreamConfig) (Hsc : getStreamConfig pq (jConfig j0) = inl sc).
Context (known : SubscriptionSubjectIdentifier -> Prop) (Hnamed : forall key, known key -> is_Some (NamespacedName key))
  (Hinj : forall key key', known key -> known key' -> consumerName key = consumerName key' -> key = key').

Lemma connected_startable w : connected j0 known w -> startable j0 known w.
Proof using Type. intros [Hg [Hc Hx]]. split; [done|by right]. Qed.

#[local] Existing Instance JetStream_backend.
#[local] Existing Instance JetStream_laws.
#[local] Instance JetStream_healthy : @HealthyJSBackend JSWorld (JetStream_backend sha pq env) (JetStream_laws sha pq env).
Proof.
  refine {|
    hb := startable j0 known;
    hb_subjects := fun source subjects tm => GetJetStreamSubjects (jConfig j0) (jCleaner j0) source subjects tm;
    hb_ok := fun sub => forall t, t ∈ statusTypes sub -> known (keyOf sha j0 sub t) |}.
  - intros w source subjects tm [Hg _]. cbn. destruct (good_static _ _ _ Hg) as (-> & -> & _). done.
  - intros sub w Hw Hok. pose proof (SyncSubscription_good sha pq env Hn j0 Hcfg sc Hsc known Hnamed Hinj sub Hok w Hw) as Hs. cbn.
    destruct (SyncSubscription sha pq env sub w) as [[[]|e|m] w']; [|done..]. exists w'. split; [done|by apply connected_startable].
  - intros sub w Hw. pose proof (DeleteSubscription_good sha pq env Hn j0 Hcfg sc Hsc known Hnamed Hinj sub w Hw) as Hs. cbn.
    destruct (DeleteSubscription sha pq env sub w) as [[[]|e|m] w']; [|done..]. exists w'. split; [done|by apply connected_startable].
Defined.
End backend.

(** ** An API server

    The store is the one at the start, changed by the accepted writes of the log. *)
Section server.
Context (start : gmap (string * string) Subscription) (Hstart : forall ns n s, start !! (ns, n) = Some s -> Namespace (meta s) = ns /\ Name (meta s) = n).

Definition keyed (s : Subscription) : string * string := (Namespace (meta s), Name (meta s)).
Definition store_event (e : recEvent) (m : gmap (string * string) Subscription) : gmap (string * string) Subscription :=
  match e with
  | RUpdate s (inl new) => if isInDeletion s && bool_decide (elems (Finalizers (meta s)) = []) then delete (keyed s) m else <[keyed new := new]> m
  | RStatusUpdate s (inl _) => match m !! keyed s with Some old => <[keyed old := set_Status old (Status s)]> m | None => m end
  | _ => m
  end.
Definition store (h : list recEvent) : gmap (string * string) Subscription := foldr store_event start h.
Definition notFound : goerr := GoErr EKubeNotFound "not found" [].

Definition server_env : RecEnv := {|
  r_now h := Z.of_nat (length h);
  r_Get h ns n := match store h !! (ns, n) with Some s => inl s | None => inr notFound end;
  r_List h := inl (map_to_list (store h)).*2;
  r_Update h s := match store h !! keyed s with Some old => inl (set_Status s (Status old)) | None => inr notFound end;
  r_StatusUpdate h s := match store h !! keyed s with Some _ => inl tt | None => inr notFound end;
  r_Validate _ _ := None |}.

Lemma store_named h ns n s : store h !! (ns, n) = Some s -> Namespace (meta s) = ns /\ Name (meta s) = n.
Proof using Hstart.
  revert s. induction h as [|e h IH]; intros s; [apply Hstart|]. change (store (e :: h)) with (store_event e (store h)).
  destruct e as [| | u r| u r| | | | | | | |]; cbn; try exact (IH s).
  - destruct r as [new|]; [|exact (IH s)]. destruct (_ && _).
    + intros [_ Hl]%lookup_delete_Some. by apply IH.
    + intros [[Hk <-]|[_ Hl]]%lookup_insert_Some; [by injection Hk|by apply IH].
  - destruct r as [[]|]; [|exact (IH s)]. destruct (store h !! keyed u) as [old|] eqn:Eo; [|exact (IH s)].
    intros [[Hk <-]|[_ Hl]]%lookup_insert_Some; [by injection Hk|by apply IH].
Qed.

#[local] Instance server_healthy : HealthyAPI server_env.
Proof using Hstart.
  refine {| stored := fun h ns n => store h !! (ns, n) |}.
  - apply store_named.
  - intros e h He. by destruct e.
  - intros h ns n s E. cbn. by rewrite E.
  - intros h s old E Hd. cbn zeta. cbn [r_Update server_env]. fold (keyed s) in E. change (store (?e :: h)) with (store_event e (store h)).
    rewrite E. split; [done|]. cbn [store_event]. destruct (_ && _); [apply lookup_delete_eq|apply lookup_insert_eq].
  - intros h s old E. cbn [r_StatusUpdate server_env]. fold (keyed s) in E. rewrite E. split; [done|].
    change (store (?e :: h)) with (store_event e (store h)). cbn [store_event]. rewrite E. destruct (store_named _ _ _ _ E) as [E1 E2].
    unfold keyed. rewrite E1, E2. apply lookup_insert_eq.
Defined.
End server.

(** ** A NATS server *)
Fixpoint activeb (h : list jsEvent) (n : nat) (name : string) : bool :=
  match h with
  | [] => false
  | EvSubscribe _ _ opts (inl m) :: h =>
      ((m =? n)%nat && existsb (fun o => match o with Bind _ x => String.eqb x name | _ => false end) opts) || activeb h n name
  | EvIsValid m false :: h => negb (m =? n)%nat && activeb h n name
  | EvUnsubscribe m None :: h => negb (m =? n)%nat && activeb h n name
  | EvDeleteConsumer _ x r :: h => negb (deleted r && String.eqb x name) && activeb h n name
  | _ :: h => activeb h n name
  end.
Lemma activeb_active h n name : activeb h n name = true -> active h n name.
Proof.
  induction h as [|e h IH]; [done|]. destruct e; cbn; try exact IH.
  - intros [Hd Ha]%andb_true_iff. split; [|by apply IH]. destruct (deleted r); [|done]. cbn in Hd.
    by apply negb_true_iff, String.eqb_neq in Hd.
  - destruct r as [m|]; [|exact IH]. intros [[Hm Ho]%andb_true_iff|Ha]%orb_true_iff; [left|right; by apply IH].
    apply Nat.eqb_eq in Hm as ->. split; [done|]. apply existsb_exists in Ho as (o & Ho & E). destruct o; try done.
    apply String.eqb_eq in E as ->. eexists. by apply list_elem_of_In.
  - destruct r; [exact IH|]. intros [Hm Ha]%andb_true_iff. split; [|by apply IH]. by apply negb_true_iff, Nat.eqb_neq in Hm.
  - destruct r; [exact IH|]. intros [Hm Ha]%andb_true_iff. split; [|by apply IH]. by apply negb_true_iff, Nat.eqb_neq in Hm.
Qed.

Definition subscriptions_made (h : list jsEvent) : list nat :=
  omap (fun e => match e with EvSubscribe _ _ _ (inl m) => Some m | _ => None end) h.
Definition push_bound (h : list jsEvent) (name : string) : bool := existsb (fun m => activeb h m name) (subscriptions_made h).
Fixpoint consumer_of (h : list jsEvent) (name : string) : option ConsumerConfig :=
  match h with
  | [] => None
  | EvAddConsumer _ cfg (inl _) :: h | EvUpdateConsumer _ cfg (inl _) :: h =>
      if String.eqb (ccDurable cfg) name then Some cfg else consumer_of h name
  | EvDeleteConsumer _ x None :: h => if String.eqb x name then None else consumer_of h name
  | _ :: h => consumer_of h name
  end.
Fixpoint stream_config (h : list jsEvent) : option StreamConfig :=
  match h with
  | [] => None
  | EvAddStream cfg (inl _) :: _ | EvUpdateStream cfg (inl _) :: _ => Some cfg
  | _ :: h => stream_config h
  end.

Definition nats_env : JSEnv.
Proof.
  refine {|
    a_Status := fun _ _ => CONNECTED; a_Connect := fun h _ => inl (length h);
    a_IsConnected := fun _ _ => true; a_IsClosed := fun _ _ => false; a_JetStream := fun _ c => inl c;
    a_NewClient := fun _ => inl tt;
    a_StreamInfo := fun h _ => match stream_config h with Some cfg => inl cfg | None => inr nats_ErrStreamNotFound end;
    a_AddStream := fun _ _ => inl tt; a_UpdateStream := fun _ _ => inl tt; a_Consumers := fun _ _ => [];
    a_ConsumerInfo := fun h _ n => match consumer_of h n with
                                   | Some cfg => inl (mkConsumerInfo n (push_bound h n) cfg)
                                   | None => inr nats_ErrConsumerNotFound end;
    a_NewInbox := fun h => "inbox"; a_AddConsumer := fun _ _ cfg => inl (mkConsumerInfo (ccDurable cfg) false cfg);
    a_UpdateConsumer := fun _ _ _ => inl tt;
    a_DeleteConsumer := fun h _ n => match consumer_of h n with Some _ => None | None => Some nats_ErrConsumerNotFound end;
    a_Subscribe := fun h _ _ => inl (length h); a_IsValid := fun _ _ => true; a_Unsubscribe := fun _ _ => None;
    a_MsgConsumerInfo := fun _ => inr (errors_New "no consumer"); a_Send := fun _ _ _ _ => mkSendResult true (Some 200%Z);
    a_Ack := fun _ => None; a_NakWithDelay := fun _ => None; a_range := fun _ m => map_to_list m |}.
  done.
Defined.

Lemma nats_env_healthy : healthy_nats nats_env.
Proof.
  split; cbn; try (intros; eauto; done).
  - intros h s e. destruct (stream_config h); [done|by intros [= <-]].
  - intros h s n e. destruct (consumer_of h n); [done|by intros [= <-]].
  - intros h s n ci. destruct (consumer_of h n); [|done]. intros [= <-] Hb. apply existsb_exists in Hb as (m & _ & Ha).
    exists m. by apply activeb_active.
  - intros h s n. by destruct (consumer_of h n).
Qed.

(** ** A Subscription in the cluster *)
Definition example_new : Subscription :=
  mkSubscription (mkMeta "s" "ns" "uid" None None) (mkSpec "http://svc.ns.svc.cluster.local" "standard" "app" ["order.created.v1"; "order.changed.v1"] ∅) zeroStatus.
Definition example_start : gmap (string * string) Subscription := {[("ns", "s") := example_new]}.
Lemma example_start_named ns n s : example_start !! (ns, n) = Some s -> Namespace (meta s) = ns /\ Name (meta s) = n.
Proof. unfold example_start. intros [[= <- <-] <-]%lookup_singleton_Some. done. Qed.
Definition example_js : JetStream := st fresh_backend.
(** A hash that keeps the last letters of the text: of the keys of this Subscription it makes different names. *)
Definition tail_sha (s : string) : string := drop_bytes (len s - 16) s.
Definition example_keys : list SubscriptionSubjectIdentifier :=
  (fun t => NewSubscriptionSubjectIdentifier tail_sha example_new t) <$>
    GetJetStreamSubjects example_config JetStreamCleaner "app" ["order.created.v1"; "order.changed.v1"] "standard".
Definition example_world : World JSWorld recEvent := mkWorld fresh_backend [].
Definition example_step := @step JSWorld (JetStream_backend tail_sha example_pq nats_env) (server_env example_start) tail_sha JetStreamCleaner "ns" "s".

Definition example_known (key : SubscriptionSubjectIdentifier) : Prop := key ∈ example_keys.
Lemma example_known_named key : example_known key -> is_Some (NamespacedName key).
Proof. unfold example_known. intros Hk. repeat (apply elem_of_cons in Hk as [->|Hk]; [by eexists|]). by apply not_elem_of_nil in Hk. Qed.
Lemma example_known_inj key key' : example_known key -> example_known key' -> consumerName key = consumerName key' -> key = key'.
Proof.
  unfold example_known. intros Hk Hk'. repeat (apply elem_of_cons in Hk as [->|Hk]; [|]); [| |by apply not_elem_of_nil in Hk];
    repeat (apply elem_of_cons in Hk' as [->|Hk']; [done|]); by apply not_elem_of_nil in Hk'.
Qed.

Lemma fresh_startable : startable example_js example_known fresh_backend.
Proof. split; [|by left]. constructor; [done| |by intros n name []]. intros key [x Hx]. exfalso. exact (lookup_empty_Some key x Hx). Qed.

Definition example_stream : StreamConfig := default (mkStreamConfig "" None MemoryStorage 0 LimitsPolicy 0 0 DiscardOld 0)
  (match getStreamConfig example_pq example_config with inl sc => Some sc | inr _ => None end).
Definition example_synced : Subscription := set_Status example_new (set_Types zeroStatus (Some (GetCleanEventTypes example_new JetStreamCleaner))).

Lemma example_types_known sub : Spec sub = Spec example_new -> Namespace (meta sub) = "ns" -> Name (meta sub) = "s" ->
  Types (Status sub) = Types (Status example_synced) -> forall t, t ∈ statusTypes sub -> example_known (keyOf tail_sha example_js sub t).
Proof.
  intros E1 E2 E3 E4 t. unfold statusTypes. rewrite E4. cbn. unfold example_known.
  intros Ht. unfold keyOf, NewSubscriptionSubjectIdentifier, computeConsumerName, computeNamespacedSubjectName, subjectOf, createKeyPrefix.
  rewrite E1, E2, E3. repeat (apply elem_of_cons in Ht as [->|Ht]; [by apply (bool_decide_unpack _); vm_compute|]). by apply not_elem_of_nil in Ht.
Qed.

Lemma JetStream_operations_succeed_witness :
  (exists w', SyncSubscription tail_sha example_pq nats_env example_synced fresh_backend = (Ok tt, w') /\ connected example_js example_known w') /\
  (exists w', DeleteSubscription tail_sha example_pq nats_env example_synced fresh_backend = (Ok tt, w') /\ connected example_js example_known w').
Proof.
  destruct (JetStream_operations_succeed tail_sha example_pq nats_env nats_env_healthy example_js eq_refl example_stream eq_refl example_known
    example_known_named example_known_inj example_synced fresh_backend fresh_startable) as [Hs Hd].
  split; [|exact Hd]. apply Hs. by apply example_types_known.
Defined.

#[local] Existing Instance server_healthy.
Definition example_backend : JSBackend JSWorld := JetStream_backend tail_sha example_pq nats_env.
Definition example_laws : @JSBackendLaws JSWorld example_backend := JetStream_laws tail_sha example_pq nats_env.
Definition example_healthy : @HealthyJSBackend JSWorld example_backend example_laws :=
  JetStream_healthy tail_sha example_pq nats_env nats_env_healthy example_js eq_refl example_stream eq_refl example_known example_known_named example_known_inj.
Definition example_server := server_env example_start.
Definition example_api : HealthyAPI example_server := server_healthy example_start example_start_named.

Lemma Subscription_becomes_Ready_witness :
  Ready (Status (default example_new (store example_start (hist (Nat.iter 2 example_step example_world)) !! ("ns", "s")))) = true /\
  exists s, @converged JSWorld example_backend example_laws example_healthy tail_sha JetStreamCleaner s /\ Spec s = Spec example_new /\
    forall k, let w' := Nat.iter (2 + k) example_step example_world in
      store example_start (hist w') !! ("ns", "s") = Some s /\
      @served JSWorld example_backend example_laws (st w') s /\
      (@Reconcile JSWorld example_backend example_server tail_sha JetStreamCleaner "ns" "s" w').1 = Ok (inl None) /\
      writes (example_step w') = writes w'.
Proof.
  split; [by vm_compute|].
  refine (@Subscription_becomes_Ready JSWorld example_backend example_laws example_healthy example_server example_api tail_sha JetStreamCleaner "ns" "s"
    example_new _ example_world fresh_startable eq_refl _ _ _ _).
  - done.
  - intros d E1 E2 E3 E4. exact (example_types_known d E1 E2 E3 E4).
  - apply NoDup_nil_2.
  - vm_compute. reflexivity.
Defined.
