(* ===== verification/EventMeshUtils.v ===== *)
(** * EventMesh backend, the pure part

    [pkg/backend/utils] (the conversion of a Kyma Subscription to an EventMesh
    one, names, hashes), [pkg/ems/api/events/types] and
    [pkg/backend/eventmesh/utils.go].

    Outside the repository, so parameters: the hash of [hashstructure] (a 64-bit word or an
    error) and the hexadecimal SHA-256.  The feature flag of webhook authentication,
    a package variable, is an argument. *)

From S2P Require Import Prelude GoStrings Url Errors Utils Subscription EventTypes Validator.
From Stdlib Require Import Ascii.

(** ** Types *)
Record EMEvent := mkEMEvent { evSource : string; evType : string }.
Record WebhookAuth := mkWebhookAuth {
  waType : string; waGrantType : string; waClientID : string; waClientSecret : string; waTokenURL : string }.

(** [types.Subscription]; a nil list of events is like an empty one, for the hash too. *)
Record EMSubscription := mkEMSubscription {
  emName : string;
  emEvents : list EMEvent;
  emWebhookURL : string;
  emWebhookAuth : option WebhookAuth;
  emQos : string;
  emExemptHandshake : bool;
  emContentMode : string;
  emHandshakeStatus : string;
  emSubStatus : string;
  emSubStatusReason : string;
  emLastSuccess : string;
  emLastFailed : string;
  emLastFailedReason : string
}.
#[global] Instance EMEvent_eq_dec : EqDecision EMEvent.
Proof. solve_decision. Defined.
#[global] Instance WebhookAuth_eq_dec : EqDecision WebhookAuth.
Proof. solve_decision. Defined.
#[global] Instance EMSubscription_eq_dec : EqDecision EMSubscription.
Proof. solve_decision. Defined.

Record EventTypeInfo := mkTypeInfo { tiOriginal : string; tiClean : string; tiProcessed : string }.

(** [utils.ProtocolSettings], its pointers set by [Initialize]. *)
Record ProtocolSettings := mkProtocolSettings { psContentMode : string; psExemptHandshake : bool; psQos : string }.

(** [apigatewayv2.APIRule], as far as the program reads or writes it here: the hosts and the
    paths of the rules. *)
Record APIRuleView := mkAPIRuleView { arHosts : slice (option string); arPaths : list string }.

Definition MaxSubscriptionNameLength : Z := 50.
Definition eventTypeSegmentsLimit : nat := 7.
Definition ErrEMSubjectInvalid : goerr := sentinel "eventmesh.ErrEMSubjectInvalid" "EventMesh subject invalid".

(** ** URLs *)
Definition GetExposedURLFromAPIRule (apiRule : APIRuleView) (targetURL : string) : string + goerr :=
  match ParseRequestURI targetURL with
  | inr err => inr err
  | inl sURL =>
      let sURLPath := if String.eqb (Path sURL) "" then "/" else Path sURL in
      let path := if existsb (String.eqb sURLPath) (arPaths apiRule) then sURLPath else "" in
      let host := match elems (arHosts apiRule) with Some h :: _ => h | _ => "" end in
      inl ("https://" +:+ host +:+ path)
  end.

(** ** Conversion *)
Definition getDefaultSubscriptionV1Alpha2 (protocolSettings : ProtocolSettings) : EMSubscription :=
  mkEMSubscription "" [] "" None (GetQos (psQos protocolSettings)) (psExemptHandshake protocolSettings)
    (psContentMode protocolSettings) "" "" "" "" "" "".

Definition getEventMeshEvents (typeInfos : list EventTypeInfo) (typeMatching defaultNamespace source : string) : list EMEvent :=
  let exact := String.eqb typeMatching TypeMatchingExact in
  let eventMeshNamespace := if exact && negb (String.eqb source "") then source else defaultNamespace in
  (fun typeInfo => mkEMEvent eventMeshNamespace (if exact then tiOriginal typeInfo else tiProcessed typeInfo)) <$> typeInfos.

Definition setEventMeshProtocolSettings (subscription : Subscription) (s : EMSubscription) : EMSubscription :=
  let config := Config (Spec subscription) in
  let qos := match config !! ProtocolSettingsQos with Some q => GetQos q | None => emQos s end in
  let contentMode := match config !! ProtocolSettingsContentMode with
                     | Some c => if negb (String.eqb c "") then c else emContentMode s
                     | None => emContentMode s end in
  let handshake := match config !! ProtocolSettingsExemptHandshake with
                   | Some h => default true (ParseBool h)
                   | None => emExemptHandshake s end in
  mkEMSubscription (emName s) (emEvents s) (emWebhookURL s) (emWebhookAuth s) qos handshake contentMode
    (emHandshakeStatus s) (emSubStatus s) (emSubStatusReason s) (emLastSuccess s) (emLastFailed s) (emLastFailedReason s).

Definition getEventMeshWebhookAuth (subscription : Subscription) (defaultWebhookAuth : option WebhookAuth) : option WebhookAuth :=
  let config := Config (Spec subscription) in
  match config !! WebhookAuthType with
  | None => defaultWebhookAuth
  | Some authType =>
      Some (mkWebhookAuth (GetAuthType authType)
        (match config !! WebhookAuthGrantType with Some g => GetGrantType g | None => "" end)
        (default "" (config !! WebhookAuthClientID))
        (default "" (config !! WebhookAuthClientSecret))
        (default "" (config !! WebhookAuthTokenURL)))
  end.

Definition GetCleanedEventMeshSubscription (s : EMSubscription) : EMSubscription :=
  mkEMSubscription (emName s) (emEvents s) (emWebhookURL s) None (emQos s) (emExemptHandshake s) (emContentMode s)
    "" "" "" "" "" "".

(** ** Names *)

(** [None] is the panic when the hash does not fit. *)
Definition shortenNameAndAppendHash (name hash : string) (maxLength : Z) : option string :=
  if (maxLength <? Z.of_nat (len hash))%Z then None
  else
    let maxNameLen := (maxLength - Z.of_nat (len hash))%Z in
    Some (if (maxNameLen <=? 0)%Z then hash
          else (if (maxNameLen <? Z.of_nat (len name))%Z then take_bytes (Z.to_nat maxNameLen) name else name) +:+ hash).

Section names.
Context (sha256hex : string -> string).
Definition hashSubscriptionFullName (domainName namespace name : string) : string :=
  take_bytes 40 (sha256hex (domainName +:+ namespace +:+ name)).

Record NameMapper := mkNameMapper { domainName : string; maxLength : Z }.
Definition MapSubscriptionName (m : NameMapper) (subscriptionName subscriptionNamespace : string) : option string :=
  let hash := hashSubscriptionFullName (domainName m) subscriptionNamespace subscriptionName in
  shortenNameAndAppendHash subscriptionName hash (maxLength m).
End names.

(** ** Hashes *)

(** [int64(hash)] of a 64-bit word. *)
Definition int64_of_uint64 (h : Z) : Z := if (h <? 9223372036854775808)%Z then h else (h - 18446744073709551616)%Z.

Class Hashing := {
  hashSubscription : EMSubscription -> Z + goerr;
  hashWebhookAuth : option WebhookAuth -> Z + goerr
}.

Section hashes.
Context `{Hashing}.
Definition GetHash (s : EMSubscription) : Z + goerr :=
  match hashSubscription s with inl h => inl (int64_of_uint64 h) | inr e => inr e end.
Definition GetWebhookAuthHash (a : option WebhookAuth) : Z + goerr :=
  match hashWebhookAuth a with inl h => inl (int64_of_uint64 h) | inr e => inr e end.

Definition IsEventMeshSubModified (webhookAuthEnabled : bool) (s : EMSubscription) (hash : Z) : bool + goerr :=
  match GetHash (if webhookAuthEnabled then GetCleanedEventMeshSubscription s else s) with
  | inr e => inr e
  | inl newHash => inl (negb (newHash =? hash)%Z)
  end.
End hashes.

(** ** [pkg/backend/eventmesh/utils.go] *)
Definition getEventMeshSubject (source subject eventMeshPrefix : string) : string :=
  eventMeshPrefix +:+ "." +:+ source +:+ "." +:+ subject.
Definition isEventTypeSegmentsOverLimit (eventType : string) : bool :=
  (eventTypeSegmentsLimit <? length (Split "." eventType))%nat.

Definition statusCleanEventTypes (typeInfos : list EventTypeInfo) : slice EventType :=
  nil_if_empty ((fun i => mkEventType (tiOriginal i) (tiClean i)) <$> typeInfos).
Definition statusFinalEventTypes (typeInfos : list EventTypeInfo) : slice EventMeshTypes :=
  nil_if_empty ((fun i => mkEventMeshTypes (tiOriginal i) (tiProcessed i)) <$> typeInfos).

Definition upd_Backend (f : Backend -> Backend) (s : Subscription) : Subscription :=
  set_Status s (set_Backend (Status s) (f (sBackend (Status s)))).

Definition set_EmsTypes (t : slice EventMeshTypes) (b : Backend) : Backend :=
  mkBackend (Ev2hash b) (EventMeshHash b) (EventMeshLocalHash b) (WebhookAuthHash b) (ExternalSink b)
    (FailedActivation b) (APIRuleName b) (emSubscriptionStatus b) (bTypes b) t.
Definition set_Ev2hash (h : Z) (b : Backend) : Backend :=
  mkBackend h (EventMeshHash b) (EventMeshLocalHash b) (WebhookAuthHash b) (ExternalSink b)
    (FailedActivation b) (APIRuleName b) (emSubscriptionStatus b) (bTypes b) (EmsTypes b).
Definition set_EventMeshHash (h : Z) (b : Backend) : Backend :=
  mkBackend (Ev2hash b) h (EventMeshLocalHash b) (WebhookAuthHash b) (ExternalSink b)
    (FailedActivation b) (APIRuleName b) (emSubscriptionStatus b) (bTypes b) (EmsTypes b).
Definition set_EventMeshLocalHash (h : Z) (b : Backend) : Backend :=
  mkBackend (Ev2hash b) (EventMeshHash b) h (WebhookAuthHash b) (ExternalSink b)
    (FailedActivation b) (APIRuleName b) (emSubscriptionStatus b) (bTypes b) (EmsTypes b).
Definition set_WebhookAuthHash (h : Z) (b : Backend) : Backend :=
  mkBackend (Ev2hash b) (EventMeshHash b) (EventMeshLocalHash b) h (ExternalSink b)
    (FailedActivation b) (APIRuleName b) (emSubscriptionStatus b) (bTypes b) (EmsTypes b).
Definition set_emStatus (x : EventMeshSubscriptionStatus) (b : Backend) : Backend :=
  mkBackend (Ev2hash b) (EventMeshHash b) (EventMeshLocalHash b) (WebhookAuthHash b) (ExternalSink b)
    (FailedActivation b) (APIRuleName b) (Some x) (bTypes b) (EmsTypes b).

(** The status of the EventMesh subscription is copied field by field; the
    result tells whether a field changed. *)
Definition zeroEMStatus : EventMeshSubscriptionStatus := mkEMStatus "" "" "" "" "".
Definition serverStatus (s : EMSubscription) : EventMeshSubscriptionStatus :=
  mkEMStatus (emSubStatus s) (emSubStatusReason s) (emLastSuccess s) (emLastFailed s) (emLastFailedReason s).
Definition setEmsSubscriptionStatus (subscription : Subscription) (s : EMSubscription) : Subscription * bool :=
  let st0 := default zeroEMStatus (emSubscriptionStatus (sBackend (Status subscription))) in
  let step (x y : string) (changed : bool) : string * bool := if negb (String.eqb x y) then (y, true) else (x, changed) in
  let '(status, c) := step (emStatus st0) (emSubStatus s) false in
  let '(reason, c) := step (emStatusReason st0) (emSubStatusReason s) c in
  let '(success, c) := step (emLastSuccessfulDelivery st0) (emLastSuccess s) c in
  let '(failed, c) := step (emLastFailedDelivery st0) (emLastFailed s) c in
  let '(failedReason, c) := step (emLastFailedDeliveryReason st0) (emLastFailedReason s) c in
  (upd_Backend (set_emStatus (mkEMStatus status reason success failed failedReason)) subscription, c).

(** * Theorems *)

(** C38: the name of a Subscription on EventMesh always fits the limit and ends with the whole
    hash of its domain, namespace and name; the mapper never panics; and the
    name is cut only when it does not fit. *)
Theorem MapSubscriptionName_spec (sha : string -> string) domain name namespace :
  (forall s, len (sha s) = 64) ->
  exists prefix, MapSubscriptionName sha (mkNameMapper domain MaxSubscriptionNameLength) name namespace =
      Some (prefix +:+ hashSubscriptionFullName sha domain namespace name) /\
    len (hashSubscriptionFullName sha domain namespace name) = 40 /\
    len prefix <= 10 /\ prefix = take_bytes 10 name.
Proof.
  intros Hsha. set (h := hashSubscriptionFullName sha domain namespace name).
  assert (len h = 40) as Hh by (subst h; unfold hashSubscriptionFullName; by rewrite len_take_bytes, Hsha).
  exists (take_bytes 10 name). unfold MapSubscriptionName. cbn zeta. fold h.
  unfold shortenNameAndAppendHash, MaxSubscriptionNameLength. cbn [maxLength domainName]. fold h. rewrite Hh.
  change (50 <? Z.of_nat 40)%Z with false. change (50 - Z.of_nat 40)%Z with 10%Z. change (10 <=? 0)%Z with false.
  cbn zeta. rewrite len_take_bytes. split_and!; [|done|lia|done]. do 2 f_equal.
  destruct (Z.ltb_spec 10 (Z.of_nat (len name))); [done|].
  rewrite <- (take_drop_bytes 10 name) at 1. replace (drop_bytes 10 name) with ""; [by rewrite app_nil|].
  symmetry. assert (len (take_bytes 10 name) = len name) as Hl by (rewrite len_take_bytes; lia).
  pose proof (take_drop_bytes 10 name) as Htd. apply (f_equal len) in Htd. rewrite len_app, Hl in Htd.
  destruct (drop_bytes 10 name); [done|cbn in Htd; lia].
Qed.

Lemma MapSubscriptionName_spec_witness :
  let sha := fun _ : string => "0123456789012345678901234567890123456789012345678901234567890123" in
  exists prefix, MapSubscriptionName sha (mkNameMapper "kyma.example.com" MaxSubscriptionNameLength) "orders" "ns" =
      Some (prefix +:+ hashSubscriptionFullName sha "kyma.example.com" "ns" "orders") /\
    len (hashSubscriptionFullName sha "kyma.example.com" "ns" "orders") = 40 /\
    len prefix <= 10 /\ prefix = take_bytes 10 "orders".
Proof. intros sha. apply MapSubscriptionName_spec. intros s. reflexivity. Defined.

Lemma setEmsSubscriptionStatus_spec sub s :
  setEmsSubscriptionStatus sub s =
    (upd_Backend (set_emStatus (serverStatus s)) sub,
     negb (bool_decide (default zeroEMStatus (emSubscriptionStatus (sBackend (Status sub))) = serverStatus s))).
Proof.
  unfold setEmsSubscriptionStatus. set (st0 := default zeroEMStatus _).
  assert (forall x y c, (if negb (String.eqb x y) then (y, true) else (x, c)) = (y, c || negb (String.eqb x y))) as Hstep.
  { intros x y c. destruct (String.eqb_spec x y) as [->|]; cbn; by rewrite ?orb_false_r, ?orb_true_r. }
  cbv zeta beta. rewrite !Hstep. f_equal.
  destruct (bool_decide_reflect (st0 = serverStatus s)) as [->|Hne]; cbn [negb].
  - cbn. by rewrite !String.eqb_refl.
  - apply not_false_iff_true. intros Hall. apply Hne.
    apply orb_false_iff in Hall as [[[[[_ H1]%orb_false_iff H2]%orb_false_iff H3]%orb_false_iff H4]%orb_false_iff H5].
    rewrite negb_false_iff, String.eqb_eq in *. unfold serverStatus. destruct st0; cbn in *. by subst.
Qed.

Lemma int64_of_uint64_inj a b : (0 <= a < 18446744073709551616)%Z -> (0 <= b < 18446744073709551616)%Z ->
  int64_of_uint64 a = int64_of_uint64 b -> a = b.
Proof. unfold int64_of_uint64. destruct (Z.ltb_spec a 9223372036854775808), (Z.ltb_spec b 9223372036854775808); lia. Qed.

Lemma GetCleaned_idem s : GetCleanedEventMeshSubscription (GetCleanedEventMeshSubscription s) = GetCleanedEventMeshSubscription s.
Proof. done. Qed.

(** The conversion never puts a status on the EventMesh subscription. *)
Lemma getEventMeshEvents_length l tm ns src : length (getEventMeshEvents l tm ns src) = length l.
Proof. unfold getEventMeshEvents. by rewrite length_fmap. Qed.
