(* ===== verification/EventMesh.v ===== *)
(** * EventMesh backend: [pkg/backend/eventmesh/eventmesh.go]

    The backend keeps a client and the defaults of [Initialize].  Its
    operations mutate the status of the Kyma Subscription they are given, also when they fail, so
    the state of a run holds both.  The requests to the EventMesh server are the events of
    [emEvent]; an environment [EMEnv] answers them. *)

From S2P Require Import Prelude Effects GoStrings Url Errors Utils Subscription EventTypes Validator Config EventMeshUtils.
From stdpp Require Import pretty.

(** ** State *)
Record OAuth2ClientCredentials := mkCredentials { ocClientID : string; ocClientSecret : string; ocTokenURL : string; ocCertsURL : string }.

Record EventMesh := mkEventMesh {
  emClient : bool; (* em.client != nil *)
  emDefaultAuth : option WebhookAuth;
  emProtocolSettings : option ProtocolSettings;
  emNamespace : string;
  eventMeshPrefix : string;
  oAuth2credentials : option OAuth2ClientCredentials;
  SubNameMapper : NameMapper
}.
Definition NewEventMesh (credentials : option OAuth2ClientCredentials) (mapper : NameMapper) : EventMesh :=
  mkEventMesh false None None "" "" credentials mapper.

(** [types.Response]: the status code and the message. *)
Record Response := mkResponse { StatusCode : Z; Message : string }.

Inductive emEvent :=
  | EMNewClient (r : unit + goerr)
  | EMGet (name : string) (r : (option EMSubscription * Response) + goerr)
  | EMCreate (s : EMSubscription) (r : Response + goerr)
  | EMUpdate (name : string) (auth : option WebhookAuth) (r : Response + goerr)
  | EMDelete (name : string) (r : Response + goerr)
  | EMUpdateState (name action : string) (r : Response + goerr).

Record EMEnv := mkEMEnv {
  e_NewClient : list emEvent -> unit + goerr;
  e_Get : list emEvent -> string -> (option EMSubscription * Response) + goerr;
  e_Create : list emEvent -> EMSubscription -> Response + goerr;
  e_Update : list emEvent -> string -> option WebhookAuth -> Response + goerr;
  e_Delete : list emEvent -> string -> Response + goerr;
  e_UpdateState : list emEvent -> string -> string -> Response + goerr
}.

(** The backend and the Kyma Subscription of the call. *)
Record EMState := mkEMState { em : EventMesh; kymaSub : Subscription }.
Definition upd_sub (f : Subscription -> Subscription) (s : EMState) : EMState := mkEMState (em s) (f (kymaSub s)).
Definition upd_em (f : EventMesh -> EventMesh) (s : EMState) : EMState := mkEMState (f (em s)) (kymaSub s).

Definition StatusOK : Z := 200.
Definition StatusAccepted : Z := 202.
Definition StatusNoContent : Z := 204.
Definition StatusNotFound : Z := 404.
Definition StatusConflict : Z := 409.
Definition StateActionPause := "pause".
Definition StateActionResume := "resume".

Definition HTTPStatusError (code : Z) : goerr := GoErr (EHTTPStatus code) (pretty code) [].
(** [fmt.Errorf("msg: %w; %v", HTTPStatusError{...}, resp.Message)]. *)
Definition status_error (m : string) (r : Response) : goerr :=
  GoErr ENew (m +:+ ": " +:+ Error (HTTPStatusError (StatusCode r)) +:+ "; " +:+ Message r) [HTTPStatusError (StatusCode r)].

Definition nilPointer : string := "invalid memory address or nil pointer dereference".

Definition getWebHookAuth (credentials : OAuth2ClientCredentials) : WebhookAuth :=
  mkWebhookAuth AuthTypeClientCredentials GrantTypeClientCredentials (ocClientID credentials)
    (ocClientSecret credentials) (ocTokenURL credentials).

Section eventmesh.
Context (sha256hex : string -> string) `{Hashing} (env : EMEnv).
(** [featureflags.IsEventingWebhookAuthEnabled()]. *)
Context (webhookAuthEnabled : bool).

Abbreviation EM := (M (World EMState emEvent)).

(** A method of [em.client], an interface that is nil before [Initialize]. *)
Definition clientCall {R} (ev : R -> emEvent) (f : list emEvent -> R) : EM R :=
  c <- gets (fun s => emClient (em s)) ;;
  if (c : bool) then call ev f else panicM nilPointer.

Definition Initialize (cfg : EMConfig) : EM unit :=
  c <- gets (fun s => emClient (em s)) ;;
  if (c : bool) then retM tt
  else
    r <- call EMNewClient (fun h => e_NewClient env h) ;; okOr r ;;;
    puts (upd_em (fun e => mkEventMesh true (emDefaultAuth e) (emProtocolSettings e) (emNamespace e) (eventMeshPrefix e)
      (oAuth2credentials e) (SubNameMapper e))) ;;;
    creds <- gets (fun s => oAuth2credentials (em s)) ;;
    creds <- orPanic creds nilPointer ;;
    puts (upd_em (fun e => mkEventMesh true (Some (getWebHookAuth creds))
      (Some (mkProtocolSettings (ContentMode cfg) (ExemptHandshake cfg) (Qos cfg)))
      (BEBNamespace cfg) (emEventTypePrefix cfg) (oAuth2credentials e) (SubNameMapper e))).

Definition SetCredentials (credentials : OAuth2ClientCredentials) : EM unit :=
  puts (upd_em (fun e => mkEventMesh (emClient e) (Some (getWebHookAuth credentials)) (emProtocolSettings e) (emNamespace e)
    (eventMeshPrefix e) (oAuth2credentials e) (SubNameMapper e))).

(** ** Requests *)
Definition getSubscription (name : string) : EM (option EMSubscription) :=
  r <- clientCall (EMGet name) (fun h => e_Get env h name) ;;
  match r with
  | inr err => errM (wrapf "get subscription failed" err)
  | inl (eventMeshSubscription, resp) =>
      if negb (StatusCode resp =? StatusOK)%Z then errM (status_error "get subscription failed" resp)
      else retM eventMeshSubscription
  end.

Definition getSubscriptionIgnoreNotFound (name : string) : EM (option EMSubscription) :=
  r <- tryM (getSubscription name) ;;
  match r with
  | inl eventMeshServerSub => retM eventMeshServerSub
  | inr err => if negb (errors_Is err (EHTTPStatus StatusNotFound)) then errM err else retM None
  end.

Definition deleteSubscription (name : string) : EM unit :=
  r <- clientCall (EMDelete name) (fun h => e_Delete env h name) ;;
  match r with
  | inr err => errM (wrapf "delete subscription failed" err)
  | inl resp =>
      if negb (StatusCode resp =? StatusNoContent)%Z && negb (StatusCode resp =? StatusNotFound)%Z
      then errM (status_error "delete subscription failed" resp) else retM tt
  end.

Definition createSubscription (subscription : EMSubscription) : EM unit :=
  r <- clientCall (EMCreate subscription) (fun h => e_Create env h subscription) ;;
  match r with
  | inr err => errM (wrapf "create subscription failed" err)
  | inl createResponse =>
      if (StatusAccepted <? StatusCode createResponse)%Z && negb (StatusCode createResponse =? StatusConflict)%Z
      then errM (status_error "create subscription failed" createResponse) else retM tt
  end.

Definition createAndGetSubscription (subscription : EMSubscription) : EM (option EMSubscription) :=
  createSubscription subscription ;;; getSubscription (emName subscription).

(** ** Event types *)
Fixpoint processTypes (types : list string) (kymaSubscription : Subscription) (cleaner : Cleaner) (prefix : string)
    : list EventTypeInfo + goerr :=
  match types with
  | [] => inl []
  | utype :: types' =>
      if String.eqb (TypeMatching (Spec kymaSubscription)) TypeMatchingExact then
        match processTypes types' kymaSubscription cleaner prefix with
        | inl l => inl (mkTypeInfo utype utype utype :: l) | inr e => inr e end
      else match @CleanSource cleaner (Source (Spec kymaSubscription)) with
      | inr err => inr err
      | inl cleanedSource => match @CleanEventType cleaner utype with
        | inr err => inr err
        | inl cleanedType =>
            let eventMeshSubject := getEventMeshSubject cleanedSource cleanedType prefix in
            if isEventTypeSegmentsOverLimit eventMeshSubject
            then inr (GoErr ENew ("EventMesh subject exceeds the limit of segments, max number of segements allowed: 7, "
                        +:+ Error ErrEMSubjectInvalid) [ErrEMSubjectInvalid])
            else match processTypes types' kymaSubscription cleaner prefix with
                 | inl l => inl (mkTypeInfo utype cleanedType eventMeshSubject :: l) | inr e => inr e end
        end end
  end.
Definition getProcessedEventTypes (e : EventMesh) (kymaSubscription : Subscription) (cleaner : Cleaner)
    : list EventTypeInfo + goerr :=
  processTypes (GetUniqueTypes kymaSubscription) kymaSubscription cleaner (eventMeshPrefix e).

(** ** Conversion ([utils.ConvertKymaSubToEventMeshSub]) *)
Definition ConvertKymaSubToEventMeshSub (subscription : Subscription) (typeInfos : list EventTypeInfo)
    (apiRule : option APIRuleView) (e : EventMesh) : EM EMSubscription :=
  ps <- orPanic (emProtocolSettings e) nilPointer ;;
  let s := getDefaultSubscriptionV1Alpha2 ps in
  name <- orPanic (MapSubscriptionName sha256hex (SubNameMapper e) (Name (meta subscription)) (Namespace (meta subscription)))
    "max name length used for EventMesh subscription mapper is not large enough to hold the hash" ;;
  let s := setEventMeshProtocolSettings subscription s in
  let events := getEventMeshEvents typeInfos (TypeMatching (Spec subscription)) (emNamespace e) (Source (Spec subscription)) in
  url <- match apiRule with
         | Some apiRule =>
             match GetExposedURLFromAPIRule apiRule (Sink (Spec subscription)) with
             | inl url => retM url
             | inr err => errM (wrapf "get APIRule exposed URL failed" err)
             end
         | None => match ParseRequestURI (Sink (Spec subscription)) with
                   | inr err => errM (wrapf "get APIRule exposed URL failed" err)
                   | inl _ => panicM nilPointer
                   end
         end ;;
  retM (mkEMSubscription name events url (getEventMeshWebhookAuth subscription (emDefaultAuth e)) (emQos s)
    (emExemptHandshake s) (emContentMode s) "" "" "" "" "" "").

(** ** The steps of a synchronisation *)
Definition failed_delete (err : goerr) : goerr := wrapf "failed to delete subscription on EventMesh" err.

(** [if err := em.deleteSubscription(name); err != nil { return false, fmt.Errorf(...) }]. *)
Definition deleteForRecreation (name : string) : EM bool :=
  r <- errOf (deleteSubscription name) ;;
  match r with Some err => errM (failed_delete err) | None => retM true end.

Definition handleKymaSubModified (eventMeshSub : EMSubscription) : EM bool :=
  b <- gets (fun s => sBackend (Status (kymaSub s))) ;;
  let hash := if webhookAuthEnabled then EventMeshLocalHash b else Ev2hash b in
  isModified <- okOr (IsEventMeshSubModified webhookAuthEnabled eventMeshSub hash) ;;
  if (isModified : bool) then deleteForRecreation (emName eventMeshSub) else retM false.

Definition handleEventMeshSubModified (eventMeshSub : EMSubscription) : EM bool :=
  b <- gets (fun s => sBackend (Status (kymaSub s))) ;;
  isModified <- okOr (IsEventMeshSubModified webhookAuthEnabled (GetCleanedEventMeshSubscription eventMeshSub) (EventMeshHash b)) ;;
  if (isModified : bool) then deleteForRecreation (emName eventMeshSub) else retM false.

Definition handleCreateEventMeshSub (eventMeshSub : EMSubscription) : EM (option EMSubscription) :=
  puts (upd_sub (fun s => set_Status s (InitializeEventTypes (Status s)))) ;;;
  r <- tryM (createAndGetSubscription eventMeshSub) ;;
  match r with
  | inr err => errM (wrapf "failed to get subscription from EventMesh" err)
  | inl eventMeshServerSub => retM eventMeshServerSub
  end.

(** One request of the update of the webhook authentication: whether to go on. *)
Definition authStep (what : string) (expected : Z) (r : Response + goerr) : EM bool :=
  match r with
  | inr err => errM (wrapf ("failed to " +:+ what) err)
  | inl resp =>
      if (StatusCode resp =? StatusNotFound)%Z then retM false
      else if negb (StatusCode resp =? expected)%Z then errM (status_error ("failed to " +:+ what) resp)
      else retM true
  end.

Definition handleWebhookAuthChange (eventMeshSub : EMSubscription) : EM unit :=
  hash <- match GetWebhookAuthHash (emWebhookAuth eventMeshSub) with
          | inr err => errM (wrapf "failed to get the EventMesh WebhookAuth hash" err)
          | inl h => retM h
          end ;;
  b <- gets (fun s => sBackend (Status (kymaSub s))) ;;
  if (hash =? WebhookAuthHash b)%Z then retM tt
  else
    let name := emName eventMeshSub in
    r <- clientCall (EMUpdateState name StateActionPause) (fun h => e_UpdateState env h name StateActionPause) ;;
    paused <- authStep "pause EventMesh subscription" StatusAccepted r ;;
    if negb paused then retM tt
    else
      r <- clientCall (EMUpdate name (emWebhookAuth eventMeshSub)) (fun h => e_Update env h name (emWebhookAuth eventMeshSub)) ;;
      updated <- authStep "update webhook auth config" StatusNoContent r ;;
      if negb updated then retM tt
      else
        r <- clientCall (EMUpdateState name StateActionResume) (fun h => e_UpdateState env h name StateActionResume) ;;
        authStep "resume EventMesh subscription" StatusAccepted r ;;; retM tt.

Definition setEventMeshLocalSubHashInStatus (eventMeshSubscription : EMSubscription) : EM unit :=
  newHash <- okOr (GetHash eventMeshSubscription) ;;
  puts (upd_sub (upd_Backend (set_Ev2hash newHash))) ;;;
  newHash <- okOr (GetHash (GetCleanedEventMeshSubscription eventMeshSubscription)) ;;
  puts (upd_sub (upd_Backend (set_EventMeshLocalHash newHash))).

Definition setEventMeshServerSubHashInStatus (eventMeshSubscription : option EMSubscription) : EM unit :=
  s <- orPanic eventMeshSubscription nilPointer ;;
  newHash <- okOr (GetHash (GetCleanedEventMeshSubscription s)) ;;
  puts (upd_sub (upd_Backend (set_EventMeshHash newHash))).

Definition setWebhookAuthHashInStatus (webhookAuth : option WebhookAuth) : EM unit :=
  newHash <- okOr (GetWebhookAuthHash webhookAuth) ;;
  puts (upd_sub (upd_Backend (set_WebhookAuthHash newHash))).

Definition updateHashesInStatus (eventMeshLocalSubscription : EMSubscription) (eventMeshServerSubscription : option EMSubscription) : EM unit :=
  setEventMeshLocalSubHashInStatus eventMeshLocalSubscription ;;;
  setEventMeshServerSubHashInStatus eventMeshServerSubscription ;;;
  setWebhookAuthHashInStatus (emWebhookAuth eventMeshLocalSubscription).

Definition handleKymaSubStatusUpdate (eventMeshServerSub : option EMSubscription) (eventMeshSub : EMSubscription)
    (typesInfo : list EventTypeInfo) : EM bool :=
  puts (upd_sub (fun s => set_Status s (set_Types (Status s) (statusCleanEventTypes typesInfo)))) ;;;
  puts (upd_sub (upd_Backend (set_EmsTypes (statusFinalEventTypes typesInfo)))) ;;;
  r <- errOf (updateHashesInStatus eventMeshSub eventMeshServerSub) ;;
  match r with
  | Some err => errM (wrapf "failed to update hashes in subscription status" err)
  | None =>
      server <- orPanic eventMeshServerSub nilPointer ;;
      s <- gets kymaSub ;;
      let '(s', statusChanged) := setEmsSubscriptionStatus s server in
      puts (upd_sub (fun _ => s')) ;;;
      retM statusChanged
  end.

(** [SyncSubscription]: whether the status of the Kyma Subscription was changed. *)
Definition SyncSubscription (cleaner : Cleaner) (apiRule : option APIRuleView) : EM bool :=
  subscription <- gets kymaSub ;;
  e <- gets em ;;
  typesInfo <- okOr (getProcessedEventTypes e subscription cleaner) ;;
  eventMeshSub <- ConvertKymaSubToEventMeshSub subscription typesInfo apiRule e ;;
  isKymaSubModified <- handleKymaSubModified eventMeshSub ;;
  eventMeshServerSub <- (if negb isKymaSubModified then getSubscriptionIgnoreNotFound (emName eventMeshSub) else retM None) ;;
  isEventMeshSubModified <-
    match eventMeshServerSub with
    | None => retM false
    | Some server =>
        m <- handleEventMeshSubModified server ;;
        (if webhookAuthEnabled && negb m then handleWebhookAuthChange eventMeshSub else retM tt) ;;;
        retM m
    end ;;
  eventMeshServerSub <-
    (if isKymaSubModified || isEventMeshSubModified || match eventMeshServerSub with None => true | Some _ => false end
     then handleCreateEventMeshSub eventMeshSub else retM eventMeshServerSub) ;;
  isUpdated <- handleKymaSubStatusUpdate eventMeshServerSub eventMeshSub typesInfo ;;
  retM (isKymaSubModified || isEventMeshSubModified || isUpdated).

Definition DeleteSubscription : EM unit :=
  s <- gets id ;;
  let subscription := kymaSub s in
  name <- orPanic (MapSubscriptionName sha256hex (SubNameMapper (em s)) (Name (meta subscription)) (Namespace (meta subscription)))
    "max name length used for EventMesh subscription mapper is not large enough to hold the hash" ;;
  deleteSubscription name.
End eventmesh.
