(* ===== verification/EventMeshFacts.v ===== *)
(** * EventMesh backend: what its operations do *)

From S2P Require Import Prelude Effects GoStrings Url Errors Utils Subscription EventTypes Validator Config EventMeshUtils EventMesh.
From Stdlib Require Import Ascii.

(** ** Event types *)
Section types.
Implicit Types (e : EventMesh) (sub : Subscription).

Definition segments (s : string) : nat := length (Split "." s).

Lemma segments_app a b : segments (a +:+ "." +:+ b) = segments a + segments b.
Proof. unfold segments. change ("." +:+ b) with (String "." b). by rewrite Split_app, length_app. Qed.

Definition processed_ok e sub (i : EventTypeInfo) : Prop :=
  if String.eqb (TypeMatching (Spec sub)) TypeMatchingExact
  then tiClean i = tiOriginal i /\ tiProcessed i = tiOriginal i
  else EventMesh_CleanEventType (tiOriginal i) = inl (tiClean i) /\
       (exists source, EventMesh_CleanSource (Source (Spec sub)) = inl source /\
          tiProcessed i = getEventMeshSubject source (tiClean i) (eventMeshPrefix e)) /\
       segments (tiProcessed i) <= eventTypeSegmentsLimit.

(** The facts about the EventMesh cleaner that matter here. *)
Lemma cleaned_source source : segments (keep_bytes is_alnum source) = 1.
Proof. unfold segments. rewrite Split_none; [done|]. by apply keep_bytes_HasByte. Qed.

Lemma cleaned_type t : segments (keep_bytes type_byte (getMergedSegments t)) <= 3.
Proof.
  unfold segments. rewrite Split_keep_bytes by done. rewrite length_fmap, getMergedSegments_segments. cbn zeta.
  destruct (Nat.ltb_spec 3 (length (Split "." t))); cbn [length]; lia.
Qed.

Lemma processTypes_spec types e sub :
  match processTypes types sub EventMeshCleaner (eventMeshPrefix e) with
  | inl l => tiOriginal <$> l = types /\ Forall (processed_ok e sub) l
  | inr err => TypeMatching (Spec sub) <> TypeMatchingExact /\ errors_Is err (kind_of ErrEMSubjectInvalid) = true /\
               3 < segments (eventMeshPrefix e)
  end.
Proof.
  induction types as [|t types IH]; cbn [processTypes]; [done|].
  destruct (processTypes types sub EventMeshCleaner (eventMeshPrefix e)) as [l|err] eqn:E.
  - destruct IH as [Ho Hl]. destruct (String.eqb (TypeMatching (Spec sub)) TypeMatchingExact) eqn:Em.
    + split; [by cbn; rewrite Ho|]. constructor; [|done]. unfold processed_ok. by rewrite Em.
    + cbn [CleanSource CleanEventType EventMeshCleaner EventMesh_CleanSource EventMesh_CleanEventType].
      set (subject := getEventMeshSubject _ _ _). destruct (isEventTypeSegmentsOverLimit subject) eqn:Eo.
      * split_and!; [by apply String.eqb_neq|done|].
        unfold isEventTypeSegmentsOverLimit, eventTypeSegmentsLimit in Eo. apply Nat.ltb_lt in Eo.
        change (length (Split "." subject)) with (segments subject) in Eo. subst subject.
        unfold getEventMeshSubject in Eo. rewrite !segments_app, cleaned_source in Eo. pose proof (cleaned_type t). lia.
      * split; [by cbn; rewrite Ho|]. constructor; [|done]. unfold processed_ok. rewrite Em. cbn [tiClean tiOriginal tiProcessed].
        split_and!; [done|by eexists|]. unfold isEventTypeSegmentsOverLimit in Eo. apply Nat.ltb_ge in Eo. exact Eo.
  - destruct IH as (Hm & He & Hp). rewrite (proj2 (String.eqb_neq _ _) Hm).
    cbn [CleanSource CleanEventType EventMeshCleaner EventMesh_CleanSource EventMesh_CleanEventType].
    destruct (isEventTypeSegmentsOverLimit _); done.
Qed.

(** with the EventMesh cleaner, processing the event types of a Subscription gives one entry
    per distinct type, in order; an exact type is kept as it is, any other one is
    cleaned and prefixed and has at most seven segments; it fails only when the prefix has more than
    three segments, and says that the subject is invalid. *)
Theorem getProcessedEventTypes_spec e sub :
  match getProcessedEventTypes e sub EventMeshCleaner with
  | inl l => tiOriginal <$> l = GetUniqueTypes sub /\ Forall (processed_ok e sub) l
  | inr err => TypeMatching (Spec sub) <> TypeMatchingExact /\ errors_Is err (kind_of ErrEMSubjectInvalid) = true /\
               3 < segments (eventMeshPrefix e)
  end.
Proof. apply processTypes_spec. Qed.
End types.

(** ** Synchronisation *)
Section sync.
Context (sha : string -> string) `{Hashing} (env : EMEnv) (flag : bool) (cleaner : Cleaner).
Abbreviation EMWorld := (World EMState emEvent).
Implicit Types (w : EMWorld) (s : Subscription) (local : EMSubscription).

(** The status after a synchronisation: the types and the hashes of the local and of the server's
    subscription. *)
Definition synced (infos : list EventTypeInfo) (local server : EMSubscription) (h1 h2 h3 h4 : Z) (s : Subscription) : Subscription :=
  upd_Backend (fun b => set_emStatus (serverStatus server) (set_WebhookAuthHash h4 (set_EventMeshHash h3
    (set_EventMeshLocalHash h2 (set_Ev2hash h1 (set_EmsTypes (statusFinalEventTypes infos) b))))))
    (set_Status s (set_Types (Status s) (statusCleanEventTypes infos))).

Definition hashes local (server : EMSubscription) h1 h2 h3 h4 : Prop :=
  GetHash local = inl h1 /\ GetHash (GetCleanedEventMeshSubscription local) = inl h2 /\
  GetHash (GetCleanedEventMeshSubscription server) = inl h3 /\ GetWebhookAuthHash (emWebhookAuth local) = inl h4.

Lemma handleKymaSubStatusUpdate_Ok server local infos w b w' :
  handleKymaSubStatusUpdate server local infos w = (Ok b, w') ->
  exists srv h1 h2 h3 h4, server = Some srv /\ hashes local srv h1 h2 h3 h4 /\
    w' = mkWorld (mkEMState (em (st w)) (synced infos local srv h1 h2 h3 h4 (kymaSub (st w)))) (hist w) /\
    b = negb (bool_decide (default zeroEMStatus (emSubscriptionStatus (sBackend (Status (kymaSub (st w))))) = serverStatus srv)).
Proof.
  unfold handleKymaSubStatusUpdate, updateHashesInStatus, setEventMeshLocalSubHashInStatus,
    setEventMeshServerSubHashInStatus, setWebhookAuthHashInStatus, errOf, bindM, puts, gets, okOr, orPanic, hashes, retM, errM, panicM.
  destruct server as [srv|];
    [|destruct (GetHash local) as [h1|]; [|intros [=]]; destruct (GetHash (GetCleanedEventMeshSubscription local)); intros [=]].
  destruct (GetHash local) as [h1|] eqn:E1; [|intros [=]].
  destruct (GetHash (GetCleanedEventMeshSubscription local)) as [h2|] eqn:E2; [|intros [=]].
  destruct (GetHash (GetCleanedEventMeshSubscription srv)) as [h3|] eqn:E3; [|intros [=]].
  destruct (GetWebhookAuthHash (emWebhookAuth local)) as [h4|] eqn:E4; [|intros [=]].
  cbv beta iota. rewrite setEmsSubscriptionStatus_spec. intros [= <- <-].
  exists srv, h1, h2, h3, h4. by split_and!.
Qed.

(** *** Traces

    [allowed e prev]: the request [e] may follow on the requests [prev] of the
    same run, the last one first. *)
Definition gone (r : Response) : Prop := StatusCode r = StatusNoContent \/ StatusCode r = StatusNotFound.

(** The last request showed that there is no subscription [name], or deleted the
    subscription that was found under that name. *)
Definition absent (name : string) (prev : list emEvent) : Prop :=
  match prev with
  | EMDelete n (inl r) :: before => gone r /\
      (n = name \/ exists server g b, before = EMGet name (inl (Some server, g)) :: b /\ n = emName server)
  | EMGet n (inl (server, r)) :: _ => n = name /\ (StatusCode r = StatusNotFound \/ StatusCode r = StatusOK /\ server = None)
  | EMGet n (inr err) :: _ => n = name /\ errors_Is err (EHTTPStatus StatusNotFound) = true
  | _ => False
  end.

Definition allowed (e : emEvent) (prev : list emEvent) : Prop :=
  match e with
  | EMCreate s _ => absent (emName s) prev
  | EMUpdate n _ _ => exists r b, prev = EMUpdateState n StateActionPause (inl r) :: b /\ StatusCode r = StatusAccepted
  | EMUpdateState n action _ => action = StateActionPause \/
      action = StateActionResume /\ exists a r b, prev = EMUpdate n a (inl r) :: b /\ StatusCode r = StatusNoContent
  | _ => True
  end.

Fixpoint allowed_trace (l : list emEvent) : Prop :=
  match l with [] => True | e :: b => allowed e b /\ allowed_trace b end.

(** The Subscription in the state changes in its status only. *)
Definition same_object (w0 w : EMWorld) : Prop :=
  em (st w) = em (st w0) /\ Spec (kymaSub (st w)) = Spec (kymaSub (st w0)) /\ meta (kymaSub (st w)) = meta (kymaSub (st w0)).

Definition on_trace w0 (P : list emEvent -> Prop) w : Prop :=
  same_object w0 w /\ exists l, hist w = (l ++ hist w0)%list /\ allowed_trace l /\ P l.
Definition anything (prev : list emEvent) : Prop := True.
Definition last_is (e : emEvent) (P : list emEvent -> Prop) (prev : list emEvent) : Prop := exists b, prev = e :: b /\ P b.

Lemma on_trace_weaken w0 (P Q : list emEvent -> Prop) w : (forall e, P e -> Q e) -> on_trace w0 P w -> on_trace w0 Q w.
Proof. intros H1 (Hs & l & Hl & Ha & HP). split; [done|]. exists l. eauto. Qed.

Lemma triple_clientCall w0 P {R} (ev : R -> emEvent) f :
  (forall prev r, P prev -> allowed (ev r) prev) ->
  triple (on_trace w0 P) (clientCall ev f) (fun r => on_trace w0 (last_is (ev r) P)) (on_trace w0 anything).
Proof.
  intros Ha w (Hs & l & Hl & Htr & HP). unfold clientCall, bindM, gets. destruct (emClient (em (st w))); cbn.
  - split; [done|]. exists (ev (f (hist w)) :: l). cbn. rewrite Hl. split_and!; [done|by apply Ha|done|by eexists].
  - split; [done|]. by exists l.
Qed.

(** Code without requests: it keeps the object and the log. *)
Definition pure_step {A} (c : M EMWorld A) : Prop := forall w, same_object w (c w).2 /\ hist (c w).2 = hist w.

Lemma triple_pure_step w0 P {A} (c : M EMWorld A) : pure_step c -> triple (on_trace w0 P) c (fun _ => on_trace w0 P) (on_trace w0 anything).
Proof.
  intros Hc w (Hs & l & Hl & Htr & HP). specialize (Hc w). destruct (c w) as [o w']. cbn [snd] in Hc.
  destruct Hc as ((He & Hsp & Hm) & Hh). destruct Hs as (He0 & Hsp0 & Hm0).
  assert (same_object w0 w') as Hs' by (unfold same_object; split_and!; congruence).
  destruct o; (split; [done|]); exists l; rewrite Hh; unfold anything; done.
Qed.

Lemma triple_any w0 P {A} (c : M EMWorld A) Q :
  triple (on_trace w0 anything) c Q (on_trace w0 anything) -> triple (on_trace w0 P) c Q (on_trace w0 anything).
Proof. intros H1. eapply triple_weaken; [exact H1| |done|done]. intros w. by apply on_trace_weaken. Qed.

Lemma pure_okOr {R} (r : R + goerr) : pure_step (okOr r).
Proof. intros w. by destruct r. Qed.
Lemma pure_orPanic {R} (r : option R) m : pure_step (orPanic r m).
Proof. intros w. by destruct r. Qed.
Lemma pure_gets {A} (f : EMState -> A) : pure_step (gets f).
Proof. done. Qed.
Lemma pure_ret {A} (a : A) : pure_step (retM a).
Proof. done. Qed.
Lemma pure_err {A} err : pure_step (@errM _ A err).
Proof. done. Qed.
Lemma pure_panic {A} m : pure_step (@panicM _ A m).
Proof. done. Qed.
Lemma pure_puts f : (forall s : EMState, em (f s) = em s /\ Spec (kymaSub (f s)) = Spec (kymaSub s) /\ meta (kymaSub (f s)) = meta (kymaSub s)) ->
  pure_step (puts f).
Proof. intros Hf w. split; [apply Hf|done]. Qed.
Lemma pure_bind {A B} (c : M EMWorld A) (k : A -> M EMWorld B) : pure_step c -> (forall a, pure_step (k a)) -> pure_step (bindM c k).
Proof.
  intros Hc Hk w. unfold bindM. specialize (Hc w). destruct (c w) as [[a|err|m] w1]; cbn [snd] in *; [|done..].
  specialize (Hk a w1). destruct Hc as ((H1 & H2 & H3) & H4), Hk as ((H5 & H6 & H7) & H8). unfold same_object.
  split_and!; congruence.
Qed.
Lemma pure_errOf (c : M EMWorld unit) : pure_step c -> pure_step (errOf c).
Proof. intros Hc w. specialize (Hc w). unfold errOf. by destruct (c w) as [[a|err|m] w1]. Qed.
#[local] Hint Resolve pure_okOr pure_orPanic pure_gets pure_ret pure_err pure_panic : keeps.
Ltac pure_steps := repeat first
  [ solve [auto with keeps nocore] | apply pure_bind; [|intros ?] | apply pure_errOf | apply pure_puts; done
  | match goal with |- pure_step (match ?x with _ => _ end) => destruct x end ].

Lemma Convert_pure s infos apiRule e : pure_step (ConvertKymaSubToEventMeshSub sha s infos apiRule e).
Proof. unfold ConvertKymaSubToEventMeshSub. pure_steps. Qed.

Lemma setStatus_pure srv :
  pure_step (s <- gets kymaSub ;; let '(s', b) := setEmsSubscriptionStatus s srv in puts (upd_sub (fun _ => s')) ;;; retM b).
Proof. intros w. unfold bindM, gets. by rewrite setEmsSubscriptionStatus_spec. Qed.
#[local] Hint Resolve setStatus_pure : keeps.

Lemma StatusUpdate_pure server local infos : pure_step (handleKymaSubStatusUpdate server local infos).
Proof.
  unfold handleKymaSubStatusUpdate, updateHashesInStatus, setEventMeshLocalSubHashInStatus,
    setEventMeshServerSubHashInStatus, setWebhookAuthHashInStatus. pure_steps.
Qed.

Section triples.
Context (w0 : EMWorld).
Abbreviation T := (on_trace w0).

Lemma T_bind {A B} P Q R (c : M EMWorld A) (k : A -> M EMWorld B) :
  triple (T P) c Q (T anything) -> (forall a, triple (Q a) (k a) R (T anything)) -> triple (T P) (bindM c k) R (T anything).
Proof. apply triple_bind. Qed.

Lemma T_pure {A} P (c : M EMWorld A) : pure_step c -> triple (T P) c (fun _ => T P) (T anything).
Proof. apply triple_pure_step. Qed.

Lemma T_forget {A} P (a : A) : triple (T P) (retM a) (fun _ => T anything) (T anything).
Proof. intros w Hw. cbn. eapply on_trace_weaken; [|exact Hw]. done. Qed.

Lemma T_err {A} P err Q : triple (T P) (@errM _ A err) Q (T anything).
Proof. intros w Hw. eapply on_trace_weaken; [|exact Hw]. done. Qed.
Lemma T_ret {A} P (a : A) (Q : A -> list emEvent -> Prop) : (forall prev, P prev -> Q a prev) ->
  triple (T P) (retM a) (fun a => T (Q a)) (T anything).
Proof. intros H1 w Hw. cbn. eapply on_trace_weaken; [|exact Hw]. done. Qed.

Lemma T_false {A} P (c : M EMWorld A) Q : (forall prev, ~ P prev) -> triple (T P) c Q (T anything).
Proof. intros HP w (_ & l & _ & _ & Hl). by destruct (HP l). Qed.

Lemma getSubscription_T P name :
  triple (T P) (getSubscription env name) (fun r => T (fun prev => exists resp b, prev = EMGet name (inl (r, resp)) :: b /\ StatusCode resp = StatusOK)) (T anything).
Proof.
  unfold getSubscription. eapply T_bind; [by apply triple_clientCall|].
  intros [[server resp]|err]; [|apply T_err]. destruct (Z.eqb_spec (StatusCode resp) StatusOK); cbn [negb]; [|apply T_err].
  eapply (T_ret _ _ (fun r prev => _)). intros prev (b & -> & _). by exists resp, b.
Qed.

Lemma getIgnore_T P name :
  triple (T P) (getSubscriptionIgnoreNotFound env name)
    (fun r => T (fun prev => match r with None => absent name prev | Some server => exists g b, prev = EMGet name (inl (Some server, g)) :: b end)) (T anything).
Proof.
  intros w Hw. unfold getSubscriptionIgnoreNotFound, getSubscription, bindM, tryM.
  pose proof (triple_clientCall w0 P (EMGet name) (fun h => e_Get env h name) ltac:(done) w Hw) as Hc.
  destruct (clientCall _ _ w) as [[[[server resp]|err]|err|m] w1] eqn:Ec; try done.
  - destruct (Z.eqb_spec (StatusCode resp) StatusOK) as [Hs|Hs]; cbn [negb]; unfold retM, errM.
    + eapply on_trace_weaken; [|exact Hc]. intros prev (b & -> & _). destruct server as [server|]; [by eexists _, b|]. cbn. auto.
    + destruct (errors_Is _ _) eqn:Ei; cbn [negb]; (eapply on_trace_weaken; [|exact Hc]); [|done].
      intros prev (b & -> & _). cbn. split; [done|]. left.
      unfold status_error in Ei. cbn in Ei. rewrite orb_false_r in Ei.
      apply orb_true_iff in Ei as [Ei|Ei]; [discriminate Ei|].
      rewrite orb_false_r in Ei. apply bool_decide_eq_true in Ei. by injection Ei.
  - unfold retM, errM. destruct (errors_Is _ _) eqn:Ei; cbn [negb]; (eapply on_trace_weaken; [|exact Hc]); [|done].
    intros prev (b & -> & _). cbn. split; [done|].
    cbn in Ei. rewrite orb_false_r in Ei. apply orb_true_iff in Ei as [Ei|Ei]; [|done].
    apply bool_decide_eq_true in Ei. discriminate Ei.
  - unfold clientCall, bindM, gets, call in Ec. destruct (emClient _); discriminate Ec.
Qed.
Lemma deleteForRecreation_T P name :
  triple (T P) (deleteForRecreation env name)
    (fun b => T (fun prev => b = true /\ exists r before, prev = EMDelete name (inl r) :: before /\ gone r /\ P before)) (T anything).
Proof.
  intros w Hw. unfold deleteForRecreation, deleteSubscription, bindM, errOf.
  pose proof (triple_clientCall w0 P (EMDelete name) (fun h => e_Delete env h name) ltac:(done) w Hw) as Hc.
  destruct (clientCall _ _ w) as [[[resp|err]|err|m] w1]; [|unfold retM, errM; by eapply on_trace_weaken..].
  destruct (Z.eqb_spec (StatusCode resp) StatusNoContent) as [H1|H1], (Z.eqb_spec (StatusCode resp) StatusNotFound) as [H2|H2];
    cbn [negb andb]; unfold retM, errM; (eapply on_trace_weaken; [|exact Hc]); try done;
    intros prev (before & -> & HP); (split; [done|]); eexists _, before; unfold gone; auto.
Qed.

Definition modified name (b : bool) (prev : list emEvent) : Prop := b = true -> absent name prev.

Lemma delete_modified P name found :
  (forall before, P before -> found = name \/ exists server g b, before = EMGet name (inl (Some server, g)) :: b /\ found = emName server) ->
  triple (T P) (deleteForRecreation env found) (fun b => T (modified name b)) (T anything).
Proof.
  intros HP. eapply triple_weaken; [apply deleteForRecreation_T|done| |done].
  intros b w. apply on_trace_weaken. intros prev (_ & r & before & -> & Hr & Hb) _. cbn. auto.
Qed.

Lemma ret_false_modified P name : triple (T P) (retM false) (fun b => T (modified name b)) (T anything).
Proof. by apply (T_ret _ _ (modified name)). Qed.

Lemma handleKymaSubModified_T P local :
  triple (T P) (handleKymaSubModified env flag local) (fun b => T (modified (emName local) b)) (T anything).
Proof.
  unfold handleKymaSubModified. eapply T_bind; [apply T_pure, pure_gets|]. intros b.
  eapply T_bind; [apply T_pure, pure_okOr|]. intros [|]; [apply delete_modified; auto|apply ret_false_modified].
Qed.

Lemma handleEventMeshSubModified_T name server :
  triple (T (fun prev => exists g b, prev = EMGet name (inl (Some server, g)) :: b))
    (handleEventMeshSubModified env flag server) (fun b => T (modified name b)) (T anything).
Proof.
  unfold handleEventMeshSubModified. eapply T_bind; [apply T_pure, pure_gets|]. intros b.
  eapply T_bind; [apply T_pure, pure_okOr|]. intros [|]; [|apply ret_false_modified].
  apply delete_modified. intros before (g & b' & ->). right. by exists server, g, b'.
Qed.

Lemma authStep_T P what code r :
  triple (T P) (authStep what code r)
    (fun b => T (fun prev => P prev /\ (b = true -> exists resp, r = inl resp /\ StatusCode resp = code))) (T anything).
Proof.
  intros w Hw. unfold authStep, retM, errM. destruct r as [resp|err]; [|by eapply on_trace_weaken].
  destruct (Z.eqb_spec (StatusCode resp) StatusNotFound); [by eapply on_trace_weaken; [|exact Hw]|].
  destruct (Z.eqb_spec (StatusCode resp) code); cbn [negb]; (eapply on_trace_weaken; [|exact Hw]); [|done].
  intros prev HP. split; [done|]. intros _. by exists resp.
Qed.

Lemma handleWebhookAuthChange_T P local :
  triple (T P) (handleWebhookAuthChange env local) (fun _ => T anything) (T anything).
Proof.
  unfold handleWebhookAuthChange. eapply T_bind; [apply T_pure; destruct (GetWebhookAuthHash _); auto with keeps nocore|].
  intros h. eapply T_bind; [apply T_pure, pure_gets|]. intros b. destruct (h =? _)%Z; [apply T_forget|].
  eapply T_bind; [apply triple_clientCall; intros prev r _; by left|]. intros r1.
  eapply T_bind; [apply authStep_T|]. intros [|]; cbn [negb]; [|apply T_forget].
  eapply T_bind; [apply triple_clientCall|].
  { intros prev r [(b1 & -> & _) Hr]. destruct (Hr eq_refl) as (resp & -> & Hs). by exists resp, b1. }
  intros r2. eapply T_bind; [apply authStep_T|]. intros [|]; cbn [negb]; [|apply T_forget].
  eapply T_bind; [apply triple_clientCall|].
  { intros prev r [(b1 & -> & _) Hr]. destruct (Hr eq_refl) as (resp & -> & Hs). right. split; [done|]. by eexists _, resp, b1. }
  intros r3. eapply T_bind; [apply authStep_T|]. intros b'. apply T_forget.
Qed.

Lemma handleCreate_T local :
  triple (T (absent (emName local))) (handleCreateEventMeshSub env local)
    (fun _ => T anything) (T anything).
Proof.
  unfold handleCreateEventMeshSub. eapply T_bind; [apply T_pure, pure_puts; done|]. intros [].
  assert (triple (T (absent (emName local))) (createAndGetSubscription env local)
    (fun _ => T anything) (T anything)) as Hc.
  { unfold createAndGetSubscription. eapply (T_bind _ (fun _ => T anything)).
    - unfold createSubscription. eapply T_bind; [by apply triple_clientCall|].
      intros [resp|err]; [|apply T_err]. destruct (_ && _); [apply T_err|apply T_forget].
    - intros _. eapply triple_weaken; [apply getSubscription_T|done| |done]. intros r w. by apply on_trace_weaken. }
  intros w Hw. specialize (Hc w Hw). unfold bindM, tryM.
  destruct (createAndGetSubscription env local w) as [[r|err|m] w1]; exact Hc.
Qed.

(** The decision of [SyncSubscription] to create a subscription. *)
Lemma syncServer_T local server :
  triple (T (fun prev => match server with None => absent (emName local) prev
      | Some server => exists g b, prev = EMGet (emName local) (inl (Some server, g)) :: b end))
    (match server with
     | None => retM false
     | Some server =>
         m <- handleEventMeshSubModified env flag server ;;
         (if flag && negb m then handleWebhookAuthChange env local else retM tt) ;;;
         retM m
     end)
    (fun m => T (fun prev => m || match server with None => true | Some _ => false end = true -> absent (emName local) prev)) (T anything).
Proof.
  destruct server as [server|]; [|by apply (T_ret _ _ (fun m prev => m || true = true -> absent (emName local) prev))].
  eapply T_bind; [apply handleEventMeshSubModified_T|]. intros m. destruct m.
  - rewrite andb_false_r. eapply (T_bind _ (fun _ => T (absent (emName local)))).
    + apply (T_ret _ _ (fun _ prev => absent (emName local) prev)). intros prev Hp. by apply Hp.
    + intros _. by apply (T_ret _ _ (fun m prev => m || false = true -> absent (emName local) prev)).
  - eapply (T_bind _ (fun _ => T anything)).
    + destruct (flag && negb false); [apply handleWebhookAuthChange_T|apply T_forget].
    + intros _. by apply (T_ret _ _ (fun m prev => m || false = true -> absent (emName local) prev)).
Qed.

Lemma SyncSubscription_T apiRule :
  triple (T anything) (SyncSubscription sha env flag cleaner apiRule) (fun _ => T anything) (T anything).
Proof.
  unfold SyncSubscription. eapply T_bind; [apply T_pure, pure_gets|]. intros s.
  eapply T_bind; [apply T_pure, pure_gets|]. intros e. eapply T_bind; [apply T_pure, pure_okOr|]. intros infos.
  eapply T_bind; [apply T_pure, Convert_pure|]. intros local.
  eapply T_bind; [apply handleKymaSubModified_T|]. intros kymaModified.
  eapply (T_bind _ (fun server => T (fun prev => match server with None => absent (emName local) prev
      | Some server => kymaModified = false /\ exists g b, prev = EMGet (emName local) (inl (Some server, g)) :: b end))).
  { destruct kymaModified; cbn [negb].
    - apply (T_ret _ _ (fun server prev => match server with None => absent (emName local) prev | Some _ => true = false /\ _ end)).
      intros prev Hp. by apply Hp.
    - eapply triple_weaken; [apply getIgnore_T|done| |done]. intros [server|] w; apply on_trace_weaken; auto. }
  intros server. assert (kymaModified && bool_decide (is_Some server) = false \/ kymaModified = true /\ is_Some server) as [Hs|[-> [x ->]]].
  { destruct kymaModified, server; cbn; eauto. }
  2: { apply T_false. by intros prev [? _]. }
  eapply T_bind; [eapply triple_weaken; [apply (syncServer_T local server)| | |done]|].
  { intros w. apply on_trace_weaken. intros prev. destruct server; [by intros [_ ?]|done]. }
  { intros m w Hw. exact Hw. }
  intros m. eapply (T_bind _ (fun _ => T anything)).
  { destruct (kymaModified || m || _) eqn:Em; [|apply T_forget].
    eapply triple_weaken; [apply handleCreate_T| |done|done]. intros w. apply on_trace_weaken. intros prev Hp. apply Hp.
    destruct server, kymaModified; cbn in *; try done; by rewrite ?orb_true_r. }
  intros server'. eapply T_bind; [apply T_pure, StatusUpdate_pure|]. intros b. apply T_forget.
Qed.
End triples.

(** *** What a successful step did *)
Lemma Convert_const s infos apiRule e : exists o, forall w, ConvertKymaSubToEventMeshSub sha s infos apiRule e w = (o, w).
Proof.
  unfold ConvertKymaSubToEventMeshSub, bindM, orPanic, retM, errM, panicM. destruct (emProtocolSettings e); [|by eexists].
  destruct (MapSubscriptionName _ _ _ _); [|by eexists].
  destruct apiRule as [a|]; [destruct (GetExposedURLFromAPIRule _ _)|destruct (ParseRequestURI _)]; by eexists.
Qed.

(** The EventMesh subscription of a Kyma Subscription. *)
Definition local_of s infos apiRule e : outcome EMSubscription :=
  (ConvertKymaSubToEventMeshSub sha s infos apiRule e (mkWorld (mkEMState e s) [])).1.

Lemma Convert_run s infos apiRule e w : ConvertKymaSubToEventMeshSub sha s infos apiRule e w = (local_of s infos apiRule e, w).
Proof. unfold local_of. destruct (Convert_const s infos apiRule e) as [o Ho]. by rewrite !Ho. Qed.

Lemma local_of_Spec s s' infos apiRule e : Spec s = Spec s' -> meta s = meta s' -> local_of s infos apiRule e = local_of s' infos apiRule e.
Proof.
  intros Hs Hm. unfold local_of, ConvertKymaSubToEventMeshSub, setEventMeshProtocolSettings, getEventMeshWebhookAuth,
    bindM, orPanic, retM, errM, panicM.
  rewrite Hs, Hm. destruct (emProtocolSettings e); [|done]. destruct (MapSubscriptionName _ _ _ _); [|done].
  destruct apiRule as [a|]; [destruct (GetExposedURLFromAPIRule _ _)|destruct (ParseRequestURI _)]; done.
Qed.

(** A run of requests without a deletion. *)
Definition no_delete (l : list emEvent) : Prop := forall n r, EMDelete n r ∉ l.

Lemma clientCall_Ok {R} (ev : R -> emEvent) f w r w' : clientCall ev f w = (Ok r, w') -> w' = mkWorld (st w) (ev r :: hist w).
Proof. unfold clientCall. intros Hr. run_inv Hr. destruct (emClient _); run_inv Hr; done. Qed.

Lemma getSubscription_Ok name w server w' : getSubscription env name w = (Ok server, w') ->
  exists g, StatusCode g = StatusOK /\ w' = mkWorld (st w) (EMGet name (inl (server, g)) :: hist w).
Proof.
  unfold getSubscription. intros Hr. run_inv Hr. apply clientCall_Ok in Hr0 as ->.
  destruct a as [[s g]|err]; [|discriminate Hr]. destruct (Z.eqb_spec (StatusCode g) StatusOK); cbn [negb] in Hr; [|discriminate Hr].
  run_inv Hr. by exists g.
Qed.

Lemma getIgnore_Ok name w server w' : getSubscriptionIgnoreNotFound env name w = (Ok server, w') ->
  exists r, w' = mkWorld (st w) (EMGet name r :: hist w) /\
    forall srv, server = Some srv -> exists g, r = inl (Some srv, g) /\ StatusCode g = StatusOK.
Proof.
  unfold getSubscriptionIgnoreNotFound, bindM, tryM.
  destruct (getSubscription env name w) as [[x|err|m] w1] eqn:Eg; [| |discriminate].
  - apply getSubscription_Ok in Eg as (g & Hg & ->). intros [= <- <-]. eexists. split; [done|]. intros srv ->. by exists g.
  - destruct (errors_Is _ _); cbn [negb]; [|discriminate]. intros [= <- <-].
    unfold getSubscription, clientCall, bindM, gets, call in Eg. destruct (emClient _); [|discriminate Eg].
    destruct (e_Get env (hist w) name) as [[x g]|e] eqn:Er; [destruct (negb _); [|discriminate Eg]|];
      injection Eg as <- <-; eexists; by split.
Qed.

Lemma deleteForRecreation_Ok name w b w' : deleteForRecreation env name w = (Ok b, w') ->
  b = true /\ exists r, w' = mkWorld (st w) (EMDelete name r :: hist w).
Proof.
  unfold deleteForRecreation, deleteSubscription, errOf. unfold bindM at 1.
  destruct (bindM _ _ w) as [[x|err|m] w1] eqn:Ed; [|discriminate..]. intros [= <- <-]. split; [done|].
  run_inv Ed. apply clientCall_Ok in Hr as ->. destruct a as [resp|e]; [|discriminate Ed].
  destruct (_ && _); [discriminate Ed|]. run_inv Ed. by eexists.
Qed.

(** The outcome of a comparison that deletes a modified subscription. *)
Definition compared (w : EMWorld) name (b : bool) (w' : EMWorld) : Prop :=
  if b then exists r, w' = mkWorld (st w) (EMDelete name r :: hist w) else w' = w.

Lemma handleKymaSubModified_Ok local w b w' : handleKymaSubModified env flag local w = (Ok b, w') -> compared w (emName local) b w'.
Proof.
  unfold handleKymaSubModified. intros Hr. do 2 run_inv Hr.
  match type of Hr with (if ?x then _ else _) _ = _ => destruct x end; [by apply deleteForRecreation_Ok in Hr as [-> ?]|]. by run_inv Hr.
Qed.

Lemma handleEventMeshSubModified_Ok server w b w' : handleEventMeshSubModified env flag server w = (Ok b, w') -> compared w (emName server) b w'.
Proof.
  unfold handleEventMeshSubModified. intros Hr. do 2 run_inv Hr.
  match type of Hr with (if ?x then _ else _) _ = _ => destruct x end; [by apply deleteForRecreation_Ok in Hr as [-> ?]|]. by run_inv Hr.
Qed.

Definition quiet w w' : Prop := st w' = st w /\ exists l, hist w' = (l ++ hist w)%list /\ no_delete l.

Lemma quiet_refl w : quiet w w.
Proof. split; [done|]. exists []. split; [done|]. intros n r. apply not_elem_of_nil. Qed.
Definition is_delete (e : emEvent) : bool := match e with EMDelete _ _ => true | _ => false end.
Lemma quiet_intro w l : forallb (fun e => negb (is_delete e)) l = true -> quiet w (mkWorld (st w) (l ++ hist w)%list).
Proof.
  intros Hl. split; [done|]. exists l. split; [done|]. intros n r Hin.
  rewrite forallb_forall in Hl. rewrite list_elem_of_In in Hin. by apply Hl in Hin.
Qed.

Lemma authStep_quiet what code r w b w' : authStep what code r w = (Ok b, w') -> w' = w.
Proof.
  unfold authStep. destruct r; [|discriminate]. destruct (_ =? _)%Z; [by intros [= _ ->]|].
  destruct (negb _); [discriminate|by intros [= _ ->]].
Qed.

Lemma handleWebhookAuthChange_Ok local w u w' : handleWebhookAuthChange env local w = (Ok u, w') -> quiet w w'.
Proof.
  unfold handleWebhookAuthChange. intros Hr. apply bindM_Ok in Hr as (h & w1 & Hh & Hr).
  assert (w1 = w) as -> by (destruct (GetWebhookAuthHash _); run_inv Hh; done).
  apply bindM_Ok in Hr as (b & w1 & Hb & Hr). run_inv Hb.
  destruct (_ =? _)%Z in Hr; [run_inv Hr; apply quiet_refl|].
  apply bindM_Ok in Hr as (r1 & w1 & H1%clientCall_Ok & Hr). subst w1.
  apply bindM_Ok in Hr as ([|] & w1 & H1%authStep_quiet & Hr); subst w1; cbn [negb] in Hr;
    [|run_inv Hr; by apply (quiet_intro w [_])].
  apply bindM_Ok in Hr as (r2 & w1 & H1%clientCall_Ok & Hr). subst w1.
  apply bindM_Ok in Hr as ([|] & w1 & H1%authStep_quiet & Hr); subst w1; cbn [negb] in Hr;
    [|run_inv Hr; by apply (quiet_intro w [_; _])].
  apply bindM_Ok in Hr as (r3 & w1 & H1%clientCall_Ok & Hr). subst w1.
  apply bindM_Ok in Hr as (b & w1 & H1%authStep_quiet & Hr); subst w1. run_inv Hr.
  by apply (quiet_intro w [_; _; _]).
Qed.

Lemma handleCreate_Ok local w server w' : handleCreateEventMeshSub env local w = (Ok server, w') ->
  exists r g, StatusCode g = StatusOK /\
    w' = mkWorld (upd_sub (fun s => set_Status s (InitializeEventTypes (Status s))) (st w))
           (EMGet (emName local) (inl (server, g)) :: EMCreate local (inl r) :: hist w).
Proof.
  unfold handleCreateEventMeshSub. intros Hr. run_inv Hr. unfold bindM, tryM in Hr.
  destruct (createAndGetSubscription _ _ _) as [[x|err|m] wc] eqn:Ec; [|discriminate Hr..]. run_inv Hr.
  unfold createAndGetSubscription, createSubscription in Ec. apply bindM_Ok in Ec as ([] & w1 & Hc & Ec).
  apply bindM_Ok in Hc as (r & w2 & H2%clientCall_Ok & Hc). subst w2.
  destruct r as [resp|err]; [|discriminate Hc]. destruct (_ && _) in Hc; [discriminate Hc|]. run_inv Hc.
  apply getSubscription_Ok in Ec as (g & Hg & ->). injection Hc as <-. by exists resp, g.
Qed.

(** *** A successful synchronisation

    [b]: whether it reports a change; [srv]: the subscription on the server. *)
Definition synced_from apiRule w (b : bool) w' : Prop :=
  exists infos local srv h1 h2 h3 h4 g deleted,
    let s := kymaSub (st w) in let e := em (st w) in
    getProcessedEventTypes e s cleaner = inl infos /\ local_of s infos apiRule e = Ok local /\
    hashes local srv h1 h2 h3 h4 /\
    st w' = mkEMState e (synced infos local srv h1 h2 h3 h4 s) /\
    happened w w' (EMGet (emName local) (inl (Some srv, g))) /\ StatusCode g = StatusOK /\
    (deleted = true <-> exists n r, happened w w' (EMDelete n r)) /\
    b = deleted || negb (bool_decide (default zeroEMStatus (emSubscriptionStatus (sBackend (Status s))) = serverStatus srv)).

Definition initialized (x : EMState) : EMState := upd_sub (fun s => set_Status s (InitializeEventTypes (Status s))) x.
(** What the requests of a synchronisation found. *)
Definition found w local (deleted : bool) srv w' : Prop :=
  (st w' = st w \/ st w' = initialized (st w)) /\
  exists l g, hist w' = (l ++ hist w)%list /\ EMGet (emName local) (inl (Some srv, g)) ∈ l /\ StatusCode g = StatusOK /\
    (deleted = true <-> exists n r, EMDelete n r ∈ l).

Lemma create_found local w l (deleted : bool) srv w' :
  (deleted = true <-> exists n r, EMDelete n r ∈ l) ->
  handleCreateEventMeshSub env local (mkWorld (st w) (l ++ hist w)%list) = (Ok (Some srv), w') -> found w local deleted srv w'.
Proof.
  intros Hd (r & g & Hg & ->)%handleCreate_Ok. split; [by right|].
  exists (EMGet (emName local) (inl (Some srv, g)) :: EMCreate local (inl r) :: l), g.
  split_and!; [done|constructor|done|]. rewrite Hd. split; intros (n & d & Hin); exists n, d; [by do 2 constructor|].
  by apply elem_of_cons in Hin as [[=]|[[=]|Hin]%elem_of_cons].
Qed.

Lemma none_iff (l : list emEvent) : no_delete l -> false = true <-> exists n r, EMDelete n r ∈ l.
Proof. intros Hl. split; [done|]. intros (n & r & Hin). by apply Hl in Hin. Qed.

Lemma server_phase local w km server mm srv w1 w2 w3 w4 :
  compared w (emName local) km w1 ->
  (if negb km then getSubscriptionIgnoreNotFound env (emName local) else retM None) w1 = (Ok server, w2) ->
  (match server with
   | None => retM false
   | Some server =>
       m <- handleEventMeshSubModified env flag server ;;
       (if flag && negb m then handleWebhookAuthChange env local else retM tt) ;;;
       retM m
   end) w2 = (Ok mm, w3) ->
  (if km || mm || match server with None => true | Some _ => false end
   then handleCreateEventMeshSub env local else retM server) w3 = (Ok (Some srv), w4) ->
  found w local (km || mm) srv w4.
Proof.
  intros Hk Hs Hm Hc. destruct km; cbn [negb] in Hs.
  - destruct Hk as [r ->]. run_inv Hs. run_inv Hm. apply (create_found local w [_] true) in Hc; [done|].
    split; [|done]. intros _. exists (emName local), r. constructor.
  - cbn in Hk. subst w1. apply getIgnore_Ok in Hs as (r & -> & Hr). destruct server as [server|]; cbn [orb] in *.
    + destruct (Hr server eq_refl) as (g & -> & Hg).
      apply bindM_Ok in Hm as (m & wm & H1%handleEventMeshSubModified_Ok & Hm). apply bindM_Ok in Hm as ([] & wa & Ha & Hm). run_inv Hm.
      destruct m; cbn [orb] in Hc.
      * destruct H1 as [r ->]. rewrite andb_false_r in Ha. injection Ha as <-. apply (create_found local w [_; _] true) in Hc; [done|].
        split; [|done]. intros _. exists (emName server), r. constructor.
      * cbn in H1. subst wm. assert (quiet (mkWorld (st w) (EMGet (emName local) (inl (Some server, g)) :: hist w)) wa) as (Hs & l & Hl & Hn).
        { destruct (flag && negb false); [by apply handleWebhookAuthChange_Ok in Ha|injection Ha as <-; apply quiet_refl]. }
        run_inv Hc. split; [by left|]. exists (l ++ [EMGet (emName local) (inl (Some server, g))])%list, g.
        rewrite Hl. cbn. rewrite <- app_assoc. split_and!; [done|apply elem_of_app; right; constructor|done|].
        apply none_iff. intros n r Hin. apply elem_of_app in Hin as [Hin|Hin]; [by apply Hn in Hin|].
        by apply list_elem_of_singleton in Hin.
    + run_inv Hm. apply (create_found local w [_] false) in Hc; [done|]. apply none_iff. intros n d Hin. apply list_elem_of_singleton in Hin. done.
Qed.

Lemma EventMesh_SyncSubscription_Ok apiRule w b w' : SyncSubscription sha env flag cleaner apiRule w = (Ok b, w') -> synced_from apiRule w b w'.
Proof.
  unfold SyncSubscription. intros Hr. do 2 run_inv Hr. apply bindM_Ok in Hr as (infos & w1 & Hi & Hr). run_inv Hi.
  apply bindM_Ok in Hr as (local & w1 & Hl & Hr). rewrite Convert_run in Hl. injection Hl as Hl <-.
  apply bindM_Ok in Hr as (km & w1 & Hk%handleKymaSubModified_Ok & Hr).
  apply bindM_Ok in Hr as (server & w2 & Hs & Hr).
  apply bindM_Ok in Hr as (mm & w3 & Hm & Hr).
  apply bindM_Ok in Hr as (server' & w4 & Hc & Hr).
  apply bindM_Ok in Hr as (upd & w5 & Hu & Hr). run_inv Hr.
  apply handleKymaSubStatusUpdate_Ok in Hu as (srv & h1 & h2 & h3 & h4 & -> & Hh & -> & ->).
  destruct (server_phase _ _ _ _ _ _ _ _ _ _ Hk Hs Hm Hc) as (Hst & l & g & Hl4 & Hg & Hok & Hd).
  exists infos, local, srv, h1, h2, h3, h4, g, (km || mm).
  assert (forall e, happened w (mkWorld (mkEMState (em (st w)) (synced infos local srv h1 h2 h3 h4 (kymaSub (st w)))) (hist w4)) e <-> e ∈ l) as Hh4.
  { intros e. rewrite Hl4. apply happened_app. }
  destruct Hst as [Hst|Hst]; rewrite Hst; cbn zeta; (split_and!; [done|done|done|done|by apply Hh4|done| |done]);
    rewrite Hd; by setoid_rewrite Hh4.
Qed.

(** Without a client no request succeeds. *)
Definition unconnected h w : Prop := emClient (em (st w)) = false /\ hist w = h.
Lemma clientCall_unconnected h {R} (ev : R -> emEvent) f : keeps (unconnected h) (clientCall ev f).
Proof. intros w [Hc Hh]. unfold clientCall, bindM, gets. by rewrite Hc. Qed.
#[local] Hint Resolve clientCall_unconnected : keeps.

Lemma pure_unconnected h {A} (c : M EMWorld A) : pure_step c -> keeps (unconnected h) c.
Proof. intros Hc w [H1 H2]. destruct (Hc w) as ((He & _ & _) & Hh). unfold unconnected. by rewrite He, Hh. Qed.

Lemma Sync_unconnected h apiRule : keeps (unconnected h) (SyncSubscription sha env flag cleaner apiRule).
Proof.
  assert (forall n, keeps (unconnected h) (getSubscription env n)) as Hget by (intros n; unfold getSubscription; repeat keeps_step).
  assert (forall n, keeps (unconnected h) (deleteForRecreation env n)) as Hdel
    by (intros n; unfold deleteForRecreation, deleteSubscription; keeps_step; [apply keeps_errOf|]; repeat keeps_step).
  assert (forall s : EMSubscription, keeps (unconnected h) (createAndGetSubscription env s)) as Hcr
    by (intros s; unfold createAndGetSubscription, createSubscription; repeat first [apply Hget|keeps_step]).
  unfold SyncSubscription. do 2 keeps_step. keeps_step; [auto with keeps|].
  keeps_step; [apply pure_unconnected, Convert_pure|].
  keeps_step; [unfold handleKymaSubModified; repeat first [apply Hdel|keeps_step]|].
  keeps_step; [destruct (negb _); [unfold getSubscriptionIgnoreNotFound; keeps_step; [apply keeps_try, Hget|]|]; repeat keeps_step|].
  keeps_step.
  { unfold handleEventMeshSubModified, handleWebhookAuthChange, authStep. repeat first [apply Hdel|keeps_step]. }
  keeps_step.
  { unfold handleCreateEventMeshSub. destruct (_ || _); [|auto with keeps]. keeps_step; [by apply pure_unconnected, pure_puts|].
    keeps_step; [apply keeps_try, Hcr|]. repeat keeps_step. }
  keeps_step; [apply pure_unconnected, StatusUpdate_pure|]. auto with keeps.
Qed.

Lemma Sync_connected apiRule w b w' : SyncSubscription sha env flag cleaner apiRule w = (Ok b, w') -> emClient (em (st w)) = true.
Proof.
  intros Hr. apply not_false_iff_true. intros Hc. pose proof (Sync_unconnected (hist w) apiRule w (conj Hc eq_refl)) as [_ Hh].
  rewrite Hr in Hh. cbn [snd] in Hh.
  destruct (EventMesh_SyncSubscription_Ok _ _ _ _ Hr) as (infos & local & srv & h1 & h2 & h3 & h4 & g & d & _ & _ & _ & _ & Hg & _).
  destruct Hg as (l & Hl & Hin). rewrite Hh in Hl. apply (app_inv_tail (hist w) []) in Hl as <-. by apply not_elem_of_nil in Hin.
Qed.

Lemma handleKymaSubStatusUpdate_run local srv infos h1 h2 h3 h4 w : hashes local srv h1 h2 h3 h4 ->
  handleKymaSubStatusUpdate (Some srv) local infos w =
    (Ok (negb (bool_decide (default zeroEMStatus (emSubscriptionStatus (sBackend (Status (kymaSub (st w))))) = serverStatus srv))),
     mkWorld (mkEMState (em (st w)) (synced infos local srv h1 h2 h3 h4 (kymaSub (st w)))) (hist w)).
Proof.
  intros (E1 & E2 & E3 & E4). unfold handleKymaSubStatusUpdate, updateHashesInStatus, setEventMeshLocalSubHashInStatus,
    setEventMeshServerSubHashInStatus, setWebhookAuthHashInStatus, errOf, bindM, puts, gets, okOr, orPanic, retM.
  rewrite E1, E2, E3, E4. cbv beta iota. rewrite setEmsSubscriptionStatus_spec. done.
Qed.

(** Nothing to do: the hashes of the status are those of the two subscriptions. *)
Lemma handleKymaSubModified_same local srv h1 h2 h3 h4 w infos s :
  hashes local srv h1 h2 h3 h4 -> kymaSub (st w) = synced infos local srv h1 h2 h3 h4 s ->
  handleKymaSubModified env flag local w = (Ok false, w).
Proof.
  intros (E1 & E2 & E3 & E4) Hs. unfold handleKymaSubModified, bindM, gets. rewrite Hs.
  unfold IsEventMeshSubModified. destruct flag; cbn [Ev2hash EventMeshLocalHash]; rewrite ?E1, ?E2;
    cbn; by rewrite Z.eqb_refl.
Qed.

Lemma handleEventMeshSubModified_same local srv h1 h2 h3 h4 w infos s :
  hashes local srv h1 h2 h3 h4 -> kymaSub (st w) = synced infos local srv h1 h2 h3 h4 s ->
  handleEventMeshSubModified env flag srv w = (Ok false, w).
Proof.
  intros (E1 & E2 & E3 & E4) Hs. unfold handleEventMeshSubModified, bindM, gets. rewrite Hs.
  unfold IsEventMeshSubModified. destruct flag; rewrite ?GetCleaned_idem, E3; cbn; by rewrite Z.eqb_refl.
Qed.

Lemma handleWebhookAuthChange_same local srv h1 h2 h3 h4 w infos s :
  hashes local srv h1 h2 h3 h4 -> kymaSub (st w) = synced infos local srv h1 h2 h3 h4 s ->
  handleWebhookAuthChange env local w = (Ok tt, w).
Proof.
  intros (E1 & E2 & E3 & E4) Hs. unfold handleWebhookAuthChange, bindM, gets. rewrite E4. cbn [retM]. unfold retM. rewrite Hs.
  cbn. by rewrite Z.eqb_refl.
Qed.

Lemma processTypes_Spec types s s' prefix : Spec s = Spec s' -> processTypes types s cleaner prefix = processTypes types s' cleaner prefix.
Proof. intros Hs. induction types as [|t types IH]; [done|]. cbn [processTypes]. by rewrite Hs, IH. Qed.
End sync.

(** ** Nothing to do *)
Section settled.
Context (sha : string -> string) `{Hashing} (env : EMEnv) (flag : bool) (cleaner : Cleaner).
Implicit Types (w : World EMState emEvent) (apiRule : option APIRuleView).

(** Nothing to do: the status of the Subscription is that of a synchronisation with what the server has. *)
Lemma Sync_settled apiRule w infos local srv h1 h2 h3 h4 s resp : emClient (em (st w)) = true ->
  kymaSub (st w) = synced infos local srv h1 h2 h3 h4 s -> getProcessedEventTypes (em (st w)) (kymaSub (st w)) cleaner = inl infos ->
  local_of sha (kymaSub (st w)) infos apiRule (em (st w)) = Ok local -> hashes local srv h1 h2 h3 h4 ->
  e_Get env (hist w) (emName local) = inl (Some srv, resp) -> StatusCode resp = StatusOK ->
  SyncSubscription sha env flag cleaner apiRule w = (Ok false, mkWorld (st w) (EMGet (emName local) (inl (Some srv, resp)) :: hist w)).
Proof.
  intros Hc Hk Hi Hl Hh Hg Hok. unfold SyncSubscription. unfold bindM at 1 2 3. unfold gets at 1 2. rewrite Hi.
  cbn [okOr]. unfold retM at 1. unfold bindM at 1. rewrite Convert_run, Hl.
  unfold bindM at 1. rewrite (handleKymaSubModified_same _ _ _ _ _ _ _ _ _ _ _ Hh Hk). cbn [negb].
  unfold bindM at 1. unfold getSubscriptionIgnoreNotFound, getSubscription, clientCall, tryM.
  unfold bindM at 1 2 3 4. unfold gets at 1. rewrite Hc. unfold call at 1. rewrite Hg, Hok.
  change (StatusOK =? StatusOK)%Z with true. cbn [negb]. unfold retM at 1 2.
  set (w1 := mkWorld (st w) _). assert (kymaSub (st w1) = synced infos local srv h1 h2 h3 h4 s) as Hk1 by exact Hk.
  unfold bindM at 1 2. rewrite (handleEventMeshSubModified_same _ _ _ _ _ _ _ _ _ _ _ Hh Hk1). cbn [negb].
  assert ((if flag && true then handleWebhookAuthChange env local else retM tt) w1 = (Ok tt, w1)) as ->
    by (destruct flag; cbn [andb]; [apply (handleWebhookAuthChange_same _ _ _ _ _ _ _ _ _ _ Hh Hk1)|done]).
  unfold bindM at 1. unfold retM at 1 2. cbn [orb]. unfold retM at 1. unfold bindM at 1.
  rewrite (handleKymaSubStatusUpdate_run _ _ _ _ _ _ _ _ Hh), Hk1.
  rewrite bool_decide_true by done. subst w1. cbn [st hist em kymaSub]. destruct w as [[e k] h]. cbn in *. by rewrite Hk.
Qed.
End settled.

(** ** The theorems *)
Section theorems.
Context (sha : string -> string) `{Hashing} (env : EMEnv) (flag : bool) (cleaner : Cleaner).
Implicit Types (w : World EMState emEvent) (apiRule : option APIRuleView).

Lemma EventMesh_Sync_trace apiRule w :
  let w' := (SyncSubscription sha env flag cleaner apiRule w).2 in
  same_object w w' /\ exists l, hist w' = (l ++ hist w)%list /\ allowed_trace l.
Proof.
  assert (on_trace w anything w) as Hw by (split; [done|]; by exists []).
  pose proof (SyncSubscription_T sha env flag cleaner w apiRule w Hw) as Ht. cbn zeta.
  destruct (SyncSubscription _ _ _ _ _ w) as [[b|err|m] w']; destruct Ht as (Hs & l & Hl & Ha & _); split; eauto.
Qed.

Lemma EventMesh_same_object apiRule w : same_object w (SyncSubscription sha env flag cleaner apiRule w).2.
Proof. apply EventMesh_Sync_trace. Qed.

(** C11: however a synchronisation ends, the backend and the metadata and specification of the Subscription
    are unchanged; a subscription is created only directly after the server said that it does not exist
    or deleted it; the webhook authentication is updated only after the subscription was
    paused, and only after that update it is resumed. *)
Theorem SyncSubscription_trace apiRule w :
  let w' := (SyncSubscription sha env flag cleaner apiRule w).2 in
  same_object w w' /\ exists l, hist w' = (l ++ hist w)%list /\ allowed_trace l.
Proof. apply EventMesh_Sync_trace. Qed.


(** The server keeps returning [srv] for [name]. *)
Definition with_server (name : string) (srv : EMSubscription) : EMEnv :=
  mkEMEnv (e_NewClient env) (fun h n => if String.eqb n name then inl (Some srv, mkResponse StatusOK "") else e_Get env h n)
    (e_Create env) (e_Update env) (e_Delete env) (e_UpdateState env).


(** deleting sends one request for the mapped name of the Subscription, and succeeds exactly
    when the server answers that the subscription is deleted or did not exist; it panics only without
    a client or when the name cannot be mapped. *)
Theorem EventMesh_DeleteSubscription_spec w :
  let name := MapSubscriptionName sha (SubNameMapper (em (st w))) (Name (meta (kymaSub (st w)))) (Namespace (meta (kymaSub (st w)))) in
  let '(o, w') := EventMesh.DeleteSubscription sha env w in
  st w' = st w /\
  match o with
  | Panic _ => hist w' = hist w /\ (name = None \/ emClient (em (st w)) = false)
  | _ => exists n r, name = Some n /\ hist w' = EMDelete n r :: hist w /\
           (o = Ok tt <-> exists resp, r = inl resp /\ gone resp)
  end.
Proof.
  cbn zeta. unfold DeleteSubscription, deleteSubscription, clientCall, bindM, gets, orPanic, call.
  cbn [id]. destruct (MapSubscriptionName _ _ _ _) as [n|]; [|by split; [|split; [|left]]]. cbn.
  destruct (emClient (em (st w))) eqn:Hc; cbn; [|by split; [|split; [|right]]].
  unfold gone. destruct (e_Delete env (hist w) n) as [resp|err]; cbn; [|split; [done|]; exists n, (inr err); naive_solver].
  destruct (Z.eqb_spec (StatusCode resp) StatusNoContent) as [H1|H1], (Z.eqb_spec (StatusCode resp) StatusNotFound) as [H2|H2];
    cbn; (split; [done|]); exists n, (inl resp); naive_solver.
Qed.
End theorems.
