(* ===== verification/ApiRule.v ===== *)
(** * APIRules: [pkg/object/apirule.go], [authorization_policy.go], and the
      comparison of [pkg/object/equality.go] that concerns them

    The APIRule and AuthorizationPolicy types are not in the repository: the records
    hold the fields the program reads or writes.  Labels are never nil where they are
    compared.  [typeMeta] is the API version and the kind a decoded Subscription
    carries. *)

From S2P Require Import Prelude GoStrings Url Utils Subscription EventMeshUtils.

Record OwnerReference := mkOwner {
  orAPIVersion : string; orKind : string; orName : string; orUID : string;
  orController : option bool; orBlockOwnerDeletion : option bool }.
#[global] Instance OwnerReference_eq_dec : EqDecision OwnerReference.
Proof. solve_decision. Defined.

(** [apigatewayv2.Service]. *)
Record Service := mkService { svcName : option string; svcPort : option Z; svcIsExternal : option bool }.
#[global] Instance Service_eq_dec : EqDecision Service.
Proof. solve_decision. Defined.

Record JwtAuthentication := mkJwt { JwksUri : string; Issuer : string }.
#[global] Instance JwtAuthentication_eq_dec : EqDecision JwtAuthentication.
Proof. solve_decision. Defined.

(** [Jwt] is set, or else [ExtAuth]. *)
Record Rule := mkRule {
  rPath : string; rMethods : list string; rService : option Service; rJwt : option (list JwtAuthentication); rExtAuth : bool }.
#[global] Instance Rule_eq_dec : EqDecision Rule.
Proof. solve_decision. Defined.

Record APIRule := mkAPIRule {
  arName : string;
  arGenerateName : string;
  arNamespace : string;
  arUID : string;
  arResourceVersion : string;
  arLabels : gmap string string;
  arOwners : list OwnerReference;
  arSpecHosts : slice (option string);
  arService : option Service;
  arGateway : option string;
  arRules : slice Rule;
  arState : string
}.

(** What [ConvertKymaSubToEventMeshSub] reads. *)
Definition view (r : APIRule) : APIRuleView := mkAPIRuleView (arSpecHosts r) (rPath <$> elems (arRules r)).

Record AuthorizationPolicy := mkPolicy {
  apNamespace : string; apName : string; apNotPrincipals : list string; apAllow : bool; apMatchLabels : option (gmap string string) }.

(** ** Options *)
Definition Option_ := APIRule -> APIRule.

Definition ClusterLocalAPIGateway := "kyma-system/kyma-gateway".
Definition ControllerServiceLabelKey := "service".
Definition ControllerIdentityLabelKey := "beb".
Definition ControllerIdentityLabelValue := "webhook".
Definition APIRuleReady := "Ready".

Definition NewAPIRule (ns namePrefix : string) (opts : list Option_) : APIRule :=
  foldl (fun r opt => opt r) (mkAPIRule "" namePrefix ns "" "" ∅ [] None None None None "") opts.

Definition GetService (name : string) (port : Z) : Service := mkService (Some name) (Some port) (Some true).

Definition WithService (hosts : list (option string)) (name : string) (port : Z) : Option_ := fun r =>
  mkAPIRule (arName r) (arGenerateName r) (arNamespace r) (arUID r) (arResourceVersion r) (arLabels r) (arOwners r)
    (Some hosts) (Some (GetService name port)) (arGateway r) (arRules r) (arState r).
Definition WithGateway (gw : string) : Option_ := fun r =>
  mkAPIRule (arName r) (arGenerateName r) (arNamespace r) (arUID r) (arResourceVersion r) (arLabels r) (arOwners r)
    (arSpecHosts r) (arService r) (Some gw) (arRules r) (arState r).
Definition WithLabels (labels : gmap string string) : Option_ := fun r =>
  mkAPIRule (arName r) (arGenerateName r) (arNamespace r) (arUID r) (arResourceVersion r) labels (arOwners r)
    (arSpecHosts r) (arService r) (arGateway r) (arRules r) (arState r).
Definition set_Owners (owners : list OwnerReference) : Option_ := fun r =>
  mkAPIRule (arName r) (arGenerateName r) (arNamespace r) (arUID r) (arResourceVersion r) (arLabels r) owners
    (arSpecHosts r) (arService r) (arGateway r) (arRules r) (arState r).
Definition set_Rules (rules : slice Rule) : Option_ := fun r =>
  mkAPIRule (arName r) (arGenerateName r) (arNamespace r) (arUID r) (arResourceVersion r) (arLabels r) (arOwners r)
    (arSpecHosts r) (arService r) (arGateway r) rules (arState r).

Definition ApplyExistingAPIRuleAttributes (src dst : APIRule) : APIRule :=
  mkAPIRule (arName src) "" (arNamespace dst) (arUID dst) (arResourceVersion src) (arLabels dst) (arOwners dst)
    (arSpecHosts src) (arService dst) (arGateway dst) (arRules dst) (arState src).

(** The map of the keys seen and the list. *)
Definition RemoveDuplicateValues (values : list string) : list string :=
  (foldl (fun (s : gset string * list string) entry =>
     if bool_decide (entry ∈ s.1) then s else ({[entry]} ∪ s.1, (s.2 ++ [entry])%list)) (∅, []) values).2.

Section rules.
Context (typeMeta : Subscription -> string * string).
Context (webhookAuthEnabled : bool).

Definition WithOwnerReference (subs : list Subscription) : Option_ :=
  set_Owners ((fun sub => mkOwner (typeMeta sub).1 (typeMeta sub).2 (Name (meta sub)) (UID (meta sub)) None (Some true)) <$> subs).

Definition sinkPaths (subs : list Subscription) : list string :=
  omap (fun sub => match ParseRequestURI (Sink (Spec sub)) with
                   | inr _ => None
                   | inl hostURL => Some (if String.eqb (Path hostURL) "" then "/" else Path hostURL)
                   end) subs.

(** [strings.Replace(s, old, "", 1)] for a non-empty [old]. *)
Fixpoint RemoveFirst (s old : string) : string :=
  if HasPrefix s old then drop_bytes (len old) s
  else match s with "" => "" | String c s' => String c (RemoveFirst s' old) end.

Definition makeRule (certsURL : string) (svc : Service) (methods : list string) (path : string) : Rule :=
  mkRule path methods (Some svc)
    (if webhookAuthEnabled then Some [mkJwt certsURL (RemoveFirst certsURL "/oauth2/certs")] else None)
    (negb webhookAuthEnabled).

Definition WithRules (certsURL : string) (subs : list Subscription) (svc : Service) (methods : list string) : Option_ :=
  set_Rules (Some (makeRule certsURL svc methods <$> RemoveDuplicateValues (sinkPaths subs))).
End rules.

(** ** Authorization policies *)
Definition IstioIngressGatewaySA := "cluster.local/ns/istio-system/sa/istio-ingressgateway-service-account".
Definition NewAuthorizationPolicy (namespace name : string) (opts : list (AuthorizationPolicy -> AuthorizationPolicy)) : AuthorizationPolicy :=
  foldl (fun p opt => opt p) (mkPolicy namespace name [IstioIngressGatewaySA] false None) opts.
Definition WithAllowAction : AuthorizationPolicy -> AuthorizationPolicy := fun p =>
  mkPolicy (apNamespace p) (apName p) (apNotPrincipals p) true (apMatchLabels p).
Definition apWithSelector (labels : gmap string string) : AuthorizationPolicy -> AuthorizationPolicy := fun p =>
  mkPolicy (apNamespace p) (apName p) (apNotPrincipals p) (apAllow p) (Some labels).

(** ** Comparison *)
Definition ownerReferencesDeepEqual (ors1 ors2 : list OwnerReference) : bool :=
  if negb (length ors1 =? length ors2)%nat then false
  else forallb (fun or1 => existsb (fun or2 => bool_decide (or1 = or2)) ors2) ors1.

(** [None]: a nil service is dereferenced. *)
Definition apiRuleEqual (rule1 rule2 : APIRule) : option bool :=
  if negb (bool_decide (arLabels rule1 = arLabels rule2)) then Some false
  else if negb (ownerReferencesDeepEqual (arOwners rule1) (arOwners rule2)) then Some false
  else match arService rule1, arService rule2 with
       | Some s1, Some s2 => Some (bool_decide (s1 = s2) && bool_decide (arRules rule1 = arRules rule2)
                               && bool_decide (arGateway rule1 = arGateway rule2))
       | _, _ => None
       end.

(** * Theorems *)
Lemma RemoveDuplicateValues_foldl values seen (list0 : list string) :
  (forall x, x ∈ seen <-> x ∈ list0) ->
  (foldl (fun (s : gset string * list string) entry =>
     if bool_decide (entry ∈ s.1) then s else ({[entry]} ∪ s.1, (s.2 ++ [entry])%list)) (seen, list0) values).2 =
  foldl dedup_step list0 values.
Proof.
  revert seen list0. induction values as [|v values IH]; intros seen list0 Hs; [done|]. cbn [foldl].
  unfold dedup_step at 2. cbn [fst snd]. destruct (decide (v ∈ list0)) as [Hv|Hv].
  - rewrite (bool_decide_true (v ∈ seen)), (bool_decide_true (v ∈ list0)) by (rewrite ?Hs; done). by apply IH.
  - rewrite (bool_decide_false (v ∈ seen)), (bool_decide_false (v ∈ list0)) by (rewrite ?Hs; done). apply IH. intros x. rewrite elem_of_app. set_solver.
Qed.

Lemma RemoveDuplicateValues_dedup values : RemoveDuplicateValues values = foldl dedup_step [] values.
Proof. apply RemoveDuplicateValues_foldl. set_solver. Qed.

Lemma ownerReferences_incl (l1 l2 : list OwnerReference) :
  forallb (fun or1 => existsb (fun or2 => bool_decide (or1 = or2)) l2) l1 = true <-> forall o, o ∈ l1 -> o ∈ l2.
Proof.
  rewrite forallb_elem. split; intros Hl o Ho; specialize (Hl o Ho).
  - apply existsb_app_iff in Hl as (o' & Ho' & E). by apply bool_decide_eq_true in E as ->.
  - apply existsb_app_iff. exists o. split; [done|]. by apply bool_decide_eq_true.
Qed.

(** When the first list has no duplicates, as owner references with distinct UIDs have,
    the comparison of owner references ignores exactly their order; with duplicates it is not symmetric. *)
Theorem ownerReferencesDeepEqual_spec ors1 ors2 : NoDup ors1 ->
  ownerReferencesDeepEqual ors1 ors2 = true <-> ors1 ≡ₚ ors2.
Proof.
  intros Hnd. unfold ownerReferencesDeepEqual. destruct (Nat.eqb_spec (length ors1) (length ors2)) as [Hl|Hl]; cbn [negb].
  - rewrite ownerReferences_incl. split.
    + intros Hin. apply submseteq_length_Permutation; [by apply NoDup_submseteq|lia].
    + intros Hp o. by rewrite Hp.
  - split; [done|]. intros Hp. by rewrite Hp in Hl.
Qed.

Definition owner (name : string) : OwnerReference := mkOwner "v1" "Subscription" name name None (Some true).
Lemma ownerReferencesDeepEqual_spec_witness :
  ownerReferencesDeepEqual [owner "a"; owner "b"] [owner "b"; owner "a"] = true /\
  ownerReferencesDeepEqual [owner "a"; owner "a"] [owner "a"; owner "b"] <>
    ownerReferencesDeepEqual [owner "a"; owner "b"] [owner "a"; owner "a"].
Proof.
  split; [|by vm_compute]. apply ownerReferencesDeepEqual_spec; [|apply Permutation_swap].
  apply (bool_decide_unpack _). vm_compute. exact I.
Defined.

Lemma WithRules_rules certsURL enabled subs svc methods r :
  arRules (WithRules enabled certsURL subs svc methods r) =
    Some (makeRule enabled certsURL svc methods <$> foldl dedup_step [] (sinkPaths subs)).
Proof. unfold WithRules. by rewrite RemoveDuplicateValues_dedup. Qed.
