(* ===== verification/EMReconciler.v ===== *)
(** * EventMesh subscription reconciler:
      [internal/controller/eventing/subscription/eventmesh]

    [Reconcile] and the functions it calls, over an abstract backend, the
    interface [eventmesh.Backend].  The Subscription is mutated through a pointer: the functions
    take it and return it.  The calls to the API server, the recorder, the validator, the metrics and
    the backend are the events of [emrEvent].

    Parameters: the layout RFC 3339 of package time ([parseTime], [formatTime]), the type meta of
    decoded Subscriptions, and the order in which a map of conditions is ranged over ([a_range]). *)

From S2P Require Import Prelude Effects GoStrings Url Errors Utils Subscription Config JetStreamUtils EventMeshUtils EventMesh ApiRule JSReconciler.
From Stdlib Require Import Ascii.

(** ** The interface of the backend

    [SyncSubscription] mutates the Subscription, also when it fails, but promises to change its
    status only. *)
Class EMBackend (W : Type) := {
  emb_SyncSubscription : Subscription -> APIRuleView -> W -> outcome bool * Subscription * W;
  emb_Sync_status_only : forall sub rule w, let after := (emb_SyncSubscription sub rule w).1.2 in
    Spec after = Spec sub /\ meta after = meta sub;
  emb_DeleteSubscription : Subscription -> M W unit
}.

Inductive emrEvent :=
  | MGet (namespace name : string) (r : Subscription + goerr)
  | MStatusUpdate (sub : Subscription) (r : Subscription + goerr)
  | MUpdate (sub : Subscription) (r : Subscription + goerr)
  | MValidate (sub : Subscription) (r : option goerr)
  | MRecorder (warning : bool) (reason message : string)
  | MSync (sub : Subscription) (rule : APIRuleView) (after : Subscription) (r : bool + goerr)
  | MDelete (sub : Subscription) (r : option goerr)
  | MListAPIRules (labels : gmap string string) (namespace : string) (r : list APIRule + goerr)
  | MListSubs (namespace : string) (r : list Subscription + goerr)
  | MGetAPIRule (namespace name : string) (r : APIRule + goerr)
  | MCreateAPIRule (rule : APIRule) (r : APIRule + goerr)
  | MUpdateAPIRule (rule : APIRule) (r : APIRule + goerr)
  | MDeleteAPIRule (rule : APIRule) (r : unit + goerr)
  | MGetPolicy (namespace name : string) (r : unit + goerr)
  | MCreatePolicy (policy : AuthorizationPolicy) (r : unit + goerr)
  | MGetService (namespace name : string) (r : gmap string string + goerr)
  | MRecordStatus (ready : bool) (name namespace : string)
  | MRemoveStatus (name namespace : string).

(** An answer to a write is the object as the API server returned it: the client decodes it
    into the argument. *)
Record EMREnv := mkEMREnv {
  m_now : list emrEvent -> Z;
  m_rand : list emrEvent -> string; (* utils.GetRandString(suffixLength) *)
  m_Get : list emrEvent -> string -> string -> Subscription + goerr;
  m_StatusUpdate : list emrEvent -> Subscription -> Subscription + goerr;
  m_Update : list emrEvent -> Subscription -> Subscription + goerr;
  m_Validate : list emrEvent -> Subscription -> option goerr;
  m_ListAPIRules : list emrEvent -> gmap string string -> string -> list APIRule + goerr;
  m_ListSubs : list emrEvent -> string -> list Subscription + goerr;
  m_GetAPIRule : list emrEvent -> string -> string -> APIRule + goerr;
  m_CreateAPIRule : list emrEvent -> APIRule -> APIRule + goerr;
  m_UpdateAPIRule : list emrEvent -> APIRule -> APIRule + goerr;
  m_DeleteAPIRule : list emrEvent -> APIRule -> unit + goerr;
  m_GetPolicy : list emrEvent -> string -> string -> unit + goerr;
  m_CreatePolicy : list emrEvent -> AuthorizationPolicy -> unit + goerr;
  m_GetService : list emrEvent -> string -> string -> gmap string string + goerr
}.

Definition externalHostPrefix := "web".
Definition externalSinkScheme := "https".
Definition apiRuleNamePrefix := "webhook-".
Definition timeoutRetryActiveEmsStatus : Z := 30 * second.
Definition requeueAfterDuration : Z := 2 * second.
Definition SubscriptionStatusActive := "Active".
Definition ErrInvalidSink := sentinel "eventmesh.ErrInvalidSink" "invalid sink".

(** ** [utils.go] *)
Definition isFinalizerSet (sub : Subscription) : bool := existsb (fun f => String.eqb f Finalizer) (elems (Finalizers (meta sub))).
Definition addFinalizer (sub : Subscription) : Subscription :=
  set_Finalizers sub (Some (elems (Finalizers (meta sub)) ++ [Finalizer])%list).
Definition removeFinalizer (sub : Subscription) : Subscription :=
  set_Finalizers sub (nil_if_empty (filter (fun f => f <> Finalizer) (elems (Finalizers (meta sub))))).

Definition getSvcNsAndName (url : string) : (string * string) + goerr :=
  match Split "." url with
  | name :: ns :: _ => inl (ns, name)
  | _ => inr (GoErr ENew (Error ErrInvalidSink +:+ " url: " +:+ url) [ErrInvalidSink])
  end.

Definition computeAPIRuleReadyStatus (apiRule : option APIRule) : bool :=
  match apiRule with
  | None => false
  | Some r => if String.eqb (arState r) "" then false else String.eqb (arState r) APIRuleReady
  end.

Definition set_ExternalSink (x : string) (b : Backend) : Backend :=
  mkBackend (Ev2hash b) (EventMeshHash b) (EventMeshLocalHash b) (WebhookAuthHash b) x
    (FailedActivation b) (APIRuleName b) (emSubscriptionStatus b) (bTypes b) (EmsTypes b).
Definition set_FailedActivation (x : string) (b : Backend) : Backend :=
  mkBackend (Ev2hash b) (EventMeshHash b) (EventMeshLocalHash b) (WebhookAuthHash b) (ExternalSink b)
    x (APIRuleName b) (emSubscriptionStatus b) (bTypes b) (EmsTypes b).
Definition set_APIRuleName (x : string) (b : Backend) : Backend :=
  mkBackend (Ev2hash b) (EventMeshHash b) (EventMeshLocalHash b) (WebhookAuthHash b) (ExternalSink b)
    (FailedActivation b) x (emSubscriptionStatus b) (bTypes b) (EmsTypes b).

Definition setSubscriptionStatusExternalSink (subscription : Subscription) (apiRule : APIRule) : Subscription + goerr :=
  match arService apiRule with
  | None => inr (errors_New "APIRule has nil service")
  | Some _ => match arSpecHosts apiRule with
    | None => inr (errors_New "APIRule has nil host")
    | Some hosts => match ParseRequestURI (Sink (Spec subscription)) with
      | inr err => inr (printf_err ("invalid sink for subscription namespace=" +:+ Namespace (meta subscription) +:+
                          " name=" +:+ Name (meta subscription) +:+ " ") err)
      | inl uri =>
          let path := if String.eqb (Path uri) "" then "/" else Path uri in
          let host := match hosts with Some h :: _ => h | _ => "" end in
          inl (upd_Backend (set_ExternalSink (externalSinkScheme +:+ "://" +:+ host +:+ path)) subscription)
      end end end.

(** ** Conditions of the status *)
Section status.
(** [range m] is the order in which the map [m] is ranged over. *)
Context (a_range : gmap string Condition -> list Condition).

Definition getRequiredConditions (subscriptionConditions expectedConditions : list Condition) : list Condition :=
  let step (s : list Condition * gmap string Condition) (condition : Condition) :=
    match s.2 !! ctype condition with
    | Some _ => ((s.1 ++ [condition])%list, delete (ctype condition) s.2)
    | None => s
    end in
  let '(requiredConditions, expectedConditionsMap) := foldl step ([], conditionMap expectedConditions) subscriptionConditions in
  (requiredConditions ++ a_range expectedConditionsMap)%list.

Definition syncInitialStatus (now : Z) (subscription : Subscription) : Subscription :=
  let status := match Types (Status subscription) with
                | None => InitializeEventTypes (Status subscription) | Some _ => Status subscription end in
  let expectedStatus := InitializeConditions now zeroStatus in
  if ContainSameConditionTypes (Conditions status) (Conditions expectedStatus) && negb (ShouldUpdateReadyStatus now status)
  then set_Status subscription status
  else
    let status :=
      match Conditions status with
      | [] => set_Backend expectedStatus (CopyHashes (sBackend expectedStatus) (sBackend status))
      | _ => set_Ready (set_Conditions status (getRequiredConditions (Conditions status) (Conditions expectedStatus)))
               (negb (Ready status))
      end in
    upd_Backend (fun b => set_ExternalSink "" (set_APIRuleName "" b)) (set_Status subscription status).
End status.

Definition replaceStatusCondition (subscription : Subscription) (condition : Condition) : Subscription :=
  let desiredConditions := (fun cond => if String.eqb (ctype cond) (ctype condition) then condition else cond)
                             <$> Conditions (Status subscription) in
  let isReady := forallb (fun c => String.eqb (cstatus c) ConditionTrue) desiredConditions in
  if ConditionsEquals (Conditions (Status subscription)) desiredConditions && Bool.eqb (Ready (Status subscription)) isReady
  then subscription
  else set_Status subscription (set_Ready (set_Conditions (Status subscription) desiredConditions) isReady).

Section time.
Context (parseTime : string -> Z + goerr) (formatTime : Z -> string).

(** The mutated Subscription, and whether it is active. *)
Definition checkStatusActive (now : Z) (subscription : Subscription) : Subscription * (bool + goerr) :=
  let b := sBackend (Status subscription) in
  match emSubscriptionStatus b with
  | None => (subscription, inl false)
  | Some s =>
      if String.eqb (emStatus s) SubscriptionStatusActive then
        (if (0 <? len (FailedActivation b))%nat then upd_Backend (set_FailedActivation "") subscription else subscription, inl true)
      else if (len (FailedActivation b) =? 0)%nat then (upd_Backend (set_FailedActivation (formatTime now)) subscription, inl false)
      else match parseTime (FailedActivation b) with
           | inr err => (subscription, inr err)
           | inl activationTime =>
               if (timeoutRetryActiveEmsStatus <? now - activationTime)%Z
               then (subscription, inr (errors_New ("timeout waiting for the subscription to be active: " +:+ Name (meta subscription))))
               else (subscription, inl false)
           end
  end.

(** [None]: a nil status is dereferenced. *)
Definition checkLastFailedDelivery (subscription : Subscription) : option (bool * option goerr) :=
  match emSubscriptionStatus (sBackend (Status subscription)) with
  | None => None
  | Some s => Some (
      if (len (emLastFailedDelivery s) =? 0)%nat then (false, None)
      else match parseTime (emLastFailedDelivery s) with
      | inr err => (true, Some (printf_err "failed to parse LastFailedDelivery" err))
      | inl lastFailedDeliveryTime =>
          if (len (emLastSuccessfulDelivery s) =? 0)%nat then (true, None)
          else match parseTime (emLastSuccessfulDelivery s) with
               | inr err => (true, Some (printf_err "failed to parse LastSuccessfulDelivery" err))
               | inl lastSuccessfulDeliveryTime => ((lastSuccessfulDeliveryTime <? lastFailedDeliveryTime)%Z, None)
               end
      end)
  end.

Definition syncConditionWebhookCallStatus (now : Z) (subscription : Subscription) : option Subscription :=
  match checkLastFailedDelivery subscription with None => None | Some r =>
  let reason := emLastFailedDeliveryReason (default zeroEMStatus (emSubscriptionStatus (sBackend (Status subscription)))) in
  let condition :=
    match r with
    | (_, Some err) => MakeCondition now ConditionWebhookCallStatus ConditionReasonWebhookCallStatus ConditionFalse (Error err)
    | (true, None) => MakeCondition now ConditionWebhookCallStatus ConditionReasonWebhookCallStatus ConditionFalse reason
    | (false, None) => MakeCondition now ConditionWebhookCallStatus ConditionReasonWebhookCallStatus ConditionTrue ""
    end in
  Some (replaceStatusCondition subscription condition)
  end.
End time.

Definition syncConditionSubscriptionActive (now : Z) (subscription : Subscription) (isActive : bool) : Subscription :=
  replaceStatusCondition subscription
    (if isActive then MakeCondition now ConditionSubscriptionActive ConditionReasonSubscriptionActive ConditionTrue ""
     else MakeCondition now ConditionSubscriptionActive ConditionReasonSubscriptionNotActive ConditionFalse
            "Waiting for subscription to be active").

(** ** Subscriptions of a service *)
Definition isMarkedForDeletion (sub : Subscription) : bool :=
  match DeletionTimestamp (meta sub) with Some _ => true | None => false end.

(** The loop of [getSubscriptionsForASvc]. *)
Definition isRelevantForSvc (svcNs svcName : string) (sub : Subscription) : bool :=
  if isMarkedForDeletion sub then false
  else match ParseRequestURI (Sink (Spec sub)) with
  | inr _ => false
  | inl hostURL => match getSvcNsAndName (Host hostURL) with
    | inr _ => false
    | inl (ns, name) => String.eqb svcNs ns && String.eqb svcName name
    end
  end.

Definition filterSubscriptionsOnPort (subList : list Subscription) (svcPort : Z) : list Subscription :=
  filter (fun sub =>
    (if isMarkedForDeletion sub then false
     else match ParseRequestURI (Sink (Spec sub)) with
     | inr _ => false
     | inl hostURL => match GetPortNumberFromURL hostURL with
       | inr _ => false
       | inl p => (svcPort =? p)%Z
       end
     end) = true) subList.

(** [None]: the service or the port of an APIRule is nil. *)
Fixpoint filterAPIRulesOnPort (existingAPIRules : list APIRule) (port : Z) : option (option APIRule) :=
  match existingAPIRules with
  | [] => Some None
  | apiRule :: rules =>
      match mbind svcPort (arService apiRule) with
      | None => None
      | Some p => if (p =? port)%Z then Some (Some apiRule) else filterAPIRulesOnPort rules port
      end
  end.

Section reconciler.
Context {W : Type} `{EMBackend W} (env : EMREnv) (webhookAuthEnabled : bool).
Context (typeMeta : Subscription -> string * string) (a_range : gmap string Condition -> list Condition).
Context (parseTime : string -> Z + goerr) (formatTime : Z -> string).
(** Fields of the reconciler. *)
Context (Domain CertsURL : string) (mapName : string -> string -> string).

Abbreviation R := (M (World W emrEvent)).

Definition mnow : R Z := fun w => (Ok (m_now env (hist w)), w).
Definition recorder (warning : bool) (reason message : string) : R unit := call (fun _ => MRecorder warning reason message) (fun _ => tt).

(** ** APIRules *)
Definition getAPIRulesForASvc (labels : gmap string string) (svcNs : string) : R (list APIRule) :=
  r <- call (MListAPIRules labels svcNs) (fun h => m_ListAPIRules env h labels svcNs) ;; okOr r.

Definition getSubscriptionsForASvc (svcNs svcName : string) : R (list Subscription) :=
  r <- call (MListSubs svcNs) (fun h => m_ListSubs env h svcNs) ;;
  subs <- okOr r ;;
  retM (filter (fun sub => isRelevantForSvc svcNs svcName sub = true) subs).

Definition makeAPIRule (svcNs svcName : string) (labels : gmap string string) (subs : list Subscription) (port : Z) : R APIRule :=
  randomSuffix <- (fun w => (Ok (m_rand env (hist w)), w)) ;;
  let hostName := [Some (externalHostPrefix +:+ "-" +:+ randomSuffix +:+ "." +:+ Domain)] in
  let svc := GetService svcName port in
  retM (NewAPIRule svcNs apiRuleNamePrefix
    [WithLabels labels; WithOwnerReference typeMeta subs; WithService hostName svcName port; WithGateway ClusterLocalAPIGateway;
     WithRules webhookAuthEnabled CertsURL subs svc ["POST"; "OPTIONS"]]).

(** The Subscriptions that still use the previous APIRule. *)
Definition otherUsers (subscription : Subscription) (previousAPIRule : APIRule) (namespaceSubscriptions : list Subscription) : list Subscription :=
  filter (fun s => UID (meta s) <> UID (meta subscription) /\ APIRuleName (sBackend (Status s)) = arName previousAPIRule)
    namespaceSubscriptions.

Definition handlePreviousAPIRule (subscription : Subscription) (reusableAPIRule : option APIRule) : R unit :=
  let previous := APIRuleName (sBackend (Status subscription)) in
  if (len previous =? 0)%nat then retM tt
  else if match reusableAPIRule with Some r => String.eqb previous (arName r) | None => false end then retM tt
  else
    r <- call (MGetAPIRule (Namespace (meta subscription)) previous)
           (fun h => m_GetAPIRule env h (Namespace (meta subscription)) previous) ;;
    match r with
    | inr err => if negb (errors_Is err EKubeNotFound) then errM err else retM tt
    | inl previousAPIRule =>
        let ownerReferences := filter (fun o => orUID o <> UID (meta subscription)) (arOwners previousAPIRule) in
        if (length ownerReferences =? 0)%nat then
          r <- call (MDeleteAPIRule previousAPIRule) (fun h => m_DeleteAPIRule env h previousAPIRule) ;; okOr r
        else if (length ownerReferences <? length (arOwners previousAPIRule))%nat then
          r <- call (MListSubs (arNamespace previousAPIRule)) (fun h => m_ListSubs env h (arNamespace previousAPIRule)) ;;
          namespaceSubscriptions <- okOr r ;;
          let subscriptions := otherUsers subscription previousAPIRule namespaceSubscriptions in
          svc <- orPanic (arService previousAPIRule) nilPointer ;;
          let previousAPIRule := WithRules webhookAuthEnabled CertsURL subscriptions svc ["POST"; "OPTIONS"]
                                   (WithOwnerReference typeMeta subscriptions previousAPIRule) in
          r <- call (MUpdateAPIRule previousAPIRule) (fun h => m_UpdateAPIRule env h previousAPIRule) ;; okOr r ;;; retM tt
        else retM tt
    end.

Definition makeAuthorizationPolicy (namespace policyName : string) (labels : gmap string string) : AuthorizationPolicy :=
  NewAuthorizationPolicy namespace policyName [WithAllowAction; apWithSelector labels].

Definition createAuthorizationPolicy (svcNs svcName policyName : string) : R unit :=
  r <- call (MGetService svcNs svcName) (fun h => m_GetService env h svcNs svcName) ;;
  match r with
  | inr err => recorder true "CreateFailed" ("Get Service failed " +:+ svcName) ;;; errM (printf_err "failed to get Service" err)
  | inl selector =>
      let newAuthorizationPolicy := makeAuthorizationPolicy svcNs policyName selector in
      r <- call (MCreatePolicy newAuthorizationPolicy) (fun h => m_CreatePolicy env h newAuthorizationPolicy) ;;
      match r with
      | inr err => recorder true "CreateFailed" ("Create AuthorizationPolicy failed " +:+ apName newAuthorizationPolicy) ;;;
                   errM (printf_err "failed to create AuthorizationPolicy" err)
      | inl _ => retM tt
      end
  end.

Definition orErr {A} (c : R A) (m : string) : R A :=
  r <- tryM c ;; match r with inl a => retM a | inr err => errM (printf_err m err) end.

Definition labelsOf (svcName : string) : gmap string string :=
  {[ ControllerServiceLabelKey := svcName; ControllerIdentityLabelKey := ControllerIdentityLabelValue ]}.

(** The end of [createOrUpdateAPIRule]: no APIRule to reuse, or one to bring up to date. *)
Definition createAPIRule (desiredAPIRule : APIRule) : R APIRule :=
  r <- call (MCreateAPIRule desiredAPIRule) (fun h => m_CreateAPIRule env h desiredAPIRule) ;;
  match r with
  | inr err => recorder true "CreateFailed" ("Create APIRule failed " +:+ arName desiredAPIRule) ;;;
               errM (printf_err "failed to create APIRule" err)
  | inl desiredAPIRule => recorder false "Create" ("Create APIRule succeeded " +:+ arName desiredAPIRule) ;;; retM desiredAPIRule
  end.

Definition updateAPIRule (svcNs svcName : string) (reusableAPIRule desiredAPIRule : APIRule) : R APIRule :=
  let desiredAPIRule := ApplyExistingAPIRuleAttributes reusableAPIRule desiredAPIRule in
  equal <- orPanic (apiRuleEqual reusableAPIRule desiredAPIRule) nilPointer ;;
  if (equal : bool) then retM reusableAPIRule
  else
    r <- call (MUpdateAPIRule desiredAPIRule) (fun h => m_UpdateAPIRule env h desiredAPIRule) ;;
    match r with
    | inr err => recorder true "UpdateFailed" ("Update APIRule failed " +:+ arName desiredAPIRule) ;;;
                 errM (printf_err "failed to update APIRule" err)
    | inl desiredAPIRule =>
        recorder false "Update" ("Update APIRule succeeded " +:+ arName desiredAPIRule) ;;;
        r <- call (MGetPolicy svcNs (arName desiredAPIRule)) (fun h => m_GetPolicy env h svcNs (arName desiredAPIRule)) ;;
        match r with
        | inr err => if errors_Is err EKubeNotFound
                     then createAuthorizationPolicy svcNs svcName (arName desiredAPIRule) ;;; retM desiredAPIRule
                     else errM err
        | inl _ => retM desiredAPIRule
        end
    end.

Definition createOrUpdateAPIRule (subscription : Subscription) (sink : Url.URL) : R APIRule :=
  svc <- orErr (okOr (getSvcNsAndName (Host sink))) "failed to parse svc name and ns in create or update APIRule" ;;
  let '(svcNs, svcName) := svc in
  let labels := labelsOf svcName in
  svcPort <- orErr (okOr (GetPortNumberFromURL sink)) "failed to convert URL port to APIRule port" ;;
  existingAPIRules <- orErr (getAPIRulesForASvc labels svcNs) ("failed to fetch APIRule for labels=map[beb:webhook service:" +:+ svcName +:+ "] ") ;;
  reusableAPIRule <- orPanic (filterAPIRulesOnPort existingAPIRules svcPort) nilPointer ;;
  subscriptions <- orErr (getSubscriptionsForASvc svcNs svcName)
    ("failed to fetch subscriptions for subscriber namespace=" +:+ svcNs +:+ ", name=" +:+ svcName +:+ " ") ;;
  let filteredSubscriptions := filterSubscriptionsOnPort subscriptions svcPort in
  desiredAPIRule <- makeAPIRule svcNs svcName labels filteredSubscriptions svcPort ;;
  handlePreviousAPIRule subscription reusableAPIRule ;;;
  match reusableAPIRule with
  | None => createAPIRule desiredAPIRule
  | Some reusableAPIRule => updateAPIRule svcNs svcName reusableAPIRule desiredAPIRule
  end.

(** The Subscription, the APIRule and the error. *)
Definition syncAPIRule (subscription : Subscription) : R (Subscription * option APIRule * option goerr) :=
  match ParseRequestURI (Sink (Spec subscription)) with
  | inr err =>
      recorder true "ValidationFailed" ("Parse sink URI failed " +:+ Sink (Spec subscription)) ;;;
      retM (subscription, None, Some (NewSkippable (Some (printf_err "failed to parse sink URL" err))))
  | inl sURL =>
      r <- tryM (createOrUpdateAPIRule subscription sURL) ;;
      match r with
      | inr err => retM (subscription, None, Some (printf_err "failed to create or update APIRule" err))
      | inl apiRule =>
          let subscription := upd_Backend (set_APIRuleName (arName apiRule)) subscription in
          if computeAPIRuleReadyStatus (Some apiRule) then
            match setSubscriptionStatusExternalSink subscription apiRule with
            | inr err => retM (subscription, Some apiRule, Some (printf_err
                ("failed to set subscription status externalSink namespace=" +:+ Namespace (meta subscription) +:+
                 ", name=" +:+ Name (meta subscription) +:+ " ") err))
            | inl subscription => retM (subscription, Some apiRule, None)
            end
          else retM (subscription, Some apiRule, Some (NewSkippable (Some (errors_New ("apiRule " +:+ arName apiRule +:+ " is not ready")))))
      end
  end.

(** ** Writing to the API server *)
Definition emitConditionEvents (oldSubscription newSubscription : Subscription) : R unit :=
  forM_ (Conditions (Status newSubscription)) (fun condition =>
    if match FindCondition (Conditions (Status oldSubscription)) (ctype condition) with
       | Some oldCondition => ConditionEquals oldCondition condition | None => false end
    then retM tt
    else recorder (String.eqb (cstatus condition) ConditionFalse) (creason condition) (cmessage condition)).

(** The new Subscription as the API server returned it, if its status was written. *)
Definition updateStatus (oldSubscription newSubscription : Subscription) : R Subscription :=
  if IsSubscriptionStatusEqual (Status oldSubscription) (Status newSubscription) then retM newSubscription
  else
    r <- call (MStatusUpdate newSubscription) (fun h => m_StatusUpdate env h newSubscription) ;;
    match r with
    | inr err => errM (printf_err "failed to update subscription status" err)
    | inl newSubscription => retM newSubscription
    end.

Definition updateSubscription (sub : Subscription) : R unit :=
  let ns := Namespace (meta sub) in let name := Name (meta sub) in
  r <- call (MGet ns name) (fun h => m_Get env h ns name) ;;
  latestSubscription <- okOr r ;;
  let newSubscription := set_Finalizers (set_Status latestSubscription (Status sub)) (Finalizers (meta sub)) in
  emitConditionEvents latestSubscription newSubscription ;;;
  newSubscription <- updateStatus latestSubscription newSubscription ;;
  if negb (bool_decide (Finalizers (meta latestSubscription) = Finalizers (meta newSubscription))) then
    r <- call (MUpdate newSubscription) (fun h => m_Update env h newSubscription) ;;
    match r with
    | inr err => errM (printf_err ("failed to remove finalizer name '" +:+ Finalizer +:+ "'") err)
    | inl _ => retM tt
    end
  else retM tt.

(** ** The steps of a reconciliation *)
Definition validateSubscription (subscription : Subscription) : R (Subscription * option goerr) :=
  err <- call (MValidate subscription) (fun h => m_Validate env h subscription) ;;
  let status := match err with Some _ => SetNotReady (Status subscription) | None => Status subscription end in
  t <- mnow ;;
  retM (set_Status subscription (SetSubscriptionSpecValidCondition t status err), err).

Definition syncFinalizer (subscription : Subscription) : Subscription * option goerr :=
  if isFinalizerSet subscription then (subscription, None) else (addFinalizer subscription, None).

Definition syncConditionSubscribed (now : Z) (subscription : Subscription) (err : option goerr) : Subscription :=
  let message := CreateMessageForConditionReasonSubscriptionCreated (mapName (Name (meta subscription)) (Namespace (meta subscription))) in
  replaceStatusCondition subscription
    (match err with
     | Some err => MakeCondition now ConditionSubscribed ConditionReasonSubscriptionCreationFailed ConditionFalse (Error err)
     | None => MakeCondition now ConditionSubscribed ConditionReasonSubscriptionCreated ConditionTrue message
     end).

(** [r.Backend.SyncSubscription], logged with the Subscription before and after. *)
Definition backendSync (subscription : Subscription) (rule : APIRuleView) : R (Subscription * (bool + goerr)) := fun w =>
  match emb_SyncSubscription subscription rule (st w) with
  | (Ok b, after, x) => (Ok (after, inl b), mkWorld x (MSync subscription rule after (inl b) :: hist w))
  | (Err e, after, x) => (Ok (after, inr e), mkWorld x (MSync subscription rule after (inr e) :: hist w))
  | (Panic m, after, x) => (Panic m, mkWorld x (hist w))
  end.
Definition backendDelete (subscription : Subscription) : R (option goerr) :=
  r <- errOf (inside (emb_DeleteSubscription subscription)) ;; call (fun _ => MDelete subscription r) (fun _ => r).

Definition syncEventMeshSubscription (subscription : Subscription) (apiRule : option APIRule) : R (Subscription * (bool + goerr)) :=
  match apiRule with
  | None => retM (subscription, inr (errors_New "APIRule is required"))
  | Some apiRule =>
      r <- backendSync subscription (view apiRule) ;;
      let subscription := r.1 in
      t <- mnow ;;
      match r.2 with
      | inr err => retM (syncConditionSubscribed t subscription (Some err), inr err)
      | inl _ =>
          let '(subscription, active) := checkStatusActive parseTime formatTime t subscription in
          match active with
          | inr err => retM (subscription, inr (printf_err "reached retry timeout" err))
          | inl isActive =>
              let subscription := syncConditionSubscribed t subscription None in
              let subscription := syncConditionSubscriptionActive t subscription isActive in
              subscription <- orPanic (syncConditionWebhookCallStatus parseTime t subscription) nilPointer ;;
              retM (subscription, inl isActive)
          end
      end
  end.

Definition handleDeleteSubscription (subscription : Subscription) : R Result :=
  err <- backendDelete subscription ;;
  match err with
  | Some err => retM (inr err)
  | None =>
      t <- mnow ;;
      let subscription := replaceStatusCondition subscription
        (MakeCondition t ConditionSubscribed ConditionReasonSubscriptionDeleted ConditionFalse "") in
      let subscription := removeFinalizer subscription in
      r <- errOf (updateSubscription subscription) ;;
      match r with
      | Some err => retM (inr err)
      | None =>
          call (fun _ => MRemoveStatus (Name (meta subscription)) (Namespace (meta subscription))) (fun _ => tt) ;;;
          retM (inl None)
      end
  end.

(** [updateErr, err] of a step that failed: both are returned, or the second. *)
Definition failAfterUpdate (sub : Subscription) (err : goerr) : R Result :=
  r <- errOf (updateSubscription sub) ;;
  match r with Some updateErr => retM (inr (MakeError updateErr (Some err))) | None => retM (inr err) end.

(** After the synchronisation with EventMesh. *)
Definition afterSync (r : Subscription * (bool + goerr)) : R Result :=
  match r.2 with
  | inr err => failAfterUpdate r.1 err
  | inl ready =>
      e <- errOf (updateSubscription r.1) ;;
      match e with
      | Some err => retM (inr err)
      | None => retM (inl (if (ready : bool) then None else Some requeueAfterDuration))
      end
  end.

Definition reconcileActive (currentSubscription sub : Subscription) : R Result :=
  t <- mnow ;;
  let sub := syncInitialStatus a_range t sub in
  let '(sub, err) := syncFinalizer sub in
  match err with
  | Some err =>
      r <- errOf (updateSubscription sub) ;;
      retM (inr (match r with Some updateErr => MakeError updateErr (Some err) | None => printf_err "failed to sync finalizer" err end))
  | None =>
      r <- validateSubscription sub ;;
      let '(sub, validationErr) := r in
      match validationErr with
      | Some validationErr =>
          r <- tryM (updateStatus currentSubscription sub) ;;
          match r with
          | inr updateErr => retM (inr (default updateErr (errors_Join [Some validationErr; Some updateErr])))
          | inl _ => retM (inr (TerminalError validationErr))
          end
      | None =>
          r <- syncAPIRule sub ;;
          let '(sub, apiRule, err) := r in
          t <- mnow ;;
          let sub := set_Status sub (SetConditionAPIRuleStatus t (Status sub) err) in
          match (if IsSkippable err then None else err) with
          | Some err => failAfterUpdate sub err
          | None =>
              r <- syncEventMeshSubscription sub apiRule ;; afterSync r
          end
      end
  end.

(** [defer r.collector.RecordSubscriptionStatus(...)]: the arguments are evaluated when the
    statement is reached, the call is made when the function ends, also in a panic. *)
Definition deferred {A} (e : emrEvent) (c : R A) : R A := fun w =>
  let '(o, w') := c w in (o, mkWorld (st w') (e :: hist w')).

Definition Reconcile (namespace name : string) : R Result :=
  r <- call (MGet namespace name) (fun h => m_Get env h namespace name) ;;
  match r with
  | inr err => retM (match IgnoreNotFound err with None => inl None | Some e => inr e end)
  | inl currentSubscription =>
      let sub := currentSubscription in
      if isInDeletion sub then handleDeleteSubscription sub
      else deferred (MRecordStatus (Ready (Status sub)) (Name (meta sub)) (Namespace (meta sub)))
             (reconcileActive currentSubscription sub)
  end.
End reconciler.
