(* ===== verification/EMReconcilerFacts.v ===== *)
(** * EventMesh subscription reconciler: what it does *)

From S2P Require Import Prelude Effects Traces GoStrings Url Errors Utils Subscription Config JetStreamUtils EventMeshUtils EventMesh EventMeshFacts ApiRule JSReconciler EMReconciler.

(** ** Conditions *)
Section status.
Implicit Types (s : Subscription) (c : Condition) (l : list Condition).

Definition replaced c l : list Condition := (fun x => if String.eqb (ctype x) (ctype c) then c else x) <$> l.

Lemma replaced_types c l : ctypes (replaced c l) = ctypes l.
Proof.
  unfold replaced. rewrite <- list_fmap_compose. apply list_fmap_ext. intros i x _. cbn.
  by destruct (String.eqb_spec (ctype x) (ctype c)).
Qed.

Definition all_true l : bool := forallb (fun c => String.eqb (cstatus c) ConditionTrue) l.

Lemma all_true_strip l l' : strip <$> l ≡ₚ strip <$> l' -> all_true l = all_true l'.
Proof.
  intros Hp. assert (forall l, all_true l = forallb (fun c => String.eqb (cstatus c) ConditionTrue) (strip <$> l)) as E.
  { clear. intros l. unfold all_true. induction l as [|c l IH]; [done|]. cbn. by rewrite IH. }
  rewrite (E l), (E l'). apply eq_true_iff_eq. rewrite !forallb_elem. by setoid_rewrite Hp.
Qed.

(** Replacing a condition keeps the types and the other conditions, gives the condition its new value
    up to the transition time, and leaves the Subscription ready exactly when all its conditions are
    true; so a Subscription without conditions becomes ready. *)
Theorem replaceStatusCondition_spec s c :
  wf_conditions (Conditions (Status s)) -> "" ∉ ctypes (Conditions (Status s)) ->
  let s' := replaceStatusCondition s c in
  strip <$> Conditions (Status s') ≡ₚ strip <$> replaced c (Conditions (Status s)) /\
  Ready (Status s') = all_true (Conditions (Status s')) /\
  meta s' = meta s /\ Spec s' = Spec s /\ Types (Status s') = Types (Status s) /\ sBackend (Status s') = sBackend (Status s).
Proof.
  intros Hwf Hz s'. subst s'. unfold replaceStatusCondition. fold (replaced c (Conditions (Status s))). fold (all_true (replaced c (Conditions (Status s)))).
  destruct (ConditionsEquals _ _) eqn:E; cbn [andb]; [|by split_and!].
  apply ConditionsEquals_spec in E; [|done|unfold wf_conditions; by rewrite replaced_types|by rewrite replaced_types].
  destruct (Bool.eqb _ _) eqn:Er; [|by split_and!]. apply eqb_prop in Er.
  split_and!; [done| |done..]. rewrite Er. symmetry. by apply all_true_strip.
Qed.

Definition example_cond (t status : string) : Condition := mkCondition t status 0 "" "".
Definition example_conditions (l : list Condition) (ready : bool) : Subscription :=
  mkSubscription (mkMeta "s" "ns" "u" None (Some [Finalizer])) (mkSpec "" "" "" [] ∅) (mkStatus l ready None zeroBackend).
Lemma replaceStatusCondition_spec_witness :
  let s := example_conditions [example_cond "A" "True"; example_cond "B" "False"] false in
  let s' := replaceStatusCondition s (example_cond "B" "True") in
  strip <$> Conditions (Status s') ≡ₚ strip <$> replaced (example_cond "B" "True") (Conditions (Status s)) /\
  Ready (Status s') = all_true (Conditions (Status s')) /\
  meta s' = meta s /\ Spec s' = Spec s /\ Types (Status s') = Types (Status s) /\ sBackend (Status s') = sBackend (Status s).
Proof.
  apply replaceStatusCondition_spec.
  - apply (bool_decide_unpack _). vm_compute. exact I.
  - apply (bool_decide_unpack _). vm_compute. exact I.
Defined.

(** A Subscription without conditions: the condition is dropped and the Subscription ready. *)
Example replaceStatusCondition_empty :
  let s' := replaceStatusCondition (example_conditions [] false) (example_cond "A" "False") in
  Ready (Status s') = true /\ Conditions (Status s') = [].
Proof. vm_compute. done. Qed.

(** *** The initial status *)
Section initial.
Context (a_range : gmap string Condition -> list Condition).
Context (range_law : forall m, a_range m ≡ₚ (map_to_list m).*2).

Definition required_step (s : list Condition * gmap string Condition) c : list Condition * gmap string Condition :=
  match s.2 !! ctype c with
  | Some _ => ((s.1 ++ [c])%list, delete (ctype c) s.2)
  | None => s
  end.

(** A map of conditions keyed by their types. *)
Definition keyed (m : gmap string Condition) : Prop := forall t c, m !! t = Some c -> ctype c = t.

Lemma required_loop l : forall acc m, keyed m -> wf_conditions (acc ++ (map_to_list m).*2)%list ->
  let r := foldl required_step (acc, m) l in
  keyed r.2 /\ ctypes (r.1 ++ (map_to_list r.2).*2)%list ≡ₚ ctypes (acc ++ (map_to_list m).*2)%list /\
  (forall c, c ∈ acc -> c ∈ r.1) /\ (wf_conditions l -> forall c, c ∈ l -> is_Some (m !! ctype c) -> c ∈ r.1).
Proof.
  induction l as [|x l IH]; intros acc m Hk Hwf; cbn [foldl].
  { cbn. split_and!; [done|done|done|]. intros _ c Hc. by apply not_elem_of_nil in Hc. }
  assert (required_step (acc, m) x = match m !! ctype x with
    | Some _ => ((acc ++ [x])%list, delete (ctype x) m) | None => (acc, m) end) as -> by done.
  destruct (m !! ctype x) as [y|] eqn:Ex.
  - assert (keyed (delete (ctype x) m)) as Hk' by (intros t c [_ Hc]%lookup_delete_Some; by apply Hk).
    assert (ctypes ((acc ++ [x]) ++ (map_to_list (delete (ctype x) m)).*2)%list ≡ₚ ctypes (acc ++ (map_to_list m).*2)%list) as Hp.
    { rewrite <- (insert_delete_id m (ctype x) y Ex) at 2. rewrite map_to_list_insert by apply lookup_delete_eq.
      rewrite !fmap_app, <- app_assoc. cbn. by rewrite (Hk _ _ Ex). }
    destruct (IH (acc ++ [x])%list (delete (ctype x) m) Hk') as (H1 & H2 & H3 & H4); [unfold wf_conditions; by rewrite Hp|].
    split_and!; [done|by rewrite H2|intros c Hc; apply H3, elem_of_app; by left|].
    intros [Hx Hl]%NoDup_cons c [->|Hc]%elem_of_cons Hm; [apply H3, elem_of_app; right; constructor|].
    apply H4; [done|done|]. rewrite lookup_delete_ne; [done|]. intros E. apply Hx. rewrite E. by apply list_elem_of_fmap_2.
  - destruct (IH acc m Hk Hwf) as (H1 & H2 & H3 & H4). split_and!; [done..|].
    intros [Hx Hl]%NoDup_cons c [->|Hc]%elem_of_cons Hm; [|by apply H4]. rewrite Ex in Hm. by destruct Hm.
Qed.

Lemma getRequiredConditions_Ok l expected : wf_conditions expected ->
  ctypes (getRequiredConditions a_range l expected) ≡ₚ ctypes expected /\
  (wf_conditions l -> forall c, c ∈ l -> ctype c ∈ ctypes expected -> c ∈ getRequiredConditions a_range l expected).
Proof.
  intros Hwf. unfold getRequiredConditions. fold required_step.
  assert (keyed (conditionMap expected)) as Hk by (intros t c Hc; by apply conditionMap_Some in Hc as [_ ?]).
  assert (ctypes ((map_to_list (conditionMap expected)).*2) ≡ₚ ctypes expected) as Hp.
  { apply NoDup_Permutation.
    - rewrite <- list_fmap_compose. apply NoDup_fmap_2_strong; [|apply NoDup_map_to_list].
      intros [t1 c1] [t2 c2] H1%elem_of_map_to_list H2%elem_of_map_to_list E. cbn in E.
      rewrite (Hk _ _ H1), (Hk _ _ H2) in E. subst t2. by simplify_eq.
    - done.
    - intros t. rewrite <- list_fmap_compose, <- conditionMap_is_Some, list_elem_of_fmap. split.
      + intros ([t' c] & -> & Hc%elem_of_map_to_list). cbn. rewrite (Hk _ _ Hc). by eexists.
      + intros [c Hc]. exists (t, c). split; [by rewrite <- (Hk _ _ Hc)|by apply elem_of_map_to_list]. }
  pose proof (required_loop l [] (conditionMap expected) Hk) as Hl. cbn [app] in Hl.
  destruct (foldl required_step ([], conditionMap expected) l) as [acc m]. cbn zeta in Hl. cbn [fst snd] in Hl.
  destruct Hl as (H1 & H2 & _ & H4); [unfold wf_conditions; by rewrite Hp|].
  split; [by rewrite fmap_app, range_law, <- fmap_app, H2|].
  intros Hwl c Hc Ht. apply elem_of_app. left. apply H4; [done|done|]. by apply conditionMap_is_Some.
Qed.

Lemma expected_types now : Conditions (InitializeConditions now zeroStatus) = MakeSubscriptionConditions now.
Proof. vm_compute. done. Qed.

(** The hashes that tell whether the EventMesh subscription changed. *)
Definition hashesOf (b : Backend) : Z * Z * Z * Z := (Ev2hash b, EventMeshHash b, EventMeshLocalHash b, WebhookAuthHash b).

(** After the initial status is synchronised the Subscription has exactly the five required condition types,
    the required conditions it had and the hashes it had; its list of types is not nil, unless it had no
    conditions; metadata and specification are untouched. *)
Theorem syncInitialStatus_spec now s : wf_conditions (Conditions (Status s)) ->
  let s' := syncInitialStatus a_range now s in
  ctypes (Conditions (Status s')) ≡ₚ requiredTypes /\
  (forall c, c ∈ Conditions (Status s) -> ctype c ∈ requiredTypes -> c ∈ Conditions (Status s')) /\
  (Conditions (Status s) <> [] -> Types (Status s') <> None) /\ hashesOf (sBackend (Status s')) = hashesOf (sBackend (Status s)) /\
  meta s' = meta s /\ Spec s' = Spec s.
Proof.
  intros Hwf s'. subst s'. unfold syncInitialStatus. rewrite expected_types.
  set (status := match Types (Status s) with None => _ | Some _ => _ end).
  assert (Conditions status = Conditions (Status s) /\ Types status <> None /\ sBackend status = sBackend (Status s)) as (Hc & Ht & Hb)
    by (subst status; destruct (Types (Status s)) eqn:E; cbn; rewrite ?E; by split_and!).
  rewrite Hc. destruct (ContainSameConditionTypes _ _ && _) eqn:Es.
  { apply andb_true_iff in Es as [Es _]. apply ContainSameConditionTypes_spec in Es; [|done].
    cbn [Status set_Status meta Spec]. rewrite Hc, Hb. split_and!; done. }
  destruct (getRequiredConditions_Ok (Conditions (Status s)) (MakeSubscriptionConditions now)) as [H1 H2].
  { unfold wf_conditions. rewrite MakeSubscriptionConditions_types. apply requiredTypes_NoDup. }
  rewrite MakeSubscriptionConditions_types in H1, H2. destruct (Conditions (Status s)) as [|x l] eqn:El.
  - cbn [Status set_Status upd_Backend Conditions set_Backend Types sBackend meta Spec].
    rewrite expected_types, Hb. split_and!; [done| |done..]. intros c Hin. by apply not_elem_of_nil in Hin.
  - cbn [Status set_Status upd_Backend Conditions set_Backend set_Ready set_Conditions Types sBackend meta Spec].
    unfold hashesOf. cbn [Ev2hash EventMeshHash EventMeshLocalHash WebhookAuthHash set_ExternalSink set_APIRuleName].
    rewrite Hb. split_and!; [done|auto|done..].
Qed.
End initial.

Definition example_range (m : gmap string Condition) : list Condition := (map_to_list m).*2.
Lemma syncInitialStatus_spec_witness :
  let s := example_conditions [example_cond ConditionSubscribed "True"; example_cond "other" "True"] true in
  let s' := syncInitialStatus example_range 7 s in
  ctypes (Conditions (Status s')) ≡ₚ requiredTypes /\
  (forall c, c ∈ Conditions (Status s) -> ctype c ∈ requiredTypes -> c ∈ Conditions (Status s')) /\
  (Conditions (Status s) <> [] -> Types (Status s') <> None) /\ hashesOf (sBackend (Status s')) = hashesOf (sBackend (Status s)) /\
  meta s' = meta s /\ Spec s' = Spec s.
Proof.
  apply (syncInitialStatus_spec example_range); [intros m; reflexivity|].
  apply (bool_decide_unpack _). vm_compute. exact I.
Defined.

(** A Subscription that is not ready and misses a condition becomes ready: the readiness is
    toggled although only the conditions had to be completed. *)
Example syncInitialStatus_toggles_ready :
  let s' := syncInitialStatus example_range 7 (example_conditions [example_cond ConditionSubscribed "False"] false) in
  Ready (Status s') = true /\ IsReady 7 (Status s') = false.
Proof. vm_compute. done. Qed.
End status.

(** ** Traces *)
Section safety.
Context {W : Type} `{EMBackend W} (env : EMREnv) (enabled : bool).
Context (typeMeta : Subscription -> string * string) (a_range : gmap string Condition -> list Condition).
Context (parseTime : string -> Z + goerr) (formatTime : Z -> string).
Context (Domain CertsURL : string) (mapName : string -> string -> string).
Abbreviation RW := (World W emrEvent).
Implicit Types (w : RW) (sub : Subscription) (r : APIRule).

(** The API server returned that APIRule. *)
Definition from_server (w0 w : RW) r : Prop :=
  (exists labels ns rs, happened w0 w (MListAPIRules labels ns (inl rs)) /\ r ∈ rs) \/
  (exists x, happened w0 w (MCreateAPIRule x (inl r))) \/ (exists x, happened w0 w (MUpdateAPIRule x (inl r))).

(** The validator accepted the Subscription, up to its status. *)
Definition validated (w0 : RW) sub w : Prop := exists v, happened w0 w (MValidate v None) /\ Spec v = Spec sub /\ meta v = meta sub.
Definition some_validated (w0 w : RW) : Prop := exists v, happened w0 w (MValidate v None).

Definition emr_justified (w0 w : RW) (e : emrEvent) : Prop :=
  match e with
  | MSync s rule _ _ => validated w0 s w /\ isInDeletion s = false /\ isFinalizerSet s = true /\
                        exists r, rule = view r /\ from_server w0 w r
  | MUpdate s _ => Finalizer ∉ elems (Finalizers (meta s)) ->
      (exists d, happened w0 w (MDelete d None)) \/ (exists s0, happened w0 w (MStatusUpdate s0 (inl s)))
  | MDelete s _ => isInDeletion s = true
  | MRemoveStatus name ns => exists d, happened w0 w (MDelete d None) /\ Name (meta d) = name /\ Namespace (meta d) = ns
  | MDeleteAPIRule r _ => (exists ns name, happened w0 w (MGetAPIRule ns name (inl r))) /\
      exists v, happened w0 w (MValidate v None) /\ forall o, o ∈ arOwners r -> orUID o = UID (meta v)
  | MCreateAPIRule _ _ | MUpdateAPIRule _ _ => some_validated w0 w
  | MCreatePolicy p _ => exists err, happened w0 w (MGetPolicy (apNamespace p) (apName p) (inr err)) /\ errors_Is err EKubeNotFound = true
  | _ => True
  end.

Lemma from_server_stable w0 r : stable (fun w => from_server w0 w r).
Proof. unfold from_server. solve_stable. Qed.
Lemma validated_stable w0 sub : stable (validated w0 sub).
Proof. unfold validated. solve_stable. Qed.

Lemma emr_justified_later w0 w w' e : emr_justified w0 w e -> ext w w' -> emr_justified w0 w' e.
Proof.
  intros He Hx. assert (forall e, happened w0 w e -> happened w0 w' e) as Hm by (intros; by eapply happened_later).
  pose proof (fun s => validated_stable w0 s w w') as Hv. pose proof (fun r => from_server_stable w0 r w w') as Hf.
  unfold some_validated in *. destruct e; cbn in *; try done; unfold some_validated in *; naive_solver.
Qed.

#[global] Instance emr_justification : Justification W emrEvent := {
  justified_event := emr_justified; justified_event_later := emr_justified_later }.

Section steps.
Context (w0 : RW).

Lemma recorder_keeps K warning reason message : stable K -> keeps (traceK w0 K) (recorder warning reason message).
Proof. intros HK. by apply call_traceK. Qed.
Lemma mnow_learns K : learns w0 K (mnow env) (fun _ _ => True).
Proof. intros w [Ht Hk]. by split_and!. Qed.
Lemma orErr_learns {A} K (c : M RW A) m Q : learns w0 K c Q -> learns w0 K (orErr c m) Q.
Proof.
  intros Hc. unfold orErr. eapply learns_weaken; [eapply learns_bind; [by apply learns_try|]|].
  - intros [a|err]; [|apply learns_err]. apply (learns_ret _ _ a (fun a w => Q a w)). by intros w [_ Hq].
  - done.
Qed.

Lemma previous_keeps K sub reusable : stable K -> (forall w, K w -> validated w0 sub w) ->
  keeps (traceK w0 K) (handlePreviousAPIRule env enabled typeMeta CertsURL sub reusable).
Proof.
  intros HK Hv. unfold handlePreviousAPIRule. destruct (_ =? 0)%nat; [apply keeps_ret|].
  destruct (match reusable with Some _ => _ | None => _ end); [apply keeps_ret|].
  apply call_learn; [done|done|]. intros [prev|err]; [|destruct (negb _); [apply keeps_err|apply keeps_ret]].
  destruct (Nat.eqb_spec (length (filter (fun o => orUID o <> UID (meta sub)) (arOwners prev))) 0) as [Hz|Hz].
  - apply keeps_bind; [|intros r; apply keeps_okOr]. apply call_traceK; [by apply stable_happened|].
    intros r w (_ & Hk & Hg). split; [by eexists _, _|]. destruct (Hv w Hk) as (v & Hev & _ & Hm). exists v. split; [done|].
    intros o Ho. rewrite Hm. destruct (decide (orUID o = UID (meta sub))) as [|Hne]; [done|].
    apply nil_length_inv in Hz. assert (o ∈ []) as Hn by (rewrite <- Hz; by apply list_elem_of_filter). by apply not_elem_of_nil in Hn.
  - destruct (_ <? _)%nat; [|apply keeps_ret].
    apply keeps_bind; [apply call_traceK; [by apply stable_happened|done]|]. intros r.
    apply keeps_bind; [apply keeps_okOr|]. intros subs. apply keeps_bind; [destruct (arService prev); [apply keeps_ret|apply keeps_panic]|].
    intros svc. apply keeps_bind; [apply call_traceK; [by apply stable_happened|]|].
    + intros r' w (_ & Hk & _). destruct (Hv w Hk) as (v & Hev & _). by exists v.
    + intros r'. apply keeps_bind; [apply keeps_okOr|]. intros x. apply keeps_ret.
Qed.

Lemma policy_keeps K svcNs svcName policyName : stable K ->
  (forall w, K w -> exists err, happened w0 w (MGetPolicy svcNs policyName (inr err)) /\ errors_Is err EKubeNotFound = true) ->
  keeps (traceK w0 K) (createAuthorizationPolicy env svcNs svcName policyName).
Proof.
  intros HK Hp. unfold createAuthorizationPolicy. apply keeps_bind; [by apply call_traceK|]. intros [sel|err].
  - apply keeps_bind; [apply call_traceK; [done|]|].
    + intros r w [_ Hk]. exact (Hp w Hk).
    + intros [[]|err]; [apply keeps_ret|]. apply keeps_bind; [by apply recorder_keeps|]. intros ?. apply keeps_err.
  - apply keeps_bind; [by apply recorder_keeps|]. intros ?. apply keeps_err.
Qed.

Lemma getAPIRules_learns K labels ns : stable K ->
  learns w0 K (getAPIRulesForASvc env labels ns) (fun rs w => happened w0 w (MListAPIRules labels ns (inl rs))).
Proof.
  intros HK. unfold getAPIRulesForASvc. eapply learns_weaken; [eapply learns_bind; [by apply learns_call|]|].
  - intros r. destruct r as [rs|err]; [|apply learns_err].
    apply (learns_ret _ _ rs (fun rs w => happened w0 w (MListAPIRules labels ns (inl rs)))). by intros w [_ ?].
  - done.
Qed.

Lemma getSubs_keeps K svcNs svcName : stable K -> keeps (traceK w0 K) (getSubscriptionsForASvc env svcNs svcName).
Proof.
  intros HK. unfold getSubscriptionsForASvc. apply keeps_bind; [by apply call_traceK|]. intros r.
  apply keeps_bind; [apply keeps_okOr|]. intros subs. apply keeps_ret.
Qed.

Lemma makeAPIRule_keeps K svcNs svcName labels subs port :
  keeps (traceK w0 K) (makeAPIRule env enabled typeMeta Domain CertsURL svcNs svcName labels subs port).
Proof. unfold makeAPIRule. apply keeps_bind; [intros w Hw; exact Hw|]. intros suffix. apply keeps_ret. Qed.

Lemma filterAPIRulesOnPort_elem rules port r : filterAPIRulesOnPort rules port = Some (Some r) -> r ∈ rules.
Proof.
  induction rules as [|x rules IH]; cbn [filterAPIRulesOnPort]; [done|].
  destruct (mbind svcPort (arService x)) as [p|]; [|done]. destruct (p =? port)%Z; [intros [= ->]; constructor|].
  intros Hr. constructor. by apply IH.
Qed.

Lemma createAPIRule_learns K desired : stable K -> (forall w, K w -> some_validated w0 w) ->
  learns w0 K (createAPIRule env desired) (fun r w => from_server w0 w r).
Proof.
  intros HK Hv. unfold createAPIRule. eapply learns_weaken; [eapply learns_bind; [apply learns_call; [done|]|]|].
  - intros r w [_ Hk]. by apply Hv.
  - intros [r|err].
    + eapply learns_bind; [apply keeps_learns, recorder_keeps; solve_stable|]. intros [].
      apply (learns_ret _ _ r (fun r w => from_server w0 w r)). intros w [[_ Hc] _]. right. left. by eexists.
    + eapply learns_bind; [apply keeps_learns, recorder_keeps; solve_stable|]. intros []. apply learns_err.
  - cbn beta. by intros r w _ Hr.
Qed.

Lemma updateAPIRule_learns K svcNs svcName reusable desired : stable K -> (forall w, K w -> some_validated w0 w) ->
  (forall w, K w -> from_server w0 w reusable) ->
  learns w0 K (updateAPIRule env svcNs svcName reusable desired) (fun r w => from_server w0 w r).
Proof.
  intros HK Hv Hf. unfold updateAPIRule. set (d := ApplyExistingAPIRuleAttributes reusable desired).
  eapply learns_bind; [apply learns_orPanic|]. intros [|].
  { apply (learns_ret _ _ reusable (fun r w => from_server w0 w r)). intros w [Hk _]. by apply Hf. }
  eapply learns_bind; [apply learns_call; [solve_stable|]|].
  { intros r w (_ & Hk & _). by apply Hv. }
  intros [r|err]; [|eapply learns_bind; [apply keeps_learns, recorder_keeps; solve_stable|]; intros []; apply learns_err].
  eapply learns_bind; [apply keeps_learns, recorder_keeps; solve_stable|]. intros [].
  eapply learns_bind; [apply learns_call; [solve_stable|done]|].
  assert (forall w, happened w0 w (MUpdateAPIRule d (inl r)) -> from_server w0 w r) as Hr by (intros w Hu; right; right; by exists d).
  intros [[]|err]; [apply (learns_ret _ _ r (fun r w => from_server w0 w r)); intros w ((([_ _] & Hu) & _) & _); by apply Hr|].
  destruct (errors_Is err EKubeNotFound) eqn:Ee; [|apply learns_err].
  eapply learns_bind; [apply keeps_learns, policy_keeps; [solve_stable|]|].
  - intros w [_ Hp]. by exists err.
  - intros []. apply (learns_ret _ _ r (fun r w => from_server w0 w r)). intros w (((([_ _] & Hu) & _) & _) & _). by apply Hr.
Qed.

Lemma createOrUpdate_learns K sub sink : stable K -> (forall w, K w -> validated w0 sub w) ->
  learns w0 K (createOrUpdateAPIRule env enabled typeMeta Domain CertsURL sub sink) (fun r w => from_server w0 w r).
Proof.
  intros HK Hv. unfold createOrUpdateAPIRule.
  eapply learns_bind; [apply orErr_learns, learns_okOr|]. intros [svcNs svcName].
  eapply learns_bind; [apply orErr_learns, learns_okOr|]. intros port.
  eapply learns_bind; [apply orErr_learns, getAPIRules_learns; solve_stable|].
  intros existing. eapply learns_bind; [apply learns_orPanic|]. intros reusable.
  eapply learns_bind; [apply orErr_learns, keeps_learns, getSubs_keeps; solve_stable|]. intros subs.
  eapply learns_bind; [apply keeps_learns, makeAPIRule_keeps|]. intros desired.
  eapply learns_bind; [apply keeps_learns, previous_keeps; [solve_stable|]|].
  { intros w Hk. apply Hv, Hk. }
  intros []. destruct reusable as [reusable|].
  - apply updateAPIRule_learns; [solve_stable| |].
    + intros w Hk. destruct (Hv w) as (v & Hev & _); [apply Hk|]. by exists v.
    + intros w (((((_ & Hl) & Hf) & _) & _) & _). left. eexists _, _, existing. split; [exact Hl|]. by eapply filterAPIRulesOnPort_elem.
  - apply createAPIRule_learns; [solve_stable|]. intros w Hk. destruct (Hv w) as (v & Hev & _); [apply Hk|]. by exists v.
Qed.

(** The Subscription is the same up to its status. *)
Definition same_spec sub sub' : Prop := Spec sub' = Spec sub /\ meta sub' = meta sub.
#[global] Instance same_spec_preorder : PreOrder same_spec.
Proof. split; [by intros s|]. intros s1 s2 s3 [H1 H2] [H3 H4]. split; congruence. Qed.
Lemma validated_same sub sub' w : same_spec sub sub' -> validated w0 sub w -> validated w0 sub' w.
Proof. intros [Hs Hm] (v & Hev & Es & Em). exists v. split_and!; congruence. Qed.

Lemma setExternalSink_same sub r sub' : setSubscriptionStatusExternalSink sub r = inl sub' -> same_spec sub sub'.
Proof.
  unfold setSubscriptionStatusExternalSink. destruct (arService r); [|done]. destruct (arSpecHosts r); [|done].
  destruct (ParseRequestURI _); [|done]. by intros [= <-].
Qed.

Definition synced_rule sub (x : Subscription * option APIRule * option goerr) w : Prop :=
  same_spec sub x.1.1 /\ match x.1.2 with Some r => from_server w0 w r | None => True end.

Lemma syncAPIRule_learns K sub : stable K -> (forall w, K w -> validated w0 sub w) ->
  learns w0 K (syncAPIRule env enabled typeMeta Domain CertsURL sub) (synced_rule sub).
Proof.
  intros HK Hv. unfold syncAPIRule. destruct (ParseRequestURI _) as [url|err].
  - eapply learns_bind; [by apply learns_try, createOrUpdate_learns|]. intros [r|err]; [|by apply learns_ret].
    destruct (computeAPIRuleReadyStatus _); [|apply learns_ret; by intros w [_ Hr]].
    destruct (setSubscriptionStatusExternalSink _ _) as [sub'|err] eqn:Es; [|apply learns_ret; by intros w [_ Hr]].
    apply setExternalSink_same in Es as [Es Em]. apply learns_ret. intros w [_ Hr]. by split; [split|].
  - eapply learns_bind; [by apply keeps_learns, recorder_keeps|]. intros []. by apply learns_ret.
Qed.

Lemma updateStatus_keeps K old new : stable K -> keeps (traceK w0 K) (updateStatus env old new).
Proof.
  intros HK. unfold updateStatus. destruct (IsSubscriptionStatusEqual _ _); [apply keeps_ret|].
  apply keeps_bind; [by apply call_traceK|]. intros [s|err]; [apply keeps_ret|apply keeps_err].
Qed.

(** The API server has that status: it accepted it, or the one it returned differs in the transition times only. *)
Definition stored (status : SubscriptionStatus) w : Prop :=
  (exists s o, happened w0 w (MStatusUpdate s (inl o)) /\ Status s = status) \/
  (exists ns name s, happened w0 w (MGet ns name (inl s)) /\ IsSubscriptionStatusEqual (Status s) status = true).
Lemma stored_stable status : stable (stored status).
Proof. unfold stored. solve_stable. Qed.

Lemma updateStatus_learns K old new : stable K ->
  (forall w, K w -> exists ns name, happened w0 w (MGet ns name (inl old))) ->
  learns w0 K (updateStatus env old new) (fun s w => (s = new \/ happened w0 w (MStatusUpdate new (inl s))) /\ stored (Status new) w).
Proof.
  intros HK Hg. unfold updateStatus. destruct (IsSubscriptionStatusEqual _ _) eqn:E.
  { apply learns_ret. intros w Hw. split; [by left|]. right. destruct (Hg w Hw) as (ns & name & Hget). by exists ns, name, old. }
  eapply learns_weaken; [eapply learns_bind; [by apply learns_call|]|].
  - intros [s|err]; [|apply learns_err]. apply (learns_ret _ _ s (fun s w => happened w0 w (MStatusUpdate new (inl s)))). by intros w [_ ?].
  - cbn. intros s w _ Hs. split; [by right|]. left. by exists new, s.
Qed.

Lemma updateSubscription_learns K sub : stable K ->
  (forall w, K w -> Finalizer ∉ elems (Finalizers (meta sub)) -> exists d, happened w0 w (MDelete d None)) ->
  learns w0 K (updateSubscription env sub) (fun _ => stored (Status sub)).
Proof.
  intros HK Hf. unfold updateSubscription. eapply learns_bind; [by apply learns_call|]. intros r.
  eapply learns_bind; [apply learns_okOr|]. intros latest. set (new := set_Finalizers _ _).
  eapply learns_bind.
  { apply keeps_learns. unfold emitConditionEvents. apply keeps_forM. intros c _.
    destruct (match FindCondition _ _ with Some _ => _ | None => _ end); [apply keeps_ret|apply recorder_keeps; solve_stable]. }
  intros []. eapply learns_bind; [apply updateStatus_learns; [solve_stable|]|].
  { intros w (((_ & Hg) & ->) & _). by eexists _, _. }
  intros s. pose proof stored_stable. destruct (negb _); [|apply learns_ret; by intros w (_ & _ & Hs)].
  eapply learns_weaken; [eapply learns_bind; [apply learns_call; [solve_stable|]|]|].
  - intros r' w (_ & ((Hk & _) & [Hs _])) Hn. cbn in Hk. destruct Hs as [->|Hs]; [left; apply (Hf w); [apply Hk|done]|right; by eexists].
  - intros [x|err]; [|apply learns_err]. apply (learns_ret _ _ tt (fun _ => stored (Status sub))). by intros w ((_ & _ & Hs) & _).
  - done.
Qed.

Lemma updateSubscription_keeps K sub : stable K ->
  (forall w, K w -> Finalizer ∉ elems (Finalizers (meta sub)) -> exists d, happened w0 w (MDelete d None)) ->
  keeps (traceK w0 K) (updateSubscription env sub).
Proof. intros HK Hf. eapply learns_keeps. by apply updateSubscription_learns. Qed.

Lemma backendSync_learns K sub rule : stable K -> (forall o w after, traceK w0 K w -> justified_event w0 w (MSync sub rule after o)) ->
  learns w0 K (backendSync sub rule) (fun x w => same_spec sub x.1 /\ happened w0 w (MSync sub rule x.1 x.2)).
Proof.
  intros HK He w Hw. unfold backendSync. pose proof (emb_Sync_status_only sub rule (st w)) as Hs.
  destruct (emb_SyncSubscription sub rule (st w)) as [[o after] x]. cbn [fst snd] in Hs.
  assert (T_w : traceK w0 K (mkWorld x (hist w))) by (by apply traceK_state).
  assert (forall o, traceK w0 K (mkWorld x (MSync sub rule after o :: hist w)) /\
                    happened w0 (mkWorld x (MSync sub rule after o :: hist w)) (MSync sub rule after o)) as Ho.
  { intros o'. split; [apply (traceK_event w0 K HK (mkWorld x (hist w))); [done|]; by apply He|].
    eapply happened_now; [apply T_w|done]. }
  destruct o as [b|err|m]; [destruct (Ho (inl b)) as [[Ht Hk] Hh]|destruct (Ho (inr err)) as [[Ht Hk] Hh]|exact T_w]; by split_and!.
Qed.

Lemma backendDelete_learns K sub : stable K -> isInDeletion sub = true ->
  learns w0 K (backendDelete sub) (fun e w => happened w0 w (MDelete sub e)).
Proof.
  intros HK Hd w Hw. unfold backendDelete, bindM, errOf.
  pose proof (inside_traceK w0 K HK (emb_DeleteSubscription sub) w Hw) as H1.
  destruct (inside (emb_DeleteSubscription sub) w) as [[[]|err|m] w1]; cbn [snd] in H1; [| |exact H1].
  - by apply (learns_call w0 K (fun _ => MDelete sub None) (fun _ => None) HK).
  - by apply (learns_call w0 K (fun _ => MDelete sub (Some err)) (fun _ => Some err) HK).
Qed.

(** Pure steps keep the metadata and the specification. *)
Lemma isFinalizerSet_elem sub : isFinalizerSet sub = true <-> Finalizer ∈ elems (Finalizers (meta sub)).
Proof.
  unfold isFinalizerSet. rewrite existsb_app_iff. split; [intros (x & Hx & E%String.eqb_eq); by subst|].
  intros Hin. exists Finalizer. split; [done|]. by apply String.eqb_eq.
Qed.

Lemma replace_same sub c : same_spec sub (replaceStatusCondition sub c).
Proof. unfold replaceStatusCondition. by destruct (_ && _). Qed.

Lemma handleDelete_learns K sub : stable K -> isInDeletion sub = true ->
  learns w0 K (handleDeleteSubscription env sub) (fun (o : Result) w => forall d, o = inl d -> d = None /\ happened w0 w (MDelete sub None)).
Proof.
  intros HK Hd. unfold handleDeleteSubscription. eapply learns_bind; [by apply backendDelete_learns|].
  intros [err|]; [by apply learns_ret|]. eapply learns_bind; [apply mnow_learns|]. intros t.
  set (sub' := removeFinalizer _). assert (meta sub' = meta (removeFinalizer sub)) as Hm.
  { subst sub'. unfold removeFinalizer. cbn. by rewrite (proj2 (replace_same _ _)). }
  eapply learns_bind; [apply keeps_learns, keeps_errOf, updateSubscription_keeps; [solve_stable|]|].
  - intros w [[_ Hk] _] _. by exists sub.
  - intros [err|]; [by apply learns_ret|]. eapply learns_bind; [apply learns_call; [solve_stable|]|].
    + intros _ w (_ & ([_ Hk] & _) & _). exists sub. by rewrite Hm.
    + intros []. apply learns_ret. intros w ((([_ Hk] & _) & _) & _) d [= <-]. done.
Qed.

Lemma checkStatusActive_same t sub sub' a : checkStatusActive parseTime formatTime t sub = (sub', a) -> same_spec sub sub'.
Proof.
  unfold checkStatusActive. destruct (emSubscriptionStatus _); [|by intros [= <- _]].
  destruct (String.eqb _ _); [destruct (_ <? _)%nat; by intros [= <- _]|].
  destruct (_ =? _)%nat; [by intros [= <- _]|]. destruct (parseTime _); [destruct (_ <? _)%Z|]; by intros [= <- _].
Qed.

(** The conditions after a successful synchronisation, and whether the subscription is active. *)
Definition synced_conditions t sub : option (Subscription * bool) :=
  match checkStatusActive parseTime formatTime t sub with
  | (_, inr _) => None
  | (s, inl a) => (fun s => (s, a)) <$> syncConditionWebhookCallStatus parseTime t
                    (syncConditionSubscriptionActive t (syncConditionSubscribed mapName t s None) a)
  end.

(** The backend synchronised a Subscription with that specification, and this is the result. *)
Definition backend_synced sub (x : Subscription) (a : bool) w : Prop :=
  exists s rule after b t, happened w0 w (MSync s rule after (inl b)) /\ same_spec sub s /\ synced_conditions t after = Some (x, a).

Lemma syncEventMesh_learns K sub rule : stable K ->
  (forall w, K w -> validated w0 sub w) -> isInDeletion sub = false -> isFinalizerSet sub = true ->
  (forall w, K w -> match rule with Some r => from_server w0 w r | None => True end) ->
  learns w0 K (syncEventMeshSubscription env parseTime formatTime mapName sub rule)
    (fun x w => same_spec sub x.1 /\ forall a, x.2 = inl a -> backend_synced sub x.1 a w).
Proof.
  intros HK Hv Hd Hf Hr. unfold syncEventMeshSubscription. destruct rule as [r|]; [|by apply learns_ret].
  eapply learns_bind; [apply backendSync_learns; [done|]|].
  { intros o w after [_ Hk]. split_and!; [by apply Hv|done|done|]. exists r. split; [done|by apply (Hr w)]. }
  intros [sub' o]. eapply learns_bind; [apply mnow_learns|]. intros t. cbn [fst snd]. destruct o as [b|err].
  2: { apply learns_ret. intros w [[_ [Hs _]] _]. split; [|done]. etransitivity; [exact Hs|apply replace_same]. }
  destruct (checkStatusActive parseTime formatTime t sub') as [sub2 [a|err]] eqn:Ec; pose proof (checkStatusActive_same _ _ _ _ Ec) as Ea;
    [|apply learns_ret; intros w [[_ [Hs _]] _]; split; [by etransitivity|done]].
  eapply learns_bind; [apply learns_orPanic|]. intros sub3. apply learns_ret. intros w [[[_ [Hs Hev]] _] Hw]. cbn [fst snd] in *. split.
  - unfold syncConditionWebhookCallStatus in Hw. destruct (checkLastFailedDelivery _ _) as [[x e]|]; [|done]. injection Hw as <-.
    etransitivity; [exact Hs|]. etransitivity; [exact Ea|].
    etransitivity; [apply replace_same|]. etransitivity; [apply replace_same|]. apply replace_same.
  - intros a' [= <-]. exists sub, (view r), sub', b, t. split_and!; [done|done|].
    unfold synced_conditions. by rewrite Ec, Hw.
Qed.

Lemma syncInitialStatus_same t sub : same_spec sub (syncInitialStatus a_range t sub).
Proof. unfold syncInitialStatus. destruct (Types _); destruct (_ && _); done. Qed.

Lemma syncFinalizer_set sub : exists sub', syncFinalizer sub = (sub', None) /\ isFinalizerSet sub' = true /\
  DeletionTimestamp (meta sub') = DeletionTimestamp (meta sub) /\ Spec sub' = Spec sub /\ Name (meta sub') = Name (meta sub).
Proof.
  unfold syncFinalizer. destruct (isFinalizerSet sub) eqn:E; [by exists sub|]. exists (addFinalizer sub).
  split_and!; [done| |done..]. apply isFinalizerSet_elem. apply elem_of_app. right. by apply list_elem_of_singleton.
Qed.

Lemma validate_learns K sub : stable K ->
  learns w0 K (validateSubscription env sub) (fun x w => same_spec sub x.1 /\ happened w0 w (MValidate sub x.2)).
Proof.
  intros HK. unfold validateSubscription. eapply learns_weaken; [eapply learns_bind; [by apply learns_call|]|].
  - intros err. eapply learns_bind; [apply mnow_learns|]. intros t.
    apply (learns_ret _ _ _ (fun x w => same_spec sub x.1 /\ happened w0 w (MValidate sub x.2))). by intros w [[_ Hv] _].
  - done.
Qed.

(** What a result without an error says about a Subscription that is not being deleted. *)
Definition reconciled sub (o : Result) w : Prop :=
  forall d, o = inl d -> exists x a, backend_synced sub x a w /\ stored (Status x) w /\ d = (if (a : bool) then None else Some requeueAfterDuration).

Lemma failAfterUpdate_learns K sub0 sub err : stable K -> isFinalizerSet sub = true ->
  learns w0 K (failAfterUpdate env sub err) (reconciled sub0).
Proof.
  intros HK Hf. unfold failAfterUpdate. eapply learns_bind.
  - apply keeps_learns, keeps_errOf, updateSubscription_keeps; [done|]. intros w _ Hn. by apply isFinalizerSet_elem in Hf.
  - intros [e|]; by apply learns_ret.
Qed.

(** With the APIRule at hand. *)
Lemma afterRule_learns K sub rule err : stable K -> (forall w, K w -> validated w0 sub w) ->
  isInDeletion sub = false -> isFinalizerSet sub = true ->
  (forall w, K w -> match rule with Some r => from_server w0 w r | None => True end) ->
  learns w0 K
    (match (if IsSkippable err then None else err) with
     | Some err => failAfterUpdate env sub err
     | None => x <- syncEventMeshSubscription env parseTime formatTime mapName sub rule ;; afterSync env x
     end) (reconciled sub).
Proof.
  intros HK Hv Hd Hf Hr. destruct (if IsSkippable err then None else err) as [e|]; [by apply failAfterUpdate_learns|].
  eapply learns_bind; [by apply syncEventMesh_learns|]. intros [s o]. cbn [fst snd].
  apply (learns_pure w0 (isFinalizerSet s = true)); [intros w [_ [[_ Hm] _]]; unfold isFinalizerSet; by rewrite Hm|].
  intros Hs. unfold afterSync. cbn [fst snd]. destruct o as [ready|e]; [|apply failAfterUpdate_learns; [unfold backend_synced; solve_stable|done]].
  eapply learns_bind; [apply learns_errOf, updateSubscription_learns; [unfold backend_synced; solve_stable|]|].
  - intros w _ Hn. by apply isFinalizerSet_elem in Hs.
  - intros [e|]; [by apply learns_ret|]. apply learns_ret. intros w [[_ [_ Hb]] Hst] d [= <-].
    exists s, ready. split_and!; auto.
Qed.

Lemma reconcileActive_learns K current sub : stable K -> isInDeletion sub = false ->
  learns w0 K (reconcileActive env enabled typeMeta a_range parseTime formatTime Domain CertsURL mapName current sub)
    (fun (o : Result) w => exists s, Spec s = Spec sub /\ Name (meta s) = Name (meta sub) /\ reconciled s o w).
Proof.
  intros HK Hd. unfold reconcileActive. eapply learns_bind; [apply mnow_learns|]. intros t.
  destruct (syncFinalizer_set (syncInitialStatus a_range t sub)) as (s0 & -> & Hf & Hdel & Hspec & Hname).
  destruct (syncInitialStatus_same t sub) as [Es Em]. rewrite Em in Hdel, Hname. rewrite Es in Hspec.
  assert (forall s, same_spec s0 s -> isInDeletion s = false /\ isFinalizerSet s = true) as Hs0.
  { intros s [_ Hm]. unfold isInDeletion, isFinalizerSet in *. by rewrite Hm, Hdel. }
  eapply learns_bind; [apply validate_learns; solve_stable|]. intros [s1 [verr|]]; cbn [fst snd].
  { eapply learns_bind; [apply keeps_learns, keeps_try, updateStatus_keeps; solve_stable|].
    intros [x|x]; apply learns_ret; intros w _; by exists s0. }
  eapply learns_bind; [apply syncAPIRule_learns; [solve_stable|]|].
  { intros w (_ & Hs & Hv). apply (validated_same s0); [done|]. by exists s0. }
  intros [[s2 rule] err]. eapply learns_bind; [apply mnow_learns|]. intros t2.
  apply (learns_pure w0 (same_spec s0 s2)); [intros w (((_ & Hs1 & _) & Hs2 & _) & _); by etransitivity|]. intros Hs2.
  eapply learns_weaken; [apply afterRule_learns; [unfold synced_rule, from_server; solve_stable| |by apply Hs0|by apply Hs0|]|].
  - intros w (((_ & _ & Hv) & _) & _). apply (validated_same s0); [done|]. by exists s0.
  - intros w ((_ & _ & Hr) & _). exact Hr.
  - intros o w _ Hr. eexists. split_and!; [| |exact Hr]; destruct Hs2 as [E1 E2]; cbn; congruence.
Qed.

Lemma deferred_learns {A} K (e : emrEvent) (c : M RW A) Q : stable K -> (forall a, stable (Q a)) ->
  (forall w, traceK w0 K w -> justified_event w0 w e) -> learns w0 K c Q -> learns w0 K (deferred e c) Q.
Proof.
  intros HK HQ He Hc w Hw. specialize (Hc w Hw). unfold deferred. destruct (c w) as [[a|err|m] w'].
  - assert (stable (fun w => K w /\ Q a w)) by (apply stable_and; auto). apply traceK_event; [done..|].
    apply He. destruct Hc as (Ht & Hk & _). by split.
  - apply traceK_event; auto.
  - apply traceK_event; auto.
Qed.

(** The possible reasons of a reconciliation that ends without an error. *)
Definition done_because ns name (d : option Z) w : Prop :=
  (d = None /\ exists err, happened w0 w (MGet ns name (inr err)) /\ IgnoreNotFound err = None) \/
  (d = None /\ exists s, happened w0 w (MGet ns name (inl s)) /\ isInDeletion s = true /\ happened w0 w (MDelete s None)) \/
  (exists s s', happened w0 w (MGet ns name (inl s)) /\ isInDeletion s = false /\
     Spec s' = Spec s /\ Name (meta s') = Name (meta s) /\ reconciled s' (inl d) w).

Lemma Reconcile_learns ns name :
  learns w0 always (Reconcile env enabled typeMeta a_range parseTime formatTime Domain CertsURL mapName ns name)
    (fun (o : Result) w => forall d, o = inl d -> done_because ns name d w).
Proof.
  unfold Reconcile. eapply learns_bind; [apply learns_call; [solve_stable|done]|]. intros [sub|err].
  - destruct (isInDeletion sub) eqn:Hd.
    + eapply learns_weaken; [apply handleDelete_learns; [solve_stable|done]|].
      intros o w [_ Hg] Ho d ->. destruct (Ho d eq_refl) as [-> Hdel]. right. left. split; [done|]. by exists sub.
    + eapply learns_weaken.
      { apply deferred_learns; [solve_stable| |done|by apply reconcileActive_learns; [solve_stable|]].
        intros a. unfold reconciled, backend_synced. solve_stable. }
      intros o w [_ Hg] (s' & Hs & Hn & Hr) d ->. right. right. by exists sub, s'.
  - apply learns_ret. intros w [_ Hg] d Ho. left. destruct (IgnoreNotFound err) eqn:E; [done|]. injection Ho as <-. split; [done|]. by exists err.
Qed.
End steps.

(** C8: in every reconciliation of an EventMesh Subscription, whatever the API server, the validator and the backend
    answer: only a Subscription that was validated, is not being deleted and has the finalizer is synchronised, with an APIRule the
    API server returned; APIRules are created and updated only for a validated Subscription, and the previous one is deleted only
    when the Subscription is its only owner; an authorization policy is created only when there is none; the
    backend deletes only a Subscription that is being deleted; and the finalizer is removed, and
    the metric dropped, only after the backend has deleted the Subscription. *)
Theorem EM_Reconcile_trace namespace name w :
  all_justified w (Reconcile env enabled typeMeta a_range parseTime formatTime Domain CertsURL mapName namespace name w).2.
Proof.
  pose proof (learns_keeps _ _ _ _ (Reconcile_learns w namespace name) w (conj (trace_refl w) I)) as Hk.
  exact (proj2 (proj1 Hk)).
Qed.

End safety.

(** ** The APIRule of a service *)
Section apirule.
Context {W : Type} (env : EMREnv) (enabled : bool) (typeMeta : Subscription -> string * string) (Domain CertsURL : string).
Implicit Types (w : World W emrEvent) (s : Subscription).

(** The sink of [s] is the path [p] on that port of that service. *)
Definition exposes svcNs svcName (port : Z) s (p : string) : Prop :=
  DeletionTimestamp (meta s) = None /\
  exists u, ParseRequestURI (Sink (Spec s)) = inl u /\ getSvcNsAndName (Host u) = inl (svcNs, svcName) /\
    GetPortNumberFromURL u = inl port /\ p = (if String.eqb (Path u) "" then "/" else Path u).

(** The Subscriptions of the namespace that use the service on that port. *)
Definition usersOf svcNs svcName (port : Z) (subs : list Subscription) : list Subscription :=
  filterSubscriptionsOnPort (filter (fun sub => isRelevantForSvc svcNs svcName sub = true) subs) port.

Lemma usersOf_elem svcNs svcName port subs s : s ∈ usersOf svcNs svcName port subs <-> s ∈ subs /\ exists p, exposes svcNs svcName port s p.
Proof.
  unfold usersOf, filterSubscriptionsOnPort, exposes. rewrite !list_elem_of_filter.
  unfold isRelevantForSvc, isMarkedForDeletion. destruct (DeletionTimestamp (meta s)); [naive_solver|].
  destruct (ParseRequestURI (Sink (Spec s))) as [u|e]; [|naive_solver].
  destruct (getSvcNsAndName (Host u)) as [[ns name]|e] eqn:En;
    [|split; [by intros (_ & ? & _)|intros (_ & p & _ & u' & [= <-] & E & _); congruence]].
  destruct (GetPortNumberFromURL u) as [q|e] eqn:Eq;
    [|split; [by intros (? & _)|intros (_ & p & _ & u' & [= <-] & _ & E & _); congruence]].
  rewrite andb_true_iff, !String.eqb_eq, Z.eqb_eq. split.
  - intros (-> & [-> ->] & Hs). split; [done|]. eexists. split; [done|]. by exists u.
  - intros (Hs & p & _ & u' & [= <-] & E1 & E2 & _). rewrite E1 in En. rewrite E2 in Eq. by injection En as -> ->; injection Eq as ->.
Qed.

Lemma sinkPaths_elem subs p : p ∈ sinkPaths subs <->
  exists s u, s ∈ subs /\ ParseRequestURI (Sink (Spec s)) = inl u /\ p = (if String.eqb (Path u) "" then "/" else Path u).
Proof.
  unfold sinkPaths. rewrite list_elem_of_omap. split.
  - intros (s & Hs & Hp). destruct (ParseRequestURI _) as [u|e] eqn:E; [|done]. injection Hp as <-. by exists s, u.
  - intros (s & u & Hs & E & ->). exists s. by rewrite E.
Qed.

End apirule.

(** ** The EventMesh backend implements the interface *)
Section instance.
Context (sha : string -> string) `{Hashing} (eenv : EMEnv) (flag : bool) (cleaner : EventTypes.Cleaner).

Definition withSub (x : World EventMesh emEvent) (sub : Subscription) : World EMState emEvent :=
  mkWorld (mkEMState (st x) sub) (hist x).
Definition dropSub (w : World EMState emEvent) : World EventMesh emEvent := mkWorld (em (st w)) (hist w).

#[global] Instance EventMesh_backend : EMBackend (World EventMesh emEvent).
Proof.
  refine {|
    emb_SyncSubscription := fun sub rule x =>
      let '(o, w) := EventMesh.SyncSubscription sha eenv flag cleaner (Some rule) (withSub x sub) in (o, kymaSub (st w), dropSub w);
    emb_DeleteSubscription := fun sub x =>
      let '(o, w) := EventMesh.DeleteSubscription sha eenv (withSub x sub) in (o, dropSub w) |}.
  intros sub rule x. pose proof (EventMesh_same_object sha eenv flag cleaner (Some rule) (withSub x sub)) as Hs.
  destruct (EventMesh.SyncSubscription _ _ _ _ _ _) as [o w]. cbn in *. by destruct Hs as (_ & ? & ?).
Defined.
End instance.
