(* ===== verification/EMLiveness.v ===== *)
(** * EventMesh subscription reconciler: in a healthy cluster a Subscription becomes Ready

    A healthy API server stores what it accepts and answers with what it stores; a healthy gateway makes an APIRule ready once it
    was created; a healthy backend synchronises a Subscription, reports it as active, and finds nothing to do the next
    time.  These are laws over the environment and the backend. *)

From S2P Require Import Prelude Effects GoStrings Url Errors Utils Subscription EventTypes Config JetStreamUtils EventMeshUtils ApiRule JSReconciler EMReconciler EMReconcilerFacts.

(** ** The conditions of a Subscription that is ready *)
Definition ready_conditions (message : string) : list Condition :=
  [mkCondition ConditionAPIRuleStatus ConditionTrue 0 ConditionReasonAPIRuleStatusReady "";
   mkCondition ConditionSubscribed ConditionTrue 0 ConditionReasonSubscriptionCreated message;
   mkCondition ConditionSubscriptionActive ConditionTrue 0 ConditionReasonSubscriptionActive "";
   mkCondition ConditionWebhookCallStatus ConditionTrue 0 ConditionReasonWebhookCallStatus "";
   mkCondition ConditionSubscriptionSpecValid ConditionTrue 0 ConditionReasonSubscriptionSpecHasNoValidationErrors ""].

Definition complete (l : list Condition) : Prop := ctypes l ≡ₚ requiredTypes.

Lemma complete_wf l : complete l -> wf_conditions l /\ "" ∉ ctypes l.
Proof.
  intros Hc. unfold complete in Hc. unfold wf_conditions. rewrite Hc. split; [apply requiredTypes_NoDup|]. apply (bool_decide_unpack _). vm_compute. exact I.
Qed.

Lemma ctypes_strip l : ctypes l = ctype <$> (strip <$> l).
Proof. rewrite <- list_fmap_compose. done. Qed.

(** The five conditions, up to their times and order. *)
Lemma ready_conditions_iff m l : complete l -> strip <$> l ≡ₚ ready_conditions m <-> (forall c, c ∈ ready_conditions m -> has_condition l c).
Proof.
  intros Hc. assert (strip <$> ready_conditions m = ready_conditions m) as Es by done. split.
  - intros Hp c Hin. rewrite has_condition_iff, Hp. rewrite <- Es. by apply list_elem_of_fmap_2.
  - intros Hall. symmetry. apply submseteq_length_Permutation.
    + apply NoDup_submseteq.
      * assert (NoDup (ctypes (ready_conditions m))) as Hn by apply requiredTypes_NoDup. by eapply NoDup_fmap_1.
      * intros c Hin. rewrite <- Es in Hin. apply list_elem_of_fmap in Hin as (x & -> & Hx). apply has_condition_iff. by apply Hall.
    + rewrite length_fmap. apply Permutation_length in Hc. rewrite length_fmap in Hc. by rewrite Hc.
Qed.

Lemma ready_all_true m l : strip <$> l ≡ₚ ready_conditions m -> all_true l = true.
Proof. intros Hp. by rewrite (all_true_strip l (ready_conditions m)). Qed.
Lemma ready_complete m l : strip <$> l ≡ₚ ready_conditions m -> complete l.
Proof. intros Hp. unfold complete. rewrite ctypes_strip, Hp. done. Qed.
Lemma ready_equal m l l' : strip <$> l ≡ₚ ready_conditions m -> strip <$> l' ≡ₚ ready_conditions m -> ConditionsEquals l l' = true.
Proof.
  intros H1 H2. destruct (complete_wf l (ready_complete _ _ H1)), (complete_wf l' (ready_complete _ _ H2)).
  apply ConditionsEquals_spec; [done..|]. by rewrite H1, H2.
Qed.

(** *** The steps that set a condition *)
Lemma spec_valid_step t st : complete (Conditions st) ->
  let st' := SetSubscriptionSpecValidCondition t st None in
  complete (Conditions st') /\ has_condition (Conditions st') (makeSubscriptionSpecValidCondition 0 None).
Proof.
  intros Hc st'. destruct (complete_wf _ Hc) as [Hwf _]. unfold st', SetSubscriptionSpecValidCondition. rewrite setCondition_ref by done. cbn.
  split; [|by apply (has_condition_upsert _ (makeSubscriptionSpecValidCondition t None))].
  unfold complete. rewrite upsertCondition_types. rewrite bool_decide_true; [by rewrite app_nil_r|]. unfold complete in Hc. rewrite Hc. apply (bool_decide_unpack _). vm_compute. exact I.
Qed.
Lemma spec_valid_keeps t st c : complete (Conditions st) -> ctype c <> ConditionSubscriptionSpecValid -> has_condition (Conditions st) c ->
  has_condition (Conditions (SetSubscriptionSpecValidCondition t st None)) c.
Proof.
  intros Hc Hne Hh. destruct (complete_wf _ Hc) as [Hwf _]. unfold SetSubscriptionSpecValidCondition. rewrite setCondition_ref by done. cbn.
  apply has_condition_kept; [by intros E; apply Hne|done].
Qed.

Lemma rule_step t st err : complete (Conditions st) -> complete (Conditions (SetConditionAPIRuleStatus t st err)).
Proof.
  unfold complete. intros Hc. unfold SetConditionAPIRuleStatus. cbn [Conditions set_Conditions]. rewrite fmap_cons.
  assert (ctype (match err with None => MakeCondition t ConditionAPIRuleStatus ConditionReasonAPIRuleStatusReady ConditionTrue ""
    | Some e => MakeCondition t ConditionAPIRuleStatus ConditionReasonAPIRuleStatusNotReady ConditionFalse (Error e) end) = ConditionAPIRuleStatus) as -> by (by destruct err).
  assert (ctypes (filter (fun c => ctype c <> ConditionAPIRuleStatus) (Conditions st)) = filter (fun x => x <> ConditionAPIRuleStatus) (ctypes (Conditions st))) as ->.
  { clear Hc. induction (Conditions st) as [|x l IH]; [done|]. rewrite fmap_cons. destruct (decide (ctype x = ConditionAPIRuleStatus)) as [E|E].
    - rewrite !filter_cons_False by (by intros H; apply H). exact IH.
    - rewrite !filter_cons_True by done. rewrite fmap_cons. by rewrite IH. }
  rewrite Hc. vm_compute. reflexivity.
Qed.
Lemma rule_step_has t st : has_condition (Conditions (SetConditionAPIRuleStatus t st None))
  (mkCondition ConditionAPIRuleStatus ConditionTrue 0 ConditionReasonAPIRuleStatusReady "").
Proof. eexists. split; [by left|done]. Qed.
Lemma rule_step_keeps t st err c : ctype c <> ConditionAPIRuleStatus -> has_condition (Conditions st) c ->
  has_condition (Conditions (SetConditionAPIRuleStatus t st err)) c.
Proof.
  intros Hne (x & Hx & E). exists x. split; [|done]. right. apply list_elem_of_filter. split; [|done].
  assert (ctype x = ctype c) as -> by (unfold strip in E; congruence). done.
Qed.

Lemma replace_step s c : complete (Conditions (Status s)) -> ctype c ∈ requiredTypes ->
  let s' := replaceStatusCondition s c in
  complete (Conditions (Status s')) /\ has_condition (Conditions (Status s')) c /\
  (forall d, ctype d <> ctype c -> has_condition (Conditions (Status s)) d -> has_condition (Conditions (Status s')) d) /\
  Ready (Status s') = all_true (Conditions (Status s')) /\
  meta s' = meta s /\ Spec s' = Spec s /\ Types (Status s') = Types (Status s) /\ sBackend (Status s') = sBackend (Status s).
Proof.
  intros Hc Ht s'. destruct (complete_wf _ Hc) as [Hwf Hz]. destruct (replaceStatusCondition_spec s c Hwf Hz) as (Hp & Hr & Hrest).
  fold s' in Hp, Hr, Hrest. assert (complete (Conditions (Status s'))) as Hc'.
  { unfold complete in *. rewrite ctypes_strip, Hp, <- ctypes_strip, replaced_types. done. }
  split_and!; [done| | |done|apply Hrest..].
  - apply has_condition_iff. rewrite Hp. unfold complete in Hc. rewrite <- Hc in Ht. apply list_elem_of_fmap in Ht as (x & Ex & Hx).
    apply list_elem_of_fmap_2. unfold replaced. apply list_elem_of_fmap. exists x. split; [|done]. by rewrite <- Ex, String.eqb_refl.
  - intros d Hne (x & Hx & E). apply has_condition_iff. rewrite Hp, <- E. apply list_elem_of_fmap_2. unfold replaced. apply list_elem_of_fmap.
    exists x. split; [|done]. rewrite (proj2 (String.eqb_neq _ _)); [done|]. unfold strip in E. congruence.
Qed.

(** *** Replacing a condition twice *)
Lemma strip_replaced c l : strip <$> replaced c l = replaced (strip c) (strip <$> l).
Proof.
  unfold replaced. rewrite <- !list_fmap_compose. apply list_fmap_ext. intros i x _. cbn. by destruct (String.eqb _ _).
Qed.
Lemma replaced_idem c l : replaced c (replaced c l) = replaced c l.
Proof.
  unfold replaced. rewrite <- list_fmap_compose. apply list_fmap_ext. intros i x _. cbn. destruct (String.eqb (ctype x) (ctype c)) eqn:E; [|by rewrite E].
  by rewrite String.eqb_refl.
Qed.
Lemma replaced_Permutation c l l' : l ≡ₚ l' -> replaced c l ≡ₚ replaced c l'.
Proof. intros Hp. unfold replaced. by rewrite Hp. Qed.

Lemma replace_again s c c' s' : wf_conditions (Conditions (Status s)) -> "" ∉ ctypes (Conditions (Status s)) -> strip c' = strip c ->
  Status s' = Status (replaceStatusCondition s c) -> replaceStatusCondition s' c' = s'.
Proof.
  intros Hwf Hz Ec Es. destruct (replaceStatusCondition_spec s c Hwf Hz) as (Hp & Hr & _). rewrite <- Es in Hp, Hr.
  set (l := Conditions (Status s')) in *. assert (ctypes l ≡ₚ ctypes (Conditions (Status s))) as Ht by (by rewrite ctypes_strip, Hp, <- ctypes_strip, replaced_types).
  assert (strip <$> l ≡ₚ strip <$> replaced c' l) as Hp'.
  { rewrite strip_replaced, Ec, (replaced_Permutation _ _ _ Hp), strip_replaced, replaced_idem, <- strip_replaced. exact Hp. }
  unfold replaceStatusCondition. change (Conditions (Status s')) with l. fold (replaced c' l). fold (all_true (replaced c' l)).
  assert (ConditionsEquals l (replaced c' l) = true) as ->.
  { apply ConditionsEquals_spec; [unfold wf_conditions; by rewrite Ht|unfold wf_conditions; by rewrite replaced_types, Ht|by rewrite replaced_types, Ht|done]. }
  rewrite Hr, (all_true_strip _ _ Hp'). by rewrite eqb_reflx.
Qed.

(** ** A healthy API server *)
Definition is_sub_write (e : emrEvent) : bool := match e with MStatusUpdate _ _ | MUpdate _ _ => true | _ => false end.
Definition is_rule_write (e : emrEvent) : bool := match e with MCreateAPIRule _ _ | MUpdateAPIRule _ _ | MDeleteAPIRule _ _ => true | _ => false end.

(** An object in deletion goes when its last finalizer goes. *)
Definition kept_after_update (s : Subscription) : option Subscription :=
  if isInDeletion s && bool_decide (elems (Finalizers (meta s)) = []) then None else Some s.

(** One Subscription, which only this reconciler writes.  The status is a subresource: an update keeps it, an update of the status keeps
    the rest, and both answer with the object as it is stored. *)
Class HealthySubscriptions (env : EMREnv) (namespace name : string) := {
  sub_of : list emrEvent -> option Subscription;
  sub_of_named : forall h s, sub_of h = Some s -> Namespace (meta s) = namespace /\ Name (meta s) = name;
  sub_of_kept : forall e h, is_sub_write e = false -> sub_of (e :: h) = sub_of h;
  sub_Get : forall h s, sub_of h = Some s -> m_Get env h namespace name = inl s;
  sub_StatusUpdate : forall h s old, sub_of h = Some old -> Namespace (meta s) = namespace -> Name (meta s) = name ->
    let new := set_Status old (Status s) in
    m_StatusUpdate env h s = inl new /\ sub_of (MStatusUpdate s (inl new) :: h) = Some new;
  sub_Update : forall h s old, sub_of h = Some old -> Namespace (meta s) = namespace -> Name (meta s) = name ->
    let new := set_Status s (Status old) in
    m_Update env h s = inl new /\ sub_of (MUpdate s (inl new) :: h) = kept_after_update new;
  sub_List : forall h s, sub_of h = Some s -> exists subs, m_ListSubs env h namespace = inl subs /\ s ∈ subs
}.

(** ** A healthy gateway

    [rule_of] is the APIRule of the service and the port of the sink, under one name and with one host.  Once it was created it is ready;
    an update keeps its state; only writes of APIRules change that there is one. *)
Record usable (name host svcName : string) (port : Z) (r : APIRule) : Prop := {
  us_name : arName r = name;
  us_ready : arState r = APIRuleReady;
  us_service : arService r = Some (GetService svcName port);
  us_hosts : arSpecHosts r = Some [Some host]
}.

Class HealthyGateway (env : EMREnv) (Domain namespace svcName : string) (port : Z) := {
  gw_name : string;
  gw_host : string;
  gw_rand : forall h, externalHostPrefix +:+ "-" +:+ m_rand env h +:+ "." +:+ Domain = gw_host;
  rule_of : list emrEvent -> option APIRule;
  rule_of_usable : forall h r, rule_of h = Some r -> usable gw_name gw_host svcName port r;
  rule_of_kept : forall e h, is_rule_write e = false -> is_Some (rule_of (e :: h)) <-> is_Some (rule_of h);
  gw_List : forall h, exists rules, m_ListAPIRules env h (labelsOf svcName) namespace = inl rules /\ filterAPIRulesOnPort rules port = Some (rule_of h);
  gw_Get : forall h n, (forall r, rule_of h = Some r -> arName r <> n) ->
    exists err, m_GetAPIRule env h namespace n = inr err /\ errors_Is err EKubeNotFound = true;
  gw_Create : forall h d, rule_of h = None -> arGenerateName d = apiRuleNamePrefix -> arService d = Some (GetService svcName port) ->
    arSpecHosts d = Some [Some gw_host] -> exists r, m_CreateAPIRule env h d = inl r /\ arSpecHosts r = arSpecHosts d /\ arRules r = arRules d /\
    computeAPIRuleReadyStatus (Some r) = false /\ is_Some (rule_of (MCreateAPIRule d (inl r) :: h));
  gw_Update : forall h d, is_Some (rule_of h) -> usable gw_name gw_host svcName port d -> exists r, m_UpdateAPIRule env h d = inl r /\
    usable gw_name gw_host svcName port r /\ arRules r = arRules d /\ is_Some (rule_of (MUpdateAPIRule d (inl r) :: h));
  gw_Policy : forall h n, m_GetPolicy env h namespace n = inl tt \/
    exists err, m_GetPolicy env h namespace n = inr err /\ errors_Is err EKubeNotFound = true /\
      forall h', (exists selector, m_GetService env h' namespace svcName = inl selector) /\ forall p, m_CreatePolicy env h' p = inl tt
}.

(** ** A healthy backend

    [emhb_gone]: the backend has nothing left of a Subscription.  [settled] holds of a Subscription that the backend has synchronised: a synchronisation leaves it as it is.  It is about the
    specification, the types, the hashes and the status of EventMesh, and about the APIRule only by the URL that this exposes; without
    a URL there is no synchronisation. *)
Definition same_remote (b b' : Backend) : Prop :=
  set_ExternalSink "" (set_APIRuleName "" (set_FailedActivation "" b)) = set_ExternalSink "" (set_APIRuleName "" (set_FailedActivation "" b')).
Definition own_fields (b : Backend) : string * string * string := (ExternalSink b, APIRuleName b, FailedActivation b).

Definition reported_active (b : Backend) : Prop :=
  exists x, emSubscriptionStatus b = Some x /\ emStatus x = SubscriptionStatusActive /\ emLastFailedDelivery x = "".

Class HealthyEMBackend (W : Type) `{EMBackend W} := {
  emhb : W -> Prop;
  emhb_ok : Subscription -> Prop;
  settled : W -> Subscription -> APIRuleView -> Prop;
  emhb_gone : W -> Subscription -> Prop;
  emhb_Delete : forall s w, emhb w -> emhb_ok s -> exists w', emb_DeleteSubscription s w = (Ok tt, w') /\ emhb w' /\ emhb_gone w' s;
  gone_same : forall w s s', emhb_gone w s -> Namespace (meta s') = Namespace (meta s) -> Name (meta s') = Name (meta s) -> emhb_gone w s';
  emhb_Sync : forall s rule w, emhb w -> emhb_ok s -> (exists url, GetExposedURLFromAPIRule rule (Sink (Spec s)) = inl url) -> exists b after w', emb_SyncSubscription s rule w = (Ok b, after, w') /\
    emhb w' /\ settled w' after rule /\ Conditions (Status after) = Conditions (Status s) /\ Types (Status after) <> None /\
    own_fields (sBackend (Status after)) = own_fields (sBackend (Status s)) /\ reported_active (sBackend (Status after));
  settled_again : forall s rule w, settled w s rule -> exists b w', emb_SyncSubscription s rule w = (Ok b, s, w') /\ emhb w' /\ settled w' s rule;
  settled_same : forall w s rule s' rule', settled w s rule -> Spec s' = Spec s -> Namespace (meta s') = Namespace (meta s) ->
    Name (meta s') = Name (meta s) -> Types (Status s') = Types (Status s) -> same_remote (sBackend (Status s)) (sBackend (Status s')) ->
    GetExposedURLFromAPIRule rule' (Sink (Spec s)) = GetExposedURLFromAPIRule rule (Sink (Spec s)) -> settled w s' rule'
}.

(** ** Steps *)
Section liveness.
Context {W : Type} `{HealthyEMBackend W} (env : EMREnv) (enabled : bool).
Context (typeMeta : Subscription -> string * string) (a_range : gmap string Condition -> list Condition) (range_law : forall m, a_range m ≡ₚ (map_to_list m).*2).
Context (parseTime : string -> Z + goerr) (formatTime : Z -> string).
Context (Domain CertsURL : string) (mapName : string -> string -> string).
Context (namespace name : string) `{!HealthySubscriptions env namespace name}.
Context (sp : SubscriptionSpec) (u : Url.URL) (svcName : string) (port : Z).
(** The sink is a service of the namespace of the Subscription, as the validation demands. *)
Context (Hsink : ParseRequestURI (Sink sp) = inl u) (Hsvc : getSvcNsAndName (Host u) = inl (namespace, svcName)) (Hport : GetPortNumberFromURL u = inl port).
Context `{!HealthyGateway env Domain namespace svcName port}.
Abbreviation RW := (World W emrEvent).
Implicit Types (w : RW) (s sub : Subscription) (r : APIRule).

Definition sub_writes w : nat := length (filter (fun e => is_sub_write e = true) (hist w)).

(** Neither the Subscription nor the backend was touched; [calm]: an APIRule can have been made. *)
Definition calm w w' : Prop :=
  st w' = st w /\ sub_of (hist w') = sub_of (hist w) /\ sub_writes w' = sub_writes w /\ (is_Some (rule_of (hist w)) -> is_Some (rule_of (hist w'))).
Definition quiet w w' : Prop := calm w w' /\ (is_Some (rule_of (hist w')) -> is_Some (rule_of (hist w))).

Lemma calm_trans w w1 w2 : calm w w1 -> calm w1 w2 -> calm w w2.
Proof using Type. intros (A1 & A2 & A3 & A4) (B1 & B2 & B3 & B4). split_and!; [congruence..|auto]. Qed.
Lemma quiet_same w : quiet w w.
Proof using Type. done. Qed.
Lemma quiet_trans w w1 w2 : quiet w w1 -> quiet w1 w2 -> quiet w w2.
Proof using Type. intros [A A'] [B B']. split; [by eapply calm_trans|auto]. Qed.
Lemma writes_event w x e : is_sub_write e = false -> sub_writes (mkWorld x (e :: hist w)) = sub_writes w.
Proof using Type. intros He. unfold sub_writes. cbn [hist]. by rewrite filter_cons_False by congruence. Qed.
Lemma quiet_event w e : is_sub_write e = false -> is_rule_write e = false -> quiet w (mkWorld (st w) (e :: hist w)).
Proof using Type.
  intros He Hd. split; [split_and!; [done|by apply sub_of_kept|by apply writes_event|]|]; by apply rule_of_kept.
Qed.

(** A computation that succeeds, quietly up to a relation between the worlds. *)
Definition ends {A} (R : RW -> RW -> Prop) (c : M RW A) w (Q : A -> RW -> Prop) : Prop := exists a w', c w = (Ok a, w') /\ R w w' /\ Q a w'.

Lemma ends_bind {A B} R `{!Transitive R} (c : M RW A) (k : A -> M RW B) w Q Q' :
  ends R c w Q -> (forall a w', R w w' -> Q a w' -> ends R (k a) w' Q') -> ends R (bindM c k) w Q'.
Proof using Type.
  intros (a & w1 & E1 & Q1 & Ha) Hk. destruct (Hk a w1 Q1 Ha) as (b & w2 & E2 & Q2 & Hb). exists b, w2. unfold bindM. rewrite E1.
  split; [done|]. split; [by etransitivity|done].
Qed.
#[local] Instance quiet_preorder : PreOrder quiet.
Proof using Type. split; [intros w; apply quiet_same|intros ? ? ?; apply quiet_trans]. Qed.
#[local] Instance calm_preorder : PreOrder calm.
Proof using Type. split; [done|intros ? ? ?; apply calm_trans]. Qed.

Lemma ends_ret {A} R `{!Reflexive R} (a : A) w (Q : A -> RW -> Prop) : Q a w -> ends R (retM a) w Q.
Proof using Type. intros Hq. by exists a, w. Qed.
Lemma ends_call {A} (ev : A -> emrEvent) f w (Q : A -> RW -> Prop) : (forall a, is_sub_write (ev a) = false) -> (forall a, is_rule_write (ev a) = false) ->
  Q (f (hist w)) (mkWorld (st w) (ev (f (hist w)) :: hist w)) -> ends quiet (call ev f) w Q.
Proof using Type. intros He Hd Hq. eexists _, _. split; [done|]. split; [by apply quiet_event|done]. Qed.
Lemma ends_orErr {A} R (c : M RW A) m w Q : ends R c w Q -> ends R (orErr c m) w Q.
Proof using Type. intros (a & w1 & E1 & Q1 & Ha). exists a, w1. unfold orErr, tryM, bindM. by rewrite E1. Qed.
Lemma ends_okOr {A} R `{!Reflexive R} (a : A) w (Q : A -> RW -> Prop) : Q a w -> ends R (okOr (inl a)) w Q.
Proof using Type. intros Hq. by exists a, w. Qed.
Lemma ends_calm {A} (c : M RW A) w Q : ends quiet c w Q -> ends calm c w Q.
Proof using Type. intros (a & w1 & E1 & [Q1 _] & Ha). by exists a, w1. Qed.
Lemma ends_recorder warning reason message w (Q : unit -> RW -> Prop) : (forall w', quiet w w' -> Q tt w') -> ends quiet (recorder warning reason message) w Q.
Proof using Type. intros Hq. apply ends_call; [done..|]. apply Hq. by apply quiet_event. Qed.

(** *** The APIRule *)
Definition sink_path : string := if String.eqb (Path u) "" then "/" else Path u.
(** The APIRule leads to the sink. *)
Definition leads r : Prop := arSpecHosts r = Some [Some gw_host] /\ sink_path ∈ rPath <$> elems (arRules r).
Definition exposes r : Prop := usable gw_name gw_host svcName port r /\ leads r.

Lemma previous_quiet sub reusable w : Namespace (meta sub) = namespace -> (forall r, reusable = Some r -> arName r = gw_name) ->
  (is_Some (rule_of (hist w)) -> is_Some reusable) ->
  ends quiet (handlePreviousAPIRule env enabled typeMeta CertsURL sub reusable) w (fun _ _ => True).
Proof using Type.
  intros Hns Hname Hr. unfold handlePreviousAPIRule. set (previous := APIRuleName _). destruct (_ =? 0)%nat; [by apply ends_ret; [apply _|]|].
  destruct (match reusable with Some r => _ | None => _ end) eqn:Em; [by apply ends_ret; [apply _|]|].
  destruct (gw_Get (hist w) previous) as (err & E & Hnf).
  { intros r Er. destruct Hr as [r' ->]; [by eexists|]. apply String.eqb_neq in Em. rewrite (us_name _ _ _ _ _ (rule_of_usable _ _ Er)), <- (Hname r' eq_refl). congruence. }
  eapply ends_bind; [apply _|by apply (ends_call _ _ _ (fun x _ => x = inr err)); [..|rewrite Hns, E]|].
  intros x w' _ ->. rewrite Hnf. by apply ends_ret; [apply _|].
Qed.

Lemma policy_quiet policyName w : (forall h, (exists selector, m_GetService env h namespace svcName = inl selector) /\ forall p, m_CreatePolicy env h p = inl tt) ->
  ends quiet (createAuthorizationPolicy env namespace svcName policyName) w (fun _ _ => True).
Proof using Type.
  intros Hp. unfold createAuthorizationPolicy. destruct (Hp (hist w)) as [[selector Hs] _].
  eapply ends_bind; [apply _|by apply (ends_call _ _ _ (fun x _ => x = inl selector))|]. intros x w1 _ ->.
  eapply ends_bind; [apply _|by apply (ends_call _ _ _ (fun x _ => x = inl tt)); [..|apply Hp]|]. intros x w2 _ ->. by apply ends_ret; [apply _|].
Qed.

Lemma calm_event w e : is_sub_write e = false -> is_Some (rule_of (e :: hist w)) -> calm w (mkWorld (st w) (e :: hist w)).
Proof using Type. intros He Hr. split_and!; [done|by apply sub_of_kept|by apply writes_event|done]. Qed.

(** The APIRule made for the service. *)
Record made (d : APIRule) : Prop := {
  md_generate : arGenerateName d = apiRuleNamePrefix;
  md_service : arService d = Some (GetService svcName port);
  md_leads : leads d
}.

Lemma updateAPIRule_calm r d w : is_Some (rule_of (hist w)) -> usable gw_name gw_host svcName port r -> made d ->
  ends calm (updateAPIRule env namespace svcName r d) w (fun r' _ => exposes r').
Proof using Type.
  intros Hw [U1 U2 U3 U4] [_ D2 [_ D4]]. unfold updateAPIRule. set (d' := ApplyExistingAPIRuleAttributes r d).
  assert (exists b, apiRuleEqual r d' = Some b /\ (b = true -> arRules r = arRules d)) as (b & Eb & Hb).
  { unfold apiRuleEqual. destruct (negb _); [by eexists|]. destruct (negb _); [by eexists|]. rewrite U3. cbn [d' ApplyExistingAPIRuleAttributes arService].
    rewrite D2. eexists. split; [done|]. intros [[_ E%bool_decide_eq_true]%andb_true_iff _]%andb_true_iff. exact E. }
  rewrite Eb. cbn [orPanic]. destruct b.
  { apply ends_ret; [apply _|]. split; [done|]. split; [done|]. by rewrite Hb. }
  destruct (gw_Update (hist w) d') as (r' & Eu & Hr' & Er & Hs'); [done|by constructor|].
  eapply ends_bind with (Q := fun x w' => x = inl r'); [apply _| |].
  { eexists _, _. split; [done|]. split; [apply calm_event; [done|by rewrite Eu]|done]. }
  assert (exposes r') as He by (split; [done|]; split; [apply Hr'|by rewrite Er]).
  intros x w1 _ ->. apply ends_calm. eapply ends_bind with (Q := fun _ _ => True); [apply _|by apply ends_recorder|]. intros _ w2 _ _.
  destruct (gw_Policy (hist w2) (arName r')) as [Ep|(err & Ep & Hnf & Hpol)].
  - eapply ends_bind; [apply _|by apply (ends_call _ _ _ (fun x _ => x = inl tt))|]. intros x w3 _ ->. by apply ends_ret; [apply _|].
  - eapply ends_bind; [apply _|by apply (ends_call _ _ _ (fun x _ => x = inr err))|]. intros x w3 _ ->. rewrite Hnf.
    eapply ends_bind; [apply _|by apply policy_quiet|]. intros _ w4 _ _. by apply ends_ret; [apply _|].
Qed.

Lemma createAPIRule_calm d w : rule_of (hist w) = None -> made d ->
  ends calm (createAPIRule env d) w (fun r w' => computeAPIRuleReadyStatus (Some r) = false /\ leads r /\ is_Some (rule_of (hist w'))).
Proof using Type.
  intros Hw [D1 D2 [D3 D4]]. unfold createAPIRule. destruct (gw_Create (hist w) d Hw D1 D2 D3) as (r & Ec & Eh & Er & Hr & Hs).
  eapply ends_bind with (Q := fun x w' => x = inl r /\ is_Some (rule_of (hist w'))); [apply _| |].
  { eexists _, _. split; [done|]. cbn [hist]. rewrite Ec. split; [apply calm_event; [done|]|]; done. }
  intros x w1 _ [-> Hs1]. apply ends_calm. eapply ends_bind with (Q := fun _ w' => is_Some (rule_of (hist w'))); [apply _| |].
  - apply ends_recorder. intros w' [(_ & _ & _ & Hk) _]. by apply Hk.
  - intros _ w2 _ Hs2. apply ends_ret; [apply _|]. split; [done|]. split; [split; [by rewrite Eh|by rewrite Er]|done].
Qed.

(** The Subscriptions of the service, ours among them. *)
Lemma getSubscriptions_quiet s w : sub_of (hist w) = Some s -> Spec s = sp -> DeletionTimestamp (meta s) = None ->
  ends quiet (getSubscriptionsForASvc env namespace svcName) w (fun l _ => exists subs, filterSubscriptionsOnPort l port = usersOf namespace svcName port subs /\ s ∈ subs).
Proof using Type.
  intros Hs Hsp Hl. destruct (sub_List _ _ Hs) as (subs & El & Hin). unfold getSubscriptionsForASvc.
  eapply ends_bind; [apply _|by apply (ends_call _ _ _ (fun x _ => x = inl subs))|]. intros x w1 _ ->.
  eapply ends_bind with (Q := fun x _ => x = subs); [apply _|by apply ends_okOr; [apply _|]|]. intros x w2 _ ->.
  apply ends_ret; [apply _|]. by exists subs.
Qed.

Lemma makeAPIRule_made s subs w : s ∈ subs -> Spec s = sp -> DeletionTimestamp (meta s) = None ->
  ends quiet (makeAPIRule env enabled typeMeta Domain CertsURL namespace svcName (labelsOf svcName) (usersOf namespace svcName port subs) port) w (fun d _ => made d).
Proof using Hsink Hsvc Hport.
  intros Hin Hsp Hl. eexists _, w. split; [done|]. split; [apply quiet_same|]. constructor; [done|done|]. split.
  - cbn. by rewrite gw_rand.
  - unfold NewAPIRule. cbn [foldl]. rewrite WithRules_rules. cbn [elems default from_option id]. rewrite <- list_fmap_compose.
    apply list_elem_of_fmap. exists sink_path. split; [done|].
    destruct (dedup_spec [] (sinkPaths (usersOf namespace svcName port subs))) as (_ & Hd & _); [constructor|]. apply Hd. right.
    apply sinkPaths_elem. exists s, u. split_and!; [|by rewrite Hsp|done]. apply (usersOf_elem typeMeta). split; [done|].
    exists sink_path. split; [done|]. exists u. rewrite Hsp. by split_and!.
Qed.

(** The APIRule of a Subscription: ready when there was one. *)
Lemma createOrUpdate_calm sub s w : Namespace (meta sub) = namespace -> sub_of (hist w) = Some s -> Spec s = sp -> DeletionTimestamp (meta s) = None ->
  ends calm (createOrUpdateAPIRule env enabled typeMeta Domain CertsURL sub u) w (fun r w' => is_Some (rule_of (hist w')) /\ leads r /\
    if bool_decide (is_Some (rule_of (hist w))) then exposes r else computeAPIRuleReadyStatus (Some r) = false).
Proof using Hsink Hsvc Hport.
  intros Hns Hs Hsp Hl. unfold createOrUpdateAPIRule. rewrite Hsvc, Hport.
  eapply ends_bind with (Q := fun x w' => x = (namespace, svcName) /\ w' = w); [apply _|by apply ends_orErr, ends_okOr; [apply _|]|].
  intros x w' _ [-> ->]. cbn iota beta.
  eapply ends_bind with (Q := fun x w' => x = port /\ w' = w); [apply _|by apply ends_orErr, ends_okOr; [apply _|]|].
  intros x w' _ [-> ->]. destruct (gw_List (hist w)) as (rules & El & Ef).
  eapply ends_bind with (Q := fun x w' => x = rules /\ quiet w w'); [apply _| |].
  { apply ends_calm, ends_orErr. unfold getAPIRulesForASvc.
    eapply ends_bind; [apply _|apply (ends_call _ _ _ (fun x w' => x = inl rules /\ quiet w w')); [done..|]|].
    - split; [done|by apply quiet_event].
    - intros x w1 _ [-> Hq]. by apply ends_okOr; [apply _|]. }
  intros x w1 _ [-> Hq1]. rewrite Ef. cbn [orPanic]. set (reusable := rule_of (hist w)) in *.
  eapply ends_bind with (Q := fun x w' => x = reusable /\ w' = w1); [apply _|by apply ends_ret; [apply _|]|]. intros x w' _ [-> ->].
  destruct (getSubscriptions_quiet s w1) as (l & w2 & E2 & Hq2 & subs & Hu & Hin); [by rewrite (proj1 (proj2 (proj1 Hq1)))|done..|].
  eapply ends_bind with (Q := fun x w' => x = l /\ w' = w2); [apply _|apply ends_orErr; exists l, w2; split_and!; [done|apply Hq2|done|done]|].
  intros x w' _ [-> ->]. rewrite Hu. destruct (makeAPIRule_made s subs w2 Hin Hsp Hl) as (d & w3 & E3 & Hq3 & Hd).
  eapply ends_bind with (Q := fun x w' => x = d /\ w' = w3); [apply _|exists d, w3; split_and!; [done|apply Hq3|done|done]|].
  intros x w' _ [-> ->]. assert (quiet w w3) as Hq by (do 2 (eapply quiet_trans; [eassumption|]); done).
  destruct (previous_quiet sub reusable w3 Hns) as (y & w4 & E4 & Hq4 & _).
  { intros r Er. by apply (us_name _ _ _ _ _ (rule_of_usable _ _ Er)). }
  { intros Hr. by apply Hq. }
  eapply ends_bind with (Q := fun _ w' => w' = w4); [apply _|exists y, w4; split_and!; [done|apply Hq4|done]|].
  intros _ w' _ ->. assert (quiet w w4) as [Hc Hc'] by by eapply quiet_trans. destruct reusable as [r|] eqn:Er; unfold reusable in Er.
  - destruct (updateAPIRule_calm r d w4) as (r' & w5 & E5 & Hc5 & Hr'); [apply Hc; by rewrite Er|by apply (rule_of_usable (hist w))|done|].
    exists r', w5. split; [done|]. split; [done|]. split; [|split; [apply Hr'|done]]. apply Hc5, Hc. by rewrite Er.
  - assert (rule_of (hist w4) = None) as Hn.
    { apply eq_None_not_Some. intros Hs4%Hc'. rewrite Er in Hs4. by destruct Hs4. }
    destruct (createAPIRule_calm d w4 Hn Hd) as (r & w5 & E5 & Hc5 & Hr & Hl5 & Hs5). by exists r, w5.
Qed.

Definition exposed_sink : string := externalSinkScheme +:+ "://" +:+ gw_host +:+ sink_path.
Definition with_rule sub : Subscription := upd_Backend (set_ExternalSink exposed_sink) (upd_Backend (set_APIRuleName gw_name) sub).

Lemma syncAPIRule_calm sub s w : Namespace (meta sub) = namespace -> Spec sub = sp -> sub_of (hist w) = Some s -> Spec s = sp -> DeletionTimestamp (meta s) = None ->
  ends calm (syncAPIRule env enabled typeMeta Domain CertsURL sub) w (fun x w' => is_Some (rule_of (hist w')) /\ exists r, leads r /\
    if bool_decide (is_Some (rule_of (hist w))) then x = (with_rule sub, Some r, None) /\ exposes r
    else exists e, x = (upd_Backend (set_APIRuleName (arName r)) sub, Some r, Some (NewSkippable (Some e)))).
Proof using Hsink Hsvc Hport.
  intros Hns Hsp Hs Hsp' Hl. unfold syncAPIRule. rewrite Hsp, Hsink.
  destruct (createOrUpdate_calm sub s w Hns Hs Hsp' Hl) as (r & w1 & E & Hc & Hr1 & Hlr & Hr).
  unfold ends, bindM, tryM. rewrite E. case_bool_decide as Hb.
  - destruct Hr as [[U1 U2 U3 U4] _]. unfold computeAPIRuleReadyStatus. rewrite U2. cbn [String.eqb].
    unfold setSubscriptionStatusExternalSink. cbn [Spec Sink upd_Backend set_Status]. rewrite Hsp, Hsink, U3, U4, U1.
    eexists _, w1. split; [done|]. split; [done|]. split; [done|]. exists r. split; [done|]. split; [done|]. by split; [constructor|].
  - rewrite Hr. eexists _, w1. split; [done|]. split; [done|]. split; [done|]. exists r. split; [done|]. by eexists.
Qed.

(** *** Writing *)
Lemma emit_quiet old new w : ends quiet (emitConditionEvents old new) w (fun _ _ => True).
Proof using Type.
  unfold emitConditionEvents. revert w. induction (Conditions (Status new)) as [|c l IH]; intros w; [by apply ends_ret; [apply _|]|].
  cbn [forM_]. eapply ends_bind with (Q := fun _ _ => True); [apply _| |by intros].
  destruct (match FindCondition _ _ with Some _ => _ | None => _ end); [by apply ends_ret; [apply _|]|by apply ends_recorder].
Qed.

(** What is stored after an update: a new status without the finalizers, or the finalizers. *)
Definition stored_next old sub : Subscription :=
  if IsSubscriptionStatusEqual (Status old) (Status sub) then set_Finalizers old (Finalizers (meta sub)) else set_Status old (Status sub).

Definition stored_after old sub : option Subscription :=
  if IsSubscriptionStatusEqual (Status old) (Status sub) && negb (bool_decide (Finalizers (meta old) = Finalizers (meta sub)))
  then kept_after_update (stored_next old sub) else Some (stored_next old sub).

Lemma stored_after_live old sub : DeletionTimestamp (meta old) = None -> stored_after old sub = Some (stored_next old sub).
Proof using Type.
  intros Hl. unfold stored_after, stored_next. destruct (IsSubscriptionStatusEqual _ _); [|done]. cbn [andb].
  destruct (negb _); [|done]. unfold kept_after_update, isInDeletion. cbn. by rewrite Hl.
Qed.

Lemma updateSubscription_run old sub w : sub_of (hist w) = Some old ->
  Namespace (meta sub) = namespace -> Name (meta sub) = name ->
  exists w', updateSubscription env sub w = (Ok tt, w') /\ st w' = st w /\ sub_of (hist w') = stored_after old sub /\
    (is_Some (rule_of (hist w)) -> is_Some (rule_of (hist w'))) /\
    (IsSubscriptionStatusEqual (Status old) (Status sub) = true -> Finalizers (meta sub) = Finalizers (meta old) -> sub_writes w' = sub_writes w).
Proof using Type.
  intros Ho Hns Hn. destruct (sub_of_named _ _ Ho) as [Ons On]. unfold updateSubscription, bindM at 1, call at 1. rewrite Hns, Hn, (sub_Get _ _ Ho).
  cbn [okOr]. set (w1 := mkWorld (st w) _). assert (quiet w w1) as Hq1 by by apply quiet_event.
  unfold bindM at 1. cbn [okOr retM]. set (new := set_Finalizers (set_Status old (Status sub)) (Finalizers (meta sub))).
  destruct (emit_quiet old new w1) as ([] & w2 & E2 & Hq2 & _). unfold bindM at 1. rewrite E2. pose proof (quiet_trans _ _ _ Hq1 Hq2) as [(S2 & O2 & N2 & R2) _].
  rewrite Ho in O2. unfold updateStatus, stored_after, stored_next. change (Status new) with (Status sub).
  destruct (IsSubscriptionStatusEqual (Status old) (Status sub)) eqn:Ee.
  - unfold bindM at 1, retM at 1. change (Finalizers (meta new)) with (Finalizers (meta sub)).
    case_bool_decide as Ef; cbn [negb andb].
    + exists w2. split_and!; [done|done| |done|done]. rewrite O2, <- Ef. destruct old as [[] ? ?]. done.
    + destruct (sub_Update (hist w2) new old O2) as [Eu Es]; [done|done|]. unfold bindM, call. rewrite Eu.
      eexists. split; [done|]. cbn [st hist]. split_and!; [done| | |done].
      * rewrite Es. done.
      * intros Hr. by apply rule_of_kept, R2.
  - destruct (sub_StatusUpdate (hist w2) new old O2) as [Eu Es]; [done|done|]. unfold bindM at 1. unfold bindM at 1, call at 1. rewrite Eu.
    cbn [retM]. rewrite bool_decide_true by done. cbn [negb]. eexists. split; [done|]. cbn [st hist]. split_and!; [done|exact Es| |done].
    intros Hr. by apply rule_of_kept, R2.
Qed.

(** *** The synchronisation *)
Definition message : string := CreateMessageForConditionReasonSubscriptionCreated (mapName name namespace).
Definition remote_conditions : list Condition := tail (removelast (ready_conditions message)).

(** The three conditions of the synchronisation. *)
Lemma sync_conditions t1 t2 t3 s : Namespace (meta s) = namespace -> Name (meta s) = name -> complete (Conditions (Status s)) ->
  exists s', replaceStatusCondition (syncConditionSubscriptionActive t2 (syncConditionSubscribed mapName t1 s None) true)
      (MakeCondition t3 ConditionWebhookCallStatus ConditionReasonWebhookCallStatus ConditionTrue "") = s' /\
    complete (Conditions (Status s')) /\ Ready (Status s') = all_true (Conditions (Status s')) /\
    (forall c, c ∈ remote_conditions -> has_condition (Conditions (Status s')) c) /\
    (forall c, ctype c = ConditionAPIRuleStatus \/ ctype c = ConditionSubscriptionSpecValid -> has_condition (Conditions (Status s)) c ->
       has_condition (Conditions (Status s')) c) /\
    meta s' = meta s /\ Spec s' = Spec s /\ Types (Status s') = Types (Status s) /\ sBackend (Status s') = sBackend (Status s).
Proof using Type.
  intros Hns Hn Hc. eexists. split; [done|]. unfold syncConditionSubscriptionActive, syncConditionSubscribed. rewrite Hns, Hn. fold message.
  set (c1 := MakeCondition t1 _ _ _ _). set (c2 := MakeCondition t2 _ _ _ _). set (c3 := MakeCondition t3 _ _ _ _).
  assert (ctype c1 ∈ requiredTypes /\ ctype c2 ∈ requiredTypes /\ ctype c3 ∈ requiredTypes) as (T1 & T2 & T3)
    by (split_and!; apply (bool_decide_unpack _); vm_compute; exact I).
  destruct (replace_step s c1 Hc T1) as (C1 & H1 & K1 & _ & M1 & S1 & Y1 & B1). set (s1 := replaceStatusCondition s c1) in *.
  destruct (replace_step s1 c2 C1 T2) as (C2 & H2 & K2 & _ & M2 & S2 & Y2 & B2). set (s2 := replaceStatusCondition s1 c2) in *.
  destruct (replace_step s2 c3 C2 T3) as (C3 & H3 & K3 & R3 & M3 & S3 & Y3 & B3). set (s3 := replaceStatusCondition s2 c3) in *.
  split_and!; [done|done| | |congruence..].
  - intros c Hin. assert (c = mkCondition ConditionSubscribed ConditionTrue 0 ConditionReasonSubscriptionCreated message \/
      c = mkCondition ConditionSubscriptionActive ConditionTrue 0 ConditionReasonSubscriptionActive "" \/
      c = mkCondition ConditionWebhookCallStatus ConditionTrue 0 ConditionReasonWebhookCallStatus "") as [-> |[-> | ->]].
    { cbn in Hin. rewrite !elem_of_cons in Hin. destruct Hin as [?|[?|[?|[]%not_elem_of_nil]]]; auto. }
    + apply K3; [done|]. apply K2; [done|]. exact H1.
    + apply K3; [done|]. exact H2.
    + exact H3.
  - intros c Ht Hh. apply K3; [by destruct Ht as [-> | ->]|]. apply K2; [by destruct Ht as [-> | ->]|]. apply K1; [by destruct Ht as [-> | ->]|]. done.
Qed.

Lemma replace_backend s c : sBackend (Status (replaceStatusCondition s c)) = sBackend (Status s).
Proof using Type. unfold replaceStatusCondition. by destruct (_ && _). Qed.
Lemma set_FailedActivation_id b : FailedActivation b = "" -> set_FailedActivation "" b = b.
Proof using Type. intros E. destruct b. cbn in E. by subst. Qed.

Lemma sync_run sub r w : emhb (st w) -> emhb_ok sub -> (exists url, GetExposedURLFromAPIRule (view r) (Sink (Spec sub)) = inl url) -> Namespace (meta sub) = namespace -> Name (meta sub) = name -> complete (Conditions (Status sub)) ->
  exists s' w', syncEventMeshSubscription env parseTime formatTime mapName sub (Some r) w = (Ok (s', inl true), w') /\
    emhb (st w') /\ settled (st w') s' (view r) /\ sub_of (hist w') = sub_of (hist w) /\ sub_writes w' = sub_writes w /\
    (is_Some (rule_of (hist w)) -> is_Some (rule_of (hist w'))) /\
    meta s' = meta sub /\ Spec s' = Spec sub /\ Types (Status s') <> None /\ reported_active (sBackend (Status s')) /\
    own_fields (sBackend (Status s')) = (ExternalSink (sBackend (Status sub)), APIRuleName (sBackend (Status sub)), "") /\
    complete (Conditions (Status s')) /\ Ready (Status s') = all_true (Conditions (Status s')) /\
    (forall c, c ∈ remote_conditions -> has_condition (Conditions (Status s')) c) /\
    (forall c, ctype c = ConditionAPIRuleStatus \/ ctype c = ConditionSubscriptionSpecValid -> has_condition (Conditions (Status sub)) c ->
       has_condition (Conditions (Status s')) c) /\
    (settled (st w) sub (view r) -> FailedActivation (sBackend (Status sub)) = "" ->
       Types (Status s') = Types (Status sub) /\ sBackend (Status s') = sBackend (Status sub)).
Proof using Type.
  intros Hb Hok Hurl Hns Hn Hc. destruct (emhb_Sync sub (view r) (st w) Hb Hok Hurl) as (b & after & x & Es & Hb' & Hset & Hcond & Hty & Hown & (stat & Est & Hact & Hlast)).
  pose proof (emb_Sync_status_only sub (view r) (st w)) as [Hsp Hm]. rewrite Es in Hsp, Hm. cbn in Hsp, Hm.
  set (w1 := mkWorld x (MSync sub (view r) after (inl b) :: hist w)).
  set (after' := upd_Backend (set_FailedActivation "") after).
  assert (forall t, checkStatusActive parseTime formatTime t after = (after', inl true)) as Hactive.
  { intros t. unfold checkStatusActive. rewrite Est, Hact. cbn [String.eqb]. rewrite String.eqb_refl. f_equal. unfold after'.
    destruct (FailedActivation (sBackend (Status after))) eqn:Ef; [|done]. cbn. unfold upd_Backend. rewrite set_FailedActivation_id by done.
    destruct after as [m s0 []]. done. }
  destruct (sync_conditions (m_now env (hist w1)) (m_now env (hist w1)) (m_now env (hist w1)) after') as (s' & Es' & C & R & Hr & Hk & M & S & Y & B).
  { cbn. by rewrite Hm. } { cbn. by rewrite Hm. } { cbn. by rewrite Hcond. }
  exists s', w1. split.
  { unfold syncEventMeshSubscription, bindM at 1, backendSync. rewrite Es. cbn [fst snd]. fold w1. unfold bindM, mnow. rewrite Hactive.
    assert (syncConditionWebhookCallStatus parseTime (m_now env (hist w1))
      (syncConditionSubscriptionActive (m_now env (hist w1)) (syncConditionSubscribed mapName (m_now env (hist w1)) after' None) true) = Some s') as ->; [|done].
    rewrite <- Es'. unfold syncConditionWebhookCallStatus, checkLastFailedDelivery, syncConditionSubscriptionActive, syncConditionSubscribed.
    rewrite !replace_backend. cbn [sBackend Status upd_Backend after' set_Status set_Backend set_FailedActivation emSubscriptionStatus]. by rewrite Est, Hlast. }
  assert (sub_of (hist w1) = sub_of (hist w)) as O1 by by apply sub_of_kept.
  assert (sub_writes w1 = sub_writes w) as N1 by by apply writes_event.
  assert (own_fields (sBackend (Status after')) = (ExternalSink (sBackend (Status sub)), APIRuleName (sBackend (Status sub)), "")) as Hown'.
  { unfold own_fields in *. injection Hown as E1 E2 _. cbn. by rewrite E1, E2. }
  assert (settled (st w1) s' (view r)) as Hset'.
  { eapply settled_same; [exact Hset|by rewrite S|by rewrite M|by rewrite M|by rewrite Y|by rewrite B|done]. }
  split_and!; [done|done|done|done| | | |by rewrite Y| |by rewrite B|done..| |].
  - intros Hs. by apply rule_of_kept.
  - by rewrite M.
  - by rewrite S.
  - exists stat. by rewrite B.
  - intros c Ht Hh. apply Hk; [done|]. cbn. by rewrite Hcond.
  - intros Hst Hf. destruct (settled_again _ _ _ Hst) as (b' & w' & Ea & _). rewrite Es in Ea. injection Ea as _ Ea _.
    rewrite Y, B. unfold after'. cbn. rewrite Ea, set_FailedActivation_id by done. done.
Qed.

(** ** A reconciliation *)
Record final s : Prop := {
  fi_conditions : strip <$> Conditions (Status s) ≡ₚ ready_conditions message;
  fi_ready : Ready (Status s) = true;
  fi_types : Types (Status s) <> None;
  fi_own : own_fields (sBackend (Status s)) = (exposed_sink, gw_name, "");
  fi_active : reported_active (sBackend (Status s))
}.

(** The backend has synchronised the Subscription, with the APIRule that exposes its sink. *)
Definition served_by (x : W) s : Prop := exists r, exposes r /\ settled x s (view r).

Lemma leads_url r : leads r -> GetExposedURLFromAPIRule (view r) (Sink sp) = inl ("https://" +:+ gw_host +:+ sink_path).
Proof using Hsink.
  intros [Eh Hp]. unfold GetExposedURLFromAPIRule. rewrite Hsink. unfold view. cbn [arPaths arHosts]. rewrite Eh. fold sink_path.
  assert (existsb (String.eqb sink_path) (rPath <$> elems (arRules r)) = true) as ->; [|done].
  apply existsb_exists. eexists. split; [by apply list_elem_of_In|apply String.eqb_refl].
Qed.

(** A settled Subscription stays so when only conditions, finalizers and fields of this reconciler change. *)
Lemma settled_other x s r s' r' : settled x s (view r) -> exposes r -> exposes r' -> Spec s = sp -> Spec s' = Spec s ->
  Namespace (meta s') = Namespace (meta s) -> Name (meta s') = Name (meta s) -> Types (Status s') = Types (Status s) ->
  same_remote (sBackend (Status s)) (sBackend (Status s')) -> settled x s' (view r').
Proof using Hsink.
  intros Hs Hr Hr' E1 E2 E3 E4 E5 E6. eapply settled_same; [exact Hs|done..|]. rewrite E1. rewrite !leads_url; [done|apply Hr|apply Hr'].
Qed.

Lemma initial_final t s : final s -> syncInitialStatus a_range t s = s.
Proof using Type.
  intros [Hc Hr Ht _ _]. destruct (complete_wf _ (ready_complete _ _ Hc)) as [Hwf _]. unfold syncInitialStatus. rewrite expected_types.
  destruct (Types (Status s)) eqn:Et; [|done]. pose proof (ready_complete _ _ Hc) as Hcomp. unfold complete in Hcomp.
  assert (ContainSameConditionTypes (Conditions (Status s)) (MakeSubscriptionConditions t) = true) as ->.
  { apply ContainSameConditionTypes_spec; [done|]. by rewrite Hcomp. }
  assert (IsReady t (Status s) = true) as Hir.
  { unfold IsReady. assert (ContainSameConditionTypes (MakeSubscriptionConditions t) (Conditions (Status s)) = true) as ->.
    - apply ContainSameConditionTypes_spec; [apply requiredTypes_NoDup|]. by rewrite Hcomp.
    - cbn [negb]. exact (ready_all_true _ _ Hc). }
  unfold ShouldUpdateReadyStatus. rewrite Hr, Hir. cbn. by destruct s.
Qed.

Lemma equal_final s s' : wf_conditions (Conditions (Status s)) -> IsSubscriptionStatusEqual (Status s) (Status s') = true -> final s' -> final s.
Proof using Type.
  intros Hwf He [Hc Hr Ht Ho Ha]. unfold IsSubscriptionStatusEqual in He. apply andb_true_iff in He as [He Hce].
  apply andb_true_iff in He as [He Eb%bool_decide_eq_true]. apply andb_true_iff in He as [Er%bool_decide_eq_true Et%bool_decide_eq_true].
  destruct (complete_wf _ (ready_complete _ _ Hc)) as [Hwf' Hz]. apply ConditionsEquals_spec in Hce; [|done..].
  constructor; [by rewrite Hce|congruence..|by rewrite Eb].
Qed.
(** What is stored is what the reconciler works on, without the fields that the API server owns. *)
Record stored w s : Prop := {
  sd_sub : sub_of (hist w) = Some s;
  sd_spec : Spec s = sp;
  sd_live : DeletionTimestamp (meta s) = None;
  sd_wf : wf_conditions (Conditions (Status s));
  sd_backend : emhb (st w)
}.
Context (Hvalid : forall h s, Spec s = sp -> Namespace (meta s) = namespace -> Name (meta s) = name -> m_Validate env h s = None).
Context (Hok : forall s, Spec s = sp -> Namespace (meta s) = namespace -> Name (meta s) = name -> emhb_ok s).
Abbreviation spec_valid := (makeSubscriptionSpecValidCondition 0 None).

(** The Subscription after its initial status, its finalizer and its validation. *)
Definition prepared t t' s : Subscription :=
  let s1 := (syncFinalizer (syncInitialStatus a_range t s)).1 in set_Status s1 (SetSubscriptionSpecValidCondition t' (Status s1) None).

Lemma prepared_spec t t' s : wf_conditions (Conditions (Status s)) -> let s' := prepared t t' s in
  complete (Conditions (Status s')) /\ has_condition (Conditions (Status s')) spec_valid /\ isFinalizerSet s' = true /\
  Spec s' = Spec s /\ Namespace (meta s') = Namespace (meta s) /\ Name (meta s') = Name (meta s) /\
  (final s -> Types (Status s') = Types (Status s) /\ sBackend (Status s') = sBackend (Status s) /\ (isFinalizerSet s = true -> meta s' = meta s)).
Proof using range_law.
  intros Hwf s'. destruct (syncInitialStatus_spec a_range range_law t s Hwf) as (Hc & _ & _ & _ & Hm & Hsp).
  set (s0 := syncInitialStatus a_range t s) in *.
  assert (exists m, (syncFinalizer s0).1 = mkSubscription m (Spec s) (Status s0) /\ isFinalizerSet (mkSubscription m (Spec s) (Status s0)) = true /\
    Namespace m = Namespace (meta s) /\ Name m = Name (meta s) /\ (isFinalizerSet s = true -> m = meta s)) as (m & Em & Hf & Hns & Hn & Hsame).
  { unfold syncFinalizer. destruct (isFinalizerSet s0) eqn:E.
    - exists (meta s0). cbn [fst]. assert (mkSubscription (meta s0) (Spec s) (Status s0) = s0) as Es by (rewrite <- Hsp; by destruct s0).
      rewrite Es. by rewrite Hm.
    - pose proof (syncFinalizer_set s0) as (x & Ex & Hx & _). unfold syncFinalizer in Ex. rewrite E in Ex. injection Ex as Ex. cbn [fst].
      exists (meta (addFinalizer s0)). assert (mkSubscription (meta (addFinalizer s0)) (Spec s) (Status s0) = addFinalizer s0) as Es
        by (rewrite <- Hsp; by destruct s0).
      rewrite Es, Ex. split_and!; [done|done|by rewrite <- Ex; cbn; rewrite Hm..|].
      unfold isFinalizerSet in *. rewrite <- Hm. congruence. }
  unfold s', prepared. fold s0. rewrite Em. cbn [Status]. destruct (spec_valid_step t' (Status s0) Hc) as [Hc1 Hv].
  cbn [set_Status Status meta Spec]. split_and!; [done|done|exact Hf|done..|]. intros Hfin.
  assert (s0 = s) as E0 by by apply initial_final. rewrite E0. split_and!; [| |exact Hsame];
    unfold SetSubscriptionSpecValidCondition, setCondition; repeat case_match; done.
Qed.

(** The rest of a reconciliation: the APIRule, the synchronisation and the update of the Subscription. *)
Definition after_rule sub : M RW Result :=
  bindM (syncAPIRule env enabled typeMeta Domain CertsURL sub) (fun x =>
  let '(sub, apiRule, err) := x in
  bindM (mnow env) (fun t =>
  let sub := set_Status sub (SetConditionAPIRuleStatus t (Status sub) err) in
  match (if IsSkippable err then None else err) with
  | Some err => failAfterUpdate env sub err
  | None => bindM (syncEventMeshSubscription env parseTime formatTime mapName sub apiRule) (afterSync env)
  end)).

Lemma reconcile_prepared s w : stored w s -> exists t t' w1,
  Reconcile env enabled typeMeta a_range parseTime formatTime Domain CertsURL mapName namespace name w =
    deferred (MRecordStatus (Ready (Status s)) name namespace) (after_rule (prepared t t' s)) w1 /\ quiet w w1.
Proof using Hvalid range_law u.
  intros [Hs Hsp Hl Hwf Hb]. destruct (sub_of_named _ _ Hs) as [Hns Hn]. unfold Reconcile, bindM at 1, call at 1. rewrite (sub_Get _ _ Hs).
  unfold isInDeletion. rewrite Hl, Hns, Hn. set (w1 := mkWorld (st w) _). assert (quiet w w1) as Hq1 by by apply quiet_event.
  unfold deferred at 1, reconcileActive, bindM at 1, mnow at 1. set (t := m_now env (hist w1)).
  destruct (prepared_spec t t s Hwf) as (_ & _ & _ & P1 & P2 & P3 & _). unfold prepared in P1, P2, P3. cbn [set_Status Spec meta] in P1, P2, P3.
  destruct (syncFinalizer_set (syncInitialStatus a_range t s)) as (s1 & E1 & _). rewrite E1 in *. cbn [fst] in P1, P2, P3.
  unfold validateSubscription, bindM at 1. unfold bindM at 1. unfold call at 1. rewrite Hvalid by congruence.
  set (w2 := mkWorld (st w1) _). assert (quiet w1 w2) as Hq2 by by apply quiet_event.
  unfold bindM at 1, mnow at 1. cbn [retM]. exists t, (m_now env (hist w2)), w2. split; [|by eapply quiet_trans].
  unfold prepared, deferred. rewrite E1. done.
Qed.

Lemma all_conditions l : complete l -> has_condition l (mkCondition ConditionAPIRuleStatus ConditionTrue 0 ConditionReasonAPIRuleStatusReady "") ->
  has_condition l spec_valid -> (forall c, c ∈ remote_conditions -> has_condition l c) -> strip <$> l ≡ₚ ready_conditions message.
Proof using Type.
  intros Hc Hr Hv Hrem. apply ready_conditions_iff; [done|]. intros c Hin. unfold ready_conditions in Hin.
  rewrite !elem_of_cons in Hin. destruct Hin as [->|[->|[->|[->|[->|[]%not_elem_of_nil]]]]]; [done|apply Hrem; by left|apply Hrem; by right; left|apply Hrem; by right; right; left|done].
Qed.

Lemma same_remote_own b b' : same_remote b b' -> own_fields b' = own_fields b -> b' = b.
Proof using Type. unfold same_remote, own_fields. destruct b, b'. cbn. intros [=] [=]. by subst. Qed.

(** What the rest leaves in the API server. *)
Lemma after_rule_run sub old w : sub_of (hist w) = Some old -> Spec old = sp -> DeletionTimestamp (meta old) = None -> emhb (st w) -> Spec sub = sp ->
  Namespace (meta sub) = namespace -> Name (meta sub) = name -> complete (Conditions (Status sub)) -> has_condition (Conditions (Status sub)) spec_valid ->
  exists w' s', after_rule sub w = (Ok (inl None), w') /\ emhb (st w') /\ sub_of (hist w') = Some (stored_next old s') /\ is_Some (rule_of (hist w')) /\
    meta s' = meta sub /\ Spec s' = sp /\ complete (Conditions (Status s')) /\
    (is_Some (rule_of (hist w)) -> final s' /\ served_by (st w') s' /\
       (served_by (st w) sub -> own_fields (sBackend (Status sub)) = (exposed_sink, gw_name, "") ->
          Types (Status s') = Types (Status sub) /\ sBackend (Status s') = sBackend (Status sub))) /\
    (IsSubscriptionStatusEqual (Status old) (Status s') = true -> Finalizers (meta sub) = Finalizers (meta old) -> sub_writes w' = sub_writes w).
Proof using Hok Hsink Hsvc Hport.
  intros Ho Hosp Hl Hb Hsp Hns Hn Hc Hv. unfold after_rule. destruct (syncAPIRule_calm sub old w Hns Hsp Ho Hosp Hl) as (x & w1 & E1 & (S1 & O1 & N1 & R1) & Hr1 & r & Hlr & Hx).
  unfold bindM at 1. rewrite E1.
  assert (exists sub1 err, x = (sub1, Some r, err) /\ IsSkippable err = true /\ meta sub1 = meta sub /\ Spec sub1 = Spec sub /\
    Conditions (Status sub1) = Conditions (Status sub) /\ Types (Status sub1) = Types (Status sub) /\
    (is_Some (rule_of (hist w)) -> exposes r /\ err = None /\ own_fields (sBackend (Status sub1)) = (exposed_sink, gw_name, FailedActivation (sBackend (Status sub))) /\
       same_remote (sBackend (Status sub)) (sBackend (Status sub1)))) as (sub1 & err & -> & Hk & M1 & P1 & C1 & T1 & F1).
  { case_bool_decide as Er; [destruct Hx as [-> Hx]|destruct Hx as [e ->]]; eexists _, _; (split; [done|]); split_and!; try done; by intros. }
  unfold bindM at 1, mnow at 1. rewrite Hk. set (t := m_now env (hist w1)). set (sub2 := set_Status sub1 (SetConditionAPIRuleStatus t (Status sub1) err)).
  destruct (sync_run sub2 r w1) as (s' & w2 & E2 & B2 & Hset & O2 & N2 & R2 & M2 & P2 & T2 & A2 & F2 & C2 & Rd & Hrem & Hkeep & Hagain);
    [by rewrite S1|apply Hok; cbn; congruence|cbn; rewrite P1, Hsp; eexists; by apply leads_url|cbn; congruence..|by apply rule_step; rewrite C1|].
  unfold bindM at 1. rewrite E2. unfold afterSync. cbn [fst snd].
  destruct (updateSubscription_run old s' w2) as (w3 & E3 & S3 & O3 & R3 & N3); [by rewrite O2, O1|rewrite M2; cbn; congruence..|]. rewrite stored_after_live in O3 by done.
  unfold bindM, errOf, tryM. rewrite E3. cbn. exists w3, s'. split; [done|].
  assert (has_condition (Conditions (Status s')) spec_valid) as Hv'.
  { apply Hkeep; [by right|]. apply rule_step_keeps; [done|]. by rewrite C1. }
  split_and!; [by rewrite S3|done|auto|by rewrite M2|rewrite P2; cbn; congruence|done| |].
  - intros Hs. destruct (F1 Hs) as (Hr & -> & Hown & Hsame). clear Hx.
    pose proof (all_conditions _ C2 (Hkeep (mkCondition ConditionAPIRuleStatus ConditionTrue 0 ConditionReasonAPIRuleStatusReady EmptyString) (or_introl eq_refl) (rule_step_has t (Status sub1))) Hv' Hrem) as Hp.
    injection Hown as Ho1 Ho2 Ho3. assert (final s') as Hfin.
    { constructor; [done|rewrite Rd; by eapply ready_all_true|done|rewrite F2; cbn; by rewrite Ho1, Ho2|done]. }
    split_and!; [done|exists r; by rewrite S3|]. intros (r0 & Hr0 & Hset0) Hown0. injection Hown0 as Hw1 Hw2 Hw3.
    assert (sBackend (Status sub1) = sBackend (Status sub)) as Eb by (by apply same_remote_own; [|unfold own_fields; congruence]).
    destruct Hagain as [-> ->].
    + rewrite S1. eapply settled_other; [exact Hset0|done|done|done|cbn; congruence..|]. cbn. by rewrite Eb.
    + cbn. by rewrite Eb.
    + cbn. by rewrite T1, Eb.
  - intros He Hf. rewrite N3 by (rewrite ?M2; cbn; congruence). congruence.
Qed.

Lemma served_same x s s' : served_by x s -> Spec s = sp -> Spec s' = Spec s -> Namespace (meta s') = Namespace (meta s) ->
  Name (meta s') = Name (meta s) -> Types (Status s') = Types (Status s) -> sBackend (Status s') = sBackend (Status s) -> served_by x s'.
Proof using Hsink.
  intros (r & Hr & Hset) Hsp E2 E3 E4 E5 E6. exists r. split; [done|]. eapply settled_other; [exact Hset|done..|]. by rewrite E6.
Qed.

Lemma served_next x s s' : served_by x s' -> Spec s = sp -> Spec s' = sp -> Namespace (meta s) = Namespace (meta s') ->
  Name (meta s) = Name (meta s') -> served_by x (stored_next s s').
Proof using Hsink.
  intros Hsrv Hsp Hsp' E1 E2. unfold stored_next. destruct (IsSubscriptionStatusEqual _ _) eqn:Ee;
    eapply served_same; try exact Hsrv; try done; cbn; try congruence.
  all: unfold IsSubscriptionStatusEqual in Ee; apply andb_true_iff in Ee as [Ee _]; apply andb_true_iff in Ee as [Ee Eb%bool_decide_eq_true];
    apply andb_true_iff in Ee as [_ Et%bool_decide_eq_true]; done.
Qed.

Abbreviation reconcile := (Reconcile env enabled typeMeta a_range parseTime formatTime Domain CertsURL mapName namespace name).

(** One reconciliation. *)
Lemma reconcile_pass s w : stored w s -> exists w' s', reconcile w = (Ok (inl None), w') /\ stored w' s' /\ is_Some (rule_of (hist w')) /\
  (is_Some (rule_of (hist w)) -> final s' /\ served_by (st w') s' /\
    (final s -> served_by (st w) s -> isFinalizerSet s' = true /\ (isFinalizerSet s = true -> s' = s /\ sub_writes w' = sub_writes w))).
Proof using Hvalid Hok range_law Hsink Hsvc Hport.
  intros Hst. destruct (reconcile_prepared s w Hst) as (t & t' & w1 & E1 & [(S1 & O1 & N1 & R1) R1']). destruct Hst as [Hs Hsp Hl Hwf Hb].
  destruct (sub_of_named _ _ Hs) as [Hns Hn]. destruct (prepared_spec t t' s Hwf) as (Pc & Pv & Pf & Psp & Pns & Pn & Pfin).
  destruct (after_rule_run (prepared t t' s) s w1) as (w2 & s' & E2 & B2 & O2 & R2 & M2 & P2 & C2 & F2 & N2); [congruence..|done|done|].
  rewrite E1. unfold deferred. rewrite E2. set (e := MRecordStatus _ _ _). eexists _, (stored_next s s'). split; [done|].
  cbn [st hist]. assert (wf_conditions (Conditions (Status s'))) as Hwf' by by apply complete_wf.
  assert (wf_conditions (Conditions (Status (stored_next s s')))) as Hwf2 by (unfold stored_next; by case_match).
  split_and!; [constructor; [by cbn [hist]; rewrite sub_of_kept|unfold stored_next; by case_match..|done]|by apply rule_of_kept|].
  intros Hr. destruct F2 as (Fin & Srv & Same); [by apply R1|].
  assert (final (stored_next s s')) as Fin'.
  { unfold stored_next. destruct (IsSubscriptionStatusEqual _ _) eqn:Ee; [|by destruct Fin; constructor].
    pose proof (equal_final _ _ Hwf Ee Fin) as Fs. by destruct Fs; constructor. }
  split_and!; [done|apply served_next; [done..|by rewrite M2|by rewrite M2]|]. intros Hfin Hsrv.
  destruct (Pfin Hfin) as (Pt & Pb & Pm). destruct Same as [Et Eb].
  { rewrite S1. eapply served_same; [exact Hsrv|done..]. }
  { rewrite Pb. by destruct Hfin. }
  assert (IsSubscriptionStatusEqual (Status s) (Status s') = true) as Ee.
  { unfold IsSubscriptionStatusEqual. rewrite Et, Eb, Pt, Pb, (fi_ready _ Hfin), (fi_ready _ Fin), !bool_decide_true by done.
    by eapply ready_equal; [apply Hfin|apply Fin]. }
  unfold stored_next. rewrite Ee. split; [unfold isFinalizerSet in *; cbn; by rewrite M2|]. intros Hset. rewrite M2, (Pm Hset). split.
  - by destruct s as [[] ? ?].
  - rewrite writes_event by done. rewrite N2; [done|done|]. by rewrite (Pm Hset).
Qed.

Definition step w : RW := (reconcile w).2.

(** *** Deletion *)
Record deleting w s : Prop := {
  dl_sub : sub_of (hist w) = Some s;
  dl_spec : Spec s = sp;
  dl_deleted : isInDeletion s = true;
  dl_wf : wf_conditions (Conditions (Status s)) /\ "" ∉ ctypes (Conditions (Status s));
  dl_backend : emhb (st w)
}.
Definition deleted_condition t : Condition := MakeCondition t ConditionSubscribed ConditionReasonSubscriptionDeleted ConditionFalse "".

Lemma delete_pass s w : deleting w s -> exists t w', reconcile w = (Ok (inl None), w') /\ emhb (st w') /\ emhb_gone (st w') s /\
  sub_of (hist w') = stored_after s (removeFinalizer (replaceStatusCondition s (deleted_condition t))).
Proof using Hok HealthyGateway0.
  intros [Hs Hsp Hd _ Hb]. destruct (sub_of_named _ _ Hs) as [Hns Hn]. unfold Reconcile. erewrite bindM_run by done. rewrite (sub_Get _ _ Hs), Hd.
  set (w1 := mkWorld (st w) _). assert (quiet w w1) as [(S1 & O1 & _) _] by by apply quiet_event.
  destruct (emhb_Delete s (st w1)) as (x & Ed & Hx & Hg); [by rewrite S1|by apply Hok|]. unfold handleDeleteSubscription, backendDelete.
  unfold bindM at 1. unfold bindM at 1. unfold errOf at 1, inside at 1. rewrite Ed. cbn [call]. unfold call at 1. set (w2 := mkWorld _ _).
  assert (sub_of (hist w2) = Some s) as O2 by (cbn [hist w2]; rewrite sub_of_kept by done; by rewrite O1).
  unfold bindM at 1, mnow at 1. set (t := m_now env (hist w2)). fold (deleted_condition t).
  set (s' := removeFinalizer (replaceStatusCondition s (deleted_condition t))).
  assert (meta (replaceStatusCondition s (deleted_condition t)) = meta s) as Em by (unfold replaceStatusCondition; by case_match).
  destruct (updateSubscription_run s s' w2 O2) as (w3 & E3 & S3 & O3 & _); [by cbn; rewrite Em..|].
  exists t. unfold bindM, errOf. rewrite E3. eexists. split; [done|]. cbn [st hist]. rewrite S3. split_and!; [done|done|].
  rewrite sub_of_kept by done. exact O3.
Qed.

(** What is left of the finalizers without ours. *)
Definition other_finalizers s : list string := filter (fun f => f <> Finalizer) (elems (Finalizers (meta s))).
Definition released s w : Prop :=
  match sub_of (hist w) with
  | Some s' => elems (Finalizers (meta s')) = other_finalizers s /\ other_finalizers s <> []
  | None => other_finalizers s = []
  end.

Lemma finalizer_differs s fs : isFinalizerSet s = true -> fs = nil_if_empty (other_finalizers s) -> Finalizers (meta s) <> fs.
Proof using Type.
  intros Hf%isFinalizerSet_elem -> E. rewrite E, elems_nil_if_empty in Hf. unfold other_finalizers in Hf. by apply list_elem_of_filter in Hf as [? _].
Qed.

Lemma released_now s s' w : isFinalizerSet s = true -> isInDeletion s = true -> meta s' = meta s -> IsSubscriptionStatusEqual (Status s) (Status s') = true ->
  sub_of (hist w) = stored_after s (removeFinalizer s') -> released s w.
Proof using Type.
  intros Hf Hd Em Ee Ho. unfold released. rewrite Ho. unfold stored_after, stored_next. change (Status (removeFinalizer s')) with (Status s'). rewrite Ee.
  assert (Finalizers (meta (removeFinalizer s')) = nil_if_empty (other_finalizers s)) as Ef by (cbn; by rewrite Em). rewrite Ef.
  rewrite bool_decide_false by by apply finalizer_differs. cbn [andb negb]. unfold kept_after_update.
  change (isInDeletion (set_Finalizers s (nil_if_empty (other_finalizers s)))) with (isInDeletion s). rewrite Hd. cbn [andb meta set_Finalizers Finalizers].
  rewrite elems_nil_if_empty. case_bool_decide as Eo; [done|]. cbn [meta set_Finalizers Finalizers]. by rewrite elems_nil_if_empty.
Qed.

(** A deletion whose status is stored already takes off the finalizer. *)
Lemma delete_again s0 s w t : deleting w s -> isFinalizerSet s = true -> wf_conditions (Conditions (Status s0)) -> "" ∉ ctypes (Conditions (Status s0)) ->
  Status s = Status (replaceStatusCondition s0 (deleted_condition t)) ->
  exists w', reconcile w = (Ok (inl None), w') /\ emhb (st w') /\ emhb_gone (st w') s /\ released s w'.
Proof using Hok HealthyGateway0.
  intros Hdl Hf Hwf Hz Es. destruct (delete_pass s w Hdl) as (t' & w' & E & Hb & Hg & Ho). exists w'. split_and!; [done..|].
  rewrite (replace_again s0 (deleted_condition t) (deleted_condition t') s Hwf Hz eq_refl Es) in Ho. eapply (released_now s s); [done|apply Hdl|done| |exact Ho].
  unfold IsSubscriptionStatusEqual. rewrite !bool_decide_true by done. cbn [andb]. apply ConditionsEquals_refl. apply Hdl.
Qed.

(** A deletion is complete after one reconciliation, or after two when the first one changes the status. *)
Lemma deletion_run s w : deleting w s -> isFinalizerSet s = true ->
  (reconcile w).1 = Ok (inl None) /\ emhb_gone (st (step w)) s /\
  (released s (step w) \/ (reconcile (step w)).1 = Ok (inl None) /\ emhb_gone (st (step (step w))) s /\ released s (step (step w))).
Proof using Hok HealthyGateway0.
  intros Hdl Hf. destruct (delete_pass s w Hdl) as (t & w1 & E1 & B1 & G1 & O1). assert (step w = w1) as -> by (unfold step; by rewrite E1).
  rewrite E1. split; [done|]. split; [done|].
  set (s' := replaceStatusCondition s (deleted_condition t)) in *.
  assert (meta s' = meta s) as Em by (unfold s', replaceStatusCondition; by case_match).
  destruct (IsSubscriptionStatusEqual (Status s) (Status s')) eqn:Ee; [left; apply (released_now s s'); [done|apply Hdl|done..]|right].
  unfold stored_after, stored_next in O1. change (Status (removeFinalizer s')) with (Status s') in O1. rewrite Ee in O1. cbn [andb] in O1.
  set (s1 := set_Status s (Status s')) in *. destruct Hdl as [Hs Hsp Hd [Hwf Hz] Hb].
  assert (ctypes (Conditions (Status s1)) ≡ₚ ctypes (Conditions (Status s))) as Ht.
  { destruct (replaceStatusCondition_spec s (deleted_condition t) Hwf Hz) as (Hp & _). cbn. fold s' in Hp. by rewrite ctypes_strip, Hp, <- ctypes_strip, replaced_types. }
  assert (deleting w1 s1) as Hdl1 by (constructor; [done|done|exact Hd|unfold wf_conditions; by rewrite Ht|done]).
  destruct (delete_again s s1 w1 t Hdl1 Hf Hwf Hz eq_refl) as (w2 & E2 & B2 & G2 & R2). assert (step w1 = w2) as -> by (unfold step; by rewrite E2).
  rewrite E2. split_and!; [done|by eapply gone_same|exact R2].
Qed.

Lemma becomes_ready s w : stored w s -> exists s', final s' /\ isFinalizerSet s' = true /\ Spec s' = Spec s /\
  forall k, let w' := Nat.iter (3 + k) step w in
    sub_of (hist w') = Some s' /\ served_by (st w') s' /\ (reconcile w').1 = Ok (inl None) /\ sub_writes (step w') = sub_writes w'.
Proof using Hvalid Hok range_law Hsink Hsvc Hport.
  intros H0'. destruct (reconcile_pass s w H0') as (w1 & s1 & E1 & St1 & R1 & _).
  destruct (reconcile_pass s1 w1 St1) as (w2 & s2 & E2 & St2 & R2 & F2). destruct (F2 R1) as (Fin2 & Srv2 & _).
  destruct (reconcile_pass s2 w2 St2) as (w3 & s3 & E3 & St3 & R3 & F3). destruct (F3 R2) as (Fin3 & Srv3 & Hf3). destruct (Hf3 Fin2 Srv2) as [Hset3 _].
  exists s3. split_and!; [done|done|by rewrite (sd_spec _ _ St3), (sd_spec _ _ H0')|]. intros k w'.
  assert (stored w' s3 /\ served_by (st w') s3 /\ is_Some (rule_of (hist w'))) as (St & Srv & Hr).
  { subst w'. induction k as [|k (St & Srv & Hr)].
    - assert (Nat.iter (3 + 0) step w = w3) as -> by (cbn; unfold step; rewrite E1; cbn [snd]; rewrite E2; cbn [snd]; by rewrite E3). done.
    - rewrite Nat.add_succ_r, Nat.iter_succ. destruct (reconcile_pass s3 _ St) as (w4 & s4 & E4 & St4 & R4 & F4).
      destruct (F4 Hr) as (_ & Srv4 & Hf4). destruct (Hf4 Fin3 Srv) as [_ Hsame]. destruct (Hsame Hset3) as [-> _].
      unfold step at 1 3 5. by rewrite E4. }
  destruct (reconcile_pass s3 w' St) as (w4 & s4 & E4 & _ & _ & F4). destruct (F4 Hr) as (_ & _ & Hf4).
  destruct (Hf4 Fin3 Srv) as [_ Hsame]. destruct (Hsame Hset3) as [_ Hw]. unfold step. rewrite E4. split_and!; [apply St|done|done|done].
Qed.
End liveness.
