(* ===== verification/EventMeshLiveness.v ===== *)
(** * EventMesh backend: on a healthy server a synchronisation succeeds and settles

    A healthy EventMesh keeps the subscriptions that it accepted and delivers their events: they are active.  On it the backend
    is a healthy backend of the reconciler. *)

From S2P Require Import Prelude Effects GoStrings Url Errors Utils Subscription EventTypes EventMeshUtils EventMesh EventMeshFacts ApiRule EMReconciler EMReconcilerFacts EMLiveness.

(** ** A healthy EventMesh *)
Record active_sub (n : string) (s : EMSubscription) : Prop := {
  ac_name : emName s = n;
  ac_status : emSubStatus s = SubscriptionStatusActive;
  ac_failed : emLastFailed s = ""
}.
(** Two subscriptions that differ only in their webhook authentication. *)
Definition alike (s s' : EMSubscription) : Prop :=
  GetCleanedEventMeshSubscription s' = GetCleanedEventMeshSubscription s /\ serverStatus s' = serverStatus s.

(** The subscriptions by name; a pause, an update of the authentication and a resumption together keep the subscription. *)
Record healthy_em (env : EMEnv) (onS : list emEvent -> gmap string EMSubscription) : Prop := {
  he_Get : forall h n, match onS h !! n with
    | Some s => exists r, e_Get env h n = inl (Some s, r) /\ StatusCode r = StatusOK
    | None => exists x r, e_Get env h n = inl (x, r) /\ StatusCode r = StatusNotFound
    end;
  he_kept : forall h n r, onS (EMGet n r :: h) = onS h;
  he_Create : forall h s, onS h !! emName s = None -> exists r srv, e_Create env h s = inl r /\ (StatusCode r <= StatusAccepted)%Z /\
    onS (EMCreate s (inl r) :: h) = <[emName s := srv]> (onS h) /\ active_sub (emName s) srv;
  he_Delete : forall h n, exists r, e_Delete env h n = inl r /\ gone r /\ onS (EMDelete n (inl r) :: h) = delete n (onS h);
  he_Auth : forall h n s auth, onS h !! n = Some s -> exists r1 r2 r3 s',
    e_UpdateState env h n StateActionPause = inl r1 /\ StatusCode r1 = StatusAccepted /\
    let h1 := EMUpdateState n StateActionPause (inl r1) :: h in e_Update env h1 n auth = inl r2 /\ StatusCode r2 = StatusNoContent /\
    let h2 := EMUpdate n auth (inl r2) :: h1 in e_UpdateState env h2 n StateActionResume = inl r3 /\ StatusCode r3 = StatusAccepted /\
    onS (EMUpdateState n StateActionResume (inl r3) :: h2) = <[n := s']> (onS h) /\ alike s s'
}.

Section server.
Context (sha : string -> string) `{Hashing} (env : EMEnv) (onS : list emEvent -> gmap string EMSubscription) (He : healthy_em env onS).
Context (Hhash : forall s, exists h, GetHash s = inl h) (Hauth : forall a, exists h, GetWebhookAuthHash a = inl h).
Context (flag : bool) (cleaner : Cleaner).
Abbreviation EW := (World EMState emEvent).
Implicit Types (w : EW) (s : Subscription) (local srv : EMSubscription).

Definition good w : Prop := emClient (em (st w)) = true /\ map_Forall active_sub (onS (hist w)).

Lemma em_call_run {R} (ev : R -> emEvent) f w : emClient (em (st w)) = true -> clientCall ev f w = (Ok (f (hist w)), mkWorld (st w) (ev (f (hist w)) :: hist w)).
Proof using Type. intros Hc. unfold clientCall, bindM, gets. by rewrite Hc. Qed.

Lemma delete_run n w : good w -> exists w', deleteForRecreation env n w = (Ok true, w') /\ st w' = st w /\ good w' /\ onS (hist w') !! n = None.
Proof using He.
  intros Hg. destruct (he_Delete _ _ He (hist w) n) as (r & E & Hr & Eo). unfold deleteForRecreation, errOf, deleteSubscription, bindM at 1.
  unfold bindM. rewrite em_call_run by apply Hg. rewrite E.
  assert (negb (StatusCode r =? StatusNoContent)%Z && negb (StatusCode r =? StatusNotFound)%Z = false) as -> by (by destruct Hr as [-> | ->]).
  eexists. split; [done|]. split; [done|]. cbn [hist st]. unfold good. cbn [hist st]. rewrite Eo. split_and!; [apply Hg|by apply map_Forall_delete, Hg|apply lookup_delete_eq].
Qed.

Lemma modified_run local (hash : Z) n w : good w ->
  exists b w', bindM (okOr (IsEventMeshSubModified flag local hash)) (fun m : bool => if m then deleteForRecreation env n else retM false) w = (Ok b, w') /\
    st w' = st w /\ good w' /\ (if b then onS (hist w') !! n = None else w' = w).
Proof using He Hhash.
  intros Hg. unfold IsEventMeshSubModified. destruct (Hhash (if flag then GetCleanedEventMeshSubscription local else local)) as [h ->].
  unfold bindM at 1. cbn [okOr retM]. unfold retM at 1. destruct (negb _); [|by exists false, w].
  destruct (delete_run n w Hg) as (w' & E & Hs & Hg' & Hn). by exists true, w'.
Qed.

Lemma get_run n w : good w -> exists w', getSubscriptionIgnoreNotFound env n w = (Ok (onS (hist w) !! n), w') /\ st w' = st w /\ good w' /\ onS (hist w') = onS (hist w).
Proof using He.
  intros Hg. pose proof (he_Get _ _ He (hist w) n) as Hget. unfold getSubscriptionIgnoreNotFound, tryM, getSubscription, bindM.
  rewrite em_call_run by apply Hg. unfold good. destruct (onS (hist w) !! n) as [s|].
  - destruct Hget as (r & -> & ->). eexists. split; [done|]. cbn [hist st]. rewrite (he_kept _ _ He). by destruct Hg.
  - destruct Hget as (x & r & -> & E). rewrite E. unfold errM. change (negb (StatusNotFound =? StatusOK)%Z) with true. cbn beta iota zeta.
    assert (errors_Is (status_error "get subscription failed" r) (EHTTPStatus StatusNotFound) = true) as ->.
    { unfold status_error. rewrite E. reflexivity. }
    eexists. split; [done|]. cbn [hist st]. rewrite (he_kept _ _ He). by destruct Hg.
Qed.

Lemma authStep_run what (code : Z) r w : StatusCode r = code -> (code =? StatusNotFound)%Z = false -> authStep what code (inl r) w = (Ok true, w).
Proof using Type. intros <- E. unfold authStep. by rewrite E, Z.eqb_refl. Qed.

Lemma auth_run local srv w : good w -> onS (hist w) !! emName local = Some srv ->
  exists w' srv', handleWebhookAuthChange env local w = (Ok tt, w') /\ st w' = st w /\ good w' /\ onS (hist w') !! emName local = Some srv' /\ alike srv srv'.
Proof using He Hauth.
  intros Hg Hs. unfold handleWebhookAuthChange. destruct (Hauth (emWebhookAuth local)) as [h ->]. unfold bindM at 1, retM at 1. unfold bindM at 1, gets at 1.
  destruct (_ =? _)%Z; [by exists w, srv|].
  destruct (he_Auth _ _ He (hist w) (emName local) srv (emWebhookAuth local) Hs) as (r1 & r2 & r3 & srv' & E1 & C1 & E2 & C2 & E3 & C3 & Eo & Ha).
  rewrite (bindM_run _ _ _ _ _ (em_call_run _ _ w (proj1 Hg))), E1, (bindM_run _ _ _ _ _ (authStep_run _ _ _ _ C1 eq_refl)). cbn [negb].
  rewrite (bindM_run _ _ _ _ _ (em_call_run _ _ (mkWorld (st w) _) (proj1 Hg))). cbn [hist st]. rewrite E2, (bindM_run _ _ _ _ _ (authStep_run _ _ _ _ C2 eq_refl)). cbn [negb].
  rewrite (bindM_run _ _ _ _ _ (em_call_run _ _ (mkWorld (st w) _) (proj1 Hg))). cbn [hist st]. rewrite E3, (bindM_run _ _ _ _ _ (authStep_run _ _ _ _ C3 eq_refl)). unfold retM.
  eexists _, srv'. split; [done|]. cbn [hist st]. unfold good. cbn [hist st]. rewrite Eo.
  destruct Hg as [Hc Hall]. split_and!; [done|done| |by rewrite lookup_insert_eq|done..].
  apply map_Forall_insert_2; [|done]. destruct (Hall _ _ Hs) as [A1 A2 A3], Ha as [Ha1 Ha2]. unfold serverStatus in Ha2. injection Ha2 as B1 _ _ B2 _.
  constructor; [|congruence..]. rewrite <- A1. change (emName (GetCleanedEventMeshSubscription srv') = emName (GetCleanedEventMeshSubscription srv)). by rewrite Ha1.
Qed.

Lemma create_run local w : good w -> onS (hist w) !! emName local = None ->
  exists w' srv, handleCreateEventMeshSub env local w = (Ok (Some srv), w') /\ st w' = initialized (st w) /\ good w' /\ onS (hist w') !! emName local = Some srv.
Proof using He.
  intros Hg Hn. destruct (he_Create _ _ He (hist w) local Hn) as (r & srv & E & C & Eo & Ha).
  unfold handleCreateEventMeshSub, bindM at 1, puts at 1. fold (initialized (st w)). set (w1 := mkWorld (initialized (st w)) (hist w)).
  assert (good w1) as Hg1 by exact Hg. unfold createAndGetSubscription, createSubscription, tryM, bindM at 1. unfold bindM at 1. unfold bindM at 1.
  rewrite em_call_run by apply Hg. cbn [hist st w1]. rewrite E.
  assert ((StatusAccepted <? StatusCode r)%Z = false) as -> by lia. cbn [andb]. unfold retM at 1. set (w2 := mkWorld _ _).
  assert (good w2) as Hg2. { split; [apply Hg|]. cbn. rewrite Eo. apply map_Forall_insert_2; [done|apply Hg]. }
  unfold getSubscription, bindM at 1. rewrite em_call_run by apply Hg. pose proof (he_Get _ _ He (hist w2) (emName local)) as Hget.
  cbn [hist w2] in Hget. rewrite Eo, lookup_insert_eq in Hget. destruct Hget as (r' & Eg & C'). cbn [hist w2]. rewrite Eg, C'.
  eexists _, srv. split; [done|]. cbn [st hist]. split; [done|]. unfold good. cbn [st hist]. rewrite (he_kept _ _ He), Eo, lookup_insert_eq. by destruct Hg2 as [G1 G2]; cbn in G1, G2; rewrite Eo in G2.
Qed.

(** The requests of a synchronisation: whether something was deleted, and the subscription of the server in the end. *)
Definition server_phase local : M EW (bool * option EMSubscription) :=
  isKymaSubModified <- handleKymaSubModified env flag local ;;
  eventMeshServerSub <- (if negb isKymaSubModified then getSubscriptionIgnoreNotFound env (emName local) else retM None) ;;
  isEventMeshSubModified <-
    match eventMeshServerSub with
    | None => retM false
    | Some server =>
        m <- handleEventMeshSubModified env flag server ;;
        (if flag && negb m then handleWebhookAuthChange env local else retM tt) ;;;
        retM m
    end ;;
  eventMeshServerSub <-
    (if isKymaSubModified || isEventMeshSubModified || match eventMeshServerSub with None => true | Some _ => false end
     then handleCreateEventMeshSub env local else retM eventMeshServerSub) ;;
  retM (isKymaSubModified || isEventMeshSubModified, eventMeshServerSub).

Lemma server_run local w : good w -> exists d srv srv' w', server_phase local w = (Ok (d, Some srv), w') /\
  (st w' = st w \/ st w' = initialized (st w)) /\ good w' /\ onS (hist w') !! emName local = Some srv' /\ alike srv srv'.
Proof using He Hhash Hauth.
  intros Hg. unfold server_phase, bindM at 1. unfold handleKymaSubModified at 1, bindM at 1, gets at 1.
  destruct (modified_run local (if flag then EventMeshLocalHash (sBackend (Status (kymaSub (st w)))) else Ev2hash (sBackend (Status (kymaSub (st w))))) (emName local) w Hg)
    as (b & w1 & E1 & S1 & G1 & N1). rewrite E1.
  assert (exists server w2, (if negb b then getSubscriptionIgnoreNotFound env (emName local) else retM None) w1 = (Ok server, w2) /\ st w2 = st w1 /\ good w2 /\
    onS (hist w2) !! emName local = server) as (server & w2 & E2 & S2 & G2 & N2).
  { destruct b; cbn [negb]; [by exists None, w1|]. destruct (get_run (emName local) w1 G1) as (w2 & E2 & S2 & G2 & O2). eexists _, w2. split; [exact E2|]. by rewrite O2. }
  unfold bindM at 1. rewrite E2. destruct server as [srv|].
  - assert (b = false) as -> by (destruct b; [by injection E2|done]). unfold bindM at 1. unfold bindM at 1. unfold handleEventMeshSubModified at 1, bindM at 1, gets at 1.
    destruct (modified_run (GetCleanedEventMeshSubscription srv) (EventMeshHash (sBackend (Status (kymaSub (st w2))))) (emName srv) w2 G2) as (m & w3 & E3 & S3 & G3 & N3).
    rewrite E3. rewrite (ac_name _ _ (proj2 G2 _ _ N2)) in N3. destruct m.
    + rewrite andb_false_r. unfold bindM at 1. unfold retM at 1. unfold retM at 1. cbn [orb]. unfold bindM at 1.
      destruct (create_run local w3 G3 N3) as (w4 & srv4 & E4 & S4 & G4 & N4). rewrite E4. exists true, srv4, srv4, w4.
      split; [done|]. split; [right; congruence|done].
    + subst w3. cbn [negb]. rewrite andb_true_r.
      assert (exists w3 srv', (if flag then handleWebhookAuthChange env local else retM tt) w2 = (Ok tt, w3) /\ st w3 = st w2 /\ good w3 /\
        onS (hist w3) !! emName local = Some srv' /\ alike srv srv') as (w3 & srv' & E4 & S4 & G4 & N4 & A4).
      { destruct flag; [by apply auth_run|by exists w2, srv]. }
      unfold bindM at 1. rewrite E4. unfold retM at 1. cbn [orb]. unfold bindM, retM. exists false, srv, srv', w3. split; [done|]. split; [left; congruence|done].
  - unfold bindM at 1, retM at 1. rewrite orb_true_r. unfold bindM at 1.
    destruct (create_run local w2 G2 N2) as (w4 & srv4 & E4 & S4 & G4 & N4). rewrite E4. exists (b || false), srv4, srv4, w4.
    split; [done|]. split; [right; congruence|done].
Qed.

Lemma Sync_phases infos apiRule local w : getProcessedEventTypes (em (st w)) (kymaSub (st w)) cleaner = inl infos ->
  local_of sha (kymaSub (st w)) infos apiRule (em (st w)) = Ok local ->
  SyncSubscription sha env flag cleaner apiRule w =
    bindM (server_phase local) (fun x => bindM (handleKymaSubStatusUpdate x.2 local infos) (fun u : bool => retM (x.1 || u))) w.
Proof using Type.
  intros Hi Hl. unfold SyncSubscription. rewrite (bindM_run _ _ w (kymaSub (st w)) w), (bindM_run _ _ w (em (st w)) w) by done.
  rewrite Hi, (bindM_run _ _ w infos w) by done. rewrite (bindM_run _ _ w local w) by (by rewrite Convert_run, Hl).
  unfold server_phase, bindM. destruct (handleKymaSubModified env flag local w) as [[k|e|m] w1]; [|done..].
  destruct ((if negb k then getSubscriptionIgnoreNotFound env (emName local) else retM None) w1) as [[[srv|]|e|m] w2]; [| |done..].
  - destruct (handleEventMeshSubModified env flag srv w2) as [[b|e|m] w3]; [|done..].
    destruct ((if flag && negb b then handleWebhookAuthChange env local else retM tt) w3) as [[[]|e|m] w4]; [|done..]. unfold retM. cbn beta iota.
    destruct (k || b || false); [|done]. by destruct (handleCreateEventMeshSub env local w4) as [[o|e|m] w5].
  - unfold retM. cbn beta iota. destruct (k || false || true); [|done]. by destruct (handleCreateEventMeshSub env local w2) as [[o|e|m] w5].
Qed.

Lemma Sync_run infos apiRule local w : good w -> getProcessedEventTypes (em (st w)) (kymaSub (st w)) cleaner = inl infos ->
  local_of sha (kymaSub (st w)) infos apiRule (em (st w)) = Ok local ->
  exists b srv srv' h1 h2 h3 h4 w', SyncSubscription sha env flag cleaner apiRule w = (Ok b, w') /\ good w' /\ hashes local srv h1 h2 h3 h4 /\
    onS (hist w') !! emName local = Some srv' /\ alike srv srv' /\
    (st w' = mkEMState (em (st w)) (synced infos local srv h1 h2 h3 h4 (kymaSub (st w))) \/
     st w' = mkEMState (em (st w)) (synced infos local srv h1 h2 h3 h4 (kymaSub (initialized (st w))))).
Proof using He Hhash Hauth.
  intros Hg Hi Hl. rewrite (Sync_phases infos apiRule local w Hi Hl). destruct (server_run local w Hg) as (d & srv & srv' & w1 & E1 & S1 & G1 & N1 & A1).
  rewrite (bindM_run _ _ _ _ _ E1). destruct (Hhash local) as [h1 H1], (Hhash (GetCleanedEventMeshSubscription local)) as [h2 H2],
    (Hhash (GetCleanedEventMeshSubscription srv)) as [h3 H3], (Hauth (emWebhookAuth local)) as [h4 H4].
  assert (hashes local srv h1 h2 h3 h4) as Hh by done. rewrite (bindM_run _ _ _ _ _ (handleKymaSubStatusUpdate_run local srv infos h1 h2 h3 h4 w1 Hh)).
  eexists _, srv, srv', h1, h2, h3, h4, _. split; [done|]. cbn [st hist]. split; [exact G1|]. split; [done|].
  split; [done|]. split; [done|]. destruct S1 as [-> | ->]; [by left|by right].
Qed.

(** ** The backend of the reconciler *)
Definition em_ok (e0 : EventMesh) s : Prop := (exists infos, getProcessedEventTypes e0 s cleaner = inl infos /\ infos <> []) /\
  is_Some (MapSubscriptionName sha (SubNameMapper e0) (Name (meta s)) (Namespace (meta s))).
(** The backend after its initialisation. *)
Definition ready_em (e0 : EventMesh) (w : World EventMesh emEvent) : Prop := st w = e0 /\ map_Forall active_sub (onS (hist w)).

Definition em_settled (e0 : EventMesh) (w : World EventMesh emEvent) s (rule : APIRuleView) : Prop :=
  ready_em e0 w /\ exists infos local srv h1 h2 h3 h4, getProcessedEventTypes e0 s cleaner = inl infos /\ local_of sha s infos (Some rule) e0 = Ok local /\
    hashes local srv h1 h2 h3 h4 /\ onS (hist w) !! emName local = Some srv /\ synced infos local srv h1 h2 h3 h4 s = s.

(** The local subscription is a function of the specification, the names and the URL. *)
Lemma local_of_same s s' infos rule rule' e : Spec s' = Spec s -> Namespace (meta s') = Namespace (meta s) -> Name (meta s') = Name (meta s) ->
  GetExposedURLFromAPIRule rule' (Sink (Spec s)) = GetExposedURLFromAPIRule rule (Sink (Spec s)) ->
  local_of sha s' infos (Some rule') e = local_of sha s infos (Some rule) e.
Proof using Type.
  intros Hs Hns Hn Hu. unfold local_of, ConvertKymaSubToEventMeshSub, setEventMeshProtocolSettings, getEventMeshWebhookAuth, bindM, orPanic, retM, errM, panicM.
  rewrite Hs, Hns, Hn, Hu. destruct (emProtocolSettings e); [|done]. destruct (MapSubscriptionName _ _ _ _); [|done]. by destruct (GetExposedURLFromAPIRule rule (Sink (Spec s))).
Qed.

Lemma synced_idem infos local srv h1 h2 h3 h4 s : let s' := synced infos local srv h1 h2 h3 h4 s in synced infos local srv h1 h2 h3 h4 s' = s'.
Proof using Type. done. Qed.

Context (e0 : EventMesh) (Hclient : emClient e0 = true) (ps : ProtocolSettings) (Hps : emProtocolSettings e0 = Some ps).

Lemma local_Ok s infos rule url : em_ok e0 s -> GetExposedURLFromAPIRule rule (Sink (Spec s)) = inl url ->
  exists local, local_of sha s infos (Some rule) e0 = Ok local.
Proof using Hps.
  intros [_ [n Hn]] Hu. unfold local_of, ConvertKymaSubToEventMeshSub, bindM, orPanic, retM. rewrite Hps, Hn, Hu. by eexists.
Qed.

(** What a server subscription that differs only in its authentication leaves in the status. *)
Lemma synced_alike infos local srv srv' h1 h2 h3 h4 s : alike srv srv' -> synced infos local srv' h1 h2 h3 h4 s = synced infos local srv h1 h2 h3 h4 s.
Proof using Type. intros [_ E]. unfold synced. by rewrite E. Qed.
Lemma hashes_alike local srv srv' h1 h2 h3 h4 : alike srv srv' -> hashes local srv h1 h2 h3 h4 -> hashes local srv' h1 h2 h3 h4.
Proof using Type. intros [E _] Hh. unfold hashes. by rewrite E. Qed.

#[local] Existing Instance EventMesh_backend.

Lemma em_Sync s rule (w : World EventMesh emEvent) : ready_em e0 w -> em_ok e0 s -> (exists url, GetExposedURLFromAPIRule rule (Sink (Spec s)) = inl url) ->
  exists b after (w' : World EventMesh emEvent), @emb_SyncSubscription _ (EventMesh_backend sha env flag cleaner) s rule w = (Ok b, after, w') /\ ready_em e0 w' /\ em_settled e0 w' after rule /\
    Conditions (Status after) = Conditions (Status s) /\ Types (Status after) <> None /\
    own_fields (sBackend (Status after)) = own_fields (sBackend (Status s)) /\ reported_active (sBackend (Status after)).
Proof using He Hhash Hauth Hclient Hps.
  intros [Hw Hall] Hok [url Hu]. destruct (proj1 Hok) as (infos & Hi & Hne). destruct (local_Ok s infos rule url Hok Hu) as [local Hl].
  destruct (Sync_run infos (Some rule) local (withSub w s)) as (b & srv & srv' & h1 & h2 & h3 & h4 & w' & E & [Hc' Hall'] & Hh & Hn & Ha & Hst).
  { split; [by cbn; rewrite Hw|done]. } { by cbn; rewrite Hw. } { by cbn; rewrite Hw. }
  cbn [emb_SyncSubscription EventMesh_backend]. rewrite E. eexists b, _, _. split; [done|].
  assert (em (st w') = e0 /\ exists s0, kymaSub (st w') = synced infos local srv h1 h2 h3 h4 s0 /\ Spec s0 = Spec s /\ meta s0 = meta s /\
    Conditions (Status s0) = Conditions (Status s) /\ sBackend (Status s0) = sBackend (Status s)) as (Hem & s0 & Hk & Hsp & Hm & Hcd & Hb).
  { destruct Hst as [-> | ->]; cbn [em kymaSub withSub st]; (split; [done|]); by eexists. }
  assert (ready_em e0 (dropSub w')) as Hr by by split.
  split; [exact Hr|]. split.
  { split; [exact Hr|]. exists infos, local, srv', h1, h2, h3, h4. split_and!.
    - rewrite <- Hi. unfold getProcessedEventTypes. rewrite Hk. unfold GetUniqueTypes. cbn. rewrite Hsp. apply processTypes_Spec. by cbn.
    - rewrite <- Hl. apply local_of_same; [rewrite Hk; cbn; by rewrite ?Hsp, ?Hm..|done].
    - by apply (hashes_alike local srv).
    - done.
    - rewrite (synced_alike _ _ srv) by done. by rewrite Hk. }
  rewrite Hk. cbn. split_and!; [done|by destruct infos|by rewrite <- Hb|]. eexists. split; [done|].
  destruct (Hall' _ _ Hn) as [_ A2 A3], Ha as [_ Ha]. rewrite <- Ha. done.
Qed.

(** No subscription under the name of the Subscription. *)
Definition em_gone (w : World EventMesh emEvent) s : Prop :=
  forall n, MapSubscriptionName sha (SubNameMapper e0) (Name (meta s)) (Namespace (meta s)) = Some n -> onS (hist w) !! n = None.

Lemma em_Delete s (w : World EventMesh emEvent) : ready_em e0 w -> em_ok e0 s ->
  exists (w' : World EventMesh emEvent), @emb_DeleteSubscription _ (EventMesh_backend sha env flag cleaner) s w = (Ok tt, w') /\ ready_em e0 w' /\ em_gone w' s.
Proof using He Hclient.
  destruct w as [e h]. intros [Hw Hall] [_ [n Hn]]. cbn in Hw. subst e.
  cbn [emb_DeleteSubscription EventMesh_backend]. unfold DeleteSubscription. erewrite bindM_run by done.
  cbn [withSub st em kymaSub id]. rewrite Hn. erewrite bindM_run by done.
  destruct (delete_run n (withSub (mkWorld e0 h) s)) as (w' & E & Hs & [Hc Hg] & Hd); [done|].
  unfold deleteForRecreation in E. apply bindM_Ok in E as (r & w1 & E1 & E2). unfold errOf in E1.
  destruct (deleteSubscription env n (withSub (mkWorld e0 h) s)) as [[[]|e|m] w2] eqn:E3; try done; injection E1 as <- <-; [|done].
  injection E2 as <-. exists (dropSub w2). split; [done|]. split.
  - split; [cbn; by rewrite Hs|exact Hg].
  - intros n' Hn'. cbn. congruence.
Qed.

#[export] Instance EventMesh_healthy : @HealthyEMBackend (World EventMesh emEvent) (EventMesh_backend sha env flag cleaner).
Proof using He Hhash Hauth Hclient Hps.
  refine {| emhb := ready_em e0; emhb_ok := em_ok e0; settled := em_settled e0; emhb_gone := em_gone |}; [exact em_Delete|intros w s s' Hg E1 E2 n; rewrite E1, E2; apply Hg|exact em_Sync| |].
  - intros s rule w (Hr & infos & local & srv & h1 & h2 & h3 & h4 & Hi & Hl & Hh & Hn & Hs). pose proof Hr as [Hw Hall].
    pose proof (he_Get _ _ He (hist w) (emName local)) as Hg. rewrite Hn in Hg. destruct Hg as (r & Eg & Hok).
    cbn [emb_SyncSubscription EventMesh_backend].
    rewrite (Sync_settled sha env flag cleaner (Some rule) (withSub w s) infos local srv h1 h2 h3 h4 s r); [|cbn [withSub st em kymaSub hist]; by rewrite ?Hw..].
    cbn. eexists _, _. split; [done|]. assert (ready_em e0 (dropSub (mkWorld (mkEMState (st w) s) (EMGet (emName local) (inl (Some srv, r)) :: hist w)))) as Hr'.
    { split; [done|]. cbn. by rewrite (he_kept _ _ He). }
    split; [exact Hr'|]. split; [exact Hr'|]. exists infos, local, srv, h1, h2, h3, h4. split_and!; try done. cbn. by rewrite (he_kept _ _ He).
  - intros w s rule s' rule' (Hr & infos & local & srv & h1 & h2 & h3 & h4 & Hi & Hl & Hh & Hn & Hs) E1 E2 E3 E4 E5 E6.
    split; [done|]. exists infos, local, srv, h1, h2, h3, h4. split_and!; [| |done|done|].
    + rewrite <- Hi. unfold getProcessedEventTypes, GetUniqueTypes. rewrite E1. by apply processTypes_Spec.
    + rewrite <- Hl. by apply local_of_same.
    + destruct s as [m p [c r t [] ]], s' as [m' p' [c' r' t' [] ]]. unfold same_remote in E5. cbn in *. injection Hs. injection E5. intros; subst. done.
Defined.
End server.
