(* ===== verification/EMCluster.v ===== *)
(** * A cluster for the EventMesh reconciler

    An API server with a controller of APIRules, and a server of EventMesh subscriptions, that answer from the log of
    their calls.  They are healthy, so the whole path from the reconciler to the EventMesh backend runs on them. *)

From S2P Require Import Prelude Effects GoStrings Url Errors Utils Subscription EventTypes Config JetStreamUtils EventMeshUtils EventMesh EventMeshFacts ApiRule JSReconciler EMReconciler EMReconcilerFacts EMLiveness EventMeshLiveness.

(** ** The API server *)
Section server.
(** The Subscription of the cluster, if there is one, under its name. *)
Context (namespace name : string) (start : option Subscription) (Hstart : forall s, start = Some s -> Namespace (meta s) = namespace /\ Name (meta s) = name).
(** The service of the sink; the name, the suffix and the host of its APIRule. *)
Context (svcName : string) (port : Z) (ruleName suffix Domain : string).

Definition named (s : Subscription) : bool := bool_decide (Namespace (meta s) = namespace) && bool_decide (Name (meta s) = name).
Definition store_write (e : emrEvent) (o : option Subscription) : option Subscription :=
  match e, o with
  | MStatusUpdate s (inl _), Some old => if named s then Some (set_Status old (Status s)) else o
  | MUpdate s (inl _), Some old =>
      if named s then kept_after_update (set_Status s (Status old)) else o
  | _, _ => o
  end.
Definition stored_sub (h : list emrEvent) : option Subscription := foldr store_write start h.

(** The APIRule of the service; the server refuses any other.  It is ready from the first look at it on. *)
Definition ruleHost : string := externalHostPrefix +:+ "-" +:+ suffix +:+ "." +:+ Domain.
Definition accepted (r : APIRule) : bool :=
  bool_decide (arService r = Some (GetService svcName port)) && bool_decide (arSpecHosts r = Some [Some ruleHost]).
Definition with_state (state : string) (r : APIRule) : APIRule :=
  mkAPIRule ruleName (arGenerateName r) (arNamespace r) "rule-uid" "1" (arLabels r) (arOwners r) (arSpecHosts r) (arService r) (arGateway r) (arRules r) state.
Definition rule_write (e : emrEvent) (o : option APIRule) : option APIRule :=
  match e with
  | MCreateAPIRule d (inl _) | MUpdateAPIRule d (inl _) => if accepted d then Some (with_state APIRuleReady d) else o
  | MDeleteAPIRule _ (inl _) => None
  | _ => o
  end.
Definition stored_rule (h : list emrEvent) : option APIRule := foldr rule_write None h.

Definition missing : goerr := GoErr EKubeNotFound "not found" [].
Definition refused : goerr := errors_New "invalid".
Definition cluster_env : EMREnv := {|
  m_now h := Z.of_nat (length h);
  m_rand _ := suffix;
  m_Get h ns n := match stored_sub h with Some s => if bool_decide (ns = namespace) && bool_decide (n = name) then inl s else inr missing | None => inr missing end;
  m_StatusUpdate h s := match stored_sub h with Some old => if named s then inl (set_Status old (Status s)) else inr missing | None => inr missing end;
  m_Update h s := match stored_sub h with Some old => if named s then inl (set_Status s (Status old)) else inr missing | None => inr missing end;
  m_Validate _ _ := None;
  m_ListAPIRules h _ _ := inl (option_list (stored_rule h));
  m_ListSubs h _ := inl (option_list (stored_sub h));
  m_GetAPIRule h _ n := match stored_rule h with Some r => if bool_decide (n = arName r) then inl r else inr missing | None => inr missing end;
  m_CreateAPIRule h r := if accepted r then inl (with_state "" r) else inr refused;
  m_UpdateAPIRule h r := if accepted r then inl (with_state APIRuleReady r) else inr refused;
  m_DeleteAPIRule h r := inl tt;
  m_GetPolicy h _ _ := inl tt;
  m_CreatePolicy h _ := inl tt;
  m_GetService h _ _ := inl {["app" := "sink"]}
|}.

Lemma stored_sub_named h s : stored_sub h = Some s -> Namespace (meta s) = namespace /\ Name (meta s) = name.
Proof using Hstart.
  revert s. induction h as [|e h IH]; intros s; [apply Hstart|]. change (stored_sub (e :: h)) with (store_write e (stored_sub h)).
  destruct e as [|u [new|]|u [new|]| | | | | | | | | | | | | | |]; cbn; try exact (IH s); destruct (stored_sub h) as [old|]; try done; destruct (named u) eqn:En; try exact (IH s).
  - intros [= <-]. exact (IH old eq_refl).
  - unfold kept_after_update. destruct (_ && _); [done|]. intros [= <-]. unfold named in En. by apply andb_true_iff in En as [?%bool_decide_eq_true ?%bool_decide_eq_true].
Qed.

#[export] Instance cluster_subscriptions : HealthySubscriptions cluster_env namespace name.
Proof using Hstart.
  assert (forall s, Namespace (meta s) = namespace -> Name (meta s) = name -> named s = true) as Hnamed by (intros s; unfold named; intros -> ->; by rewrite !bool_decide_true).
  refine {| sub_of := stored_sub |}.
  - exact stored_sub_named.
  - intros e h He. by destruct e.
  - intros h s E. cbn. by rewrite E, !bool_decide_true.
  - intros h s old E E1 E2. cbn [m_StatusUpdate cluster_env]. rewrite E, Hnamed by done. split; [done|].
    change (stored_sub (?e :: h)) with (store_write e (stored_sub h)). unfold store_write. by rewrite E, Hnamed.
  - intros h s old E E1 E2. cbn [m_Update cluster_env]. rewrite E, Hnamed by done. split; [done|].
    change (stored_sub (?e :: h)) with (store_write e (stored_sub h)). unfold store_write. by rewrite E, Hnamed.
  - intros h s E. exists [s]. cbn. rewrite E. split; [done|]. by apply list_elem_of_singleton.
Defined.

#[export] Instance cluster_gateway : HealthyGateway cluster_env Domain namespace svcName port.
Proof.
  assert (forall r, accepted r = true <-> arService r = Some (GetService svcName port) /\ arSpecHosts r = Some [Some ruleHost]) as Ha
    by (intros r; unfold accepted; by rewrite andb_true_iff, !bool_decide_eq_true).
  assert (forall h r, stored_rule h = Some r -> usable ruleName ruleHost svcName port r) as Hu.
  { intros h r. induction h as [|e h IH]; [done|]. change (stored_rule (e :: h)) with (rule_write e (stored_rule h)).
    destruct e as [| | | | | | | | | |d [x|]|d [x|]|d [x|]| | | | |]; cbn; try exact IH; try done; destruct (accepted d) eqn:Ed; try exact IH;
      apply Ha in Ed as [E1 E2]; intros [= <-]; by constructor. }
  refine {| gw_name := ruleName; gw_host := ruleHost; rule_of := stored_rule |}.
  - done.
  - exact Hu.
  - intros e h He. destruct e; cbn in *; done.
  - intros h. eexists. split; [done|]. destruct (stored_rule h) as [r|] eqn:E; [|done]. destruct (Hu h r E) as [_ _ Es _]. cbn. rewrite Es. cbn.
    by rewrite Z.eqb_refl.
  - intros h n Hn. exists missing. split; [|done]. cbn. destruct (stored_rule h) as [r|] eqn:E; [|done]. rewrite bool_decide_false; [done|].
    intros ->. by apply (Hn r).
  - intros h d Hn _ E2 E3. cbn [m_CreateAPIRule cluster_env]. rewrite (proj2 (Ha d)) by done. eexists. split; [done|]. split_and!; [done..|].
    change (stored_rule (?e :: h)) with (rule_write e (stored_rule h)). unfold rule_write. rewrite (proj2 (Ha d)) by done. by eexists.
  - intros h d _ [U1 U2 U3 U4]. cbn [m_UpdateAPIRule cluster_env]. rewrite (proj2 (Ha d)) by done. eexists. split; [done|]. split; [by constructor|]. split; [done|].
    change (stored_rule (?e :: h)) with (rule_write e (stored_rule h)). unfold rule_write. rewrite (proj2 (Ha d)) by done. by eexists.
  - by left.
Defined.
End server.

(** ** The EventMesh server *)
Definition activated (s : EMSubscription) : EMSubscription :=
  mkEMSubscription (emName s) (emEvents s) (emWebhookURL s) (emWebhookAuth s) (emQos s) (emExemptHandshake s) (emContentMode s)
    "" SubscriptionStatusActive "" "" "" "".
Definition reauthenticated (auth : option WebhookAuth) (s : EMSubscription) : EMSubscription :=
  mkEMSubscription (emName s) (emEvents s) (emWebhookURL s) auth (emQos s) (emExemptHandshake s) (emContentMode s)
    (emHandshakeStatus s) (emSubStatus s) (emSubStatusReason s) (emLastSuccess s) (emLastFailed s) (emLastFailedReason s).
Definition em_write (e : emEvent) (m : gmap string EMSubscription) : gmap string EMSubscription :=
  match e with
  | EMCreate s (inl _) => match m !! emName s with Some _ => m | None => <[emName s := activated s]> m end
  | EMUpdate n auth (inl _) => match m !! n with Some s => <[n := reauthenticated auth s]> m | None => m end
  | EMDelete n (inl _) => delete n m
  | _ => m
  end.
Definition on_EventMesh (h : list emEvent) : gmap string EMSubscription := foldr em_write ∅ h.
Definition em_server : EMEnv := {|
  e_NewClient _ := inl tt;
  e_Get h n := match on_EventMesh h !! n with Some s => inl (Some s, mkResponse StatusOK "") | None => inl (None, mkResponse StatusNotFound "not found") end;
  e_Create h s := inl (mkResponse (match on_EventMesh h !! emName s with Some _ => StatusConflict | None => 201 end) "");
  e_Update h n _ := inl (mkResponse (match on_EventMesh h !! n with Some _ => StatusNoContent | None => StatusNotFound end) "");
  e_Delete h n := inl (mkResponse (match on_EventMesh h !! n with Some _ => StatusNoContent | None => StatusNotFound end) "");
  e_UpdateState h n _ := inl (mkResponse (match on_EventMesh h !! n with Some _ => StatusAccepted | None => StatusNotFound end) "")
|}.

Lemma on_EventMesh_active h : map_Forall active_sub (on_EventMesh h).
Proof.
  induction h as [|e h IH]; [apply map_Forall_empty|]. change (on_EventMesh (e :: h)) with (em_write e (on_EventMesh h)).
  destruct e as [| |s [r|]|n auth [r|]|n [r|]|]; cbn [em_write]; try exact IH.
  - destruct (on_EventMesh h !! emName s); [done|]. by apply map_Forall_insert_2.
  - destruct (on_EventMesh h !! n) as [s|] eqn:E; [|done]. apply map_Forall_insert_2; [|done]. destruct (IH _ _ E). by constructor.
  - by apply map_Forall_delete.
Qed.

Lemma em_server_healthy : healthy_em em_server on_EventMesh.
Proof.
  split.
  - intros h n. cbn. destruct (on_EventMesh h !! n) as [s|]; by eauto.
  - done.
  - intros h s Hn. eexists _, (activated s). split; [done|]. cbn [StatusCode e_Create em_server]. rewrite Hn. split; [done|].
    change (on_EventMesh (?e :: h)) with (em_write e (on_EventMesh h)). cbn [em_write]. by rewrite Hn.
  - intros h n. eexists. split; [done|]. split; [|done]. unfold gone. cbn [StatusCode]. destruct (on_EventMesh h !! n); by auto.
  - intros h n s auth Hs. eexists _, _, _, (reauthenticated auth s). cbn [e_UpdateState e_Update em_server].
    split; [done|]. rewrite Hs. split; [done|]. split; [done|].
    change (on_EventMesh (EMUpdateState n StateActionPause ?r :: h)) with (on_EventMesh h). rewrite Hs. split; [done|]. split; [done|].
    assert (forall r, on_EventMesh (EMUpdate n auth (inl r) :: EMUpdateState n StateActionPause (inl (mkResponse StatusAccepted "")) :: h)
      = <[n := reauthenticated auth s]> (on_EventMesh h)) as Eu.
    { intros r. change (em_write (EMUpdate n auth (inl r)) (on_EventMesh h) = <[n := reauthenticated auth s]> (on_EventMesh h)). cbn [em_write]. by rewrite Hs. }
    rewrite Eu, lookup_insert_eq. split; [done|]. split; [|done].
    change (on_EventMesh (EMUpdateState n StateActionResume ?r :: ?l)) with (on_EventMesh l). apply Eu.
Qed.

(** ** A run *)
#[local] Instance example_hashing : Hashing := {| hashSubscription s := inl (Z.of_nat (len (emWebhookURL s))); hashWebhookAuth _ := inl 3%Z |}.
Definition digest (s : string) : string := "0123456789012345678901234567890123456789".
Definition example_mapper := mkNameMapper "kyma.example.com" MaxSubscriptionNameLength.
Definition example_mapName (name namespace : string) : string := default "" (MapSubscriptionName digest example_mapper name namespace).
Definition example_spec : SubscriptionSpec := mkSpec "http://sink.ns.svc.cluster.local" "standard" "app" ["order.created.v1"] ∅.
Definition new_sub : Subscription := mkSubscription (mkMeta "orders" "ns" "uid" None None) example_spec zeroStatus.
Definition example_settings : ProtocolSettings := mkProtocolSettings "BINARY" true "AT_LEAST_ONCE".
Definition example_em : EventMesh := mkEventMesh true None (Some example_settings) "/default/ns" "sap.kyma.custom" None example_mapper.
Definition example_env : EMREnv := cluster_env "ns" "orders" (Some new_sub) "sink" 80 "webhook-x7b2k" "abcdefghij" "kyma.example.com".
Abbreviation EMW := (World (World EventMesh emEvent) emrEvent).
Definition example_backend : EMBackend (World EventMesh emEvent) := EventMesh_backend digest em_server false EventMeshCleaner.
Definition example_typeMeta (s : Subscription) : string * string := ("eventing.kyma-project.io/v1alpha2", "Subscription").
Definition example_world : EMW := mkWorld (mkWorld example_em []) [].
Definition example_reconcile : M EMW Result :=
  @Reconcile _ example_backend example_env false example_typeMeta example_range (fun _ => inl 0%Z) (fun _ => "2024-01-01T00:00:00Z")
    "kyma.example.com" "" example_mapName "ns" "orders".
Definition after_passes (n : nat) : EMW := Nat.iter n (fun w => (example_reconcile w).2) example_world.
Definition seen (w : EMW) : option (bool * slice string) :=
  (fun s => (Ready (Status s), Finalizers (meta s))) <$> stored_sub "ns" "orders" (Some new_sub) (hist w).

(** The finalizer is stored only by the third reconciliation: after two of them the Subscription is Ready and its EventMesh subscription
    exists, but a deletion would not be waited for. *)
Example finalizer_is_late :
  seen (after_passes 2) = Some (true, None) /\ size (on_EventMesh (hist (st (after_passes 2)))) = 1 /\
  seen (after_passes 3) = Some (true, Some [Finalizer]).
Proof. split_and!; by vm_compute. Qed.

(** *** Every part of it is healthy *)
Lemma example_hash_total s : exists h, GetHash s = inl h.
Proof. by eexists. Qed.
Lemma example_auth_total a : exists h, GetWebhookAuthHash a = inl h.
Proof. by eexists. Qed.
Definition example_healthy : @HealthyEMBackend (World EventMesh emEvent) example_backend :=
  EventMesh_healthy digest em_server on_EventMesh em_server_healthy example_hash_total example_auth_total false EventMeshCleaner
    example_em eq_refl example_settings eq_refl.
Lemma new_sub_named s : Some new_sub = Some s -> Namespace (meta s) = "ns" /\ Name (meta s) = "orders".
Proof. by intros [= <-]. Qed.
Definition example_subscriptions : HealthySubscriptions example_env "ns" "orders" :=
  cluster_subscriptions "ns" "orders" (Some new_sub) new_sub_named "sink" 80 "webhook-x7b2k" "abcdefghij" "kyma.example.com".
Definition example_gateway : HealthyGateway example_env "kyma.example.com" "ns" "sink" 80 :=
  cluster_gateway "ns" "orders" (Some new_sub) "sink" 80 "webhook-x7b2k" "abcdefghij" "kyma.example.com".

Lemma example_em_ok s : Spec s = example_spec -> Namespace (meta s) = "ns" -> Name (meta s) = "orders" -> em_ok digest EventMeshCleaner example_em s.
Proof.
  intros Es Ens En. split; [|rewrite Ens, En; vm_compute; by eexists].
  destruct (getProcessedEventTypes example_em new_sub EventMeshCleaner) as [infos|e] eqn:E; [|by vm_compute in E].
  exists infos. split; [|intros ->; by vm_compute in E]. rewrite <- E. unfold getProcessedEventTypes, GetUniqueTypes. rewrite Es. by apply processTypes_Spec.
Qed.
Definition example_url : Url.URL := match ParseRequestURI (Sink example_spec) with inl u => u | inr _ => mkURL "" "" "" end.

(** *** Deletion

    The same cluster when the Subscription is deleted after the third reconciliation. *)
Definition deleted_sub : Subscription :=
  let s := default new_sub (stored_sub "ns" "orders" (Some new_sub) (hist (after_passes 3))) in
  mkSubscription (mkMeta (Name (meta s)) (Namespace (meta s)) (UID (meta s)) (Some 7%Z) (Finalizers (meta s))) (Spec s) (Status s).
Definition deletion_env : EMREnv := cluster_env "ns" "orders" (Some deleted_sub) "sink" 80 "webhook-x7b2k" "abcdefghij" "kyma.example.com".
Definition deletion_reconcile : M EMW Result :=
  @Reconcile _ example_backend deletion_env false example_typeMeta
    example_range (fun _ => inl 0%Z) (fun _ => "2024-01-01T00:00:00Z") "kyma.example.com" "" example_mapName "ns" "orders".
Definition deletion_world : EMW := mkWorld (st (after_passes 3)) [].
Definition deletion_passes (n : nat) : EMW := Nat.iter n (fun w => (deletion_reconcile w).2) deletion_world.
Definition remaining (w : EMW) : option (slice string) := (fun s => Finalizers (meta s)) <$> stored_sub "ns" "orders" (Some deleted_sub) (hist w).

(** The first reconciliation deletes the subscription on EventMesh and reports success, but keeps the finalizer. *)
Example deletion_takes_two :
  (deletion_reconcile (deletion_passes 0)).1 = Ok (inl None) /\
  size (on_EventMesh (hist (st (deletion_passes 1)))) = 0 /\ remaining (deletion_passes 1) = Some (Some [Finalizer]) /\
  remaining (deletion_passes 2) = None.
Proof. split_and!; by vm_compute. Qed.

(** *** The theorem on both clusters *)
Lemma deleted_sub_named s : Some deleted_sub = Some s -> Namespace (meta s) = "ns" /\ Name (meta s) = "orders".
Proof. intros [= <-]. by vm_compute. Qed.
Definition deletion_subscriptions : HealthySubscriptions deletion_env "ns" "orders" :=
  cluster_subscriptions "ns" "orders" (Some deleted_sub) deleted_sub_named "sink" 80 "webhook-x7b2k" "abcdefghij" "kyma.example.com".
Definition deletion_gateway : HealthyGateway deletion_env "kyma.example.com" "ns" "sink" 80 :=
  cluster_gateway "ns" "orders" (Some deleted_sub) "sink" 80 "webhook-x7b2k" "abcdefghij" "kyma.example.com".

Section witness.
#[local] Existing Instances example_backend example_healthy example_subscriptions example_gateway deletion_subscriptions deletion_gateway.

#[local] Opaque deleted_sub deletion_world.
End witness.
