(* ===== verification/Objects.v ===== *)
(** * Kubernetes objects

    The types of the objects the operator creates, compares and deletes are
    not in the repository: each record holds the fields the program writes or reads.
    A Go map or pointer that can be nil is an [option]; a list that the program
    never tells from nil is a list.  Quantities are their canonical texts. *)

From S2P Require Import Prelude GoStrings Eventing ApiRule.

Abbreviation labels := (option (gmap string string)).

Record TypeMeta := mkTypeMeta { tmKind : string; tmAPIVersion : string }.
#[global] Instance TypeMeta_eq_dec : EqDecision TypeMeta.
Proof. solve_decision. Defined.

Record ObjectMeta := mkObjectMeta {
  omName : string;
  omNamespace : string;
  omUID : string;
  omLabels : labels;
  omAnnotations : labels;
  omOwners : list OwnerReference
}.
#[global] Instance ObjectMeta_eq_dec : EqDecision ObjectMeta.
Proof. solve_decision. Defined.
Definition named (name namespace : string) (l : labels) : ObjectMeta := mkObjectMeta name namespace "" l None [].
Definition set_omLabels (l : labels) (m : ObjectMeta) : ObjectMeta :=
  mkObjectMeta (omName m) (omNamespace m) (omUID m) l (omAnnotations m) (omOwners m).
Definition set_omAnnotations (a : labels) (m : ObjectMeta) : ObjectMeta :=
  mkObjectMeta (omName m) (omNamespace m) (omUID m) (omLabels m) a (omOwners m).
Definition set_omOwners (o : list OwnerReference) (m : ObjectMeta) : ObjectMeta :=
  mkObjectMeta (omName m) (omNamespace m) (omUID m) (omLabels m) (omAnnotations m) o.

(** ** Pods *)

(** [corev1.SecretKeySelector] in an [EnvVarSource]. *)
Record SecretKeyRef := mkSecretKeyRef { skName : string; skKey : string }.
#[global] Instance SecretKeyRef_eq_dec : EqDecision SecretKeyRef.
Proof. solve_decision. Defined.
Record EnvVar := mkEnvVar { evName : string; evValue : string; evValueFrom : option SecretKeyRef }.
#[global] Instance EnvVar_eq_dec : EqDecision EnvVar.
Proof. solve_decision. Defined.

Record ContainerPort := mkContainerPort { cpName : string; cpPort : Z; cpProtocol : string }.
#[global] Instance ContainerPort_eq_dec : EqDecision ContainerPort.
Proof. solve_decision. Defined.

Record HTTPGetAction := mkHTTPGet { hgPath : string; hgPort : Z; hgScheme : string }.
#[global] Instance HTTPGetAction_eq_dec : EqDecision HTTPGetAction.
Proof. solve_decision. Defined.
Record Probe := mkProbe {
  pHTTPGet : option HTTPGetAction;
  pInitialDelaySeconds : Z;
  pTimeoutSeconds : Z;
  pPeriodSeconds : Z;
  pSuccessThreshold : Z;
  pFailureThreshold : Z
}.
#[global] Instance Probe_eq_dec : EqDecision Probe.
Proof. solve_decision. Defined.

Record SecurityContext := mkSecurityContext {
  scPrivileged : option bool; scAllowPrivilegeEscalation : option bool; scRunAsNonRoot : option bool; scDrop : list string }.
#[global] Instance SecurityContext_eq_dec : EqDecision SecurityContext.
Proof. solve_decision. Defined.

Record Container := mkContainer {
  cName : string;
  cImage : string;
  cPorts : list ContainerPort;
  cEnv : list EnvVar;
  cResources : ResourceRequirements;
  cLivenessProbe : option Probe;
  cReadinessProbe : option Probe;
  cImagePullPolicy : string;
  cSecurityContext : option SecurityContext
}.
#[global] Instance Container_eq_dec : EqDecision Container.
Proof. solve_decision. Defined.
Definition set_cEnv (e : list EnvVar) (c : Container) : Container :=
  mkContainer (cName c) (cImage c) (cPorts c) e (cResources c) (cLivenessProbe c) (cReadinessProbe c)
    (cImagePullPolicy c) (cSecurityContext c).

Record PodSecurityContext := mkPodSecurityContext {
  psFSGroup : option Z; psRunAsUser : option Z; psRunAsGroup : option Z; psRunAsNonRoot : option bool; psSeccompProfile : string }.
#[global] Instance PodSecurityContext_eq_dec : EqDecision PodSecurityContext.
Proof. solve_decision. Defined.

(** [corev1.WeightedPodAffinityTerm] of the preferred pod anti-affinity. *)
Record AffinityTerm := mkAffinityTerm { atWeight : Z; atMatchLabels : labels; atTopologyKey : string }.
#[global] Instance AffinityTerm_eq_dec : EqDecision AffinityTerm.
Proof. solve_decision. Defined.

Record PodSpec := mkPodSpec {
  pRestartPolicy : string;
  pServiceAccountName : string;
  pTerminationGracePeriodSeconds : option Z;
  pPriorityClassName : string;
  pSecurityContext : option PodSecurityContext;
  pAffinity : option (list AffinityTerm);
  pContainers : list Container
}.
#[global] Instance PodSpec_eq_dec : EqDecision PodSpec.
Proof. solve_decision. Defined.
Definition set_pContainers (l : list Container) (p : PodSpec) : PodSpec :=
  mkPodSpec (pRestartPolicy p) (pServiceAccountName p) (pTerminationGracePeriodSeconds p) (pPriorityClassName p)
    (pSecurityContext p) (pAffinity p) l.
Definition set_pAffinity (a : option (list AffinityTerm)) (p : PodSpec) : PodSpec :=
  mkPodSpec (pRestartPolicy p) (pServiceAccountName p) (pTerminationGracePeriodSeconds p) (pPriorityClassName p)
    (pSecurityContext p) a (pContainers p).
Definition set_pPriorityClassName (n : string) (p : PodSpec) : PodSpec :=
  mkPodSpec (pRestartPolicy p) (pServiceAccountName p) (pTerminationGracePeriodSeconds p) n
    (pSecurityContext p) (pAffinity p) (pContainers p).

(** ** Deployments *)
Record PodTemplate := mkTemplate { tMeta : ObjectMeta; tSpec : PodSpec }.
#[global] Instance PodTemplate_eq_dec : EqDecision PodTemplate.
Proof. solve_decision. Defined.

Record DeploymentSpec := mkDeploymentSpec {
  dReplicas : option Z;
  dSelector : option (gmap string string);
  dTemplate : PodTemplate
}.
#[global] Instance DeploymentSpec_eq_dec : EqDecision DeploymentSpec.
Proof. solve_decision. Defined.

Record DeploymentStatus := mkDeploymentStatus { AvailableReplicas : Z; ReadyReplicas : Z; UpdatedReplicas : Z }.
#[global] Instance DeploymentStatus_eq_dec : EqDecision DeploymentStatus.
Proof. solve_decision. Defined.

Record Deployment := mkDeployment {
  dType : TypeMeta; dMeta : ObjectMeta; dSpec : DeploymentSpec; dStatus : DeploymentStatus }.
#[global] Instance Deployment_eq_dec : EqDecision Deployment.
Proof. solve_decision. Defined.
Definition upd_dMeta (f : ObjectMeta -> ObjectMeta) (d : Deployment) : Deployment :=
  mkDeployment (dType d) (f (dMeta d)) (dSpec d) (dStatus d).
Definition set_dSpec (s : DeploymentSpec) (d : Deployment) : Deployment := mkDeployment (dType d) (dMeta d) s (dStatus d).
Definition upd_dTemplate (f : PodTemplate -> PodTemplate) (d : Deployment) : Deployment :=
  set_dSpec (mkDeploymentSpec (dReplicas (dSpec d)) (dSelector (dSpec d)) (f (dTemplate (dSpec d)))) d.
Definition upd_tMeta (f : ObjectMeta -> ObjectMeta) : Deployment -> Deployment :=
  upd_dTemplate (fun t => mkTemplate (f (tMeta t)) (tSpec t)).
Definition upd_tSpec (f : PodSpec -> PodSpec) : Deployment -> Deployment :=
  upd_dTemplate (fun t => mkTemplate (tMeta t) (f (tSpec t))).

(** ** The other resources of the publisher proxy *)
Record ServicePort := mkServicePort { spName : string; spProtocol : string; spPort : Z; spTargetPort : Z }.
#[global] Instance ServicePort_eq_dec : EqDecision ServicePort.
Proof. solve_decision. Defined.
Record CoreService := mkCoreService {
  csType : TypeMeta; csMeta : ObjectMeta; csSelector : labels; csPorts : list ServicePort }.

Record CoreServiceAccount := mkCoreServiceAccount { saType : TypeMeta; saMeta : ObjectMeta }.

Record PolicyRule := mkPolicyRule { prAPIGroups : list string; prResources : list string; prVerbs : list string }.
#[global] Instance PolicyRule_eq_dec : EqDecision PolicyRule.
Proof. solve_decision. Defined.
Record ClusterRole := mkClusterRole { crType : TypeMeta; crMeta : ObjectMeta; crRules : list PolicyRule }.

Record RoleRef := mkRoleRef { rrKind : string; rrName : string; rrAPIGroup : string }.
#[global] Instance RoleRef_eq_dec : EqDecision RoleRef.
Proof. solve_decision. Defined.
Record Subject := mkSubject { sbKind : string; sbName : string; sbNamespace : string }.
#[global] Instance Subject_eq_dec : EqDecision Subject.
Proof. solve_decision. Defined.
Record ClusterRoleBinding := mkClusterRoleBinding {
  cbType : TypeMeta; cbMeta : ObjectMeta; cbRoleRef : RoleRef; cbSubjects : list Subject }.

(** [CrossVersionObjectReference], and a resource metric with a target utilization. *)
Record ScaleTarget := mkScaleTarget { stKind : string; stName : string; stAPIVersion : string }.
#[global] Instance ScaleTarget_eq_dec : EqDecision ScaleTarget.
Proof. solve_decision. Defined.
Record MetricSpec := mkMetricSpec { msResource : string; msAverageUtilization : option Z }.
#[global] Instance MetricSpec_eq_dec : EqDecision MetricSpec.
Proof. solve_decision. Defined.
Record HPA := mkHPA {
  hpType : TypeMeta;
  hpMeta : ObjectMeta;
  hpTarget : ScaleTarget;
  hpMinReplicas : option Z;
  hpMaxReplicas : Z;
  hpMetrics : list MetricSpec
}.

(** [corev1.Secret]: the data are bytes. *)
Record Secret := mkSecret { seMeta : ObjectMeta; seData : gmap string string; seStringData : gmap string string }.

(** [client.Object], of the kinds the operator applies and deletes. *)
Inductive Object_ :=
  | ODeployment (d : Deployment)
  | OServiceAccount (s : CoreServiceAccount)
  | OClusterRole (r : ClusterRole)
  | OClusterRoleBinding (b : ClusterRoleBinding)
  | OService (s : CoreService)
  | OHPA (h : HPA).

Definition objType (o : Object_) : TypeMeta :=
  match o with
  | ODeployment d => dType d | OServiceAccount s => saType s | OClusterRole r => crType r
  | OClusterRoleBinding b => cbType b | OService s => csType s | OHPA h => hpType h
  end.
Definition objMeta (o : Object_) : ObjectMeta :=
  match o with
  | ODeployment d => dMeta d | OServiceAccount s => saMeta s | OClusterRole r => crMeta r
  | OClusterRoleBinding b => cbMeta b | OService s => csMeta s | OHPA h => hpMeta h
  end.
Definition upd_objMeta (f : ObjectMeta -> ObjectMeta) (o : Object_) : Object_ :=
  match o with
  | ODeployment d => ODeployment (upd_dMeta f d)
  | OServiceAccount s => OServiceAccount (mkCoreServiceAccount (saType s) (f (saMeta s)))
  | OClusterRole r => OClusterRole (mkClusterRole (crType r) (f (crMeta r)) (crRules r))
  | OClusterRoleBinding b => OClusterRoleBinding (mkClusterRoleBinding (cbType b) (f (cbMeta b)) (cbRoleRef b) (cbSubjects b))
  | OService s => OService (mkCoreService (csType s) (f (csMeta s)) (csSelector s) (csPorts s))
  | OHPA h => OHPA (mkHPA (hpType h) (f (hpMeta h)) (hpTarget h) (hpMinReplicas h) (hpMaxReplicas h) (hpMetrics h))
  end.

(** An object as the API server identifies it. *)
Definition objKey (o : Object_) : string * string * string :=
  (tmKind (objType o), omNamespace (objMeta o), omName (objMeta o)).

Lemma objKey_upd f o : omName (f (objMeta o)) = omName (objMeta o) -> omNamespace (f (objMeta o)) = omNamespace (objMeta o) ->
  objKey (upd_objMeta f o) = objKey o.
Proof. unfold objKey. destruct o; cbn; by intros -> ->. Qed.
