(* ===== verification/Equality.v ===== *)
(** * Semantic equality of objects: [pkg/object/equality.go]

    The comparisons that decide whether the operator writes an object or queues a
    reconciliation.  They compare two pointers; [None] is nil.  The two
    pointers of every call in the program are of different objects, so the shortcut for
    the same pointer only concerns two nils. *)

From S2P Require Import Prelude GoStrings Eventing ApiRule Objects.

(** [mapDeepEqual]: a nil map equals an empty one. *)
Definition mapDeepEqual (m1 m2 : labels) : bool :=
  if (size (default ∅ m1) =? 0)%nat && (size (default ∅ m2) =? 0)%nat then true else bool_decide (m1 = m2).

(** [a == b] on pointers to different objects, then the test for nil. *)
Definition nonNil {A} (a b : option A) (f : A -> A -> bool) : bool :=
  match a, b with
  | None, None => true
  | Some a, Some b => f a b
  | _, _ => false
  end.

Definition serviceAccountEqual (a b : option CoreServiceAccount) : bool :=
  nonNil a b (fun a b =>
    bool_decide (omName (saMeta a) = omName (saMeta b) /\ omNamespace (saMeta a) = omNamespace (saMeta b)) &&
    mapDeepEqual (omLabels (saMeta a)) (omLabels (saMeta b)) &&
    ownerReferencesDeepEqual (omOwners (saMeta a)) (omOwners (saMeta b))).

Definition clusterRoleEqual (a b : option ClusterRole) : bool :=
  nonNil a b (fun a b =>
    String.eqb (omName (crMeta a)) (omName (crMeta b)) &&
    mapDeepEqual (omLabels (crMeta a)) (omLabels (crMeta b)) &&
    ownerReferencesDeepEqual (omOwners (crMeta a)) (omOwners (crMeta b)) &&
    bool_decide (crRules a = crRules b)).

Definition serviceEqual (a b : option CoreService) : bool :=
  nonNil a b (fun a b =>
    ownerReferencesDeepEqual (omOwners (csMeta a)) (omOwners (csMeta b)) &&
    bool_decide (omName (csMeta a) = omName (csMeta b) /\ omNamespace (csMeta a) = omNamespace (csMeta b)) &&
    bool_decide (csSelector a = csSelector b) &&
    bool_decide (csPorts a = csPorts b)).

(** [None]: a nil minimum is dereferenced. *)
Definition hpaEqual (a b : option HPA) : option bool :=
  match a, b with
  | None, None => Some true
  | Some a, Some b =>
      if negb (bool_decide (omName (hpMeta a) = omName (hpMeta b) /\ omNamespace (hpMeta a) = omNamespace (hpMeta b))) then Some false
      else if negb (ownerReferencesDeepEqual (omOwners (hpMeta a)) (omOwners (hpMeta b))) then Some false
      else if negb (bool_decide (hpTarget a = hpTarget b)) then Some false
      else
        minA ← hpMinReplicas a; minB ← hpMinReplicas b;
        Some ((minA =? minB)%Z && (hpMaxReplicas a =? hpMaxReplicas b)%Z && bool_decide (hpMetrics a = hpMetrics b))
  | _, _ => Some false
  end.

Definition clusterRoleBindingEqual (a b : option ClusterRoleBinding) : bool :=
  nonNil a b (fun a b =>
    String.eqb (omName (cbMeta a)) (omName (cbMeta b)) &&
    ownerReferencesDeepEqual (omOwners (cbMeta a)) (omOwners (cbMeta b)) &&
    bool_decide (cbRoleRef a = cbRoleRef b) &&
    bool_decide (cbSubjects a = cbSubjects b)).

(** ** Deployments of the publisher proxy *)
Definition realProto (pr : string) : string := if String.eqb pr "" then "TCP" else pr.

(** Every element of the first list is somewhere in the second: the nested loops with [isFound]. *)
Definition allFound {A} (same : A -> A -> bool) (l1 l2 : list A) : bool := forallb (fun x => existsb (same x) l2) l1.

Definition envEqual (a b : list EnvVar) : bool :=
  if negb (length a =? length b)%nat then false else allFound (fun ev1 ev2 => bool_decide (ev1 = ev2)) a b.

Definition handlerEqual (a b : option HTTPGetAction) : bool :=
  match a, b with
  | None, Some _ => false
  | Some _, None => false
  | Some hg1, Some hg2 => String.eqb (hgPath hg1) (hgPath hg2)
  | None, None => true
  end.

(** The two values differ and neither is the zero value. *)
Definition differ (x y : Z) : bool := negb (x =? y)%Z && negb (x =? 0)%Z && negb (y =? 0)%Z.

Definition probeEqual (a b : option Probe) : bool :=
  nonNil a b (fun a b =>
    if negb (pInitialDelaySeconds a =? pInitialDelaySeconds b)%Z || differ (pTimeoutSeconds a) (pTimeoutSeconds b) ||
       differ (pPeriodSeconds a) (pPeriodSeconds b) || differ (pSuccessThreshold a) (pSuccessThreshold b) ||
       differ (pFailureThreshold a) (pFailureThreshold b)
    then false
    else handlerEqual (pHTTPGet a) (pHTTPGet b)).

Definition samePort (p1 p2 : ContainerPort) : bool :=
  String.eqb (cpName p1) (cpName p2) && (cpPort p1 =? cpPort p2)%Z && String.eqb (realProto (cpProtocol p1)) (realProto (cpProtocol p2)).

Definition containerEqual (a b : Container) : bool :=
  if negb (String.eqb (cImage a) (cImage b)) then false
  else if negb (length (cPorts a) =? length (cPorts b))%nat then false
  else if negb (allFound samePort (cPorts a) (cPorts b)) then false
  else if negb (envEqual (cEnv a) (cEnv b)) then false
  else if negb (bool_decide (cResources a = cResources b)) then false
  else probeEqual (cReadinessProbe a) (cReadinessProbe b).

Fixpoint containersEqual (cs1 cs2 : list Container) : bool :=
  match cs1, cs2 with
  | [], [] => true
  | c1 :: cs1, c2 :: cs2 => containerEqual c1 c2 && containersEqual cs1 cs2
  | _, _ => false
  end.

Definition podSpecEqual (ps1 ps2 : PodSpec) : bool :=
  containersEqual (pContainers ps1) (pContainers ps2) && String.eqb (pServiceAccountName ps1) (pServiceAccountName ps2).

Definition publisherProxyDeploymentEqual (a b : option Deployment) : bool :=
  match a, b with
  | Some a, Some b =>
      let cst1 := dTemplate (dSpec a) in
      let cst2 := dTemplate (dSpec b) in
      if negb (bool_decide (omLabels (dMeta a) = omLabels (dMeta b))) then false
      else if negb (mapDeepEqual (omAnnotations (tMeta cst1)) (omAnnotations (tMeta cst2))) then false
      else if negb (mapDeepEqual (omLabels (tMeta cst1)) (omLabels (tMeta cst2))) then false
      else podSpecEqual (tSpec cst1) (tSpec cst2)
  | _, _ => false
  end.

(** * Theorems *)
Lemma mapDeepEqual_spec m1 m2 : mapDeepEqual m1 m2 = true <-> default ∅ m1 = default ∅ m2.
Proof.
  unfold mapDeepEqual. destruct (Nat.eqb_spec (size (default ∅ m1)) 0) as [H1|H1]; cbn [andb].
  - apply map_size_empty_inv in H1. destruct (Nat.eqb_spec (size (default ∅ m2)) 0) as [H2|H2].
    + apply map_size_empty_inv in H2. by rewrite H1, H2.
    + rewrite bool_decide_eq_true. split; [by intros ->|]. intros E. rewrite <- E, H1, map_size_empty in H2. done.
  - rewrite bool_decide_eq_true. split; [by intros ->|]. destruct m1 as [m1|], m2 as [m2|]; cbn in *; try (by rewrite map_size_empty in H1).
    + by intros ->.
    + intros ->. by rewrite map_size_empty in H1.
Qed.

(** A list without duplicates, as long as another one that has all its elements, is a reordering of it. *)
Lemma allFound_perm {A B} `{EqDecision B} (f : A -> B) (same : A -> A -> bool) (l1 l2 : list A) :
  (forall x y, same x y = true <-> f x = f y) -> NoDup (f <$> l1) ->
  length l1 = length l2 -> (allFound same l1 l2 = true <-> f <$> l1 ≡ₚ f <$> l2).
Proof.
  intros Hs Hnd Hl. unfold allFound. rewrite forallb_elem. setoid_rewrite existsb_app_iff. split.
  - intros H. apply submseteq_length_Permutation; [|by rewrite !length_fmap, Hl].
    apply NoDup_submseteq; [done|]. intros y (x & -> & Hx)%list_elem_of_fmap.
    destruct (H x Hx) as (x' & Hx' & E%Hs). rewrite E. by apply list_elem_of_fmap_2.
  - intros Hp x Hx. assert (f x ∈ f <$> l2) as (x' & E & Hx')%list_elem_of_fmap.
    { rewrite <- Hp. by apply list_elem_of_fmap_2. }
    exists x'. split; [done|]. by apply Hs.
Qed.

Lemma allFound_refl {A} (same : A -> A -> bool) (l : list A) : (forall x, same x x = true) -> allFound same l l = true.
Proof. intros Hs. apply forallb_elem. intros x Hx. apply existsb_app_iff. by exists x. Qed.

(** What a port is compared by. *)
Definition portKey (p : ContainerPort) : string * Z * string := (cpName p, cpPort p, realProto (cpProtocol p)).
Lemma samePort_spec p1 p2 : samePort p1 p2 = true <-> portKey p1 = portKey p2.
Proof.
  unfold samePort, portKey. rewrite !andb_true_iff, !String.eqb_eq, Z.eqb_eq.
  split; [by intros [[-> ->] ->]|by intros [= -> -> ->]].
Qed.

(** Two probes that agree up to values the API server fills in. *)
Definition agree (x y : Z) : Prop := x = y \/ x = 0%Z \/ y = 0%Z.
Definition probesAgree (a b : Probe) : Prop :=
  pInitialDelaySeconds a = pInitialDelaySeconds b /\ agree (pTimeoutSeconds a) (pTimeoutSeconds b) /\
  agree (pPeriodSeconds a) (pPeriodSeconds b) /\ agree (pSuccessThreshold a) (pSuccessThreshold b) /\
  agree (pFailureThreshold a) (pFailureThreshold b) /\ (hgPath <$> pHTTPGet a) = (hgPath <$> pHTTPGet b).

Lemma differ_spec x y : differ x y = false <-> agree x y.
Proof. unfold differ, agree. destruct (Z.eqb_spec x y), (Z.eqb_spec x 0), (Z.eqb_spec y 0); cbn; intuition congruence. Qed.

Lemma handlerEqual_spec a b : handlerEqual a b = true <-> hgPath <$> a = hgPath <$> b.
Proof. destruct a, b; cbn; rewrite ?String.eqb_eq; split; congruence. Qed.

Lemma probeEqual_spec a b : probeEqual (Some a) (Some b) = true <-> probesAgree a b.
Proof.
  unfold probeEqual, nonNil, probesAgree. rewrite <- !differ_spec, <- handlerEqual_spec.
  destruct (Z.eqb_spec (pInitialDelaySeconds a) (pInitialDelaySeconds b)); cbn [negb orb]; [|intuition congruence].
  repeat destruct (differ _ _); cbn [orb]; intuition congruence.
Qed.

(** What [containerEqual] promises. *)
Definition sameContainer (a b : Container) : Prop :=
  cImage a = cImage b /\ portKey <$> cPorts a ≡ₚ portKey <$> cPorts b /\ cEnv a ≡ₚ cEnv b /\ cResources a = cResources b /\
  match cReadinessProbe a, cReadinessProbe b with
  | None, None => True | Some p, Some q => probesAgree p q | _, _ => False
  end.
(** No port and no variable is listed twice. *)
Definition distinct (c : Container) : Prop := NoDup (portKey <$> cPorts c) /\ NoDup (cEnv c).

Lemma envEqual_spec a b : NoDup a -> envEqual a b = true <-> a ≡ₚ b.
Proof.
  intros Hnd. unfold envEqual. destruct (Nat.eqb_spec (length a) (length b)) as [Hl|Hl]; cbn [negb].
  - rewrite (allFound_perm id _ a b); rewrite ?list_fmap_id; [done| |done|done]. intros x y. apply bool_decide_eq_true.
  - split; [done|]. intros Hp. by rewrite Hp in Hl.
Qed.

Lemma containerEqual_spec a b : distinct a -> containerEqual a b = true <-> sameContainer a b.
Proof.
  intros [Hp He]. unfold containerEqual, sameContainer.
  destruct (String.eqb_spec (cImage a) (cImage b)); cbn [negb]; [|intuition congruence].
  destruct (Nat.eqb_spec (length (cPorts a)) (length (cPorts b))) as [Hl|Hl]; cbn [negb].
  2: { split; [done|]. intros (_ & Hq & _). apply Permutation_length in Hq. by rewrite !length_fmap in Hq. }
  pose proof (allFound_perm portKey samePort _ _ samePort_spec Hp Hl) as Hf.
  pose proof (envEqual_spec _ (cEnv b) He) as Hv.
  destruct (allFound _ _ _); cbn [negb]; [|intuition congruence].
  destruct (envEqual _ _); cbn [negb]; [|intuition congruence].
  case_bool_decide; cbn [negb]; [|intuition congruence].
  destruct (cReadinessProbe a), (cReadinessProbe b); [rewrite probeEqual_spec|cbn..]; intuition congruence.
Qed.

Lemma containersEqual_spec cs1 cs2 : Forall distinct cs1 -> containersEqual cs1 cs2 = true <-> Forall2 sameContainer cs1 cs2.
Proof.
  intros Hd. revert cs2. induction Hd as [|c1 cs1 Hc _ IH]; intros [|c2 cs2]; cbn [containersEqual].
  - by split; [constructor|].
  - split; [done|]. by inversion 1.
  - split; [done|]. by inversion 1.
  - rewrite andb_true_iff, containerEqual_spec, IH by done. split; [intros []; by constructor|by inversion 1].
Qed.

(** What two deployments of the publisher proxy are compared by. *)
Definition sameDeployment (a b : Deployment) : Prop :=
  let t1 := dTemplate (dSpec a) in let t2 := dTemplate (dSpec b) in
  omLabels (dMeta a) = omLabels (dMeta b) /\
  default ∅ (omAnnotations (tMeta t1)) = default ∅ (omAnnotations (tMeta t2)) /\
  default ∅ (omLabels (tMeta t1)) = default ∅ (omLabels (tMeta t2)) /\
  pServiceAccountName (tSpec t1) = pServiceAccountName (tSpec t2) /\
  Forall2 sameContainer (pContainers (tSpec t1)) (pContainers (tSpec t2)).

Definition distinctContainers (d : Deployment) : Prop := Forall distinct (pContainers (tSpec (dTemplate (dSpec d)))).

Lemma publisherProxyDeploymentEqual_iff a b : distinctContainers a ->
  publisherProxyDeploymentEqual (Some a) (Some b) = true <-> sameDeployment a b.
Proof.
  intros Hd. unfold publisherProxyDeploymentEqual, sameDeployment. cbv zeta.
  pose proof (mapDeepEqual_spec (omAnnotations (tMeta (dTemplate (dSpec a)))) (omAnnotations (tMeta (dTemplate (dSpec b))))) as Ha.
  pose proof (mapDeepEqual_spec (omLabels (tMeta (dTemplate (dSpec a)))) (omLabels (tMeta (dTemplate (dSpec b))))) as Hl.
  case_bool_decide; cbn [negb]; [|intuition congruence].
  destruct (mapDeepEqual (omAnnotations _) _); cbn [negb]; [|intuition congruence].
  destruct (mapDeepEqual (omLabels _) _); cbn [negb]; [|intuition congruence].
  unfold podSpecEqual. rewrite andb_true_iff, String.eqb_eq, containersEqual_spec by done. intuition.
Qed.


Definition port (name : string) (n : Z) (proto : string) : ContainerPort := mkContainerPort name n proto.
Definition deploymentWith (ports : list ContainerPort) (env : list EnvVar) (annotations : labels) (timeout : Z) : Deployment :=
  mkDeployment (mkTypeMeta "Deployment" "apps/v1") (named "eventing-publisher-proxy" "kyma-system" None)
    (mkDeploymentSpec None None (mkTemplate (mkObjectMeta "" "" "" None annotations [])
      (mkPodSpec "Always" "sa" None "" None None
         [mkContainer "c" "image" ports env (mkResources ∅ ∅) None
            (Some (mkProbe (Some (mkHTTPGet "/readyz" 8080 "HTTP")) 0 timeout 0 0 3)) "Always" None])))
    (mkDeploymentStatus 0 0 0).


(** With a variable listed twice the comparison is not symmetric. *)
Example envEqual_asymmetric :
  let a := mkEnvVar "A" "1" None in let b := mkEnvVar "B" "2" None in
  envEqual [a; a] [a; b] = true /\ envEqual [a; b] [a; a] = false.
Proof. by vm_compute. Qed.

(** The comparison of probes is not transitive: an unset value equals every value. *)
Example probeEqual_not_transitive :
  let p t := Some (mkProbe None 0 t 0 0 0) in
  probeEqual (p 1%Z) (p 0%Z) = true /\ probeEqual (p 0%Z) (p 2%Z) = true /\ probeEqual (p 1%Z) (p 2%Z) = false.
Proof. by vm_compute. Qed.
