(* ===== verification/PublisherProxy.v ===== *)
(** * The objects of the publisher proxy: [pkg/eventing/deployment.go], [pkg/eventing/utils.go]
      and [internal/label]

    Constructors of the deployment, the service account, the role and its binding,
    the services and the autoscaler.  A [DeployOpt] mutates the deployment it is
    given: here it returns it.  The backend of the Eventing resource is a
    pointer: [None] is the panic of reading through nil.  Object names are ASCII. *)

From S2P Require Import Prelude GoStrings Eventing Config ApiRule Objects.

(** ** Labels ([internal/label/label.go]) *)
Definition KeyComponent := "app.kubernetes.io/component".
Definition KeyCreatedBy := "app.kubernetes.io/created-by".
Definition KeyInstance := "app.kubernetes.io/instance".
Definition KeyManagedBy := "app.kubernetes.io/managed-by".
Definition KeyName := "app.kubernetes.io/name".
Definition KeyPartOf := "app.kubernetes.io/part-of".
Definition KeyBackend := "eventing.kyma-project.io/backend".
Definition KeyDashboard := "kyma-project.io/dashboard".
Definition ValueEventingPublisherProxy := "eventing-publisher-proxy".
Definition ValueEventingManager := "eventing-manager".
Definition ValueEventing := "eventing".

(** ** Names *)
Definition publisherProxySuffix := "publisher-proxy".
Definition GetPublisherDeploymentName (eventing : Eventing) : string := eName eventing +:+ "-" +:+ publisherProxySuffix.
Definition GetPublisherPublishServiceName (eventing : Eventing) : string := eName eventing +:+ "-" +:+ publisherProxySuffix.
Definition GetPublisherMetricsServiceName (eventing : Eventing) : string := eName eventing +:+ "-" +:+ publisherProxySuffix +:+ "-metrics".
Definition GetPublisherHealthServiceName (eventing : Eventing) : string := eName eventing +:+ "-" +:+ publisherProxySuffix +:+ "-health".
Definition GetPublisherServiceAccountName (eventing : Eventing) : string := eName eventing +:+ "-" +:+ publisherProxySuffix.
Definition GetPublisherClusterRoleName (eventing : Eventing) : string := eName eventing +:+ "-" +:+ publisherProxySuffix.
Definition GetPublisherClusterRoleBindingName (eventing : Eventing) : string := eName eventing +:+ "-" +:+ publisherProxySuffix.

(** ** Resources ([utils.go]) *)
Definition deploymentKind := "Deployment".
Definition appsV1APIVersion := "apps/v1".
Definition serviceKind := "Service".
Definition tcpProtocol := "TCP".

Definition newHorizontalPodAutoscaler (name namespace : string) (minReplicas maxReplicas cpuUtilization memoryUtilization : Z) (l : labels) : HPA :=
  mkHPA (mkTypeMeta "HorizontalPodAutoscaler" "autoscaling/v2") (named name namespace l)
    (mkScaleTarget deploymentKind name appsV1APIVersion) (Some minReplicas) maxReplicas
    [mkMetricSpec "cpu" (Some cpuUtilization); mkMetricSpec "memory" (Some memoryUtilization)].

Definition newPublisherProxyClusterRole (name namespace : string) (l : labels) : ClusterRole :=
  mkClusterRole (mkTypeMeta "ClusterRole" "rbac.authorization.k8s.io/v1") (named name namespace l)
    [mkPolicyRule ["eventing.kyma-project.io"] ["subscriptions"] ["get"; "list"; "watch"];
     mkPolicyRule ["applicationconnector.kyma-project.io"] ["applications"] ["get"; "list"; "watch"]].

Definition newPublisherProxyServiceAccount (name namespace : string) (l : labels) : CoreServiceAccount :=
  mkCoreServiceAccount (mkTypeMeta "ServiceAccount" "v1") (named name namespace l).

Definition newPublisherProxyClusterRoleBinding (name namespace : string) (l : labels) : ClusterRoleBinding :=
  mkClusterRoleBinding (mkTypeMeta "ClusterRoleBinding" "rbac.authorization.k8s.io/v1") (named name namespace l)
    (mkRoleRef "ClusterRole" name "rbac.authorization.k8s.io") [mkSubject "ServiceAccount" name namespace].

Definition newPublisherProxyService (name namespace : string) (l selectorLabels : labels) : CoreService :=
  mkCoreService (mkTypeMeta serviceKind "v1") (named name namespace l) selectorLabels
    [mkServicePort "http-client" tcpProtocol 80 8080].

Definition newPublisherProxyMetricsService (name namespace : string) (l selectorLabels : labels) : CoreService :=
  mkCoreService (mkTypeMeta serviceKind "v1")
    (mkObjectMeta name namespace "" l
       (Some {["prometheus.io/scrape" := "true"; "prometheus.io/port" := "9090"; "prometheus.io/scheme" := "http"]}) [])
    selectorLabels [mkServicePort "http-metrics" tcpProtocol 80 9090].

Definition newPublisherProxyHealthService (name namespace : string) (l selectorLabels : labels) : CoreService :=
  mkCoreService (mkTypeMeta "Service" "v1") (named name namespace l) selectorLabels
    [mkServicePort "http-status" "TCP" 15020 15020].

Definition getECBackendType (backendType : string) : string :=
  if String.eqb backendType EventMeshBackendType then EventMeshBackendType else NatsBackendType.

(** ** The deployment ([deployment.go]) *)
Definition eventMeshNamespacePrefix := "/".
Definition publisherPortName := "http".
Definition publisherPortNum : Z := 8080.
Definition publisherMetricsPortName := "http-metrics".
Definition publisherMetricsPortNum : Z := 9090.
Definition PublisherName := "eventing-publisher-proxy".
Definition PublisherSecretClientIDKey := "client-id".
Definition PublisherSecretClientSecretKey := "client-secret".
Definition PublisherSecretTokenEndpointKey := "token-endpoint".
Definition PublisherSecretEMSURLKey := "ems-publish-url".
Definition PublisherSecretBEBNamespaceKey := "beb-namespace".
Definition epPriorityClassName := "eventing-manager-priority-class".
Definition TerminationGracePeriodSeconds : Z := 30.

Definition DeployOpt := Deployment -> Deployment.

Definition getPodSecurityContext : PodSecurityContext :=
  mkPodSecurityContext (Some 10001%Z) (Some 10001%Z) (Some 10001%Z) (Some true) "RuntimeDefault".

Definition newDeployment (eventing : Eventing) (publisherConfig : PublisherConfig) (opts : list DeployOpt) : Deployment :=
  foldl (fun d o => o d)
    (mkDeployment (mkTypeMeta deploymentKind appsV1APIVersion)
       (named (GetPublisherDeploymentName eventing) (eNamespace eventing) None)
       (mkDeploymentSpec None None
          (mkTemplate (named (GetPublisherDeploymentName eventing) "" None)
             (mkPodSpec "Always" (GetPublisherServiceAccountName eventing) (Some TerminationGracePeriodSeconds)
                (PriorityClassName publisherConfig) (Some getPodSecurityContext) None [])))
       (mkDeploymentStatus 0 0 0))
    opts.

Definition getLabels (publisherName backendType : string) : gmap string string :=
  {[KeyComponent := ValueEventingManager; KeyCreatedBy := ValueEventingManager; KeyInstance := ValueEventing;
    KeyManagedBy := ValueEventingManager; KeyName := publisherName; KeyPartOf := ValueEventingManager;
    KeyBackend := getECBackendType backendType; KeyDashboard := ValueEventing]}.

Definition WithLabels (publisherName backendType : string) : DeployOpt := fun d =>
  let l := Some (getLabels publisherName backendType) in
  upd_tMeta (set_omLabels l) (upd_dMeta (set_omLabels l) d).

Definition getSelector (publisherName : string) : gmap string string :=
  {[KeyInstance := ValueEventing; KeyName := publisherName; KeyDashboard := ValueEventing]}.

Definition WithSelector (publisherName : string) : DeployOpt := fun d =>
  set_dSpec (mkDeploymentSpec (dReplicas (dSpec d)) (Some (getSelector publisherName)) (dTemplate (dSpec d))) d.

Definition WithPriorityClassName (name : string) : DeployOpt := upd_tSpec (set_pPriorityClassName name).

Definition WithAffinity (publisherName : string) : DeployOpt :=
  upd_tSpec (set_pAffinity (Some [mkAffinityTerm 100 (Some {[KeyName := publisherName]}) "kubernetes.io/hostname"])).

Definition getImagePullPolicy (imagePullPolicy : string) : string :=
  if String.eqb imagePullPolicy "IfNotPresent" then "IfNotPresent"
  else if String.eqb imagePullPolicy "Always" then "Always"
  else if String.eqb imagePullPolicy "Never" then "Never"
  else "IfNotPresent".

Definition getContainerSecurityContext : SecurityContext := mkSecurityContext (Some false) (Some false) (Some true) ["ALL"].
Definition getReadinessProbe : Probe := mkProbe (Some (mkHTTPGet "/readyz" 8080 "HTTP")) 0 0 0 0 3.
Definition getLivenessProbe : Probe := mkProbe (Some (mkHTTPGet "/healthz" 8080 "HTTP")) 5 1 2 1 3.
Definition getContainerPorts : list ContainerPort :=
  [mkContainerPort publisherPortName publisherPortNum ""; mkContainerPort publisherMetricsPortName publisherMetricsPortNum ""].

(** [resource.MustParse] of the texts that [Quantity.String] returned. *)
Definition getResources (requestsCPU requestsMemory limitsCPU limitsMemory : string) : ResourceRequirements :=
  mkResources {["cpu" := limitsCPU; "memory" := limitsMemory]} {["cpu" := requestsCPU; "memory" := requestsMemory]}.

(** [ResourceList.Cpu().String()] and [Memory().String()]: an absent quantity is zero. *)
Definition Cpu (l : gmap string string) : string := default "0" (l !! "cpu").
Definition Memory (l : gmap string string) : string := default "0" (l !! "memory").

Definition WithContainers (publisherConfig : PublisherConfig) (eventing : Eventing) : DeployOpt :=
  let r := Resources (ePublisher (eSpec eventing)) in
  upd_tSpec (set_pContainers
    [mkContainer (GetPublisherDeploymentName eventing) (Image publisherConfig) getContainerPorts []
       (getResources (Cpu (Requests r)) (Memory (Requests r)) (Cpu (Limits r)) (Memory (Limits r)))
       (Some getLivenessProbe) (Some getReadinessProbe) (getImagePullPolicy (ImagePullPolicy publisherConfig))
       (Some getContainerSecurityContext)]).

(** [strings.EqualFold] on ASCII names. *)
Definition EqualFold (s t : string) : bool := String.eqb (ToLowerASCII s) (ToLowerASCII t).

(** The loop over the containers that updates those of the given name. *)
Definition updContainers (name : string) (f : Container -> Container) : DeployOpt :=
  upd_tSpec (fun p => set_pContainers ((fun c => if EqualFold (cName c) name then f c else c) <$> pContainers p) p).

Definition getLogEnvVars (publisherConfig : PublisherConfig) (eventing : Eventing) : list EnvVar :=
  [mkEnvVar "APP_LOG_FORMAT" (AppLogFormat publisherConfig) None;
   mkEnvVar "APP_LOG_LEVEL" (ToLowerASCII (LogLevel (eSpec eventing))) None].

Definition WithLogEnvVars (publisherConfig : PublisherConfig) (eventing : Eventing) : DeployOpt :=
  updContainers (GetPublisherDeploymentName eventing) (fun c => set_cEnv (cEnv c ++ getLogEnvVars publisherConfig eventing)%list c).

Definition FormatBool (b : bool) : string := if b then "true" else "false".

Definition getNATSEnvVars (natsConfig : NATSConfig) (publisherConfig : PublisherConfig) (config : BackendSpecConfig) : list EnvVar :=
  [mkEnvVar "BACKEND" "nats" None;
   mkEnvVar "PORT" "8080" None;
   mkEnvVar "NATS_URL" (URL natsConfig) None;
   mkEnvVar "REQUEST_TIMEOUT" (RequestTimeout publisherConfig) None;
   mkEnvVar "LEGACY_NAMESPACE" "kyma" None;
   mkEnvVar "EVENT_TYPE_PREFIX" (cEventTypePrefix config) None;
   mkEnvVar "APPLICATION_CRD_ENABLED" (FormatBool (ApplicationCRDEnabled publisherConfig)) None;
   mkEnvVar "JS_STREAM_NAME" (JSStreamName natsConfig) None].

Definition WithNATSEnvVars (natsConfig : NATSConfig) (publisherConfig : PublisherConfig) (eventing : Eventing) (config : BackendSpecConfig) : DeployOpt :=
  updContainers (GetPublisherDeploymentName eventing) (set_cEnv (getNATSEnvVars natsConfig publisherConfig config)).

Definition secretVar (name publisherName key : string) : EnvVar := mkEnvVar name "" (Some (mkSecretKeyRef publisherName key)).
Definition getEventMeshEnvVars (publisherName : string) (publisherConfig : PublisherConfig) (config : BackendSpecConfig) : list EnvVar :=
  [mkEnvVar "BACKEND" "beb" None;
   mkEnvVar "PORT" "8080" None;
   mkEnvVar "EVENT_TYPE_PREFIX" (cEventTypePrefix config) None;
   mkEnvVar "APPLICATION_CRD_ENABLED" (FormatBool (ApplicationCRDEnabled publisherConfig)) None;
   mkEnvVar "REQUEST_TIMEOUT" (RequestTimeout publisherConfig) None;
   secretVar "CLIENT_ID" publisherName PublisherSecretClientIDKey;
   secretVar "CLIENT_SECRET" publisherName PublisherSecretClientSecretKey;
   secretVar "TOKEN_ENDPOINT" publisherName PublisherSecretTokenEndpointKey;
   secretVar "EMS_PUBLISH_URL" publisherName PublisherSecretEMSURLKey;
   secretVar "BEB_NAMESPACE_VALUE" publisherName PublisherSecretBEBNamespaceKey;
   mkEnvVar "BEB_NAMESPACE" (eventMeshNamespacePrefix +:+ "$(BEB_NAMESPACE_VALUE)") None].

Definition WithBEBEnvVars (publisherName : string) (publisherConfig : PublisherConfig) (config : BackendSpecConfig) : DeployOpt :=
  updContainers publisherName (set_cEnv (getEventMeshEnvVars publisherName publisherConfig config)).

Definition newNATSPublisherDeployment (eventing : Eventing) (natsConfig : NATSConfig) (publisherConfig : PublisherConfig) : option Deployment :=
  b ← eBackend (eSpec eventing);
  Some (newDeployment eventing publisherConfig
    [WithLabels (GetPublisherDeploymentName eventing) NatsBackendType;
     WithSelector (GetPublisherDeploymentName eventing);
     WithContainers publisherConfig eventing;
     WithNATSEnvVars natsConfig publisherConfig eventing (bConfig b);
     WithLogEnvVars publisherConfig eventing;
     WithAffinity (GetPublisherDeploymentName eventing);
     WithPriorityClassName epPriorityClassName]).

Definition newEventMeshPublisherDeployment (eventing : Eventing) (publisherConfig : PublisherConfig) : option Deployment :=
  b ← eBackend (eSpec eventing);
  Some (newDeployment eventing publisherConfig
    [WithLabels (GetPublisherDeploymentName eventing) EventMeshBackendType;
     WithSelector (GetPublisherDeploymentName eventing);
     WithContainers publisherConfig eventing;
     WithBEBEnvVars (GetPublisherDeploymentName eventing) publisherConfig (bConfig b);
     WithLogEnvVars publisherConfig eventing;
     WithPriorityClassName epPriorityClassName]).
