(* ===== verification/KubeClient.v ===== *)
(** * The Kubernetes client: [pkg/k8s/client.go]

    What [KubeClient] makes of the answers of the API server; the requests
    themselves are events of the components that use it. *)

From S2P Require Import Prelude GoStrings Errors.
From Stdlib Require Import Ascii.

Definition ErrSecretRefInvalid : goerr :=
  sentinel "k8s.ErrSecretRefInvalid" "invalid namespaced name. It must be in the format of 'namespace/name'".

(** [GetDeployment]: an object that does not exist is nil, without an error. *)
Definition GetDeployment {A} (r : A + goerr) : option A + goerr :=
  match r with
  | inl d => inl (Some d)
  | inr err => match IgnoreNotFound err with None => inl None | Some e => inr e end
  end.

(** [DeleteResource], [DeleteClusterRole], [DeleteClusterRoleBinding]. *)
Definition DeleteResource (r : option goerr) : option goerr :=
  match r with Some err => IgnoreNotFound err | None => None end.

(** [ApplicationCRDExists], [PeerAuthenticationCRDExists], [APIRuleCRDExists], of the answer of [GetCRD]. *)
Definition CRDExists (r : option goerr) : bool + goerr :=
  match r with
  | None => inl true
  | Some err => match IgnoreNotFound err with None => inl false | Some e => inr e end
  end.

(** The key that [GetSecret] reads. *)
Definition GetSecret_key (namespacedName : string) : (string * string) + goerr :=
  match Split "/" namespacedName with
  | [namespace; name] => inl (namespace, name)
  | _ => inr ErrSecretRefInvalid
  end.
