(* ===== verification/KubeRequests.v ===== *)
(** * The requests of the Kubernetes client: [pkg/k8s/client.go]

    [KubeClient] holds three clients: the client of controller-runtime, the one of the API extensions and the dynamic one.
    They are the environment [API]; the requests are the log of a run.  The dynamic client works on unstructured
    objects, a type [U] with the conversions of apimachinery as a class.  The second part is an abstract
    specification: the client is a finite map of objects. *)

From S2P Require Import Prelude Effects GoStrings Errors Subscription Eventing ApiRule Objects KubeClient.

(** ** Data *)
Record GroupVersionResource := mkGVR { gvrGroup : string; gvrVersion : string; gvrResource : string }.
Definition NatsGVK : GroupVersionResource := mkGVR "operator.kyma-project.io" "v1alpha1" "nats".
Definition deploymentRes : GroupVersionResource := mkGVR "apps" "v1" "deployments".

Definition ApplicationCrdName := "applications.applicationconnector.kyma-project.io".
Definition APIRuleCrdName := "apirules.gateway.kyma-project.io".
Definition PeerAuthenticationCRDName := "peerauthentications.security.istio.io".

(** A PeerAuthentication of Istio, with the fields that are set here: mutual TLS by port. *)
Inductive MutualTLS := UNSET | DISABLE | PERMISSIVE | STRICT.
#[global] Instance MutualTLS_eq_dec : EqDecision MutualTLS.
Proof. solve_decision. Defined.
Record PeerAuthentication := mkPeerAuthentication {
  paType : TypeMeta; paMeta : ObjectMeta; paMatchLabels : gmap string string; paPortLevelMtls : gmap Z MutualTLS }.

(** A NATS resource is its name, its namespace and its state. *)
Definition NATS : Type := string * string * string.

Class UnstructuredConverter (U : Type) := {
  ToUnstructured : PeerAuthentication -> U + goerr;
  FromUnstructured_Deployment : U -> Deployment + goerr;
  FromUnstructured_NATSList : U -> list NATS + goerr;
  FromUnstructured_NATS : U -> NATS + goerr
}.

(** The objects that are applied. *)
Inductive applied (U : Type) :=
  | ATyped (o : Object_)
  | ASecret (s : Secret)
  | AUnstructured (u : U).
Arguments ATyped {U} o. Arguments ASecret {U} s. Arguments AUnstructured {U} u.

Inductive request (U : Type) :=
  | Get (kind namespace name : string)
  | ListSubscriptions
  | Update (d : Deployment)
  | Delete (kind namespace name : string)
  | Patch (o : applied U) (Force : bool) (FieldManager : string)
  | DynamicGet (res : GroupVersionResource) (namespace name : string)
  | DynamicList (res : GroupVersionResource) (namespace : string)
  | GetCustomResourceDefinition (name : string).
Arguments Get {U}. Arguments ListSubscriptions {U}. Arguments Update {U}. Arguments Delete {U}. Arguments Patch {U}.
Arguments DynamicGet {U}. Arguments DynamicList {U}. Arguments GetCustomResourceDefinition {U}.

(** The answers.  A patch returns the object of the server, which replaces the argument; a list of the dynamic client is an
    object and its items. *)
Record API (U : Type) := mkAPI {
  api_GetDeployment : list (request U) -> string -> string -> Deployment + goerr;
  api_GetSecret : list (request U) -> string -> string -> Secret + goerr;
  api_GetConfigMap : list (request U) -> string -> string -> gmap string string + goerr;
  api_ListSubscriptions : list (request U) -> list Subscription + goerr;
  api_Update : list (request U) -> Deployment -> option goerr;
  api_Delete : list (request U) -> string -> string -> string -> option goerr;
  api_Patch : list (request U) -> applied U -> bool -> string -> applied U + goerr;
  api_DynamicGet : list (request U) -> GroupVersionResource -> string -> string -> U + goerr;
  api_DynamicList : list (request U) -> GroupVersionResource -> string -> (U * list U) + goerr;
  api_GetCRD : list (request U) -> string -> unit + goerr
}.
Arguments api_GetDeployment {U}. Arguments api_GetSecret {U}. Arguments api_GetConfigMap {U}. Arguments api_ListSubscriptions {U}.
Arguments api_Update {U}. Arguments api_Delete {U}. Arguments api_Patch {U}. Arguments api_DynamicGet {U}.
Arguments api_DynamicList {U}. Arguments api_GetCRD {U}. Arguments mkAPI {U}.

Record KubeClient := mkKubeClient { fieldManager : string }.
Definition NewKubeClient (fieldManager : string) : KubeClient := mkKubeClient fieldManager.

(** ** Operations *)
Module Client.
Section client.
Context {U : Type} `{UnstructuredConverter U} (api : API U).
Abbreviation C := (M (World KubeClient (request U))).

(** [client.IgnoreNotFound(err)] where the object is a pointer: absent is nil. *)
Definition ignoreNotFound {A} (r : A + goerr) : C (option A) :=
  match r with
  | inl a => retM (Some a)
  | inr err => returnErr (IgnoreNotFound err) ;;; retM None
  end.

Definition GetDeployment (name namespace : string) : C (option Deployment) :=
  r <- call (fun _ => Get "Deployment" namespace name) (fun h => api_GetDeployment api h namespace name) ;;
  ignoreNotFound r.

Definition GetDeploymentDynamic (name namespace : string) : C (option Deployment) :=
  r <- call (fun _ => DynamicGet deploymentRes namespace name) (fun h => api_DynamicGet api h deploymentRes namespace name) ;;
  result <- ignoreNotFound r ;;
  match result with
  | None => retM None
  | Some u => deployment <- okOr (FromUnstructured_Deployment u) ;; retM (Some deployment)
  end.

Definition UpdateDeployment (deployment : Deployment) : C unit :=
  r <- call (fun _ => Update deployment) (fun h => api_Update api h deployment) ;; returnErr r.

Definition delete (kind name namespace : string) : C unit :=
  r <- call (fun _ => Delete kind namespace name) (fun h => api_Delete api h kind namespace name) ;;
  match r with
  | Some err => returnErr (IgnoreNotFound err)
  | None => retM tt
  end.
Definition DeleteDeployment (name namespace : string) : C unit := delete "Deployment" name namespace.
Definition DeleteClusterRole (name namespace : string) : C unit := delete "ClusterRole" name namespace.
Definition DeleteClusterRoleBinding (name namespace : string) : C unit := delete "ClusterRoleBinding" name namespace.
Definition DeleteResource (object : Object_) : C unit :=
  let '(kind, namespace, name) := objKey object in delete kind name namespace.

Fixpoint convertItems (natsList : list NATS) (items : list U) : list NATS + goerr :=
  match items with
  | [] => inl natsList
  | item :: items =>
      match FromUnstructured_NATS item with
      | inr err => inr err
      | inl nats => convertItems (natsList ++ [nats])%list items
      end
  end.
Definition GetNATSResources (namespace : string) : C (list NATS) :=
  r <- call (fun _ => DynamicList NatsGVK namespace) (fun h => api_DynamicList api h NatsGVK namespace) ;;
  unstructuredList <- okOr r ;;
  natsList <- okOr (FromUnstructured_NATSList unstructuredList.1) ;;
  okOr (convertItems natsList unstructuredList.2).

Definition PatchApply (object : applied U) : C (applied U) :=
  c <- gets id ;;
  r <- call (fun _ => Patch object true (fieldManager c)) (fun h => api_Patch api h object true (fieldManager c)) ;; okOr r.

Definition PatchApplyPeerAuthentication (pa : PeerAuthentication) : C unit :=
  obj <- okOr (ToUnstructured pa) ;;
  PatchApply (AUnstructured obj) ;;; retM tt.

Definition GetSecret (namespacedName : string) : C Secret :=
  key <- okOr (GetSecret_key namespacedName) ;;
  r <- call (fun _ => Get "Secret" key.1 key.2) (fun h => api_GetSecret api h key.1 key.2) ;; okOr r.

Definition GetCRD (name : string) : C unit :=
  r <- call (fun _ => GetCustomResourceDefinition name) (fun h => api_GetCRD api h name) ;; okOr r.
Definition crdExists (name : string) : C bool :=
  r <- tryM (GetCRD name) ;;
  match r with
  | inr err => returnErr (IgnoreNotFound err) ;;; retM false
  | inl _ => retM true
  end.
Definition ApplicationCRDExists : C bool := crdExists ApplicationCrdName.
Definition PeerAuthenticationCRDExists : C bool := crdExists PeerAuthenticationCRDName.
Definition APIRuleCRDExists : C bool := crdExists APIRuleCrdName.

Definition GetSubscriptions : C (list Subscription) :=
  r <- call (fun _ => ListSubscriptions) (fun h => api_ListSubscriptions api h) ;; okOr r.

Definition GetConfigMap (name namespace : string) : C (gmap string string) :=
  r <- call (fun _ => Get "ConfigMap" namespace name) (fun h => api_GetConfigMap api h namespace name) ;; okOr r.
End client.
End Client.
