(* ===== verification/KubeStore.v ===== *)
(** * The Kubernetes client as a map of objects

    An abstract specification of [KubeClient]: its operations read and write a finite map of objects, absent
    objects are values or errors as each operation promises, and nothing else can be observed.  The specification is
    implemented on every API server that keeps the objects it is sent ([ObjectServer]): no program that uses the client
    can tell the two apart. *)

From S2P Require Import Prelude Effects GoStrings Errors Subscription Eventing ApiRule Objects KubeClient KubeRequests.

(** ** Stores *)
Definition key : Type := string * string * string. (* kind, namespace and name *)

Record store (U : Type) := mkStore {
  objects : gmap key (applied U);
  configMaps : gmap (string * string) (gmap string string);
  crds : gset string;
  subscriptions : list Subscription;
  natsResources : string -> list NATS
}.
Arguments mkStore {U}. Arguments objects {U}. Arguments configMaps {U}. Arguments crds {U}. Arguments subscriptions {U}.
Arguments natsResources {U}.

Definition on_objects {U} (f : gmap key (applied U) -> gmap key (applied U)) (s : store U) : store U :=
  mkStore (f (objects s)) (configMaps s) (crds s) (subscriptions s) (natsResources s).

Definition deployment_at {U} (s : store U) (namespace name : string) : option Deployment :=
  match objects s !! ("Deployment", namespace, name) with Some (ATyped (ODeployment d)) => Some d | _ => None end.
Definition secret_at {U} (s : store U) (namespace name : string) : option Secret :=
  match objects s !! ("Secret", namespace, name) with Some (ASecret x) => Some x | _ => None end.

Definition is_read {U} (r : request U) : bool := match r with Update _ | Delete _ _ _ | Patch _ _ _ => false | _ => true end.

(** ** Servers

    A server that keeps objects without finalizers, and takes every field of an object that is applied by force.  What
    it makes of an object that is applied to another is [serverSideApply]. *)
Class ObjectServer (U : Type) `{UnstructuredConverter U} (api : API U) := {
  store_of : list (request U) -> store U;
  unstructuredKey : U -> key;
  serverSideApply : option (applied U) -> applied U -> applied U;
  notFound : string -> string -> string -> goerr;
  notFound_is : forall k ns n, IsNotFound (notFound k ns n) = true;
  srv_read : forall h r, is_read r = true -> store_of (r :: h) = store_of h;
  srv_GetDeployment : forall h ns n, api_GetDeployment api h ns n =
    match deployment_at (store_of h) ns n with Some d => inl d | None => inr (notFound "Deployment" ns n) end;
  srv_DynamicGet : forall h ns n, match deployment_at (store_of h) ns n with
    | Some d => exists u, api_DynamicGet api h deploymentRes ns n = inl u /\ FromUnstructured_Deployment u = inl d
    | None => api_DynamicGet api h deploymentRes ns n = inr (notFound "Deployment" ns n)
    end;
  srv_GetSecret : forall h ns n, api_GetSecret api h ns n =
    match secret_at (store_of h) ns n with Some d => inl d | None => inr (notFound "Secret" ns n) end;
  srv_GetConfigMap : forall h ns n, api_GetConfigMap api h ns n =
    match configMaps (store_of h) !! (ns, n) with Some d => inl d | None => inr (notFound "ConfigMap" ns n) end;
  srv_ListSubscriptions : forall h, api_ListSubscriptions api h = inl (subscriptions (store_of h));
  srv_DynamicList : forall h ns, exists u items, api_DynamicList api h NatsGVK ns = inl (u, items) /\
    FromUnstructured_NATSList u = inl [] /\ FromUnstructured_NATS <$> items = inl <$> natsResources (store_of h) ns;
  srv_GetCRD : forall h n, api_GetCRD api h n =
    if bool_decide (n ∈ crds (store_of h)) then inl tt else inr (notFound "CustomResourceDefinition" "" n);
  srv_Update : forall h d, let k := ("Deployment", omNamespace (dMeta d), omName (dMeta d)) in
    match deployment_at (store_of h) (omNamespace (dMeta d)) (omName (dMeta d)) with
    | Some _ => api_Update api h d = None /\ store_of (Update d :: h) = on_objects (insert k (ATyped (ODeployment d))) (store_of h)
    | None => api_Update api h d = Some (notFound "Deployment" (omNamespace (dMeta d)) (omName (dMeta d))) /\
        store_of (Update d :: h) = store_of h
    end;
  srv_Delete : forall h k ns n, store_of (Delete k ns n :: h) = on_objects (delete (k, ns, n)) (store_of h) /\
    api_Delete api h k ns n = match objects (store_of h) !! (k, ns, n) with Some _ => None | None => Some (notFound k ns n) end;
  srv_Patch : forall h o m, let k := match o with
      | ATyped t => objKey t | ASecret s => ("Secret", omNamespace (seMeta s), omName (seMeta s)) | AUnstructured u => unstructuredKey u end in
    let o' := serverSideApply (objects (store_of h) !! k) o in
    api_Patch api h o true m = inl o' /\ store_of (Patch o true m :: h) = on_objects (insert k o') (store_of h)
}.

(** ** Operations *)
Inductive operation (U : Type) : Type -> Type :=
  | OpGetDeployment (name namespace : string) : operation U (option Deployment)
  | OpGetDeploymentDynamic (name namespace : string) : operation U (option Deployment)
  | OpUpdateDeployment (d : Deployment) : operation U unit
  | OpDeleteDeployment (name namespace : string) : operation U unit
  | OpDeleteClusterRole (name namespace : string) : operation U unit
  | OpDeleteClusterRoleBinding (name namespace : string) : operation U unit
  | OpDeleteResource (o : Object_) : operation U unit
  | OpGetNATSResources (namespace : string) : operation U (list NATS)
  | OpPatchApply (o : applied U) : operation U (applied U)
  | OpPatchApplyPeerAuthentication (pa : PeerAuthentication) : operation U unit
  | OpGetSecret (namespacedName : string) : operation U Secret
  | OpApplicationCRDExists : operation U bool
  | OpPeerAuthenticationCRDExists : operation U bool
  | OpAPIRuleCRDExists : operation U bool
  | OpGetSubscriptions : operation U (list Subscription)
  | OpGetConfigMap (name namespace : string) : operation U (gmap string string).
Arguments OpGetDeployment {U}. Arguments OpGetDeploymentDynamic {U}. Arguments OpUpdateDeployment {U}. Arguments OpDeleteDeployment {U}.
Arguments OpDeleteClusterRole {U}. Arguments OpDeleteClusterRoleBinding {U}. Arguments OpDeleteResource {U}.
Arguments OpGetNATSResources {U}. Arguments OpPatchApply {U}. Arguments OpPatchApplyPeerAuthentication {U}. Arguments OpGetSecret {U}.
Arguments OpApplicationCRDExists {U}. Arguments OpPeerAuthenticationCRDExists {U}. Arguments OpAPIRuleCRDExists {U}.
Arguments OpGetSubscriptions {U}. Arguments OpGetConfigMap {U}.

(** Programs over the operations: they see each outcome. *)
Inductive program (U : Type) (A : Type) :=
  | Done (a : A)
  | Step {B : Type} (o : operation U B) (k : outcome B -> program U A).
Arguments Done {U A}. Arguments Step {U A B}.

Section client.
Context {U : Type} `{UnstructuredConverter U} (api : API U).

Definition perform {A} (o : operation U A) : M (World KubeClient (request U)) A :=
  match o with
  | OpGetDeployment n ns => Client.GetDeployment api n ns
  | OpGetDeploymentDynamic n ns => Client.GetDeploymentDynamic api n ns
  | OpUpdateDeployment d => Client.UpdateDeployment api d
  | OpDeleteDeployment n ns => Client.DeleteDeployment api n ns
  | OpDeleteClusterRole n ns => Client.DeleteClusterRole api n ns
  | OpDeleteClusterRoleBinding n ns => Client.DeleteClusterRoleBinding api n ns
  | OpDeleteResource o => Client.DeleteResource api o
  | OpGetNATSResources ns => Client.GetNATSResources api ns
  | OpPatchApply o => Client.PatchApply api o
  | OpPatchApplyPeerAuthentication pa => Client.PatchApplyPeerAuthentication api pa
  | OpGetSecret n => Client.GetSecret api n
  | OpApplicationCRDExists => Client.ApplicationCRDExists api
  | OpPeerAuthenticationCRDExists => Client.PeerAuthenticationCRDExists api
  | OpAPIRuleCRDExists => Client.APIRuleCRDExists api
  | OpGetSubscriptions => Client.GetSubscriptions api
  | OpGetConfigMap n ns => Client.GetConfigMap api n ns
  end.

Fixpoint execute {A} (p : program U A) (w : World KubeClient (request U)) : A * World KubeClient (request U) :=
  match p with
  | Done a => (a, w)
  | Step o k => let '(r, w') := perform o w in execute (k r) w'
  end.

(** ** The specification *)
Context `{!ObjectServer U api}.

Definition key_of (o : applied U) : key :=
  match o with
  | ATyped t => objKey t | ASecret s => ("Secret", omNamespace (seMeta s), omName (seMeta s)) | AUnstructured u => unstructuredKey u
  end.
Definition orNotFound {A} (kind namespace name : string) (o : option A) : outcome A :=
  match o with Some a => Ok a | None => Err (notFound kind namespace name) end.
Definition apply_to (s : store U) (o : applied U) : applied U * store U :=
  let o' := serverSideApply (objects s !! key_of o) o in (o', on_objects (insert (key_of o) o') s).

Definition specify {A} (o : operation U A) (s : store U) : outcome A * store U :=
  match o with
  | OpGetDeployment n ns | OpGetDeploymentDynamic n ns => (Ok (deployment_at s ns n), s)
  | OpUpdateDeployment d =>
      match deployment_at s (omNamespace (dMeta d)) (omName (dMeta d)) with
      | Some _ => (Ok tt, on_objects (insert ("Deployment", omNamespace (dMeta d), omName (dMeta d)) (ATyped (ODeployment d))) s)
      | None => (Err (notFound "Deployment" (omNamespace (dMeta d)) (omName (dMeta d))), s)
      end
  | OpDeleteDeployment n ns => (Ok tt, on_objects (delete ("Deployment", ns, n)) s)
  | OpDeleteClusterRole n ns => (Ok tt, on_objects (delete ("ClusterRole", ns, n)) s)
  | OpDeleteClusterRoleBinding n ns => (Ok tt, on_objects (delete ("ClusterRoleBinding", ns, n)) s)
  | OpDeleteResource o => (Ok tt, on_objects (delete (objKey o)) s)
  | OpGetNATSResources ns => (Ok (natsResources s ns), s)
  | OpPatchApply o => let '(o', s') := apply_to s o in (Ok o', s')
  | OpPatchApplyPeerAuthentication pa =>
      match ToUnstructured pa with inr e => (Err e, s) | inl u => (Ok tt, (apply_to s (AUnstructured u)).2) end
  | OpGetSecret nn =>
      match GetSecret_key nn with inr e => (Err e, s) | inl (ns, n) => (orNotFound "Secret" ns n (secret_at s ns n), s) end
  | OpApplicationCRDExists => (Ok (bool_decide (ApplicationCrdName ∈ crds s)), s)
  | OpPeerAuthenticationCRDExists => (Ok (bool_decide (PeerAuthenticationCRDName ∈ crds s)), s)
  | OpAPIRuleCRDExists => (Ok (bool_decide (APIRuleCrdName ∈ crds s)), s)
  | OpGetSubscriptions => (Ok (subscriptions s), s)
  | OpGetConfigMap n ns => (orNotFound "ConfigMap" ns n (configMaps s !! (ns, n)), s)
  end.

Fixpoint interpret {A} (p : program U A) (s : store U) : A * store U :=
  match p with
  | Done a => (a, s)
  | Step o k => let '(r, s') := specify o s in interpret (k r) s'
  end.
End client.

(** ** Refinement *)
Section refinement.
Context {U : Type} `{UnstructuredConverter U} (api : API U) `{!ObjectServer U api}.
Implicit Types (w : World KubeClient (request U)).

(** [c] does what the specification says, and nothing to the client. *)
Definition implements {A} (c : M (World KubeClient (request U)) A) (f : store U -> outcome A * store U) : Prop :=
  forall w, exists w', c w = ((f (store_of (hist w))).1, w') /\ store_of (hist w') = (f (store_of (hist w))).2 /\ st w' = st w.

Lemma ignoreNotFound_run {A} k ns n (o : option A) w :
  Client.ignoreNotFound (match o with Some a => inl a | None => inr (notFound k ns n) end) w = (Ok o, w).
Proof using Type. destruct o as [a|]; [done|]. unfold Client.ignoreNotFound, IgnoreNotFound. by rewrite notFound_is. Qed.

(** A read. *)
Lemma read_implements {A B} (q : request U) (answer : list (request U) -> A) (k : A -> M (World KubeClient (request U)) B) f :
  is_read q = true -> (forall h w, k (answer h) w = (f (store_of h), w)) ->
  implements (bindM (call (fun _ => q) answer) k) (fun s => (f s, s)).
Proof using Type.
  intros Hq Hk w. unfold bindM, call. rewrite Hk. eexists. split; [done|]. split; [|done]. cbn [hist]. by apply srv_read.
Qed.

Lemma delete_implements k n ns : implements (Client.delete api k n ns) (fun s => (Ok tt, on_objects (delete (k, ns, n)) s)).
Proof using Type.
  intros w. unfold Client.delete, bindM, call. destruct (srv_Delete (hist w) k ns n) as [Hs ->].
  destruct (objects (store_of (hist w)) !! (k, ns, n)); [|unfold IgnoreNotFound; rewrite notFound_is]; by eexists.
Qed.

Lemma PatchApply_implements o : implements (Client.PatchApply api o) (fun s => let '(o', s') := apply_to api s o in (Ok o', s')).
Proof using Type.
  intros w. unfold Client.PatchApply, bindM, call, gets, id. destruct (srv_Patch (hist w) o (fieldManager (st w))) as [Ha Hs].
  rewrite Ha. by eexists.
Qed.

Lemma crdExists_implements n : implements (Client.crdExists api n) (fun s => (Ok (bool_decide (n ∈ crds s)), s)).
Proof using Type.
  intros w. unfold Client.crdExists, Client.GetCRD, bindM, tryM, call. rewrite srv_GetCRD. eexists.
  case_bool_decide; cbn; [|unfold IgnoreNotFound; rewrite notFound_is; cbn]; (split; [done|]); (split; [|done]); by apply srv_read.
Qed.

Lemma convertItems_run acc items l : FromUnstructured_NATS <$> items = inl <$> l -> Client.convertItems acc items = inl (acc ++ l)%list.
Proof using Type.
  revert acc l. induction items as [|i items IH]; intros acc [|x l] E; try discriminate E; [by rewrite app_nil_r|].
  cbn in E. injection E as Ei E. cbn [Client.convertItems]. rewrite Ei, (IH _ l E), <- app_assoc. done.
Qed.

Lemma perform_implements {A} (o : operation U A) : implements (perform api o) (specify api o).
Proof using Type.
  destruct o; cbn [perform specify]; try apply delete_implements; try apply crdExists_implements.
  - apply (read_implements _ _ _ (fun s => Ok (deployment_at s namespace name))); [done|]. intros h w.
    rewrite srv_GetDeployment. apply ignoreNotFound_run.
  - apply (read_implements _ _ _ (fun s => Ok (deployment_at s namespace name))); [done|]. intros h w.
    pose proof (srv_DynamicGet h namespace name) as Hg. destruct (deployment_at (store_of h) namespace name) as [d|].
    + destruct Hg as (u & -> & Hu). unfold bindM, Client.ignoreNotFound, retM, okOr. by rewrite Hu.
    + rewrite Hg. unfold bindM, Client.ignoreNotFound, IgnoreNotFound. by rewrite notFound_is.
  - intros w. cbn [specify]. unfold Client.UpdateDeployment, bindM, call. pose proof (srv_Update (hist w) d) as Hu. cbv zeta in Hu.
    destruct (deployment_at (store_of (hist w)) (omNamespace (dMeta d)) (omName (dMeta d))); destruct Hu as [-> Hs];
      (eexists; split; [done|]; split; [exact Hs|done]).
  - apply (read_implements _ _ _ (fun s => Ok (natsResources s namespace))); [done|]. intros h w.
    destruct (srv_DynamicList h namespace) as (u & items & -> & Hu & Hi). unfold bindM, okOr, retM. cbn [fst snd]. rewrite Hu.
    by rewrite (convertItems_run _ _ _ Hi).
  - apply PatchApply_implements.
  - intros w. cbn [specify]. unfold Client.PatchApplyPeerAuthentication. destruct (ToUnstructured pa) as [u|e]; [|by exists w].
    destruct (PatchApply_implements (AUnstructured u) w) as (w' & E & Hs & Hst). exists w'. unfold bindM, okOr, retM at 1. rewrite E. done.
  - intros w. cbn [specify]. unfold Client.GetSecret. destruct (GetSecret_key namespacedName) as [[ns n]|e]; [|by exists w]. revert w.
    apply (read_implements _ _ _ (fun s => orNotFound api "Secret" ns n (secret_at s ns n))); [done|]. intros h w. cbn [fst snd].
    rewrite srv_GetSecret. by destruct (secret_at (store_of h) ns n).
  - apply (read_implements _ _ _ (fun s => Ok (subscriptions s))); [done|]. intros h w. by rewrite srv_ListSubscriptions.
  - apply (read_implements _ _ _ (fun s => orNotFound api "ConfigMap" namespace name (configMaps s !! (namespace, name)))); [done|]. intros h w.
    rewrite srv_GetConfigMap. by destruct (configMaps (store_of h) !! (namespace, name)).
Qed.

(** C14: the Kubernetes client refines a finite map of objects: on a server that keeps the objects it is sent, every program of its
    operations, which may depend on all outcomes, ends with the value the map gives, and leaves the objects
    that the map has.  An absent deployment is nil and an absent object deleted, without an error; an absent
    secret or config map is the error of the server; a reference to a secret that is no pair is an error
    without a request. *)
Theorem KubeClient_refines_store {A} (p : program U A) w :
  (execute api p w).1 = (interpret api p (store_of (hist w))).1 /\
  store_of (hist (execute api p w).2) = (interpret api p (store_of (hist w))).2.
Proof using Type.
  revert w. induction p as [a|B o k IH]; intros w; [done|]. cbn [execute interpret].
  destruct (perform_implements o w) as (w' & -> & Hs & _). destruct (specify api o (store_of (hist w))) as [r s']. cbn in Hs |- *.
  rewrite <- Hs. apply IH.
Qed.
End refinement.

(** ** A server *)
Inductive unstructured := UDeployment (d : Deployment) | UPeerAuthentication (pa : PeerAuthentication) | UNATS (n : NATS) | UList.

Definition not_a (kind : string) : goerr := errors_New ("not a " +:+ kind).
#[export] Instance plain_converter : UnstructuredConverter unstructured := {|
  ToUnstructured pa := inl (UPeerAuthentication pa);
  FromUnstructured_Deployment u := match u with UDeployment d => inl d | _ => inr (not_a "Deployment") end;
  FromUnstructured_NATSList u := match u with UList => inl [] | _ => inr (not_a "NATSList") end;
  FromUnstructured_NATS u := match u with UNATS n => inl n | _ => inr (not_a "NATS") end
|}.

Definition plain_key (u : unstructured) : key :=
  match u with
  | UDeployment d => ("Deployment", omNamespace (dMeta d), omName (dMeta d))
  | UPeerAuthentication pa => (tmKind (paType pa), omNamespace (paMeta pa), omName (paMeta pa))
  | UNATS (name, namespace, _) => ("NATS", namespace, name)
  | UList => ("NATSList", "", "")
  end.
Definition plain_notFound (kind namespace name : string) : goerr := GoErr EKubeNotFound (kind +:+ " " +:+ name +:+ " not found") [].

Section server.
Context (start : store unstructured).
Abbreviation R := (request unstructured).

Definition serve (r : R) (s : store unstructured) : store unstructured :=
  match r with
  | Update d =>
      match deployment_at s (omNamespace (dMeta d)) (omName (dMeta d)) with
      | Some _ => on_objects (insert ("Deployment", omNamespace (dMeta d), omName (dMeta d)) (ATyped (ODeployment d))) s
      | None => s
      end
  | Delete k ns n => on_objects (delete (k, ns, n)) s
  | Patch o _ _ =>
      on_objects (insert (match o with
        | ATyped t => objKey t | ASecret x => ("Secret", omNamespace (seMeta x), omName (seMeta x)) | AUnstructured u => plain_key u end) o) s
  | _ => s
  end.
Definition served (h : list R) : store unstructured := foldr serve start h.

Definition found {A} (kind namespace name : string) (o : option A) : A + goerr :=
  match o with Some a => inl a | None => inr (plain_notFound kind namespace name) end.
Definition plain_server : API unstructured := {|
  api_GetDeployment h ns n := found "Deployment" ns n (deployment_at (served h) ns n);
  api_GetSecret h ns n := found "Secret" ns n (secret_at (served h) ns n);
  api_GetConfigMap h ns n := found "ConfigMap" ns n (configMaps (served h) !! (ns, n));
  api_ListSubscriptions h := inl (subscriptions (served h));
  api_Update h d := match deployment_at (served h) (omNamespace (dMeta d)) (omName (dMeta d)) with
    | Some _ => None | None => Some (plain_notFound "Deployment" (omNamespace (dMeta d)) (omName (dMeta d))) end;
  api_Delete h k ns n := match objects (served h) !! (k, ns, n) with Some _ => None | None => Some (plain_notFound k ns n) end;
  api_Patch _ o _ _ := inl o;
  api_DynamicGet h _ ns n := found "Deployment" ns n (UDeployment <$> deployment_at (served h) ns n);
  api_DynamicList h _ ns := inl (UList, UNATS <$> natsResources (served h) ns);
  api_GetCRD h n := if bool_decide (n ∈ crds (served h)) then inl tt else inr (plain_notFound "CustomResourceDefinition" "" n)
|}.

#[export] Instance plain_object_server : ObjectServer unstructured plain_server.
Proof.
  refine {| store_of := served; unstructuredKey := plain_key; serverSideApply := fun _ o => o; notFound := plain_notFound |};
    intros; cbn [plain_server api_GetDeployment api_GetSecret api_GetConfigMap api_ListSubscriptions api_Update api_Delete api_Patch
      api_DynamicGet api_DynamicList api_GetCRD]; try done.
  - by destruct r.
  - destruct (deployment_at (served h) ns n) as [d|]; [by exists (UDeployment d)|done].
  - exists UList, (UNATS <$> natsResources (served h) ns). split_and!; [done..|].
    induction (natsResources (served h) ns) as [|x l IH]; [done|]. exact (f_equal (cons (inl x)) IH).
  - change (served (Update d :: h)) with (serve (Update d) (served h)). cbn [serve].
    by destruct (deployment_at (served h) _ _).
Defined.
End server.

Definition a_deployment : Deployment :=
  mkDeployment (mkTypeMeta "Deployment" "apps/v1") (named "eventing-manager" "kyma-system" None)
    (mkDeploymentSpec None None (mkTemplate (named "" "" None) (mkPodSpec "" "" None "" None None []))) (mkDeploymentStatus 0 0 0).
Definition a_cluster : store unstructured :=
  mkStore {[("Deployment", "kyma-system", "eventing-manager") := ATyped (ODeployment a_deployment)]} ∅
    {[PeerAuthenticationCRDName]} [] (fun _ => []).

(** Deletes a deployment twice, and looks for it and for a secret. *)
Definition a_program : program unstructured (outcome (option Deployment) * outcome (option Deployment) * outcome unit * outcome Secret) :=
  Step (OpGetDeployment "eventing-manager" "kyma-system") (fun before =>
  Step (OpDeleteDeployment "eventing-manager" "kyma-system") (fun _ =>
  Step (OpDeleteDeployment "eventing-manager" "kyma-system") (fun again =>
  Step (OpGetDeploymentDynamic "eventing-manager" "kyma-system") (fun after =>
  Step (OpGetSecret "kyma-system/credentials") (fun secret =>
  Done (before, after, again, secret)))))).

Lemma KubeClient_refines_store_witness :
  (execute (plain_server a_cluster) a_program (mkWorld (NewKubeClient "eventing-manager") [])).1 =
    (Ok (Some a_deployment), Ok None, Ok tt, Err (plain_notFound "Secret" "kyma-system" "credentials")).
Proof.
  destruct (KubeClient_refines_store (plain_server a_cluster) a_program (mkWorld (NewKubeClient "eventing-manager") [])) as [-> _].
  vm_compute. reflexivity.
Defined.
