(* ===== verification/Watcher.v ===== *)
(** * The watcher of a resource: [pkg/watcher/watcher.go]

    A watcher runs an informer of client-go until a value is sent on its stop channel, and passes its notifications on.  The
    informer with its factory is a class; its laws are what the documentation of client-go says of starting, stopping and
    shutting down.  [Start] and [Stop] can block for ever: [None]. *)

From S2P Require Import Prelude KubeRequests.

(** ** Informers of client-go *)

(** A channel that was made, by its number. *)
Definition chan : Type := nat.

Class Informers (I : Type) := {
  inf_new : GroupVersionResource -> string -> I;
  inf_AddEventHandler : I -> option nat * I; (* the registration; nil with an error *)
  inf_RemoveEventHandler : option nat -> I -> I;
  inf_Start : chan -> I -> I;
  inf_Shutdown : I -> I;
  inf_syncs : I -> bool; (* the caches will be synchronised *)
  inf_receives : I -> chan -> bool; (* a goroutine of the informer waits on the channel *)
  inf_stopped : chan -> I -> I; (* after the channel was closed *)
  inf_notifies : I -> option nat -> bool (* the handler with this registration is notified *)
}.

Class InformersLaws (I : Type) `{Informers I} := {
  inf_fresh : I -> Prop; (* made and not started *)
  inf_down : I -> Prop; (* shut down *)
  inf_runs : chan -> nat -> I -> Prop; (* started with the channel and the handler *)
  inf_new_fresh : forall gvk ns, inf_fresh (inf_new gvk ns);
  inf_start_fresh : forall i c, inf_fresh i -> exists r i', inf_AddEventHandler i = (Some r, i') /\
    (inf_syncs i = true -> inf_syncs (inf_Start c i') = true /\ inf_runs c r (inf_Start c i'));
  inf_runs_receives : forall c r i, inf_runs c r i -> inf_receives i c = true /\ inf_notifies i (Some r) = true;
  inf_stop_down : forall c r i, inf_runs c r i -> inf_down (inf_Shutdown (inf_stopped c (inf_RemoveEventHandler (Some r) i)));
  inf_remove_receives : forall c r i, inf_runs c r i -> inf_receives (inf_RemoveEventHandler (Some r) i) c = true;
  (* "Start will return without doing anything" *)
  inf_down_start : forall i c, inf_down i -> exists i', inf_AddEventHandler i = (None, i') /\ inf_down (inf_Start c i') /\
    inf_syncs (inf_Start c i') = true;
  inf_down_silent : forall i c, inf_down i -> inf_receives i c = false /\ inf_notifies i None = false;
  inf_down_remove : forall i r, inf_down i -> inf_down (inf_RemoveEventHandler r i)
}.

(** ** The watcher *)
Inductive channel := Nil | Open (c : chan) | Closed (c : chan).

Record ResourceWatcher {I : Type} := mkWatcher {
  namespace : string;
  informer : I;
  eventHandler : option nat;
  stopCh : channel;
  started : bool;
  channels : chan (* the next channel *)
}.
Arguments ResourceWatcher : clear implicits.

Section watcher.
Context {I : Type} `{Informers I}.
Abbreviation Watcher := (ResourceWatcher I).
Implicit Types (w : Watcher).

Definition NewResourceWatcher (gvk : GroupVersionResource) (namespace : string) : Watcher :=
  mkWatcher I namespace (inf_new gvk namespace) None Nil false 0.

(** [Start] waits until the caches are synchronised. *)
Definition Start w : option Watcher :=
  if started w then Some w
  else
    let c := channels w in
    let '(eventHandler, i) := inf_AddEventHandler (informer w) in
    let i := inf_Start c i in
    if inf_syncs i then Some (mkWatcher I (namespace w) i eventHandler (Open c) true (S c)) else None.

(** A send waits for a receiver, for ever on a nil channel; it panics on a closed one, which is recovered. *)
Definition Stop w : option Watcher :=
  let i := inf_RemoveEventHandler (eventHandler w) (informer w) in
  match stopCh w with
  | Nil => None
  | Closed c => Some (mkWatcher I (namespace w) i (eventHandler w) (Closed c) (started w) (channels w))
  | Open c =>
      if inf_receives i c
      then Some (mkWatcher I (namespace w) (inf_Shutdown (inf_stopped c i)) (eventHandler w) (Closed c) false (channels w))
      else None
  end.

Definition IsStarted w : bool := started w.

(** ** Notifications *)
Inductive notification (O : Type) := Added (o : O) | Updated (o n : O) | Deleted (o : O).
Arguments Added {O}. Arguments Updated {O}. Arguments Deleted {O}.

Definition addFunc {O} (o : O) : bool := true.
Definition updateFunc {O} `{EqDecision O} (o n : O) : bool := negb (bool_decide (o = n)).
Definition deleteFunc {O} (o : O) : bool := true.

(** Whether an event is sent on the channel of the watcher. *)
Definition sends {O} `{EqDecision O} w (n : notification O) : bool :=
  inf_notifies (informer w) (eventHandler w) &&
  match n with Added o => addFunc o | Updated o n => updateFunc o n | Deleted o => deleteFunc o end.

(** ** Its life *)
Context `{!InformersLaws I}.

Inductive life : Type := Fresh | Listening | Over.
Definition in_phase w (p : life) : Prop :=
  match p with
  | Fresh => started w = false /\ stopCh w = Nil /\ inf_fresh (informer w)
  | Listening => started w = true /\ exists c r, stopCh w = Open c /\ eventHandler w = Some r /\ inf_runs c r (informer w)
  | Over => started w = false /\ (exists c, stopCh w = Closed c) /\ inf_down (informer w)
  end.

Lemma new_fresh gvk ns : in_phase (NewResourceWatcher gvk ns) Fresh.
Proof using Type. split_and!; [done..|]. apply inf_new_fresh. Qed.

Lemma start_fresh w : in_phase w Fresh -> inf_syncs (informer w) = true -> exists w', Start w = Some w' /\ in_phase w' Listening.
Proof using Type.
  intros (Hs & _ & Hf) Hy. unfold Start. rewrite Hs. destruct (inf_start_fresh _ (channels w) Hf) as (r & i & -> & Hrun).
  destruct (Hrun Hy) as [-> Hr]. eexists. split; [done|]. split; [done|]. by exists (channels w), r.
Qed.

Lemma start_listening w : in_phase w Listening -> Start w = Some w.
Proof using Type. intros [Hs _]. unfold Start. by rewrite Hs. Qed.

Lemma stop_listening w : in_phase w Listening -> exists w', Stop w = Some w' /\ in_phase w' Over.
Proof using Type.
  intros (Hs & c & r & Hc & Hh & Hr). unfold Stop. rewrite Hc, Hh, (inf_remove_receives _ _ _ Hr). eexists. split; [done|].
  split_and!; [done|by exists c|]. by apply inf_stop_down.
Qed.

(** Stopping again returns and changes nothing that matters. *)
Lemma stop_over w : in_phase w Over -> exists w', Stop w = Some w' /\ in_phase w' Over.
Proof using Type.
  intros (Hs & [c Hc] & Hd). unfold Stop. rewrite Hc. eexists. split; [done|]. split_and!; [done|by exists c|]. by apply inf_down_remove.
Qed.

(** A watcher that was never started blocks when it is stopped. *)
Lemma stop_fresh_blocks w : in_phase w Fresh -> Stop w = None.
Proof using Type. intros (_ & Hc & _). unfold Stop. by rewrite Hc. Qed.

(** A watcher that is started again says that it is started, is deaf, and blocks when it is stopped. *)
Lemma restart_deaf w : in_phase w Over -> exists w', Start w = Some w' /\ IsStarted w' = true /\ Stop w' = None /\
  forall O (HO : EqDecision O) (n : notification O), sends w' n = false.
Proof using Type.
  intros (Hs & _ & Hd). unfold Start. rewrite Hs. destruct (inf_down_start _ (channels w) Hd) as (i & -> & Hd' & ->).
  eexists. split_and!; [done|done| |].
  - unfold Stop. cbn [stopCh eventHandler informer]. by rewrite (proj1 (inf_down_silent _ _ (inf_down_remove _ _ Hd'))).
  - intros O HO n. unfold sends. cbn [informer eventHandler]. by rewrite (proj2 (inf_down_silent _ 0 Hd')).
Qed.

(** A watcher that listens reports each change, and nothing when an object is only read again. *)
Lemma sends_listening w {O} `{EqDecision O} (n : notification O) : in_phase w Listening ->
  sends w n = true <-> match n with Updated o n => o <> n | _ => True end.
Proof using Type.
  intros (_ & c & r & _ & Hh & Hr). unfold sends. rewrite Hh, (proj2 (inf_runs_receives _ _ _ Hr)). cbn [andb].
  destruct n as [o|o n|o]; [done| |done]. unfold updateFunc. case_bool_decide; done.
Qed.
End watcher.
