(* ===== verification/EventingManager.v ===== *)
(** * Eventing manager: [pkg/eventing/manager.go]

    The component that deploys the publisher proxy and its resources.  Its state
    is the backend configuration; its requests to the API server are the
    events of [kEvent].  [SetControllerReference] is controller-runtime's: the class
    [ControllerReference] holds it, [ControllerReferenceLaws] what its documentation promises. *)

From S2P Require Import Prelude Effects GoStrings Errors Subscription Eventing Config ApiRule Objects Equality KubeClient PublisherProxy.

Class ControllerReference := { SetControllerReference : Eventing -> ObjectMeta -> ObjectMeta + goerr }.

(** The reference is added to the owners and nothing else changes; an object of the same namespace without owners is
    then owned by the Eventing resource alone. *)
Class ControllerReferenceLaws `{ControllerReference} := {
  SetControllerReference_frame : forall e m m', SetControllerReference e m = inl m' ->
    omName m' = omName m /\ omNamespace m' = omNamespace m /\ omLabels m' = omLabels m /\
    omAnnotations m' = omAnnotations m /\ exists o, o ∈ omOwners m' /\ orName o = eName e /\ orController o = Some true;
  SetControllerReference_fresh : forall e m, omOwners m = [] -> omNamespace m = eNamespace e ->
    exists m' o, SetControllerReference e m = inl m' /\ omOwners m' = [o] /\ orName o = eName e
}.

Inductive kEvent :=
  | KGetDeployment (name namespace : string) (r : Deployment + goerr)
  | KUpdateDeployment (d : Deployment) (r : option goerr)
  | KPatchDeployment (d : Deployment) (r : Deployment + goerr)
  | KPatchApply (o : Object_) (r : option goerr)
  | KDelete (o : Object_) (r : option goerr)
  | KListSubscriptions (r : list Subscription + goerr)
  | KListNATS (namespace : string) (r : list (string * string * string) + goerr).

(** A NATS resource is its name, its namespace and its state. *)
Record KEnv := mkKEnv {
  k_GetDeployment : list kEvent -> string -> string -> Deployment + goerr;
  k_UpdateDeployment : list kEvent -> Deployment -> option goerr;
  k_PatchDeployment : list kEvent -> Deployment -> Deployment + goerr;
  k_PatchApply : list kEvent -> Object_ -> option goerr;
  k_Delete : list kEvent -> Object_ -> option goerr;
  k_ListSubscriptions : list kEvent -> list Subscription + goerr;
  k_ListNATS : list kEvent -> string -> list (string * string * string) + goerr
}.

Definition cpuUtilization : Z := 60.
Definition memoryUtilization : Z := 60.
Definition allowedAnnotations : gmap string string := {["kubectl.kubernetes.io/restartedAt" := ""]}.
Definition ErrUnknownBackendType := sentinel "eventing.ErrUnknownBackendType" "unknown backend type".
Definition ErrEPPDeployFailed := sentinel "eventing.ErrEPPDeployFailed" "failed to apply Publisher Proxy deployment".

(** [int32(x)]. *)
Definition int32 (x : Z) : Z := ((x + 2147483648) mod 4294967296 - 2147483648)%Z.

Section manager.
Context `{ControllerReference} (env : KEnv).
Abbreviation K := (M (World BackendConfig kEvent)).

Definition patchApply (o : Object_) : K unit :=
  r <- call (KPatchApply o) (fun h => k_PatchApply env h o) ;; returnErr r.

Definition deleteObject (o : Object_) : K unit :=
  r <- call (KDelete o) (fun h => k_Delete env h o) ;; returnErr (DeleteResource r).

Definition migratePublisherDeploymentFromEC (eventing : Eventing) (currentPublisher desiredPublisher : Deployment) : K unit :=
  if match omOwners (dMeta currentPublisher) with [o] => String.eqb (orName o) (eName eventing) | _ => false end then retM tt
  else
    match SetControllerReference eventing (set_omOwners [] (dMeta currentPublisher)) with
    | inr err => errM (wrapf "failed to set controller reference" err)
    | inl m =>
        let updatedPublisher := set_dSpec (dSpec desiredPublisher) (upd_dMeta (fun _ => m) currentPublisher) in
        r <- call (KUpdateDeployment updatedPublisher) (fun h => k_UpdateDeployment env h updatedPublisher) ;; returnErr r
    end.

(** The annotations of the current deployment that are preserved. *)
Definition preservedAnnotations (currentPublisher : Deployment) : gmap string string :=
  filter (fun '(k, _) => is_Some (allowedAnnotations !! k))
    (default ∅ (omAnnotations (tMeta (dTemplate (dSpec currentPublisher))))).

Definition desiredDeployment (eventing : Eventing) (natsConfig : option NATSConfig) (backendType : string) : K Deployment :=
  config <- gets pcfg ;;
  if String.eqb backendType NatsBackendType then
    natsConfig <- orPanic natsConfig nilDereference ;;
    orPanic (newNATSPublisherDeployment eventing natsConfig config) nilDereference
  else if String.eqb backendType EventMeshBackendType then
    orPanic (newEventMeshPublisherDeployment eventing config) nilDereference
  else errM (wrap_arg ErrUnknownBackendType (Quote backendType)).

Definition patchDeployment (desiredPublisher : Deployment) : K Deployment :=
  r <- call (KPatchDeployment desiredPublisher) (fun h => k_PatchDeployment env h desiredPublisher) ;;
  match r with
  | inr err => errM (wrap2 ErrEPPDeployFailed err)
  | inl patched => retM patched
  end.

Definition applyPublisherProxyDeployment (eventing : Eventing) (natsConfig : option NATSConfig) (backendType : string) : K Deployment :=
  desiredPublisher <- desiredDeployment eventing natsConfig backendType ;;
  desiredPublisher <-
    match SetControllerReference eventing (dMeta desiredPublisher) with
    | inr err => errM (wrapf "failed to set controller reference" err)
    | inl m => retM (upd_dMeta (fun _ => m) desiredPublisher)
    end ;;
  let name := GetPublisherDeploymentName eventing in
  r <- call (KGetDeployment name (eNamespace eventing)) (fun h => k_GetDeployment env h name (eNamespace eventing)) ;;
  match GetDeployment r with
  | inr err => errM (wrapf "failed to get Event Publisher deployment" err)
  | inl currentPublisher =>
      desiredPublisher <-
        match currentPublisher with
        | None => retM desiredPublisher
        | Some current =>
            let desiredPublisher := upd_tMeta (set_omAnnotations (Some (preservedAnnotations current))) desiredPublisher in
            e <- errOf (migratePublisherDeploymentFromEC eventing current desiredPublisher) ;;
            match e with
            | Some err => errM (wrapf "failed to migrate publisher" err)
            | None => retM desiredPublisher
            end
        end ;;
      if publisherProxyDeploymentEqual currentPublisher (Some desiredPublisher)
      then orPanic currentPublisher nilDereference
      else patchDeployment desiredPublisher
  end.

Definition DeployPublisherProxy (eventing : Eventing) (natsConfig : option NATSConfig) (backendType : string) : K Deployment :=
  applyPublisherProxyDeployment eventing natsConfig backendType.

Definition IsNATSAvailable (namespace : string) : K bool :=
  r <- call (KListNATS namespace) (fun h => k_ListNATS env h namespace) ;;
  natsList <- okOr r ;;
  retM (existsb (fun '(_, state) => String.eqb state StateReady || String.eqb state StateWarning) natsList).

Definition GetBackendConfig (w : World BackendConfig kEvent) : BackendConfig := st w.
Definition SetBackendConfig (config : BackendConfig) : K unit := puts (fun _ => config).

(** The resources created for a deployment of the publisher proxy. *)
Definition deployedResources (eventing : Eventing) (d : Deployment) : list Object_ :=
  let l := omLabels (dMeta d) in
  let selector := omLabels (tMeta (dTemplate (dSpec d))) in
  let ns := eNamespace eventing in
  [OServiceAccount (newPublisherProxyServiceAccount (GetPublisherServiceAccountName eventing) ns l);
   OClusterRole (newPublisherProxyClusterRole (GetPublisherClusterRoleName eventing) ns l);
   OClusterRoleBinding (newPublisherProxyClusterRoleBinding (GetPublisherClusterRoleBindingName eventing) ns l);
   OService (newPublisherProxyService (GetPublisherPublishServiceName eventing) ns l selector);
   OService (newPublisherProxyMetricsService (GetPublisherMetricsServiceName eventing) ns l selector);
   OService (newPublisherProxyHealthService (GetPublisherHealthServiceName eventing) ns l selector);
   OHPA (newHorizontalPodAutoscaler (omName (dMeta d)) (omNamespace (dMeta d))
           (int32 (ReplicasMin (ePublisher (eSpec eventing)))) (int32 (ReplicasMax (ePublisher (eSpec eventing))))
           cpuUtilization memoryUtilization l)].

Definition DeployPublisherProxyResources (eventing : Eventing) (publisherDeployment : Deployment) : K unit :=
  forM_ (deployedResources eventing publisherDeployment) (fun obj =>
    match SetControllerReference eventing (objMeta obj) with
    | inr err => errM err
    | inl m => patchApply (upd_objMeta (fun _ => m) obj)
    end).

(** The resources deleted with the publisher proxy. *)
Definition deletedResources (eventing : Eventing) : list Object_ :=
  let l := Some ∅ in
  let ns := eNamespace eventing in
  let publisherDeployment := mkDeployment (mkTypeMeta deploymentKind appsV1APIVersion)
        (named (GetPublisherDeploymentName eventing) ns None)
        (mkDeploymentSpec None None (mkTemplate (named "" "" None) (mkPodSpec "" "" None "" None None [])))
        (mkDeploymentStatus 0 0 0) in
  [ODeployment publisherDeployment;
   OServiceAccount (newPublisherProxyServiceAccount (GetPublisherServiceAccountName eventing) ns l);
   OService (newPublisherProxyService (GetPublisherPublishServiceName eventing) ns l l);
   OService (newPublisherProxyMetricsService (GetPublisherMetricsServiceName eventing) ns l l);
   OService (newPublisherProxyHealthService (GetPublisherHealthServiceName eventing) ns l l);
   OHPA (newHorizontalPodAutoscaler (GetPublisherDeploymentName eventing) ns 0 0 0 0 l)].

Definition DeletePublisherProxyResources (eventing : Eventing) : K unit :=
  forM_ (deletedResources eventing) deleteObject.

Definition SubscriptionExists : K bool :=
  r <- call KListSubscriptions (fun h => k_ListSubscriptions env h) ;;
  subscriptionList <- okOr r ;;
  retM (0 <? length subscriptionList)%nat.
End manager.
