(* ===== verification/EventingManagerFacts.v ===== *)
(** * Eventing manager: what its operations do

    The shape of the publisher proxy, what a deployment of it writes, and that the
    deletions cover the creations. *)

From S2P Require Import Prelude Effects GoStrings Errors Subscription Eventing Config ApiRule Objects Equality KubeClient PublisherProxy EventingManager.

(** ** The shape of the publisher proxy *)
Section shape.
Implicit Types (e : Eventing) (d : Deployment).

(** The deployment for a backend, of the name [DeployPublisherProxy] is given. *)
Definition wanted (e : Eventing) (natsConfig : option NATSConfig) (cfg : PublisherConfig) (backendType : string) : option Deployment :=
  if String.eqb backendType NatsBackendType then n ← natsConfig; newNATSPublisherDeployment e n cfg
  else if String.eqb backendType EventMeshBackendType then newEventMeshPublisherDeployment e cfg
  else None.

(** The variables of the container. *)
Definition wantedEnv (e : Eventing) (natsConfig : option NATSConfig) (cfg : PublisherConfig) (backendType : string) : list EnvVar :=
  match eBackend (eSpec e), natsConfig with
  | Some b, Some n =>
      if String.eqb backendType NatsBackendType then getNATSEnvVars n cfg (bConfig b)
      else getEventMeshEnvVars (GetPublisherDeploymentName e) cfg (bConfig b)
  | Some b, None => getEventMeshEnvVars (GetPublisherDeploymentName e) cfg (bConfig b)
  | None, _ => []
  end ++ getLogEnvVars cfg e.

#[local] Arguments EqualFold : simpl never.
Lemma EqualFold_refl s : EqualFold s s = true.
Proof. apply String.eqb_refl. Qed.

Lemma updContainers_own name f d c : pContainers (tSpec (dTemplate (dSpec d))) = [c] -> cName c = name ->
  updContainers name f d = upd_tSpec (set_pContainers [f c]) d.
Proof.
  intros Hc <-. unfold updContainers, upd_tSpec, upd_dTemplate, set_dSpec. f_equal. f_equal. f_equal.
  rewrite Hc. cbn [fmap list_fmap]. by rewrite EqualFold_refl.
Qed.

Lemma env_names_NoDup (l : list EnvVar) : bool_decide (NoDup (evName <$> l)) = true -> NoDup l.
Proof. intros H%bool_decide_eq_true. by apply NoDup_fmap_1 in H. Qed.

(** What a deployment of the publisher proxy is made of. *)
Record epp_shape (e : Eventing) (d : Deployment) (env : list EnvVar) : Prop := {
  epp_name : omName (dMeta d) = GetPublisherDeploymentName e;
  epp_namespace : omNamespace (dMeta d) = eNamespace e;
  epp_owners : omOwners (dMeta d) = [];
  epp_type : dType d = mkTypeMeta deploymentKind appsV1APIVersion;
  epp_labels : omLabels (tMeta (dTemplate (dSpec d))) = omLabels (dMeta d);
  epp_selector : exists sel l, dSelector (dSpec d) = Some sel /\ omLabels (dMeta d) = Some l /\ sel ⊆ l;
  epp_container : exists c, pContainers (tSpec (dTemplate (dSpec d))) = [c] /\ distinct c /\ cEnv c = env /\
    cpPort <$> cPorts c = [publisherPortNum; publisherMetricsPortNum];
  epp_account : pServiceAccountName (tSpec (dTemplate (dSpec d))) = GetPublisherServiceAccountName e;
  epp_replicas : dReplicas (dSpec d) = None
}.

Lemma selector_labels name backendType : getSelector name ⊆ getLabels name backendType.
Proof.
  apply map_subseteq_spec. intros k v. unfold getSelector, getLabels.
  intros H. repeat apply lookup_insert_Some in H as [[<- <-]|[? H]]; try done; by simplify_map_eq.
Qed.

Lemma wanted_shape e n cfg t d : wanted e n cfg t = Some d -> epp_shape e d (wantedEnv e n cfg t).
Proof.
  unfold wanted, wantedEnv. destruct (String.eqb_spec t NatsBackendType) as [->|_].
  - destruct n as [n|]; [cbn [mbind option_bind]|done]. unfold newNATSPublisherDeployment.
    destruct (eBackend (eSpec e)) as [b|]; cbn [mbind option_bind]; [|done]. intros [= <-].
    unfold newDeployment. cbn [foldl]. unfold WithNATSEnvVars. erewrite updContainers_own by reflexivity.
    unfold WithLogEnvVars. erewrite updContainers_own by reflexivity.
    split; [done..| |eexists; split_and!; [reflexivity|split|done|done]|done|done].
    + eexists _, _. split_and!; [done|done|]. apply selector_labels.
    + apply (bool_decide_unpack _). by vm_compute.
    + by apply env_names_NoDup.
  - destruct (String.eqb_spec t EventMeshBackendType) as [->|_]; [|done]. unfold newEventMeshPublisherDeployment.
    destruct (eBackend (eSpec e)) as [b|]; cbn [mbind option_bind]; [|done]. intros [= <-].
    unfold newDeployment. cbn [foldl]. unfold WithBEBEnvVars. erewrite updContainers_own by reflexivity.
    unfold WithLogEnvVars. erewrite updContainers_own by reflexivity.
    split; [done..| |eexists; split_and!; [reflexivity|split|destruct n; reflexivity|done]|done|done].
    + eexists _, _. split_and!; [done|done|]. apply selector_labels.
    + apply (bool_decide_unpack _). by vm_compute.
    + by apply env_names_NoDup.
Qed.

Lemma wanted_labels e n cfg t d : wanted e n cfg t = Some d ->
  omLabels (tMeta (dTemplate (dSpec d))) = Some (getLabels (GetPublisherDeploymentName e) t).
Proof.
  unfold wanted. destruct (String.eqb_spec t NatsBackendType) as [->|_].
  - destruct n as [n|]; [cbn [mbind option_bind]|done]. unfold newNATSPublisherDeployment.
    destruct (eBackend (eSpec e)) as [b|]; [|done]. by intros [= <-].
  - destruct (String.eqb_spec t EventMeshBackendType) as [->|_]; [|done]. unfold newEventMeshPublisherDeployment.
    destruct (eBackend (eSpec e)) as [b|]; [|done]. by intros [= <-].
Qed.
Lemma wanted_own_labels e n cfg t d : wanted e n cfg t = Some d ->
  omLabels (dMeta d) = Some (getLabels (GetPublisherDeploymentName e) t).
Proof.
  unfold wanted. destruct (String.eqb_spec t NatsBackendType) as [->|_].
  - destruct n as [n|]; [cbn [mbind option_bind]|done]. unfold newNATSPublisherDeployment.
    destruct (eBackend (eSpec e)) as [b|]; [|done]. by intros [= <-].
  - destruct (String.eqb_spec t EventMeshBackendType) as [->|_]; [|done]. unfold newEventMeshPublisherDeployment.
    destruct (eBackend (eSpec e)) as [b|]; [|done]. by intros [= <-].
Qed.
End shape.

(** ** Writing and deleting a list of objects *)
Section runs.
Context `{ControllerReference} (env : KEnv).
Abbreviation KW := (World BackendConfig kEvent).
Implicit Types (w : KW) (e : Eventing) (o : Object_).

(** [o'] is [o] with the Eventing resource as its controller. *)
Definition owned e (o o' : Object_) : Prop :=
  exists m, SetControllerReference e (objMeta o) = inl m /\ o' = upd_objMeta (fun _ => m) o.

Definition applyOne e o : M KW unit :=
  match SetControllerReference e (objMeta o) with
  | inr err => errM err
  | inl m => patchApply env (upd_objMeta (fun _ => m) o)
  end.

(** The requests that wrote [objs], newest first. *)
Definition applied (objs : list Object_) : list kEvent := rev ((fun o => KPatchApply o None) <$> objs).

Lemma applyAll_run e l w :
  match forM_ l (applyOne e) w with
  | (Ok _, w') => st w' = st w /\ exists objs, Forall2 (owned e) l objs /\ hist w' = (applied objs ++ hist w)%list
  | (Err err, w') => st w' = st w /\ exists l1 o l2 objs, l = (l1 ++ o :: l2)%list /\ Forall2 (owned e) l1 objs /\
      ((SetControllerReference e (objMeta o) = inr err /\ hist w' = (applied objs ++ hist w)%list) \/
       (exists o', owned e o o' /\ hist w' = (KPatchApply o' (Some err) :: applied objs ++ hist w)%list))
  | (Panic _, _) => False
  end.
Proof.
  revert w. induction l as [|o l IH]; intros w; cbn [forM_]; [split; [done|]; by exists []|].
  unfold bindM. unfold applyOne at 1. destruct (SetControllerReference e (objMeta o)) as [m|err] eqn:Em.
  - set (o' := upd_objMeta _ o). assert (owned e o o') as Ho by (by exists m).
    unfold patchApply, bindM, call. cbn [fst snd]. destruct (k_PatchApply env (hist w) o') as [err|]; cbn.
    + split; [done|]. exists [], o, l, []. split; [done|]. split; [constructor|]. right. by exists o'.
    + set (w1 := mkWorld _ _). specialize (IH w1). destruct (forM_ l (applyOne e) w1) as [[[]|err|msg] w2]; [..|done].
      * destruct IH as (Hs & objs & Hl & Hh). split; [done|]. exists (o' :: objs). split; [by constructor|].
        rewrite Hh. unfold applied. cbn. by rewrite <- app_assoc.
      * destruct IH as (Hs & l1 & x & l2 & objs & -> & Hl & Hc). split; [done|].
        exists (o :: l1), x, l2, (o' :: objs). split; [done|]. split; [by constructor|]. unfold applied in *. cbn.
        rewrite <- app_assoc. destruct Hc as [[Hx Hh]|(x' & Hx & Hh)]; [left|right]; [by rewrite Hh|]. exists x'. by rewrite Hh.
  - split; [done|]. exists [], o, l, []. split; [done|]. split; [constructor|]. by left.
Qed.

Lemma deleteAll_run l w :
  match forM_ l (deleteObject env) w with
  | (Ok _, w') => st w' = st w /\ exists rs, length rs = length l /\ Forall (fun r => DeleteResource r = None) rs /\
      hist w' = (rev (zip_with KDelete l rs) ++ hist w)%list
  | (Err err, w') => st w' = st w /\ exists l1 o l2 rs r, l = (l1 ++ o :: l2)%list /\ length rs = length l1 /\
      Forall (fun r => DeleteResource r = None) rs /\ DeleteResource r = Some err /\
      hist w' = (KDelete o r :: rev (zip_with KDelete l1 rs) ++ hist w)%list
  | (Panic _, _) => False
  end.
Proof.
  revert w. induction l as [|o l IH]; intros w; cbn [forM_]; [split; [done|]; by exists []|].
  unfold bindM. unfold deleteObject at 1. unfold bindM, call. cbn [fst snd].
  set (r := k_Delete env (hist w) o). destruct (DeleteResource r) as [err|] eqn:Er; cbn.
  - split; [done|]. by exists [], o, l, [], r.
  - set (w1 := mkWorld _ _). specialize (IH w1). destruct (forM_ l (deleteObject env) w1) as [[[]|err|msg] w2]; [..|done].
    + destruct IH as (Hs & rs & Hl & Hr & Hh). split; [done|]. exists (r :: rs). split; [cbn; by f_equal|]. split; [by constructor|].
      rewrite Hh. cbn. by rewrite <- app_assoc.
    + destruct IH as (Hs & l1 & x & l2 & rs & r' & -> & Hl & Hr & Hr' & Hh). split; [done|].
      exists (o :: l1), x, l2, (r :: rs), r'. split; [done|]. split; [cbn; by f_equal|]. split; [by constructor|]. split; [done|].
      rewrite Hh. cbn. by rewrite <- app_assoc.
Qed.

(** ** The deployment *)

(** The deployment the program writes, when [current] is on the server. *)
Definition toWrite (desired : Deployment) (m : ObjectMeta) (current : option Deployment) : Deployment :=
  let d := upd_dMeta (fun _ => m) desired in
  match current with
  | None => d
  | Some c => upd_tMeta (set_omAnnotations (Some (preservedAnnotations c))) d
  end.

(** The update that takes over a deployment that is not owned by the Eventing resource alone. *)
Definition takenOver e (current want : Deployment) (l : list kEvent) : Prop :=
  if match omOwners (dMeta current) with [o] => String.eqb (orName o) (eName e) | _ => false end then l = []
  else exists m, SetControllerReference e (set_omOwners [] (dMeta current)) = inl m /\
    l = [KUpdateDeployment (set_dSpec (dSpec want) (upd_dMeta (fun _ => m) current)) None].

(** The write of the deployment [want]: none when [current] equals it. *)
Definition written (current : option Deployment) (want d : Deployment) (l : list kEvent) : Prop :=
  if publisherProxyDeploymentEqual current (Some want) then current = Some d /\ l = []
  else l = [KPatchDeployment want (inl d)].

Lemma migrate_run e current want w w' : migratePublisherDeploymentFromEC env e current want w = (Ok tt, w') ->
  st w' = st w /\ exists l, hist w' = (l ++ hist w)%list /\ takenOver e current want l.
Proof.
  unfold migratePublisherDeploymentFromEC, takenOver. destruct (match omOwners (dMeta current) with [o] => _ | _ => false end).
  - intros [= <-]. split; [done|]. by exists [].
  - destruct (SetControllerReference _ _) as [m|err] eqn:Em; [|done]. unfold bindM, call. cbn [fst snd].
    destruct (k_UpdateDeployment _ _ _) as [err|] eqn:Eu; [done|]. intros [= <-]. split; [done|]. eexists [_]. split; [done|]. by exists m.
Qed.

Lemma desiredDeployment_run e natsConfig backendType w :
  match desiredDeployment e natsConfig backendType w with
  | (Ok d, w') => wanted e natsConfig (pcfg (st w)) backendType = Some d /\ w' = w
  | (_, w') => wanted e natsConfig (pcfg (st w)) backendType = None /\ w' = w
  end.
Proof.
  unfold desiredDeployment, wanted, bindM, gets. destruct (String.eqb backendType NatsBackendType).
  - destruct natsConfig as [n|]; [|done]. cbn. by destruct (newNATSPublisherDeployment _ _ _).
  - destruct (String.eqb backendType EventMeshBackendType); [|done]. by destruct (newEventMeshPublisherDeployment _ _).
Qed.

(** The deployment that was written, and what was written for it. *)
Definition deployed e natsConfig backendType w (d : Deployment) w' : Prop :=
  st w' = st w /\
  exists desired m current r l1 l2,
    wanted e natsConfig (pcfg (st w)) backendType = Some desired /\
    SetControllerReference e (dMeta desired) = inl m /\
    KubeClient.GetDeployment r = inl current /\
    hist w' = (l2 ++ l1 ++ KGetDeployment (GetPublisherDeploymentName e) (eNamespace e) r :: hist w)%list /\
    let want := toWrite desired m current in
    match current with Some c => takenOver e c want l1 | None => l1 = [] end /\
    written current want d l2.

(** Why a deployment failed: the backend is unknown, the owner cannot be set, or the API server refused a request. *)
Definition undeployed e natsConfig backendType w w' : Prop :=
  wanted e natsConfig (pcfg (st w)) backendType = None \/
  (exists m err, SetControllerReference e m = inr err) \/
  (exists n ns r err, happened w w' (KGetDeployment n ns r) /\ KubeClient.GetDeployment r = inr err) \/
  (exists d err, happened w w' (KUpdateDeployment d (Some err))) \/
  (exists d err, happened w w' (KPatchDeployment d (inr err))).

Lemma deploy_ok e natsConfig backendType w d w' :
  DeployPublisherProxy env e natsConfig backendType w = (Ok d, w') -> deployed e natsConfig backendType w d w'.
Proof.
  intros Hrun. unfold DeployPublisherProxy, applyPublisherProxyDeployment in Hrun. run_inv Hrun.
  pose proof (desiredDeployment_run e natsConfig backendType w) as Hd. rewrite Hr in Hd. destruct Hd as [Hw ->].
  destruct (SetControllerReference e (dMeta a)) as [m|err] eqn:Em; [|done].
  cbn [bindM retM] in Hrun. apply bindM_Ok in Hrun as (r' & w1' & Hc & Hrun). rewrite call_run in Hc. injection Hc as <- <-.
  set (r := k_GetDeployment _ _ _ _) in *.
  destruct (KubeClient.GetDeployment r) as [current|err] eqn:Er; [|done].
  apply bindM_Ok in Hrun as (want & w1 & Hm & Hp).
  assert (want = toWrite a m current /\ st w1 = st w /\ exists l1,
    hist w1 = (l1 ++ KGetDeployment (GetPublisherDeploymentName e) (eNamespace e) r :: hist w)%list /\
    match current with Some c => takenOver e c want l1 | None => l1 = [] end) as (-> & Hs1 & l1 & Hh1 & Ht).
  { destruct current as [c|].
    - apply bindM_Ok in Hm as (o & w2 & Hm & Hret). unfold errOf in Hm.
      destruct (migratePublisherDeploymentFromEC _ _ _ _ _) as [[[]|err|msg] w3] eqn:Hmig; [|by injection Hm as <- <-|done].
      injection Hm as <- <-.
      injection Hret as <- <-. apply migrate_run in Hmig as (Hs & l & Hl & Ht). cbn in Hs, Hl. split; [done|]. split; [done|].
      exists l. by split.
    - injection Hm as <- <-. split; [done|]. split; [done|]. by exists []. }
  assert (st w' = st w1 /\ exists l2, hist w' = (l2 ++ hist w1)%list /\ written current (toWrite a m current) d l2) as (Hs2 & l2 & Hh2 & Hwr).
  { unfold written. destruct (publisherProxyDeploymentEqual _ _).
    - apply orPanic_Ok in Hp as [-> ->]. split; [done|]. by exists [].
    - unfold patchDeployment in Hp. run_inv Hp. destruct (k_PatchDeployment _ _ _) as [p|err] eqn:Ep; [|done].
      injection Hp as <- <-. split; [done|]. eexists [_]. by split. }
  split; [congruence|]. exists a, m, current, r, l1, l2. split_and!; try done. by rewrite Hh2, Hh1.
Qed.

Lemma migrate_fails e current want w :
  match migratePublisherDeploymentFromEC env e current want w with
  | (Ok _, w') => True
  | (Err _, w') => ext w w' /\ ((exists m err, SetControllerReference e m = inr err) \/ exists d err, happened w w' (KUpdateDeployment d (Some err)))
  | (Panic _, _) => False
  end.
Proof.
  unfold migratePublisherDeploymentFromEC. destruct (match omOwners _ with [_] => _ | _ => _ end); [done|].
  destruct (SetControllerReference _ _) as [m|err] eqn:Em; [|split; [reflexivity|eauto]]. unfold bindM, call. cbn [fst snd].
  destruct (k_UpdateDeployment _ _ _) as [err|]; [|done]. split; [by eexists [_]|]. right. do 2 eexists. eexists [_]. split; [done|]. by left.
Qed.

Lemma patch_fails e natsConfig backendType w w2 (current : option Deployment) d : ext w w2 ->
  match (if publisherProxyDeploymentEqual current (Some d) then orPanic current nilDereference else patchDeployment env d) w2 with
  | (Ok _, _) => True
  | (Err _, w') => undeployed e natsConfig backendType w w'
  | (Panic _, _) => wanted e natsConfig (pcfg (st w)) backendType = None
  end.
Proof.
  intros E. destruct (publisherProxyDeploymentEqual current (Some d)) eqn:Heq.
  - by destruct current.
  - unfold patchDeployment, bindM, call. cbn [fst snd]. destruct (k_PatchDeployment _ _ _) as [p|err]; cbn; [done|].
    do 4 right. exists d, err. destruct E as [l Hl]. eexists (_ :: l). cbn. rewrite Hl. split; [done|by left].
Qed.

Lemma deploy_fails e natsConfig backendType w :
  match DeployPublisherProxy env e natsConfig backendType w with
  | (Ok _, _) => True
  | (Err _, w') => undeployed e natsConfig backendType w w'
  | (Panic _, _) => wanted e natsConfig (pcfg (st w)) backendType = None
  end.
Proof.
  unfold DeployPublisherProxy, applyPublisherProxyDeployment, undeployed. unfold bindM at 1.
  pose proof (desiredDeployment_run e natsConfig backendType w) as Hd.
  destruct (desiredDeployment _ _ _ w) as [[d|err|msg] w0]; destruct Hd as [Hw ->]; [|by left|done].
  destruct (SetControllerReference e (dMeta d)) as [m|err] eqn:Em; [|right; left; eauto].
  cbv zeta. unfold bindM at 1, retM at 1. unfold bindM at 1. rewrite call_run. set (w1 := mkWorld _ _). set (r := k_GetDeployment _ _ _ _) in *.
  assert (ext w w1) as E1 by (by eexists [_]).
  destruct (KubeClient.GetDeployment r) as [[c|]|err] eqn:Er.
  - unfold bindM at 1, bindM at 1, errOf. pose proof (migrate_fails e c (upd_tMeta (set_omAnnotations (Some (preservedAnnotations c)))
      (upd_dMeta (fun _ => m) d)) w1) as Hm.
    destruct (migratePublisherDeploymentFromEC _ _ _ _ w1) as [[[]|err|msg] w2] eqn:Emig; [|destruct Hm as [E2 [?|(d' & err' & Hh)]]; cbn|done].
    + apply migrate_run in Emig as (_ & l & Hl & _). assert (ext w w2) as E2 by (transitivity w1; [done|by exists l]).
      apply patch_fails. done.
    + right; left; eauto.
    + right; right; right; left. exists d', err'. by eapply happened_earlier.
  - unfold bindM at 1, retM at 1. by apply patch_fails.
  - cbn. right; right; left. eexists _, _, r, err. split; [|done]. by eexists [_]; split; [|left].
Qed.

End runs.

(** ** The publisher proxy as a whole *)
Section whole.
Implicit Types (e : Eventing) (d : Deployment).

(** The parts of the publisher proxy fit together. *)
Record epp_fits (e : Eventing) (d : Deployment) : Prop := {
  fits_services : forall s, OService s ∈ deployedResources e d ->
    csSelector s = omLabels (tMeta (dTemplate (dSpec d))) /\
    Forall (fun p => spTargetPort p ∈ [publisherPortNum; publisherMetricsPortNum; 15020%Z]) (csPorts s);
  fits_hpa : forall h, OHPA h ∈ deployedResources e d ->
    hpTarget h = mkScaleTarget (tmKind (dType d)) (omName (dMeta d)) (tmAPIVersion (dType d)) /\
    omNamespace (hpMeta h) = omNamespace (dMeta d);
  fits_binding : forall b, OClusterRoleBinding b ∈ deployedResources e d ->
    (exists r, OClusterRole r ∈ deployedResources e d /\ rrName (cbRoleRef b) = omName (crMeta r) /\ rrKind (cbRoleRef b) = tmKind (crType r)) /\
    (exists s, OServiceAccount s ∈ deployedResources e d /\
       cbSubjects b = [mkSubject (tmKind (saType s)) (omName (saMeta s)) (omNamespace (saMeta s))] /\
       omName (saMeta s) = pServiceAccountName (tSpec (dTemplate (dSpec d))));
  fits_labels : Forall (fun o => omLabels (objMeta o) = omLabels (dMeta d)) (deployedResources e d);
  fits_namespace : Forall (fun o => omNamespace (objMeta o) = eNamespace e) (deployedResources e d);
  fits_distinct : NoDup (objKey <$> ODeployment d :: deployedResources e d)
}.

Lemma epp_fits_shape e d env : epp_shape e d env -> epp_fits e d.
Proof.
  intros Hs. pose proof (epp_name _ _ _ Hs) as Hn. pose proof (epp_namespace _ _ _ Hs) as Hns.
  pose proof (epp_type _ _ _ Hs) as Ht. pose proof (epp_account _ _ _ Hs) as Ha.
  split; unfold deployedResources; intros.
  - rewrite !elem_of_cons in H. destruct H as [H|[H|[H|[H|[H|[H|[H|H]]]]]]]; try discriminate H;
      [..|by apply not_elem_of_nil in H]; injection H as ->; (split; [done|]); repeat constructor; set_solver.
  - rewrite !elem_of_cons in H. destruct H as [H|[H|[H|[H|[H|[H|[H|H]]]]]]]; try discriminate H;
      [|by apply not_elem_of_nil in H]. injection H as ->. by rewrite Ht.
  - rewrite !elem_of_cons in H. destruct H as [H|[H|[H|[H|[H|[H|[H|H]]]]]]]; try discriminate H;
      [|by apply not_elem_of_nil in H]. injection H as ->. split.
    + eexists. split; [right; left|done].
    + eexists. split; [left|]. split; [done|]. by rewrite Ha.
  - repeat constructor.
  - repeat constructor. cbn. by rewrite Hns.
  - apply (NoDup_fmap_1 (fun k : string * string * string => (k.1.1, len k.2))). unfold objKey. cbn. rewrite Ht, Hn. cbn.
    unfold GetPublisherMetricsServiceName, GetPublisherHealthServiceName, GetPublisherDeploymentName, GetPublisherServiceAccountName,
      GetPublisherClusterRoleName, GetPublisherClusterRoleBindingName, GetPublisherPublishServiceName. rewrite !len_app. cbn.
    repeat (apply NoDup_cons; split; [rewrite ?elem_of_cons; intros Hin; decompose [or] Hin; try (by apply not_elem_of_nil in Hin);
      match goal with E : (_, _) = (_, _) |- _ => first [discriminate E|injection E as E; lia] | E : _ ∈ [] |- _ => by apply not_elem_of_nil in E end|]).
    constructor.
Qed.


(** What the deletion of the operator covers besides: [deleteClusterScopedResources]. *)
Definition clusterScopedKeys (e : Eventing) : list (string * string * string) :=
  [("ClusterRole", eNamespace e, GetPublisherClusterRoleName e);
   ("ClusterRoleBinding", eNamespace e, GetPublisherClusterRoleBindingName e)].

Lemma deleted_keys e d env : epp_shape e d env ->
  objKey <$> ODeployment d :: deployedResources e d ≡ₚ (objKey <$> deletedResources e) ++ clusterScopedKeys e.
Proof.
  intros [Hn Hns _ Ht _ _ _ _]. unfold deletedResources, deployedResources, clusterScopedKeys, objKey. cbn.
  rewrite Hn, Hns, Ht. cbn. do 2 (apply Permutation_cons; [done|]).
  do 2 (etransitivity; [apply Permutation_cons_append|cbn]). reflexivity.
Qed.
End whole.

Section lifecycle.
Context `{ControllerReferenceLaws} (env : KEnv).
Abbreviation KW := (World BackendConfig kEvent).
Implicit Types (w : KW) (e : Eventing) (o : Object_).

Lemma owned_key e o o' : owned e o o' -> objKey o' = objKey o.
Proof.
  intros (m & Hm & ->). apply SetControllerReference_frame in Hm as (Hn & Hns & _). by apply objKey_upd.
Qed.

Lemma owned_keys e l l' : Forall2 (owned e) l l' -> objKey <$> l' = objKey <$> l.
Proof. induction 1 as [|o o' l l' Ho _ IH]; [done|]. rewrite !fmap_cons. f_equal; [by eapply owned_key|done]. Qed.

Lemma rev_elem {A} (x : A) l : x ∈ rev l <-> x ∈ l.
Proof. by rewrite !list_elem_of_In, <- in_rev. Qed.

Lemma applied_elem objs o : KPatchApply o None ∈ applied objs <-> o ∈ objs.
Proof.
  unfold applied. rewrite rev_elem. split; [|intros Ho; by apply (list_elem_of_fmap_2 (fun o => KPatchApply o None))].
  by intros (x & [= ->] & Hx)%list_elem_of_fmap.
Qed.

Lemma deleted_elem l rs o : length rs = length l -> o ∈ l -> exists r, KDelete o r ∈ rev (zip_with KDelete l rs) /\ r ∈ rs.
Proof.
  revert rs. induction l as [|x l IH]; intros [|r rs] Hl Ho; try discriminate Hl; [by apply not_elem_of_nil in Ho|]. cbn.
  apply elem_of_cons in Ho as [->|Ho].
  - exists r. split; [|by left]. apply elem_of_app. right. by left.
  - injection Hl as Hl. destruct (IH rs Hl Ho) as (r' & Hr & Hin). exists r'. split; [|by right]. apply elem_of_app. by left.
Qed.

(** C27: after the resources of the publisher proxy were deployed for an Eventing resource, a
    successful call of [DeletePublisherProxyResources] has deleted, or found gone, the deployment and everything
    that was created with it, except the cluster role and its binding, which the operator deletes with the Eventing
    resource; every object had been given the Eventing resource as its controller.  Neither of the two panics, and the deletion
    fails only when the API server refuses to delete one of its objects. *)
Theorem DeletePublisherProxyResources_covers e natsConfig backendType w :
  match wanted e natsConfig (pcfg (st w)) backendType with
  | None => True
  | Some d =>
      match DeployPublisherProxyResources env e d w with
      | (Ok _, w1) =>
          (forall o r, happened w w1 (KPatchApply o r) -> r = None /\ exists ref, ref ∈ omOwners (objMeta o) /\ orName ref = eName e /\ orController ref = Some true) /\
          match DeletePublisherProxyResources env e w1 with
          | (Ok _, w2) => forall o, o = ODeployment d \/ happened w w1 (KPatchApply o None) -> objKey o ∉ clusterScopedKeys e ->
              exists o' r, happened w1 w2 (KDelete o' r) /\ objKey o' = objKey o /\ DeleteResource r = None
          | (Err err, w2) => exists o r, happened w1 w2 (KDelete o r) /\ DeleteResource r = Some err
          | (Panic _, _) => False
          end
      | (Err _, _) => True
      | (Panic _, _) => False
      end
  end.
Proof.
  destruct (wanted _ _ _ _) as [d|] eqn:Ew; [|done]. apply wanted_shape in Ew as Hs.
  pose proof (applyAll_run env e (deployedResources e d) w) as Hrun.
  change (forM_ _ (applyOne env e) w) with (DeployPublisherProxyResources env e d w) in Hrun.
  destruct (DeployPublisherProxyResources env e d w) as [[[]|err|msg] [s1 h1]]; [|done..].
  destruct Hrun as (_ & objs & Hobjs & Hh). cbn in Hh. subst h1. split.
  - intros o r Ho. apply happened_app in Ho. unfold applied in Ho.
    rewrite rev_elem, list_elem_of_fmap in Ho. destruct Ho as (x & [= -> ->] & Hx). split; [done|].
    apply list_elem_of_lookup in Hx as (i & Hi). eapply Forall2_lookup_r in Hobjs as (y & _ & m & Hm & ->); [|exact Hi].
    apply SetControllerReference_frame in Hm as (_ & _ & _ & _ & ref & Href). exists ref. by destruct y.
  - pose proof (deleteAll_run env (deletedResources e) (mkWorld s1 (applied objs ++ hist w))) as Hdel.
    change (forM_ _ (deleteObject env)) with (DeletePublisherProxyResources env e) in Hdel.
    destruct (DeletePublisherProxyResources _ _ _) as [[[]|err|msg] [s2 h2]]; [| |done].
    2: { destruct Hdel as (_ & l1 & o & l2 & rs & r & _ & _ & _ & Hr & Hh). cbn in Hh. exists o, r. split; [|done].
      eexists (KDelete o r :: _). cbn [hist]. rewrite Hh. split; [done|by left]. }
    destruct Hdel as (_ & rs & Hl & Hr & Hh). cbn in Hh. subst h2. intros o Ho Hk.
    assert (objKey o ∈ objKey <$> deletedResources e) as (o' & Ek & Ho')%list_elem_of_fmap.
    { pose proof (deleted_keys e d _ Hs) as Hp.
      assert (objKey o ∈ objKey <$> ODeployment d :: deployedResources e d) as Hin.
      { destruct Ho as [->|Ho]; [left|]. apply happened_app in Ho. apply applied_elem in Ho.
        rewrite fmap_cons, elem_of_cons. right. rewrite <- (owned_keys e _ _ Hobjs). by apply list_elem_of_fmap_2. }
      rewrite Hp, elem_of_app in Hin. by destruct Hin. }
    destruct (deleted_elem _ rs o' Hl Ho') as (r & Hr1 & Hr2). exists o', r. rewrite Forall_forall in Hr. split; [|by split; [|apply Hr]].
    rewrite <- (happened_app (mkWorld s1 (applied objs ++ hist w)) s2) in Hr1. exact Hr1.
Qed.
End lifecycle.

(** ** Witnesses *)
Definition exampleReference : ControllerReference := {|
  SetControllerReference e m :=
    inl (set_omOwners (omOwners m ++ [mkOwner "operator.kyma-project.io/v1alpha1" "Eventing" (eName e) (eUID e) (Some true) (Some true)]) m) |}.
Lemma exampleReferenceLaws : @ControllerReferenceLaws exampleReference.
Proof.
  split.
  - intros e m m' [= <-]. split_and!; try done. eexists. split; [apply elem_of_app; right; by left|]. by split.
  - intros e m Ho _. eexists _, _. split; [reflexivity|]. cbn. by rewrite Ho.
Qed.

Definition exampleEventing : Eventing :=
  mkEventing "eventing" "kyma-system" "uid" None ["eventing.operator.kyma-project.io/finalizer"] 1
    (mkEventingSpec (Some (mkBackendSpec NatsBackendType (mkBackendSpecConfig "File" 1 "700Mi" 1000000 "" "sap.kyma.custom" "")))
       (mkPublisher 1 2 (mkResources {["cpu" := "500m"; "memory" := "512Mi"]} {["cpu" := "40m"; "memory" := "256Mi"]})) "Info" ∅ ∅)
    (mkEventingStatus "" 0 "" "" None).
Definition exampleNATSConfig : NATSConfig :=
  mkNATSConfig "nats://eventing-nats.kyma-system.svc.cluster.local:4222" 10 3000000000 "sap.kyma.custom" 50 50 50 10000000000
    "sap" "kyma" "memory" 1 "interest" (-1) "-1" 1000000 "new" "new".
Definition exampleBackendConfig : BackendConfig :=
  mkBackendConfig (mkPublisherConfig "eventing-publisher-proxy:1.4.0" "IfNotPresent" 8080 8080 "eventing-publisher-proxy" "5s" "" "json" false)
    "kyma-system" "eventing" "kyma-system" (mkDefaults 10 300000000000 10) "eventing-webhook-auth" "kyma-system".
(** An API server that has nothing and accepts everything. *)
Definition emptyCluster : KEnv :=
  mkKEnv (fun _ n _ => inr (GoErr EKubeNotFound (n +:+ " not found") [])) (fun _ _ => None) (fun _ d => inl d) (fun _ _ => None)
    (fun _ o => Some (GoErr EKubeNotFound "not found" [])) (fun _ => inl []) (fun _ _ => inl []).

Definition exampleWorld : World BackendConfig kEvent := mkWorld exampleBackendConfig [].
Definition exampleDeployment : Deployment :=
  newDeployment exampleEventing (pcfg exampleBackendConfig)
    [WithLabels (GetPublisherDeploymentName exampleEventing) NatsBackendType;
     WithSelector (GetPublisherDeploymentName exampleEventing);
     WithContainers (pcfg exampleBackendConfig) exampleEventing;
     WithNATSEnvVars exampleNATSConfig (pcfg exampleBackendConfig) exampleEventing
       (mkBackendSpecConfig "File" 1 "700Mi" 1000000 "" "sap.kyma.custom" "");
     WithLogEnvVars (pcfg exampleBackendConfig) exampleEventing;
     WithAffinity (GetPublisherDeploymentName exampleEventing);
     WithPriorityClassName epPriorityClassName].
Definition afterDeploy := DeployPublisherProxyResources (H := exampleReference) emptyCluster exampleEventing exampleDeployment exampleWorld.

Lemma DeletePublisherProxyResources_covers_witness :
  is_Ok afterDeploy.1 = true /\ length (hist afterDeploy.2) = 7%nat /\
  is_Ok (DeletePublisherProxyResources emptyCluster exampleEventing afterDeploy.2).1 = true /\
  match afterDeploy with
  | (Ok _, w1) =>
      match DeletePublisherProxyResources emptyCluster exampleEventing w1 with
      | (Ok _, w2) => forall o, o = ODeployment exampleDeployment \/ happened exampleWorld w1 (KPatchApply o None) ->
          objKey o ∉ clusterScopedKeys exampleEventing ->
          exists o' r, happened w1 w2 (KDelete o' r) /\ objKey o' = objKey o /\ DeleteResource r = None
      | _ => True
      end
  | _ => True
  end.
Proof.
  split; [by vm_compute|]. split; [by vm_compute|]. split; [by vm_compute|].
  pose proof (@DeletePublisherProxyResources_covers exampleReference exampleReferenceLaws emptyCluster exampleEventing
    (Some exampleNATSConfig) NatsBackendType exampleWorld) as Hc.
  unfold wanted in Hc. cbn [mbind option_bind String.eqb] in Hc.
  change (newNATSPublisherDeployment exampleEventing exampleNATSConfig (pcfg (st exampleWorld))) with (Some exampleDeployment) in Hc.
  change (if String.eqb NatsBackendType NatsBackendType then Some exampleDeployment else _) with (Some exampleDeployment) in Hc.
  cbv iota in Hc. unfold afterDeploy. destruct (DeployPublisherProxyResources _ _ _ _) as [[u|e|m] w1]; [|exact I..]. apply proj2 in Hc.
  destruct (DeletePublisherProxyResources _ _ w1) as [[u'|e|m] w2]; [exact Hc|exact I..].
Defined.
