(* ===== verification/PeerAuthentication.v ===== *)
(** * PeerAuthentications: [pkg/istio/peerauthentication]

    At its start the program opens the ports of the metrics of the operator and of the publisher proxy for plain connections, when Istio is
    installed.  The log messages are left out. *)

From S2P Require Import Prelude Effects GoStrings Errors Eventing Config ApiRule Objects PublisherProxy EventingManagerFacts KubeClient KubeRequests KubeStore.

Definition appKubernetesNameLabel := "app.kubernetes.io/name".

Definition typeMeta : TypeMeta := mkTypeMeta "PeerAuthentication" "security.istio.io/v1beta1".

Definition ownerReferences (deploy : Deployment) : list OwnerReference :=
  [mkOwner "apps/v1" "Deployment" (omName (dMeta deploy)) (omUID (dMeta deploy)) (Some true) (Some false)].

(** The metrics of the publisher proxy. *)
Definition EventPublisherProxyMetrics (namespace : string) (ref : list OwnerReference) : PeerAuthentication :=
  mkPeerAuthentication typeMeta
    (set_omOwners ref (named "eventing-publisher-proxy-metrics" namespace
      (Some {[appKubernetesNameLabel := "eventing-publisher-proxy"; "app.kubernetes.io/version" := "0.1.0"]})))
    {[appKubernetesNameLabel := "eventing-publisher-proxy"]}
    {[9090%Z := PERMISSIVE]}.

(** The metrics of the operator. *)
Definition EventingManagerMetrics (namespace : string) (ref : list OwnerReference) : PeerAuthentication :=
  mkPeerAuthentication typeMeta
    (set_omOwners ref (named "eventing-manager-metrics" namespace
      (Some {["app.kubernetes.io/name" := "controller"; "app.kubernetes.io/instance" := "eventing"]})))
    {[appKubernetesNameLabel := "eventing-manager"; "app.kubernetes.io/instance" := "eventing-manager"]}
    {[8080%Z := PERMISSIVE]}.

Section sync.
Context {U : Type} `{UnstructuredConverter U} (api : API U).
Abbreviation C := (M (World KubeClient (request U))).

(** [errors.Wrap(err, m)]. *)
Definition wrapped {A} (m : string) (c : C A) : C A := r <- tryM c ;; match r with inr err => errM (wrapf m err) | inl a => retM a end.

Definition SyncPeerAuthentications : C unit :=
  crdExists <- wrapped "error while fetching PeerAuthentication CRD" (Client.PeerAuthenticationCRDExists api) ;;
  if negb crdExists then retM tt
  else
    deploy <- wrapped "error while fetching eventing Deployment" (Client.GetDeploymentDynamic api "eventing-manager" "kyma-system") ;;
    match deploy with
    | None => errM (errors_New "eventing-manager deployment not found")
    | Some deploy =>
        let ns := omNamespace (dMeta deploy) in
        forM_ [EventingManagerMetrics ns (ownerReferences deploy); EventPublisherProxyMetrics ns (ownerReferences deploy)]
          (fun authentication =>
             wrapped "failed to patchApply PeerAuthentication" (Client.PatchApplyPeerAuthentication api authentication))
    end.

(** ** It never panics *)
Lemma wrapped_safe {A} m (c : C A) : safe (fun _ => True) c -> safe (fun _ => True) (wrapped m c).
Proof using Type. intros Hc. unfold wrapped. apply safe_bind; [by apply safe_try|]. intros []; [apply safe_ret|apply safe_err]. Qed.

Lemma SyncPeerAuthentications_safe : safe (fun _ => True) SyncPeerAuthentications.
Proof using Type.
  assert (forall R (ev : R -> request U) f, safe (fun _ : World KubeClient (request U) => True) (call ev f)) as Hcall by by intros; apply safe_call.
  unfold SyncPeerAuthentications. apply safe_bind; [apply wrapped_safe|intros []; cbn [negb]; [|apply safe_ret]].
  - unfold Client.PeerAuthenticationCRDExists, Client.crdExists, Client.GetCRD. apply safe_bind; [auto with safe|]. intros []; auto with safe.
  - apply safe_bind; [apply wrapped_safe|intros [d|]; [|apply safe_err]].
    + unfold Client.GetDeploymentDynamic, Client.ignoreNotFound. apply safe_bind; [done|]. intros r.
      apply safe_bind; [destruct r; auto with safe|]. intros []; auto with safe.
    + apply safe_forM. intros pa _. apply wrapped_safe. unfold Client.PatchApplyPeerAuthentication, Client.PatchApply. auto 8 with safe.
Qed.

(** ** What is applied *)
Context `{!ObjectServer U api}.

Lemma wrapped_Ok {A} m (c : C A) w a w' : c w = (Ok a, w') -> wrapped m c w = (Ok a, w').
Proof using Type. intros E. unfold wrapped, bindM, tryM. by rewrite E. Qed.

Definition paKey (pa : PeerAuthentication) : key := (tmKind (paType pa), omNamespace (paMeta pa), omName (paMeta pa)).

(** The conversion keeps the identity of the object. *)
Context (convert : PeerAuthentication -> U) (Hconvert : forall pa, ToUnstructured pa = inl (convert pa) /\ unstructuredKey (convert pa) = paKey pa).

(** The object under the key of [pa] is [pa] applied to what was there. *)
Definition applied_in (pa : PeerAuthentication) (s s' : store U) : Prop :=
  objects s' !! paKey pa = Some (serverSideApply (objects s !! paKey pa) (AUnstructured (convert pa))).

Lemma apply_run m pa w : exists w', wrapped m (Client.PatchApplyPeerAuthentication api pa) w = (Ok tt, w') /\
  store_of (hist w') =
    on_objects (insert (paKey pa) (serverSideApply (objects (store_of (hist w)) !! paKey pa) (AUnstructured (convert pa)))) (store_of (hist w)).
Proof using Hconvert.
  destruct (Hconvert pa) as [Hc Hk]. destruct (perform_implements api (OpPatchApplyPeerAuthentication pa) w) as (w' & E & Hs & _).
  cbn [perform specify] in E, Hs. rewrite Hc in E, Hs. exists w'. split; [by apply wrapped_Ok|].
  rewrite Hs. unfold apply_to. cbn [key_of snd]. by rewrite Hk.
Qed.

End sync.

(** ** Whom the PeerAuthentication of the publisher proxy is for *)
Definition selects (pa : PeerAuthentication) (labels : option (gmap string string)) : Prop :=
  exists l, labels = Some l /\ paMatchLabels pa ⊆ l.

Lemma publisher_name_iff e : GetPublisherDeploymentName e = "eventing-publisher-proxy" <-> eName e = "eventing".
Proof.
  unfold GetPublisherDeploymentName, publisherProxySuffix. split; [|by intros ->].
  change "eventing-publisher-proxy" with ("eventing" +:+ "-publisher-proxy"). change ("-" +:+ "publisher-proxy") with "-publisher-proxy".
  intros E. apply (app_inj_len _ _ _ _) in E as [E _]; [done|]. apply (f_equal len) in E. rewrite !len_app in E. lia.
Qed.

(** The PeerAuthentication selects the pods of the publisher proxy exactly when the Eventing resource is called "eventing", and
    the port it opens is the one of the metrics. *)
Theorem publisher_metrics_open e n cfg t d namespace ref : wanted e n cfg t = Some d ->
  let pa := EventPublisherProxyMetrics namespace ref in
  (selects pa (omLabels (tMeta (dTemplate (dSpec d)))) <-> eName e = "eventing") /\
  paPortLevelMtls pa = {[publisherMetricsPortNum := PERMISSIVE]} /\
  exists c, pContainers (tSpec (dTemplate (dSpec d))) = [c] /\ publisherMetricsPortNum ∈ (cpPort <$> cPorts c).
Proof.
  intros Hd pa. split; [|split; [done|]].
  - rewrite (wanted_labels _ _ _ _ _ Hd), <- publisher_name_iff. unfold selects, pa, EventPublisherProxyMetrics. cbn [paMatchLabels].
    assert (getLabels (GetPublisherDeploymentName e) t !! appKubernetesNameLabel = Some (GetPublisherDeploymentName e)) as Hl by done.
    split.
    + intros (l & [= <-] & Hs). rewrite map_singleton_subseteq_l in Hs. congruence.
    + intros E. eexists. split; [done|]. rewrite map_singleton_subseteq_l. congruence.
  - destruct (epp_container _ _ _ (wanted_shape _ _ _ _ _ Hd)) as (c & Hc & _ & _ & Hp). exists c. split; [done|]. rewrite Hp.
    apply elem_of_cons. right. by apply list_elem_of_singleton.
Qed.

(** ** A cluster with Istio *)
Definition synced := SyncPeerAuthentications (plain_server a_cluster) (mkWorld (NewKubeClient "eventing-manager") []).


(** Every patch is forced, under the name of the field manager. *)
Example synced_requests : rev (hist synced.2) =
  [GetCustomResourceDefinition PeerAuthenticationCRDName; DynamicGet deploymentRes "kyma-system" "eventing-manager";
   Patch (AUnstructured (UPeerAuthentication (EventingManagerMetrics "kyma-system" (ownerReferences a_deployment)))) true "eventing-manager";
   Patch (AUnstructured (UPeerAuthentication (EventPublisherProxyMetrics "kyma-system" (ownerReferences a_deployment)))) true "eventing-manager"].
Proof. vm_compute. reflexivity. Qed.
