(* ===== verification/Connection.v ===== *)
(** * NATS connection of the operator: [internal/connection/nats]

    The connection the operator keeps to learn when NATS goes away and comes
    back.  [natsio] is the NATS library: its calls are the events of [connEvent], its
    connections are numbers, and a handler is the key of the Eventing resource it queues. *)

From S2P Require Import Prelude Effects GoStrings Errors.

Definition ErrCannotConnect := sentinel "nats.ErrCannotConnect" "cannot connect to NATS".
Definition ErrEmptyConnectionURL := sentinel "nats.ErrEmptyConnectionURL" "empty NATS connection URL".
Definition ErrEmptyConnectionName := sentinel "nats.ErrEmptyConnectionName" "empty NATS connection name".

Abbreviation handler := (string * string)%type.

Record connection := mkConnection {
  cURL : string;
  cConn : option nat;
  reconnectHandlerRegistered : bool;
  disconnectErrHandlerRegistered : bool
}.

Inductive connEvent :=
  | CConnect (url : string) (r : nat + goerr)
  | CIsConnected (conn : nat) (r : bool)
  | CIsClosed (conn : nat) (r : bool)
  | CClose (conn : nat)
  | CSetReconnectHandler (conn : nat) (h : handler)
  | CSetDisconnectErrHandler (conn : nat) (h : handler).

Record ConnEnv := mkConnEnv {
  c_Connect : list connEvent -> string -> nat + goerr;
  c_IsConnected : list connEvent -> nat -> bool;
  c_IsClosed : list connEvent -> nat -> bool
}.

(** [NewBuilder] and [Build]. *)
Definition NewBuilder (url name : string) : string + goerr :=
  if is_blank url then inr ErrEmptyConnectionURL
  else if is_blank name then inr ErrEmptyConnectionName
  else inl url.
Definition Build (url : string) : connection := mkConnection url None false false.

Section connection.
Context (env : ConnEnv).
Abbreviation C := (M (World connection connEvent)).

Definition set_cConn (c : connection) (conn : option nat) : connection :=
  mkConnection (cURL c) conn (reconnectHandlerRegistered c) (disconnectErrHandlerRegistered c).

Definition isConnected : C bool :=
  conn <- gets cConn ;;
  match conn with
  | None => retM false
  | Some n => call (CIsConnected n) (fun h => c_IsConnected env h n)
  end.

Definition registerReconnectHandler (handler : handler) : C unit :=
  c <- gets id ;;
  match cConn c with
  | Some n =>
      if reconnectHandlerRegistered c then retM tt
      else call (fun _ => CSetReconnectHandler n handler) (fun _ => tt) ;;;
           puts (fun c => mkConnection (cURL c) (cConn c) true (disconnectErrHandlerRegistered c))
  | None => retM tt
  end.

Definition registerDisconnectErrHandler (handler : handler) : C unit :=
  c <- gets id ;;
  match cConn c with
  | Some n =>
      if disconnectErrHandlerRegistered c then retM tt
      else call (fun _ => CSetDisconnectErrHandler n handler) (fun _ => tt) ;;;
           puts (fun c => mkConnection (cURL c) (cConn c) (reconnectHandlerRegistered c) true)
  | None => retM tt
  end.

(** [natsio.Connect] and what follows it.  The connection is assigned also when it fails: it is nil then. *)
Definition newConnection (connHandler connErrHandler : handler) : C unit :=
  url <- gets cURL ;;
  r <- call (CConnect url) (fun h => c_Connect env h url) ;;
  match r with
  | inr err => puts (fun c => set_cConn c None) ;;; errM err
  | inl n =>
      puts (fun c => set_cConn c (Some n)) ;;;
      registerReconnectHandler connHandler ;;;
      registerDisconnectErrHandler connErrHandler ;;;
      connected <- isConnected ;;
      if (connected : bool) then retM tt else errM ErrCannotConnect
  end.

Definition Connect (connHandler connErrHandler : handler) : C unit :=
  connected <- isConnected ;;
  if (connected : bool) then retM tt else newConnection connHandler connErrHandler.

Definition Disconnect : C unit :=
  conn <- gets cConn ;;
  match conn with
  | None => retM tt
  | Some n =>
      closed <- call (CIsClosed n) (fun h => c_IsClosed env h n) ;;
      if (closed : bool) then retM tt else call (fun _ => CClose n) (fun _ => tt)
  end.
End connection.

(** * Theorems *)
Section facts.
Context (env : ConnEnv).
Implicit Types (w : World connection connEvent).

(** Replace what happened in a run by membership in the events it added. *)
Ltac added_events w l :=
  lazymatch l with
  | hist w => constr:(@nil connEvent)
  | ?e :: ?l' => let p := added_events w l' in constr:(e :: p)
  end.
Ltac happened_list :=
  match goal with
  | |- context [happened ?w (mkWorld ?s ?l) _] => let p := added_events w l in setoid_rewrite (happened_app w s p)
  end.
Ltac solve_events :=
  repeat happened_list; rewrite ?elem_of_cons, ?not_elem_of_nil_iff; intuition congruence.

Lemma isConnected_run w : isConnected env w =
  match cConn (st w) with
  | None => (Ok false, w)
  | Some n => let b := c_IsConnected env (hist w) n in (Ok b, mkWorld (st w) (CIsConnected n b :: hist w))
  end.
Proof. unfold isConnected, bindM, gets. by destruct (cConn (st w)). Qed.

(** Both handlers have been registered. *)
Definition registered (c : connection) : Prop :=
  reconnectHandlerRegistered c = true /\ disconnectErrHandlerRegistered c = true.

(** What a call of [Connect] does: the state and the events, by cases. *)
Lemma Connect_cases h1 h2 w (P : outcome unit -> World connection connEvent -> Prop) :
  (forall n, cConn (st w) = Some n -> P (Ok tt) (mkWorld (st w) (CIsConnected n true :: hist w))) ->
  (forall l, l = [] \/ (exists n, l = [CIsConnected n false]) ->
    (forall err, P (Err err) (mkWorld (set_cConn (st w) None) (CConnect (cURL (st w)) (inr err) :: l ++ hist w))) /\
    (forall n b, P (if (b : bool) then Ok tt else Err ErrCannotConnect)
       (mkWorld (mkConnection (cURL (st w)) (Some n) true true)
          (CIsConnected n b ::
           ((if disconnectErrHandlerRegistered (st w) then [] else [CSetDisconnectErrHandler n h2]) ++
            (if reconnectHandlerRegistered (st w) then [] else [CSetReconnectHandler n h1]) ++
            CConnect (cURL (st w)) (inl n) :: l ++ hist w))))) ->
  P (Connect env h1 h2 w).1 (Connect env h1 h2 w).2.
Proof.
  intros H1 H2.
  assert (forall l, l = [] \/ (exists n, l = [CIsConnected n false]) ->
    let r := newConnection env h1 h2 (mkWorld (st w) (l ++ hist w)) in P r.1 r.2) as Hnew.
  { intros l Hl. destruct (H2 l Hl) as [He Ho].
    unfold newConnection, gets, bindM, call. cbn [st hist]. destruct (c_Connect _ _ _) as [n|err]; cbn [fst snd]; [|apply He].
    specialize (Ho n). unfold puts, registerReconnectHandler, registerDisconnectErrHandler, isConnected, gets, bindM, call, id.
    destruct (st w) as [u c r d]. cbn in *. destruct r, d; cbn in *; match goal with |- context [c_IsConnected env ?h n] =>
      specialize (Ho (c_IsConnected env h n)); destruct (c_IsConnected env h n); exact Ho end. }
  unfold Connect, bindM. rewrite isConnected_run. destruct (cConn (st w)) as [n|] eqn:Ec.
  - destruct (c_IsConnected env (hist w) n); [by apply H1|]. apply (Hnew [CIsConnected n false]). right. by exists n.
  - destruct w as [s0 hh]. apply (Hnew []). by left.
Qed.

(** How a call ended. *)
Definition connect_result w (o : outcome unit) w' : Prop :=
  match o with
  | Ok _ => exists n l, cConn (st w') = Some n /\ hist w' = CIsConnected n true :: l
  | Err err => (err = ErrCannotConnect /\ exists n l, cConn (st w') = Some n /\ hist w' = CIsConnected n false :: l) \/
               (cConn (st w') = None /\ exists l, hist w' = CConnect (cURL (st w)) (inr err) :: l)
  | Panic _ => False
  end.

(** The handlers of a connection [n] it made. *)
Definition handlers_of h1 h2 w w' (n : nat) : Prop :=
  registered (st w') /\
  (forall h, happened w w' (CSetReconnectHandler n h) <-> reconnectHandlerRegistered (st w) = false /\ h = h1) /\
  (forall h, happened w w' (CSetDisconnectErrHandler n h) <-> disconnectErrHandlerRegistered (st w) = false /\ h = h2).

End facts.
