(* ===== verification/Operator.v ===== *)
(** * Eventing operator: [internal/controller/operator/eventing]

    [Reconcile] of the Eventing resource and the functions it calls ([controller.go],
    [nats.go], [eventmesh.go], [status.go], [domain.go], [utils.go]).

    The state is the fields of the Go [Reconciler] that change, the connection to NATS
    ([Connection]), and the Eventing resource of the current call, which the Go code mutates through a
    pointer also on the paths that fail.  The eventing manager and the subscription managers are used
    through the interfaces [EventingManagerI] and [ManagerFactory], on a world of their own; their outcomes and
    all other requests are the events of [opEvent]. *)

From S2P Require Import Prelude Effects GoStrings Errors Utils Subscription Eventing Config EventMeshUtils ApiRule Objects Equality KubeClient PublisherProxy Connection.
From Stdlib Require Import Ascii.

(** ** The interfaces *)

(** [eventing.Manager], as the operator uses it. *)
Class EventingManagerI (W : Type) := {
  em_DeployPublisherProxy : Eventing -> option NATSConfig -> string -> M W Deployment;
  em_DeployPublisherProxyResources : Eventing -> Deployment -> M W unit;
  em_DeletePublisherProxyResources : Eventing -> M W unit;
  em_GetBackendConfig : W -> BackendConfig;
  em_SetBackendConfig : BackendConfig -> M W unit;
  em_SubscriptionExists : M W bool
}.

(** [manager.Params] of the EventMesh manager, and the credentials the operator remembers. *)
Record oauth2Credentials := mkCredentials { clientID : string; clientSecret : string; tokenURL : string; certsURL : string }.
#[global] Instance oauth2Credentials_eq_dec : EqDecision oauth2Credentials.
Proof. solve_decision. Defined.

(** [subscriptionmanager.ManagerFactory] and [manager.Manager].  A manager is an object: the first argument is
    its identity, a number no manager had before. *)
Class ManagerFactory (W : Type) := {
  mf_NewJetStreamManager : nat -> Eventing -> NATSConfig -> M W unit;
  mf_NewEventMeshManager : nat -> string -> M W unit;
  mgr_Init : nat -> M W unit;
  mgr_Start : nat -> DefaultSubscriptionConfig -> option oauth2Credentials -> M W unit;
  mgr_Stop : nat -> bool -> M W unit
}.

(** [hashstructure.Hash] of the NATS configuration and of a text. *)
Class ConfigHashing := {
  hashNATSConfig : DefaultSubscriptionConfig -> NATSConfig -> Z + goerr;
  hashText : string -> Z + goerr
}.

(** ** Data *)

(** [Message] ([service_instance_secret.go]). *)
Record Message := mkMessage {
  BrokerType : string; mClientID : string; mClientSecret : string; mGrantType : string; mTokenEndpoint : string; mURI : string }.

Record OpState (W : Type) := mkOp {
  deps : W;
  cr : Eventing;
  opConfig : BackendConfig;
  natsSubManager : option nat;
  eventMeshSubManager : option nat;
  isNATSSubManagerStarted : bool;
  isEventMeshSubManagerStarted : bool;
  credentials : oauth2Credentials;
  clusterScopedResourcesWatched : bool;
  natsWatchers : gmap string bool; (* by namespace: whether the watcher is started *)
  natsConnection : option (World connection connEvent);
  managersCreated : nat
}.
Arguments mkOp {W}. Arguments deps {W}. Arguments cr {W}. Arguments opConfig {W}. Arguments natsSubManager {W}.
Arguments eventMeshSubManager {W}. Arguments isNATSSubManagerStarted {W}. Arguments isEventMeshSubManagerStarted {W}.
Arguments credentials {W}. Arguments clusterScopedResourcesWatched {W}. Arguments natsWatchers {W}. Arguments natsConnection {W}.
Arguments managersCreated {W}.

Section setters.
Context {W : Type}.
Implicit Types (s : OpState W).
Definition set_deps (d : W) s : OpState W :=
  mkOp d (cr s) (opConfig s) (natsSubManager s) (eventMeshSubManager s) (isNATSSubManagerStarted s) (isEventMeshSubManagerStarted s)
    (credentials s) (clusterScopedResourcesWatched s) (natsWatchers s) (natsConnection s) (managersCreated s).
Definition upd_cr (f : Eventing -> Eventing) s : OpState W :=
  mkOp (deps s) (f (cr s)) (opConfig s) (natsSubManager s) (eventMeshSubManager s) (isNATSSubManagerStarted s) (isEventMeshSubManagerStarted s)
    (credentials s) (clusterScopedResourcesWatched s) (natsWatchers s) (natsConnection s) (managersCreated s).
Definition set_opConfig (c : BackendConfig) s : OpState W :=
  mkOp (deps s) (cr s) c (natsSubManager s) (eventMeshSubManager s) (isNATSSubManagerStarted s) (isEventMeshSubManagerStarted s)
    (credentials s) (clusterScopedResourcesWatched s) (natsWatchers s) (natsConnection s) (managersCreated s).
Definition set_nats (m : option nat) (started : bool) s : OpState W :=
  mkOp (deps s) (cr s) (opConfig s) m (eventMeshSubManager s) started (isEventMeshSubManagerStarted s)
    (credentials s) (clusterScopedResourcesWatched s) (natsWatchers s) (natsConnection s) (managersCreated s).
Definition set_eventMesh (m : option nat) (started : bool) s : OpState W :=
  mkOp (deps s) (cr s) (opConfig s) (natsSubManager s) m (isNATSSubManagerStarted s) started
    (credentials s) (clusterScopedResourcesWatched s) (natsWatchers s) (natsConnection s) (managersCreated s).
Definition set_credentials (c : oauth2Credentials) s : OpState W :=
  mkOp (deps s) (cr s) (opConfig s) (natsSubManager s) (eventMeshSubManager s) (isNATSSubManagerStarted s) (isEventMeshSubManagerStarted s)
    c (clusterScopedResourcesWatched s) (natsWatchers s) (natsConnection s) (managersCreated s).
Definition set_watched s : OpState W :=
  mkOp (deps s) (cr s) (opConfig s) (natsSubManager s) (eventMeshSubManager s) (isNATSSubManagerStarted s) (isEventMeshSubManagerStarted s)
    (credentials s) true (natsWatchers s) (natsConnection s) (managersCreated s).
Definition upd_watchers (f : gmap string bool -> gmap string bool) s : OpState W :=
  mkOp (deps s) (cr s) (opConfig s) (natsSubManager s) (eventMeshSubManager s) (isNATSSubManagerStarted s) (isEventMeshSubManagerStarted s)
    (credentials s) (clusterScopedResourcesWatched s) (f (natsWatchers s)) (natsConnection s) (managersCreated s).
Definition set_natsConnection (c : option (World connection connEvent)) s : OpState W :=
  mkOp (deps s) (cr s) (opConfig s) (natsSubManager s) (eventMeshSubManager s) (isNATSSubManagerStarted s) (isEventMeshSubManagerStarted s)
    (credentials s) (clusterScopedResourcesWatched s) (natsWatchers s) c (managersCreated s).
Definition count_manager s : OpState W :=
  mkOp (deps s) (cr s) (opConfig s) (natsSubManager s) (eventMeshSubManager s) (isNATSSubManagerStarted s) (isEventMeshSubManagerStarted s)
    (credentials s) (clusterScopedResourcesWatched s) (natsWatchers s) (natsConnection s) (S (managersCreated s)).
End setters.

Inductive opEvent :=
  | OpGet (namespace name : string) (r : Eventing + goerr)
  | OpWatch (what : string) (r : option goerr)
  | OpWatcherStart (namespace : string)
  | OpWatcherStop (namespace : string)
  | OpUpdate (e : Eventing) (r : option goerr)
  | OpStatusUpdate (e : Eventing) (r : option goerr)
  | OpGetCRD (name : string) (r : option goerr)
  | OpGetDeployment (name namespace : string) (r : Deployment + goerr)
  | OpDelete (kind name namespace : string) (r : option goerr)
  | OpGetSecret (namespace name : string) (r : Secret + goerr)
  | OpGetConfigMap (name namespace : string) (r : gmap string string + goerr)
  | OpPatchSecret (s : Secret) (r : Secret + goerr)
  | OpListNATS (namespace : string) (r : list (string * string) + goerr)
  | OpReadNATSConfig (r : NATSConfig + goerr)
  | OpSetenv (name value : string) (r : option goerr)
  | OpConnect (r : option goerr)
  | OpDisconnect
  | OpDeploy (backendType : string) (r : Deployment + goerr)
  | OpDeployResources (r : unit + goerr)
  | OpDeleteResources (r : unit + goerr)
  | OpSubscriptionExists (r : bool + goerr)
  | OpNewJetStreamManager (id : nat) (r : unit + goerr)
  | OpNewEventMeshManager (id : nat) (domain : string) (r : unit + goerr)
  | OpInit (id : nat) (r : unit + goerr)
  | OpStart (id : nat) (r : unit + goerr)
  | OpStop (id : nat) (runCleanup : bool) (r : unit + goerr).

(** A NATS resource of the answer to [GetNATSResources] is its name and its namespace. *)
Record OpEnv := mkOpEnv {
  o_now : list opEvent -> Z;
  o_Get : list opEvent -> string -> string -> Eventing + goerr;
  o_Watch : list opEvent -> string -> option goerr;
  o_Update : list opEvent -> Eventing -> option goerr;
  o_StatusUpdate : list opEvent -> Eventing -> option goerr;
  o_GetCRD : list opEvent -> string -> option goerr;
  o_GetDeployment : list opEvent -> string -> string -> Deployment + goerr;
  o_Delete : list opEvent -> string -> string -> string -> option goerr;
  o_GetSecret : list opEvent -> string -> string -> Secret + goerr;
  o_GetConfigMap : list opEvent -> string -> string -> gmap string string + goerr;
  o_PatchSecret : list opEvent -> Secret -> Secret + goerr;
  o_ListNATS : list opEvent -> string -> list (string * string) + goerr;
  o_NATSConfig : list opEvent -> NATSConfig + goerr;
  o_Setenv : list opEvent -> string -> string -> option goerr
}.

(** [kctrl.Result]. *)
Record KResult := mkResult { Requeue : bool; RequeueAfter : Z }.
Definition noRequeue : KResult := mkResult false 0.
Definition OpResult : Type := KResult * option goerr.

(** ** Constants *)
Definition FinalizerName := "eventing.operator.kyma-project.io/finalizer".
Definition natsClientPort := "4222".
Definition PublisherSecretEMSHostKey := "ems-publish-host".
Definition NamespacePrefix := "/".
Definition EventMeshPublishEndpointForSubscriber := "/sap/ems/v1".
Definition EventMeshPublishEndpointForPublisher := "/sap/ems/v1/events".
Definition ErrSubscriptionExists := sentinel "eventing.ErrSubscriptionExists" "cannot delete the eventing module as subscription exists".
Definition ErrUnsupportedBackedType := sentinel "eventing.ErrUnsupportedBackedType" "backend type not supported".
Definition ErrNatsModuleMissing := sentinel "eventing.ErrNatsModuleMissing" "NATS module has to be installed".
Definition ErrAPIGatewayModuleMissing := sentinel "eventing.ErrAPIGatewayModuleMissing"
  "API-Gateway module is needed for EventMesh backend. APIRules CRD is not installed".
Definition ErrCannotBuildNATSURL := sentinel "eventing.ErrCannotBuildNATSURL" "NATS CR is not found to build NATS server URL".
Definition EMSecretMessagingMissing := "messaging is missing from EM secret".
Definition EMSecretNamespaceMissing := "namespace is missing from EM secret".
Definition ErrEventMeshSecretMissing := sentinel "eventing.ErrEventMeshSecretMissing"
  "The specified EventMesh secret is not found. Please provide an existing secret.".
Definition ErrEventMeshSecretMalformatted := sentinel "eventing.ErrEventMeshSecretMalformatted"
  "The EventMesh secret data is not formatted properly.".
Definition ErrDomainConfigMissing := sentinel "eventing.ErrDomainConfigMissing" "domain configuration missing".
Definition secretKeyClientID := "client_id".
Definition secretKeyClientSecret := "client_secret".
Definition secretKeyTokenURL := "token_url".
Definition secretKeyCertsURL := "certs_url".
Definition shootInfoConfigMapName := "shoot-info".
Definition shootInfoConfigMapNamespace := "kube-system".
Definition shootInfoConfigMapKeyDomain := "domain".
Definition RequeueTimeForStatusCheck : Z := 10.
Definition NatsCRDName := "nats.operator.kyma-project.io".
Definition ApplicationCrdName := "applications.applicationconnector.kyma-project.io".
Definition APIRuleCrdName := "apirules.gateway.kyma-project.io".

(** ** Pure functions *)

(** [newMalformattedSecretErr]: the text and the sentinel, wrapped. *)
Definition newMalformattedSecretErr (e : string) : goerr := wrapf e ErrEventMeshSecretMalformatted.
Definition IsMalformattedSecretErr (e : goerr) : bool := errors_Is e (kind_of ErrEventMeshSecretMalformatted).

Definition getSecretStringData (clientID clientSecret tokenEndpoint grantType publishURL namespace : string) : gmap string string :=
  {[PublisherSecretClientIDKey := clientID;
    PublisherSecretClientSecretKey := clientSecret;
    PublisherSecretTokenEndpointKey := tokenEndpoint +:+ "?grant_type=" +:+ grantType +:+ "&response_type=token";
    PublisherSecretEMSURLKey := publishURL +:+ EventMeshPublishEndpointForPublisher;
    PublisherSecretEMSHostKey := publishURL;
    PublisherSecretBEBNamespaceKey := namespace]}.

Definition newSecret (name namespace : string) : Secret := mkSecret (named name namespace None) ∅ ∅.

(** The checks of the first message of the REST broker: what is missing. *)
Definition missingIn (m : Message) : option string :=
  if String.eqb (mClientID m) "" then Some "client ID is missing"
  else if String.eqb (mClientSecret m) "" then Some "client secret is missing"
  else if String.eqb (mTokenEndpoint m) "" then Some "tokenendpoint is missing"
  else if String.eqb (mGrantType m) "" then Some "granttype is missing"
  else if String.eqb (mURI m) "" then Some "publish URL is missing"
  else None.

(** The loop over the messages. *)
Fixpoint fillSecret (secret : Secret) (messages : list Message) (namespaceBytes : string) : Secret + goerr :=
  match messages with
  | [] => inl secret
  | msg :: messages =>
      if String.eqb (BrokerType msg) "saprestmgw" then
        match missingIn msg with
        | Some what => inr (newMalformattedSecretErr what)
        | None => inl (mkSecret (seMeta secret) (seData secret)
            (getSecretStringData (mClientID msg) (mClientSecret msg) (mTokenEndpoint msg) (mGrantType msg) (mURI msg) namespaceBytes))
        end
      else fillSecret secret messages namespaceBytes
  end.

(** [fmt.Errorf] with the format of [domain.go]. *)
Definition quoted (s : string) : string := String dquote s +:+ String dquote "".
Definition domainMissingText : string :=
  Error ErrDomainConfigMissing +:+ ". domain must be configured in either the Eventing CustomResource under " +:+
  quoted "Spec.Backend.Config.Domain" +:+ " or in the ConfigMap " +:+
  quoted (shootInfoConfigMapNamespace +:+ "/" +:+ shootInfoConfigMapName) +:+ " under " +:+ quoted ("data." +:+ shootInfoConfigMapKeyDomain).
Definition domainMissingError (err : option goerr) : goerr :=
  match err with
  | Some err => GoErr ENew (domainMissingText +:+ ": " +:+ Error err) [ErrDomainConfigMissing; err]
  | None => GoErr ENew domainMissingText [ErrDomainConfigMissing]
  end.

(** [None]: a nil deployment or a nil number of replicas is dereferenced. *)
Definition IsDeploymentReady (deployment : option Deployment) : option bool :=
  d ← deployment;
  n ← dReplicas (dSpec d);
  Some ((AvailableReplicas (dStatus d) =? n)%Z && (ReadyReplicas (dStatus d) =? n)%Z && (UpdatedReplicas (dStatus d) =? n)%Z).

(** [Semantic.DeepEqual] of two objects of one kind. *)
Definition semanticDeepEqual (a b : Object_) : option bool :=
  match a, b with
  | ODeployment a, ODeployment b => Some (publisherProxyDeploymentEqual (Some a) (Some b))
  | OServiceAccount a, OServiceAccount b => Some (serviceAccountEqual (Some a) (Some b))
  | OClusterRole a, OClusterRole b => Some (clusterRoleEqual (Some a) (Some b))
  | OClusterRoleBinding a, OClusterRoleBinding b => Some (clusterRoleBindingEqual (Some a) (Some b))
  | OService a, OService b => Some (serviceEqual (Some a) (Some b))
  | OHPA a, OHPA b => hpaEqual (Some a) (Some b)
  | _, _ => Some false
  end.

(** Whether an update of a watched object queues a reconciliation. *)
Definition SkipEnqueueOnUpdateAfterSemanticCompare (nameFilter : string) (objectOld objectNew : Object_) : option bool :=
  if negb (Contains (omName (objMeta objectOld)) nameFilter) then Some false
  else equal ← semanticDeepEqual objectOld objectNew; Some (negb equal).

Definition isOauth2CredentialsInitialized_of (c : oauth2Credentials) : bool :=
  (0 <? len (clientID c))%nat && (0 <? len (clientSecret c))%nat && (0 <? len (tokenURL c))%nat && (0 <? len (certsURL c))%nat.

Definition emptyCredentials : oauth2Credentials := mkCredentials "" "" "" "".

(** [NewReconciler]. *)
Definition NewReconciler {W} (deps : W) (backendConfig : BackendConfig) (zero : Eventing) : OpState W :=
  mkOp deps zero backendConfig None None false false emptyCredentials false ∅ None 0.

Section operator.
Context {W : Type} `{EventingManagerI W} `{ManagerFactory W} `{ConfigHashing} `{StatusConditions}.
Context (env : OpEnv) (connEnv : ConnEnv) (natsURL : string) (allowedEventingCR : option (string * string)).
(** [json.Unmarshal] of the messages of the EventMesh secret. *)
Context (unmarshalMessages : string -> list Message + goerr).

Abbreviation R := (M (World (OpState W) opEvent)).

(** ** Calls of the dependencies *)

(** Run a call of a dependency on its own world; log how it ended. *)
Definition onDeps {A} (ev : A + goerr -> opEvent) (c : M W A) : R (A + goerr) :=
  r <- tryM (fun w => let '(o, d) := c (deps (st w)) in (o, mkWorld (set_deps d (st w)) (hist w))) ;;
  call (fun _ => ev r) (fun _ => r).
Definition onDepsM {A} (ev : A + goerr -> opEvent) (c : M W A) : R A := r <- onDeps ev c ;; okOr r.

Definition onow : R Z := fun w => (Ok (o_now env (hist w)), w).

(** [eventing.Status = f(eventing.Status)]. *)
Definition updStatus (f : EventingStatus -> EventingStatus) : R unit := puts (upd_cr (fun e => set_eStatus e (f (eStatus e)))).
Definition updStatusNow (f : Z -> EventingStatus -> EventingStatus) : R unit := t <- onow ;; updStatus (f t).

(** A pointer that is read. *)
Definition backendOf (e : Eventing) : R BackendSpec := orPanic (eBackend (eSpec e)) nilDereference.

(** ** [status.go] *)
Definition InitStateProcessing : R unit :=
  e <- gets cr ;;
  if String.eqb (State (eStatus e)) "" then updStatus SetStateProcessing else retM tt.

Definition updateStatus (oldEventing newEventing : Eventing) : R unit :=
  let newEventing := set_eStatus newEventing (RemoveUnsupportedConditions (eStatus newEventing)) in
  if EventingStatus_IsEqual (eStatus oldEventing) (eStatus newEventing) then retM tt
  else r <- call (OpStatusUpdate newEventing) (fun h => o_StatusUpdate env h newEventing) ;; returnErr r.

Definition syncEventingStatus : R unit :=
  e <- gets cr ;;
  r <- call (OpGet (eNamespace e) (eName e)) (fun h => o_Get env h (eNamespace e) (eName e)) ;;
  actualEventing <- okOr r ;;
  updateStatus actualEventing (set_eStatus actualEventing (eStatus e)).

(** [errors.Join(err, r.syncEventingStatus(...))]. *)
Definition joinSync (err : goerr) : R goerr :=
  e <- errOf syncEventingStatus ;; retM (default err (errors_Join [Some err; e])).

Definition syncStatusWithNATSState (state : string) (err : goerr) : R goerr :=
  updStatusNow (fun t es => UpdateConditionBackendAvailable t (set_State es state) KFalse ConditionReasonNATSNotAvailable (Error err)) ;;;
  joinSync err.
Definition syncStatusWithNATSErr (err : goerr) : R goerr := syncStatusWithNATSState StateError err.

Definition syncStatusForEmptyBackend (message : string) : R unit :=
  updStatusNow (fun t es => UpdateConditionBackendAvailable t (SetStateWarning es) KFalse ConditionReasonBackendNotSpecified message) ;;;
  syncEventingStatus.

Definition syncStatusWithPublisherProxyErrWithReason (reason : string) (err : goerr) : R goerr :=
  updStatusNow (fun t es => UpdateConditionPublisherProxyReady t (SetStateError es) KFalse reason (Error err)) ;;; joinSync err.
Definition syncStatusWithPublisherProxyErr (err : goerr) : R goerr :=
  syncStatusWithPublisherProxyErrWithReason ConditionReasonDeployedFailed err.

Definition syncStatusWithSubscriptionManagerErrWithReason (reason : string) (err : goerr) : R goerr :=
  updStatusNow (fun t es => UpdateConditionSubscriptionManagerReady t (SetStateError es) KFalse reason (Error err)) ;;; joinSync err.
Definition syncStatusWithSubscriptionManagerErr (err : goerr) : R goerr :=
  syncStatusWithSubscriptionManagerErrWithReason ConditionReasonEventMeshSubManagerFailed err.

Definition syncSubManagerStatusWithNATSState (state : string) (err : goerr) : R goerr :=
  updStatusNow (fun t es => UpdateConditionSubscriptionManagerReady t (set_State es state) KFalse
    ConditionReasonEventMeshSubManagerFailed (Error err)) ;;; joinSync err.

Definition syncStatusWithSubscriptionManagerFailedCondition (err : goerr) : R unit :=
  updStatusNow (fun t es => UpdateConditionSubscriptionManagerReady t (SetStateError es) KFalse
    ConditionReasonEventMeshSubManagerFailed (Error err)) ;;;
  syncEventingStatus.

Definition syncStatusWithDeletionErr (err : goerr) : R goerr :=
  updStatusNow (fun t es => UpdateConditionDeletion t es KFalse ConditionReasonDeletionError (Error err)) ;;; joinSync err.

(** [return kctrl.Result{}, err]. *)
Definition failWith (e : R goerr) : R OpResult := err <- e ;; retM (noRequeue, Some err).
Definition finishWith (k : KResult) (c : R unit) : R OpResult := err <- errOf c ;; retM (k, err).

Definition getDeployment (name namespace : string) : R (option Deployment + goerr) :=
  r <- call (OpGetDeployment name namespace) (fun h => o_GetDeployment env h name namespace) ;; retM (KubeClient.GetDeployment r).

Definition handleEventingState (deployment : Deployment) : R OpResult :=
  updStatus ClearPublisherService ;;;
  r <- getDeployment (omName (dMeta deployment)) (omNamespace (dMeta deployment)) ;;
  match r with
  | inr err =>
      updStatusNow (fun t es => UpdateConditionPublisherProxyReady t es KFalse ConditionReasonDeploymentStatusSyncFailed (Error err)) ;;;
      failWith (syncStatusWithPublisherProxyErr err)
  | inl deployment =>
      ready <- orPanic (IsDeploymentReady deployment) nilDereference ;;
      if negb ready then
        updStatusNow (fun t es => UpdateConditionPublisherProxyReady t (SetStateProcessing es) KFalse ConditionReasonProcessing
          ConditionPublisherProxyProcessingMessage) ;;;
        finishWith (mkResult false (RequeueTimeForStatusCheck * 1000000000)) syncEventingStatus
      else
        updStatusNow SetPublisherProxyReadyToTrue ;;;
        e <- gets cr ;;
        updStatus (fun es => SetPublisherService es (GetPublisherPublishServiceName e) (eNamespace e)) ;;;
        finishWith noRequeue syncEventingStatus
  end.

(** ** [utils.go] *)
Definition containsFinalizer (e : Eventing) : bool := bool_decide (FinalizerName ∈ eFinalizers e).
(** [controllerutil.AddFinalizer] and [RemoveFinalizer]. *)
Definition withFinalizer (e : Eventing) : Eventing :=
  if containsFinalizer e then e else set_eFinalizers e (eFinalizers e ++ [FinalizerName])%list.
Definition withoutFinalizer (e : Eventing) : Eventing := set_eFinalizers e (filter (fun f => f <> FinalizerName) (eFinalizers e)).

Definition updateCR : R OpResult :=
  e <- gets cr ;;
  r <- call (OpUpdate e) (fun h => o_Update env h e) ;; retM (noRequeue, r).
Definition addFinalizer : R OpResult := puts (upd_cr withFinalizer) ;;; updateCR.
Definition removeFinalizer : R OpResult := puts (upd_cr withoutFinalizer) ;;; updateCR.

Definition getNATSBackendConfigHash (defaults : DefaultSubscriptionConfig) (natsConfig : NATSConfig) : Z + goerr :=
  match hashNATSConfig defaults natsConfig with inl h => inl (int64_of_uint64 h) | inr err => inr err end.
Definition getEventMeshBackendConfigHash (eventMeshSecret eventTypePrefix domain : string) : Z + goerr :=
  match hashText ("[" +:+ eventMeshSecret +:+ "][" +:+ eventTypePrefix +:+ "][" +:+ domain +:+ "]") with
  | inl h => inl (int64_of_uint64 h) | inr err => inr err end.

(** ** [nats.go] *)
Definition getNATSUrl (namespace : string) : R string :=
  r <- call (OpListNATS namespace) (fun h => o_ListNATS env h namespace) ;;
  natsList <- okOr r ;;
  match natsList with
  | (name, ns) :: _ => retM ("nats://" +:+ name +:+ "." +:+ ns +:+ ".svc.cluster.local:" +:+ natsClientPort)
  | [] => errM ErrCannotBuildNATSURL
  end.

Definition GetNatsConfig : R NATSConfig :=
  e <- gets cr ;;
  r <- call OpReadNATSConfig (fun h => o_NATSConfig env h) ;;
  natsConfig <- okOr r ;;
  url <- getNATSUrl (eNamespace e) ;;
  b <- backendOf e ;;
  let c := bConfig b in
  retM {| URL := url; MaxReconnects := MaxReconnects natsConfig; ReconnectWait := ReconnectWait natsConfig;
          EventTypePrefix := cEventTypePrefix c; MaxIdleConns := MaxIdleConns natsConfig; MaxConnsPerHost := MaxConnsPerHost natsConfig;
          MaxIdleConnsPerHost := MaxIdleConnsPerHost natsConfig; IdleConnTimeout := IdleConnTimeout natsConfig;
          JSStreamName := JSStreamName natsConfig; JSSubjectPrefix := JSSubjectPrefix natsConfig;
          JSStreamStorageType := NATSStreamStorageType c; JSStreamReplicas := NATSStreamReplicas c;
          JSStreamRetentionPolicy := JSStreamRetentionPolicy natsConfig; JSStreamMaxMessages := JSStreamMaxMessages natsConfig;
          JSStreamMaxBytes := NATSStreamMaxSize c; JSStreamMaxMsgsPerTopic := NATSMaxMsgsPerTopic c;
          JSStreamDiscardPolicy := JSStreamDiscardPolicy natsConfig; JSConsumerDeliverPolicy := JSConsumerDeliverPolicy natsConfig |}.

Definition getDefaultSubscriptionConfig : R DefaultSubscriptionConfig :=
  d <- gets deps ;; retM (bcDefaultSubscriptionConfig (em_GetBackendConfig d)).

Definition stopNATSSubManager (runCleanup : bool) : R unit :=
  m <- gets natsSubManager ;;
  started <- gets isNATSSubManagerStarted ;;
  match m with
  | None => retM tt
  | Some id =>
      if negb started then retM tt
      else onDepsM (OpStop id runCleanup) (mgr_Stop id runCleanup) ;;; puts (set_nats None false)
  end.

Definition startNATSSubManager (defaultSubsConfig : DefaultSubscriptionConfig) : R unit :=
  m <- gets natsSubManager ;;
  id <- orPanic m nilDereference ;;
  onDepsM (OpStart id) (mgr_Start id defaultSubsConfig None) ;;;
  puts (fun s => set_nats (natsSubManager s) true s).

(** The identity of a new manager. *)
Definition newManagerId : R nat := id <- gets managersCreated ;; puts count_manager ;;; retM id.

Definition reconcileNATSSubManager : R unit :=
  defaultSubsConfig <- getDefaultSubscriptionConfig ;;
  natsConfig <- GetNatsConfig ;;
  specHash <- okOr (getNATSBackendConfigHash defaultSubsConfig natsConfig) ;;
  e <- gets cr ;;
  started <- gets isNATSSubManagerStarted ;;
  (if negb (BackendConfigHash (eStatus e) =? specHash)%Z && started then stopNATSSubManager false
   else if negb (BackendConfigHash (eStatus e) =? specHash)%Z then puts (fun s => set_nats None (isNATSSubManagerStarted s) s)
   else retM tt) ;;;
  m <- gets natsSubManager ;;
  (match m with
   | Some _ => retM tt
   | None =>
       id <- newManagerId ;;
       onDepsM (OpNewJetStreamManager id) (mf_NewJetStreamManager id e natsConfig) ;;;
       onDepsM (OpInit id) (mgr_Init id) ;;;
       puts (fun s => set_nats (Some id) (isNATSSubManagerStarted s) s)
   end) ;;;
  started <- gets isNATSSubManagerStarted ;;
  if (started : bool) then retM tt
  else startNATSSubManager defaultSubsConfig ;;; updStatus (fun es => set_BackendConfigHash es specHash).

(** ** [eventmesh.go] and [domain.go] *)
Definition stopEventMeshSubManager (runCleanup : bool) : R unit :=
  m <- gets eventMeshSubManager ;;
  started <- gets isEventMeshSubManagerStarted ;;
  match m with
  | None => retM tt
  | Some id =>
      if negb started then retM tt
      else onDepsM (OpStop id runCleanup) (mgr_Stop id runCleanup) ;;; puts (set_eventMesh None false)
  end.

Definition startEventMeshSubManager (defaultSubsConfig : DefaultSubscriptionConfig) (params : oauth2Credentials) : R unit :=
  m <- gets eventMeshSubManager ;;
  id <- orPanic m nilDereference ;;
  onDepsM (OpStart id) (mgr_Start id defaultSubsConfig (Some params)) ;;;
  puts (fun s => set_eventMesh (eventMeshSubManager s) true s).

Definition getSecret (namespacedName : string) : R Secret :=
  key <- okOr (GetSecret_key namespacedName) ;;
  r <- call (OpGetSecret key.1 key.2) (fun h => o_GetSecret env h key.1 key.2) ;; okOr r.

Definition getSecretForPublisher (eventMeshSecret : Secret) (ns : string) : Secret + goerr :=
  let secret := mkSecret (set_omLabels (Some {[KeyName := ValueEventingPublisherProxy]}) (seMeta (newSecret PublisherName ns))) ∅ ∅ in
  match seData eventMeshSecret !! "namespace" with
  | None => inr (newMalformattedSecretErr EMSecretNamespaceMissing)
  | Some namespaceBytes =>
      match seData eventMeshSecret !! "messaging" with
      | None => inr (newMalformattedSecretErr EMSecretMessagingMissing)
      | Some messagingBytes =>
          match unmarshalMessages messagingBytes with
          | inr err => inr (newMalformattedSecretErr (Error err))
          | inl messages => fillSecret secret messages namespaceBytes
          end
      end
  end.

(** The secret as the API server returned it. *)
Definition SyncPublisherProxySecret (eventingNS : string) (secret : Secret) : R Secret :=
  match getSecretForPublisher secret eventingNS with
  | inr err => errM (wrapf "invalid secret for Event Publisher" err)
  | inl desiredSecret =>
      r <- call (OpPatchSecret desiredSecret) (fun h => o_PatchSecret env h desiredSecret) ;; okOr r
  end.

Definition dataKey (s : Secret) (secretName key : string) : R string :=
  match seData s !! key with
  | Some v => retM v
  | None => errM (errors_New ("key '" +:+ key +:+ "' not found in secret " +:+ secretName))
  end.

Definition getOAuth2ClientCredentials (secretNamespace : string) : R oauth2Credentials :=
  config <- gets opConfig ;;
  let secretName := secretNamespace +:+ "/" +:+ EventingWebhookAuthSecretName config in
  oauth2Secret <- getSecret secretName ;;
  clientID <- dataKey oauth2Secret secretName secretKeyClientID ;;
  clientSecret <- dataKey oauth2Secret secretName secretKeyClientSecret ;;
  tokenURL <- dataKey oauth2Secret secretName secretKeyTokenURL ;;
  certsURL <- dataKey oauth2Secret secretName secretKeyCertsURL ;;
  retM (mkCredentials clientID clientSecret tokenURL certsURL).

Definition isOauth2CredentialsInitialized : R bool :=
  c <- gets credentials ;; retM (isOauth2CredentialsInitialized_of c).

Definition oauth2Message : string := "Stopping the EventMesh subscription manager due to change in OAuth2 oauth2credentials".

Definition syncOauth2ClientIDAndSecret : R unit :=
  e <- gets cr ;;
  r <- tryM (getOAuth2ClientCredentials (eNamespace e)) ;;
  match r with
  | inr err =>
      if negb (IsNotFound err) then errM err
      else
        stopEventMeshSubManager true ;;;
        syncStatusWithSubscriptionManagerFailedCondition (errors_New oauth2Message) ;;;
        errM err
  | inl new =>
      initialized <- isOauth2CredentialsInitialized ;;
      old <- gets credentials ;;
      let oauth2CredentialsChanged := initialized && negb (bool_decide (old = new)) in
      (if oauth2CredentialsChanged then
         stopEventMeshSubManager true ;;;
         syncStatusWithSubscriptionManagerFailedCondition (errors_New oauth2Message)
       else retM tt) ;;;
      if oauth2CredentialsChanged || negb initialized then puts (set_credentials new) else retM tt
  end.

Definition setenv (name value : string) : R unit :=
  r <- call (OpSetenv name value) (fun h => o_Setenv env h name value) ;;
  match r with
  | Some err => errM (wrapf ("set " +:+ name +:+ " env var failed") err)
  | None => retM tt
  end.

Definition secretValue (s : Secret) (key : string) : string := default "" (seData s !! key).

Definition setUpEnvironmentForEventMesh (secret : Secret) : R unit :=
  setenv "BEB_API_URL" (secretValue secret PublisherSecretEMSHostKey +:+ EventMeshPublishEndpointForSubscriber) ;;;
  setenv "CLIENT_ID" (secretValue secret PublisherSecretClientIDKey) ;;;
  setenv "CLIENT_SECRET" (secretValue secret PublisherSecretClientSecretKey) ;;;
  setenv "TOKEN_ENDPOINT" (secretValue secret PublisherSecretTokenEndpointKey) ;;;
  setenv "BEB_NAMESPACE" (NamespacePrefix +:+ secretValue secret PublisherSecretBEBNamespaceKey) ;;;
  e <- gets cr ;;
  b <- backendOf e ;;
  setenv "EVENT_TYPE_PREFIX" (cEventTypePrefix (bConfig b)).

Definition readDomainFromConfigMap : R string :=
  r <- call (OpGetConfigMap shootInfoConfigMapName shootInfoConfigMapNamespace)
         (fun h => o_GetConfigMap env h shootInfoConfigMapName shootInfoConfigMapNamespace) ;;
  cm <- okOr r ;;
  retM (default "" (cm !! shootInfoConfigMapKeyDomain)).

Definition checkDomain (domain : string) : R string :=
  if IsEmpty domain then
    r <- tryM readDomainFromConfigMap ;;
    match r with
    | inr err => errM (domainMissingError (Some err))
    | inl cmDomain => if IsEmpty cmDomain then errM (domainMissingError None) else retM cmDomain
    end
  else retM domain.

(** What follows the credentials, the secret, the environment and the domain. *)
Definition replaceEventMeshSubManager (domain : string) : R unit :=
  e <- gets cr ;;
  b <- backendOf e ;;
  defaultSubsConfig <- getDefaultSubscriptionConfig ;;
  eventMeshSubMgrParams <- gets credentials ;;
  specHash <- okOr (getEventMeshBackendConfigHash (EventMeshSecret (bConfig b)) (cEventTypePrefix (bConfig b)) domain) ;;
  (if negb (BackendConfigHash (eStatus e) =? specHash)%Z then stopEventMeshSubManager false else retM tt) ;;;
  m <- gets eventMeshSubManager ;;
  (match m with
   | Some _ => retM tt
   | None =>
       id <- newManagerId ;;
       onDepsM (OpNewEventMeshManager id domain) (mf_NewEventMeshManager id domain) ;;;
       onDepsM (OpInit id) (mgr_Init id) ;;;
       puts (fun s => set_eventMesh (Some id) (isEventMeshSubManagerStarted s) s)
   end) ;;;
  started <- gets isEventMeshSubManagerStarted ;;
  if (started : bool) then retM tt
  else startEventMeshSubManager defaultSubsConfig eventMeshSubMgrParams ;;; updStatus (fun es => set_BackendConfigHash es specHash).

(** The error of a step with a message around it. *)
Definition wrapM {A} (m : string) (c : R A) : R A := r <- tryM c ;; match r with inr err => errM (wrapf m err) | inl a => retM a end.

Definition reconcileEventMeshSubManager (eventMeshSecret : Secret) : R unit :=
  wrapM "failed to sync OAuth secret" syncOauth2ClientIDAndSecret ;;;
  e <- gets cr ;;
  secretForPublisher <- wrapM "failed to sync Publisher Proxy secret" (SyncPublisherProxySecret (eNamespace e) eventMeshSecret) ;;
  wrapM "failed to setup environment variables for EventMesh controller" (setUpEnvironmentForEventMesh secretForPublisher) ;;;
  e <- gets cr ;;
  b <- backendOf e ;;
  domain <- checkDomain (Domain (bConfig b)) ;;
  replaceEventMeshSubManager domain.

(** ** [controller.go] *)
Definition watchResource (what : string) : R unit :=
  r <- call (OpWatch what) (fun h => o_Watch env h what) ;; returnErr r.

Definition startNATSCRWatch : R unit :=
  e <- gets cr ;;
  watchers <- gets natsWatchers ;;
  let found := watchers !! eNamespace e in
  match found with
  | Some true => retM tt
  | _ =>
      (match found with None => puts (upd_watchers (insert (eNamespace e) false)) | Some _ => retM tt end) ;;;
      watchResource ("NATS in " +:+ eNamespace e) ;;;
      call (fun _ => OpWatcherStart (eNamespace e)) (fun _ => tt) ;;;
      puts (upd_watchers (insert (eNamespace e) true))
  end.

Definition stopNATSCRWatch : R unit :=
  e <- gets cr ;;
  watchers <- gets natsWatchers ;;
  match watchers !! eNamespace e with
  | Some _ => call (fun _ => OpWatcherStop (eNamespace e)) (fun _ => tt) ;;; puts (upd_watchers (delete (eNamespace e)))
  | None => retM tt
  end.

(** A call of a method of the NATS connection, which is not nil. *)
Definition onConnection {A} (c : M (World connection connEvent) A) : R A := fun w =>
  match natsConnection (st w) with
  | None => (Panic nilDereference, w)
  | Some conn => let '(o, conn) := c conn in (o, mkWorld (set_natsConnection (Some conn) (st w)) (hist w))
  end.

(** Both handlers queue the Eventing resource of this call. *)
Definition connectToNATS : R (option goerr) :=
  c <- gets natsConnection ;;
  (match c with None => puts (set_natsConnection (Some (mkWorld (Build natsURL) []))) | Some _ => retM tt end) ;;;
  e <- gets cr ;;
  r <- errOf (onConnection (Connect connEnv (eNamespace e, eName e) (eNamespace e, eName e))) ;;
  call (fun _ => OpConnect r) (fun _ => r).

Definition disconnect : R unit :=
  c <- gets natsConnection ;;
  match c with
  | Some _ => onConnection (Disconnect connEnv) ;;; call (fun _ => OpDisconnect) (fun _ => tt)
  | None => retM tt
  end.

Definition ResetNATSConnection : R unit := disconnect ;;; puts (set_natsConnection None).

Definition deleteClusterObject (kind name : string) : R unit :=
  e <- gets cr ;;
  r <- call (OpDelete kind name (eNamespace e)) (fun h => o_Delete env h kind name (eNamespace e)) ;; returnErr (DeleteResource r).

Definition deleteClusterScopedResources : R unit :=
  e <- gets cr ;;
  deleteClusterObject "ClusterRole" (GetPublisherClusterRoleName e) ;;;
  deleteClusterObject "ClusterRoleBinding" (GetPublisherClusterRoleBindingName e).

(** What follows the check for Subscriptions. *)
Definition deleteEventing (backend : BackendSpec) : R OpResult :=
  let nats := String.eqb (bType backend) NatsBackendType in
  stopErr <- errOf (if nats then stopNATSSubManager true else stopEventMeshSubManager true) ;;
  match stopErr with
  | Some err =>
      if nats then failWith (syncStatusWithNATSErr err)
      else failWith (syncStatusWithSubscriptionManagerErrWithReason ConditionReasonEventMeshSubManagerStopFailed err)
  | None =>
      updStatusNow (fun t es => SetSubscriptionManagerReadyConditionToFalse t es ConditionReasonStopped ConditionSubscriptionManagerStoppedMessage) ;;;
      delErr <- errOf deleteClusterScopedResources ;;
      match delErr with
      | Some err => failWith (syncStatusWithPublisherProxyErrWithReason ConditionReasonDeletionError err)
      | None =>
          updStatusNow (fun t es => SetPublisherProxyConditionToFalse t es ConditionReasonDeleted ConditionPublisherProxyDeletedMessage) ;;;
          removeFinalizer
      end
  end.

Definition handleEventingDeletion : R OpResult :=
  e <- gets cr ;;
  if negb (containsFinalizer e) then retM (noRequeue, None)
  else
    match eBackend (eSpec e) with
    | None => removeFinalizer
    | Some backend =>
        r <- onDeps OpSubscriptionExists em_SubscriptionExists ;;
        match r with
        | inr err => updStatus SetStateError ;;; failWith (syncStatusWithDeletionErr err)
        | inl true =>
            updStatus SetStateWarning ;;;
            err <- syncStatusWithDeletionErr ErrSubscriptionExists ;; retM (mkResult true 0, Some err)
        | inl false => deleteEventing backend
        end
    end.

Definition handleBackendSwitching : R unit :=
  e <- gets cr ;;
  if IsPreviousBackendEmpty e then retM tt
  else
    changed <- orPanic (IsSpecBackendTypeChanged e) nilDereference ;;
    if negb changed then retM tt
    else
      (if String.eqb (ActiveBackend (eStatus e)) NatsBackendType then
         stopNATSSubManager true ;;; stopNATSCRWatch ;;; disconnect
       else stopEventMeshSubManager true) ;;;
      updStatus (fun es => eClearConditions (SetStateProcessing es)) ;;;
      onDepsM OpDeleteResources (em_DeletePublisherProxyResources e).

(** The deployment of the publisher proxy and its resources. *)
Definition handlePublisherProxy (backendType : string) : R Deployment :=
  natsConfig <- (if String.eqb backendType NatsBackendType then c <- GetNatsConfig ;; retM (Some c) else retM None) ;;
  e <- gets cr ;;
  deployment <- onDepsM (OpDeploy backendType) (em_DeployPublisherProxy e natsConfig backendType) ;;
  onDepsM OpDeployResources (em_DeployPublisherProxyResources e deployment) ;;;
  retM deployment.

(** What follows the connection to NATS. *)
Definition runNATSBackend (backendType : string) : R OpResult :=
  updStatusNow SetNATSAvailableConditionToTrue ;;;
  r <- tryM (handlePublisherProxy backendType) ;;
  match r with
  | inr err => failWith (syncStatusWithPublisherProxyErr err)
  | inl deployment =>
      e <- errOf reconcileNATSSubManager ;;
      match e with
      | Some err => failWith (syncStatusWithNATSErr err)
      | None => handleEventingState deployment
      end
  end.

Definition reconcileNATSBackend (backendType : string) : R OpResult :=
  crd <- call (OpGetCRD NatsCRDName) (fun h => o_GetCRD env h NatsCRDName) ;;
  match crd with
  | Some err =>
      if IsNotFound err then
        e <- gets cr ;;
        delErr <- onDeps OpDeleteResources (em_DeletePublisherProxyResources e) ;;
        match delErr with
        | inr delErr => retM (noRequeue, Some delErr)
        | inl _ => failWith (syncStatusWithNATSState StateWarning (wrap2 ErrNatsModuleMissing err))
        end
      else retM (noRequeue, Some err)
  | None =>
      watchErr <- errOf startNATSCRWatch ;;
      match watchErr with
      | Some err => failWith (syncStatusWithNATSErr err)
      | None =>
          connErr <- connectToNATS ;;
          match connErr with
          | Some connErr =>
              err <- syncStatusWithNATSState StateWarning connErr ;;
              retM (noRequeue, Some (if errors_Is connErr (kind_of ErrCannotConnect) then TerminalError err else err))
          | None => runNATSBackend backendType
          end
      end
  end.

(** What follows the secret of EventMesh. *)
Definition runEventMeshBackend (backendType : string) (eventMeshSecret : Secret) : R OpResult :=
  e <- errOf (reconcileEventMeshSubManager eventMeshSecret) ;;
  match e with
  | Some err =>
      if IsMalformattedSecretErr err
      then failWith (syncSubManagerStatusWithNATSState StateWarning ErrEventMeshSecretMalformatted)
      else failWith (syncStatusWithSubscriptionManagerErr err)
  | None =>
      updStatusNow SetEventMeshAvailableConditionToTrue ;;;
      updStatusNow SetSubscriptionManagerReadyConditionToTrue ;;;
      r <- tryM (handlePublisherProxy backendType) ;;
      match r with
      | inr err => failWith (syncStatusWithPublisherProxyErr err)
      | inl deployment => handleEventingState deployment
      end
  end.

Definition crdExists (name : string) : R (bool + goerr) :=
  r <- call (OpGetCRD name) (fun h => o_GetCRD env h name) ;; retM (CRDExists r).

Definition reconcileEventMeshBackend (backend : BackendSpec) : R OpResult :=
  crd <- crdExists APIRuleCrdName ;;
  match crd with
  | inr err => failWith (syncStatusWithSubscriptionManagerErr err)
  | inl false => failWith (syncStatusWithSubscriptionManagerErr ErrAPIGatewayModuleMissing)
  | inl true =>
      s <- tryM (getSecret (EventMeshSecret (bConfig backend))) ;;
      match s with
      | inr err =>
          if IsNotFound err then failWith (syncSubManagerStatusWithNATSState StateWarning ErrEventMeshSecretMissing)
          else failWith (syncStatusWithSubscriptionManagerErr (wrapf "failed to get EventMesh secret" err))
      | inl eventMeshSecret => runEventMeshBackend (bType backend) eventMeshSecret
      end
  end.

Definition set_ApplicationCRDEnabled (b : bool) (c : BackendConfig) : BackendConfig :=
  let p := pcfg c in
  mkBackendConfig (mkPublisherConfig (Image p) (ImagePullPolicy p) (PortNum p) (MetricsPortNum p) (ServiceAccount p) (RequestTimeout p)
      (PriorityClassName p) (AppLogFormat p) b)
    (bcNamespace c) (EventingCRName c) (EventingCRNamespace c) (bcDefaultSubscriptionConfig c)
    (EventingWebhookAuthSecretName c) (EventingWebhookAuthSecretNamespace c).

(** What follows the switch of the backend. *)
Definition reconcileBackend : R OpResult :=
  e <- gets cr ;;
  active <- orPanic (SyncStatusActiveBackend e) nilDereference ;;
  puts (upd_cr (fun _ => active)) ;;;
  crd <- crdExists ApplicationCrdName ;;
  match crd with
  | inr err => failWith (syncStatusWithSubscriptionManagerErr err)
  | inl isApplicationCRDEnabled =>
      puts (fun s => set_opConfig (set_ApplicationCRDEnabled isApplicationCRDEnabled (opConfig s)) s) ;;;
      config <- gets opConfig ;;
      (fun w => let '(o, d) := em_SetBackendConfig config (deps (st w)) in (o, mkWorld (set_deps d (st w)) (hist w))) ;;;
      backend <- backendOf e ;;
      if String.eqb (bType backend) NatsBackendType then reconcileNATSBackend (bType backend)
      else if String.eqb (bType backend) EventMeshBackendType then reconcileEventMeshBackend backend
      else retM (noRequeue, Some (TerminalError (wrap_arg ErrUnsupportedBackedType (bType backend))))
  end.

Definition handleEventingReconcile : R OpResult :=
  e <- gets cr ;;
  if negb (containsFinalizer e) then addFinalizer
  else
    InitStateProcessing ;;;
    if HasEmptyBackend (eSpec e) then finishWith noRequeue (syncStatusForEmptyBackend ConditionBackendNotSpecifiedMessage)
    else
      err <- errOf handleBackendSwitching ;;
      match err with
      | Some err => failWith (syncStatusWithSubscriptionManagerErr err)
      | None => reconcileBackend
      end.

(** Whether the Eventing resource is the allowed one; the status says why not. *)
Definition handleEventingCRAllowedCheck (allowed : string * string) : R bool :=
  e <- gets cr ;;
  if String.eqb (eName e) allowed.1 && String.eqb (eNamespace e) allowed.2 then retM true
  else
    let errorMessage := "Only a single Eventing CR with name: " +:+ allowed.1 +:+ " and namespace: " +:+ allowed.2 +:+
      " is allowed to be created in a Kyma cluster." in
    updStatusNow (fun t es => UpdateConditionPublisherProxyReady t (SetStateError es) KFalse ConditionReasonForbidden errorMessage) ;;;
    syncEventingStatus ;;; retM false.

Definition reconcileCR : R OpResult :=
  e <- gets cr ;;
  match eDeletionTimestamp e with
  | Some _ => handleEventingDeletion
  | None =>
      allowed <- tryM (match allowedEventingCR with None => retM true | Some a => handleEventingCRAllowedCheck a end) ;;
      match allowed with
      | inr err => retM (noRequeue, Some err)
      | inl false => retM (noRequeue, None)
      | inl true => handleEventingReconcile
      end
  end.

Definition watchClusterScopedResources : R unit :=
  watched <- gets clusterScopedResourcesWatched ;;
  if (watched : bool) then retM tt
  else watchResource "ClusterRole" ;;; watchResource "ClusterRoleBinding" ;;; puts set_watched.

Definition Reconcile (namespace name : string) : R OpResult :=
  r <- call (OpGet namespace name) (fun h => o_Get env h namespace name) ;;
  match r with
  | inr err => retM (noRequeue, IgnoreNotFound err)
  | inl currentEventing =>
      puts (upd_cr (fun _ => currentEventing)) ;;;
      watchErr <- errOf watchClusterScopedResources ;;
      match watchErr with
      | Some err => retM (noRequeue, Some err)
      | None => reconcileCR
      end
  end.
End operator.
