(* ===== verification/OperatorTraces.v ===== *)
(** * Eventing operator: every request is justified

    The safety of [Operator.Reconcile]: for every request of a reconciliation, what must
    have happened before it in the same reconciliation, whatever the API server, the eventing manager and the
    subscription managers answer. *)

From S2P Require Import Prelude Effects Traces GoStrings Errors Utils Subscription Eventing Config EventMeshUtils ApiRule Objects Equality KubeClient PublisherProxy Connection Operator.

Section safety.
Context {W : Type} `{EventingManagerI W} `{ManagerFactory W} `{ConfigHashing} `{StatusConditions}.
Context (env : OpEnv) (connEnv : ConnEnv) (natsURL : string) (allowedEventingCR : option (string * string)).
Context (unmarshalMessages : string -> list Message + goerr).
Abbreviation RW := (World (OpState W) opEvent).
Implicit Types (w : RW) (e : Eventing).

(** ** Justification *)

(** The backend is reachable: NATS is connected, or the APIRule CRD and the EventMesh secret exist. *)
Definition backend_available (w0 w : RW) (backendType : string) : Prop :=
  (backendType = NatsBackendType /\ happened w0 w (OpGetCRD NatsCRDName None) /\ happened w0 w (OpConnect None)) \/
  (backendType = EventMeshBackendType /\ happened w0 w (OpGetCRD APIRuleCrdName None) /\
   exists ns name s, happened w0 w (OpGetSecret ns name (inl s))).

(** The publisher proxy was deployed for a reachable backend, and its deployment was read and is ready. *)
Definition publisher_ready (w0 w : RW) : Prop :=
  exists backendType d d', happened w0 w (OpDeploy backendType (inl d)) /\ happened w0 w (OpDeployResources (inl tt)) /\
    happened w0 w (OpGetDeployment (omName (dMeta d)) (omNamespace (dMeta d)) (inl d')) /\
    IsDeploymentReady (Some d') = Some true /\ backend_available w0 w backendType.

(** The backend of the Eventing resource that was read is not the active one of its status. *)
Definition backend_switched (w0 w : RW) : Prop :=
  exists ns name e, happened w0 w (OpGet ns name (inl e)) /\ ActiveBackend (eStatus e) <> "" /\
    backendType e <> Some (ActiveBackend (eStatus e)).

Definition no_subscriptions (w0 w : RW) : Prop := happened w0 w (OpSubscriptionExists (inl false)).

(** The object is deleted, or was gone. *)
Definition deleted (w0 w : RW) (kind name namespace : string) : Prop :=
  exists r, happened w0 w (OpDelete kind name namespace r) /\ DeleteResource r = None.

(** The secret of the credentials was asked for. *)
Definition credentials_read (w0 w : RW) : Prop := exists ns name r, happened w0 w (OpGetSecret ns name r).

Definition op_justified (w0 w : RW) (ev : opEvent) : Prop :=
  match ev with
  | OpStatusUpdate e _ => State (eStatus e) = StateReady -> publisher_ready w0 w
  | OpUpdate e _ => FinalizerName ∉ eFinalizers e ->
      eDeletionTimestamp e <> None /\
      (eBackend (eSpec e) = None \/
       no_subscriptions w0 w /\
       deleted w0 w "ClusterRole" (GetPublisherClusterRoleName e) (eNamespace e) /\
       deleted w0 w "ClusterRoleBinding" (GetPublisherClusterRoleBindingName e) (eNamespace e))
  | OpStop _ true _ => no_subscriptions w0 w \/ backend_switched w0 w \/ credentials_read w0 w
  | OpDelete _ _ _ _ => no_subscriptions w0 w
  | OpDeleteResources _ => backend_switched w0 w \/
      exists err, happened w0 w (OpGetCRD NatsCRDName (Some err)) /\ IsNotFound err = true
  | OpDeploy t _ => backend_available w0 w t
  | OpDeployResources _ => exists t d, happened w0 w (OpDeploy t (inl d))
  | _ => True
  end.

Lemma op_justified_later w0 w w' ev : op_justified w0 w ev -> ext w w' -> op_justified w0 w' ev.
Proof.
  intros He Hx. assert (forall x, happened w0 w x -> happened w0 w' x) as Hm by (intros; by eapply happened_later).
  destruct ev; cbn in *; try done; try (destruct runCleanup); unfold publisher_ready, backend_available, backend_switched, no_subscriptions,
    deleted, credentials_read in *; naive_solver.
Qed.

#[global] Instance op_justification : Justification (OpState W) opEvent := {
  justified_event := op_justified; justified_event_later := op_justified_later }.

(** ** Runs that know something about the Eventing resource and about the log *)
Section rules.
Context (w0 : RW).

Definition KF (F : Eventing -> Prop) (L : RW -> Prop) (w : RW) : Prop := F (cr (st w)) /\ L w.

(** [spec F L c Q]: from a trace with [F] of the Eventing resource and [L] of the log, a run of [c] stays one, and when it
    returns [a] it has established [Q a]. *)
Definition spec {A} (F : Eventing -> Prop) (L : RW -> Prop) (c : M RW A) (Q : A -> RW -> Prop) : Prop := learns w0 (KF F L) c Q.
Definition anything {A} : A -> RW -> Prop := fun _ _ => True.

Lemma spec_bind {A B} F L (c : M RW A) (k : A -> M RW B) Q R :
  spec F L c Q -> (forall a, spec F (fun w => L w /\ Q a w) (k a) R) -> spec F L (bindM c k) R.
Proof.
  intros Hc Hk. eapply learns_bind; [exact Hc|]. intros a w [Ht [[HF HL] HQ]].
  specialize (Hk a w (conj Ht (conj HF (conj HL HQ)))). destruct (k a w) as [[b|err|m] w']; unfold traceK, KF in *; intuition.
Qed.

Lemma spec_weaken {A} F L (c : M RW A) (Q Q' : A -> RW -> Prop) :
  spec F L c Q -> (forall a w, L w -> Q a w -> Q' a w) -> spec F L c Q'.
Proof. intros Hc HQ. eapply learns_weaken; [exact Hc|]. intros a w [_ HL]. by apply HQ. Qed.

Lemma spec_anything {A} F L (c : M RW A) Q : spec F L c Q -> spec F L c anything.
Proof. intros Hc. by eapply spec_weaken. Qed.

(** Knowing less about the Eventing resource and the log at the end. *)
Lemma spec_strengthen {A} (F F' : Eventing -> Prop) (L L' : RW -> Prop) (c : M RW A) Q :
  (forall e, F' e -> F e) -> (forall w, L' w -> L w) -> spec F' L' c Q ->
  triple (traceK w0 (KF F' L')) c (fun a => traceK w0 (fun w => KF F L w /\ Q a w)) (traceK w0 (KF F L)).
Proof.
  intros HF HL Hc w Hw. specialize (Hc w Hw). destruct (c w) as [[a|err|m] w']; unfold traceK, KF in *; intuition.
Qed.

Lemma spec_ret {A} F L (a : A) (Q : A -> RW -> Prop) : (forall w, L w -> Q a w) -> spec F L (retM a) Q.
Proof. intros HQ. apply learns_ret. intros w [_ HL]. by apply HQ. Qed.
Lemma spec_err {A} F L err Q : spec F L (@errM _ A err) Q.
Proof. apply learns_err. Qed.
Lemma spec_okOr {A} F L (r : A + goerr) : spec F L (okOr r) (fun a _ => r = inl a).
Proof. apply learns_okOr. Qed.
Lemma spec_orPanic {A} F L (o : option A) m : spec F L (orPanic o m) (fun a _ => o = Some a).
Proof. apply learns_orPanic. Qed.
Lemma spec_returnErr F L r : spec F L (returnErr r) (fun _ _ => r = None).
Proof. destruct r; [apply learns_err|]. by apply learns_ret. Qed.
Lemma spec_errOf F L (c : M RW unit) Q : spec F L c Q -> spec F L (errOf c) (fun r w => r = None -> Q tt w).
Proof. apply learns_errOf. Qed.
Lemma spec_try {A} F L (c : M RW A) Q : spec F L c Q -> spec F L (tryM c) (fun r w => match r with inl a => Q a w | inr _ => True end).
Proof. apply learns_try. Qed.

(** A request. *)
Lemma spec_call {A} F L (ev : A -> opEvent) f : stable L ->
  (forall r w, L w -> op_justified w0 w (ev r)) -> spec F L (call ev f) (fun r w => happened w0 w (ev r)).
Proof.
  intros HL He w [Ht [HF Hk]]. unfold call. set (w1 := mkWorld _ _).
  assert (trace w0 w1) as Ht1 by (apply trace_event; [done|]; by apply He).
  split; [done|]. split; [split; [done|]; eapply HL; [exact Hk|by eexists [_]]|]. eapply happened_now; [apply Ht|reflexivity].
Qed.

(** A change of the state that keeps what is known of the Eventing resource. *)
Lemma spec_puts F L (f : OpState W -> OpState W) : stable L -> (forall s, F (cr s) -> F (cr (f s))) -> spec F L (puts f) anything.
Proof.
  intros HL Hf w [Ht [HF Hk]]. unfold puts. split; [by apply trace_state|]. split; [|done]. split; [by apply Hf|].
  eapply HL; [exact Hk|by exists []].
Qed.

(** A change of the Eventing resource after which more, or less, is known about it. *)
Lemma spec_puts_bind {B} (F F' : Eventing -> Prop) L (f : OpState W -> OpState W) (k : unit -> M RW B) Q : stable L ->
  (forall s, F (cr s) -> F' (cr (f s))) -> (forall e, F' e -> F e) -> spec F' L (k tt) Q -> spec F L (bindM (puts f) k) Q.
Proof.
  intros HL Hf HF' Hk w [Ht [HF Hl]]. unfold bindM, puts.
  eapply (spec_strengthen F F' L L) in Hk; [|done|done]. apply Hk. split; [by apply trace_state|]. split; [by apply Hf|].
  eapply HL; [exact Hl|by exists []].
Qed.

Lemma spec_gets {A B} F L (f : OpState W -> A) (k : A -> M RW B) Q : (forall s, F (cr s) -> spec F L (k (f s)) Q) ->
  spec F L (bindM (gets f) k) Q.
Proof. intros Hk w Hw. unfold bindM, gets. apply Hk; [apply Hw|done]. Qed.

Lemma spec_now {B} F L (k : Z -> M RW B) Q : (forall t, spec F L (k t) Q) -> spec F L (bindM (onow env) k) Q.
Proof. intros Hk w Hw. unfold bindM, onow. by apply Hk. Qed.

Lemma spec_try_gets {A B} F L (f : OpState W -> A) (k : A -> M RW B) Q : (forall s, F (cr s) -> spec F L (tryM (k (f s))) Q) ->
  spec F L (tryM (bindM (gets f) k)) Q.
Proof. intros Hk w Hw. apply (Hk (st w)); [apply Hw|done]. Qed.

Lemma spec_ext {A} F L (c c' : M RW A) Q : (forall w, c w = c' w) -> spec F L c' Q -> spec F L c Q.
Proof. intros Hc Hs w Hw. rewrite Hc. by apply Hs. Qed.

(** A change of the world of the dependencies. *)
Lemma spec_inside {A} F L (g : W -> outcome A * W) : stable L ->
  spec F L (fun w => let '(o, d) := g (deps (st w)) in (o, mkWorld (set_deps d (st w)) (hist w))) anything.
Proof.
  intros HL w [Ht [HF Hk]]. destruct (g (deps (st w))) as [o d].
  assert (traceK w0 (KF F L) (mkWorld (set_deps d (st w)) (hist w))) as Hw.
  { split; [by apply trace_state|]. split; [done|]. eapply HL; [exact Hk|by exists []]. }
  destruct o; [|exact Hw..]. split; [apply Hw|]. by split; [apply Hw|].
Qed.

Lemma spec_onDeps {A} F L (ev : A + goerr -> opEvent) (c : M W A) : stable L -> (forall r w, L w -> op_justified w0 w (ev r)) ->
  spec F L (onDeps ev c) (fun r w => happened w0 w (ev r)).
Proof.
  intros HL He. unfold onDeps. eapply spec_bind; [by eapply spec_try, spec_inside|]. intros r.
  intros w Hw. assert (traceK w0 (KF F L) w) as Hw' by (unfold traceK, KF in *; tauto).
  pose proof (spec_call F L (fun _ : A + goerr => ev r) (fun _ => r) HL (fun _ => He r) w Hw') as Hc. unfold call in *.
  destruct Hc as (Ht & HK & Hh). split; [done|]. split; [split; [apply HK|split; [apply HK|]]|done]. by destruct r.
Qed.

Lemma spec_onDepsM {A} F L (ev : A + goerr -> opEvent) (c : M W A) : stable L -> (forall r w, L w -> op_justified w0 w (ev r)) ->
  spec F L (onDepsM ev c) (fun a w => happened w0 w (ev (inl a))).
Proof.
  intros HL He. unfold onDepsM. eapply spec_bind; [by apply spec_onDeps|]. intros [a|err]; [|apply spec_err].
  apply spec_ret. by intros w [_ Hw].
Qed.

(** Runs after which only the trace matters. *)
Definition traced {A} (F : Eventing -> Prop) (L : RW -> Prop) (c : M RW A) : Prop :=
  triple (traceK w0 (KF F L)) c (fun _ => trace w0) (trace w0).

Lemma spec_traced {A} F L (c : M RW A) Q : spec F L c Q -> traced F L c.
Proof. intros Hc w Hw. specialize (Hc w Hw). by destruct (c w) as [[a|err|m] w'], Hc. Qed.
Lemma traced_bind {A B} F L (c : M RW A) (k : A -> M RW B) Q :
  spec F L c Q -> (forall a, traced F (fun w => L w /\ Q a w) (k a)) -> traced F L (bindM c k).
Proof.
  intros Hc Hk w Hw. specialize (Hc w Hw). unfold bindM. destruct (c w) as [[a|err|m] w'].
  - apply Hk. destruct Hc as (Ht & [HF HL] & HQ). by split.
  - apply Hc.
  - apply Hc.
Qed.
Lemma traced_gets {A B} F L (f : OpState W -> A) (k : A -> M RW B) :
  (forall s, F (cr s) -> traced F L (k (f s))) -> traced F L (bindM (gets f) k).
Proof. intros Hk w Hw. unfold bindM, gets. apply Hk; [apply Hw|done]. Qed.
Lemma traced_weaken {A} (F F' : Eventing -> Prop) L (c : M RW A) : traced F' L c -> (forall e, F e -> F' e) -> traced F L c.
Proof. intros Hc HF w [Ht [Hf Hl]]. apply Hc. split; [done|]. split; [by apply HF|done]. Qed.
Lemma traced_puts_bind {B} (F F' : Eventing -> Prop) L (f : OpState W -> OpState W) (k : unit -> M RW B) : stable L ->
  (forall s, F (cr s) -> F' (cr (f s))) -> traced F' L (k tt) -> traced F L (bindM (puts f) k).
Proof.
  intros HL Hf Hk w [Ht [HF Hl]]. unfold bindM, puts. apply Hk. split; [by apply trace_state|]. split; [by apply Hf|].
  eapply HL; [exact Hl|by exists []].
Qed.
Lemma traced_pure {A} (p : Prop) F L (c : M RW A) : (forall w, L w -> p) -> (p -> traced F L c) -> traced F L c.
Proof. intros Hp Hc w Hw. apply Hc; [|done]. eapply Hp, Hw. Qed.
Lemma spec_pure {A} (p : Prop) F L (c : M RW A) Q : (forall w, L w -> p) -> (p -> spec F L c Q) -> spec F L c Q.
Proof. intros Hp Hc w Hw. apply Hc; [|done]. eapply Hp, Hw. Qed.
Lemma any_traced {A} F L (c : M RW A) : spec F L c anything -> traced F L c.
Proof. apply spec_traced. Qed.
End rules.

(** One step of a run: the sides left are requests, writes and stability. *)
Ltac op_step :=
  lazymatch goal with
  | |- spec _ _ _ (bindM (gets _) _) _ => apply spec_gets; intros ? ?
  | |- spec _ _ _ (bindM (onow _) _) _ => apply spec_now; intros ?
  | |- spec _ _ _ (bindM (call _ _) _) _ => eapply spec_bind; [apply spec_call|intros ?]
  | |- spec _ _ _ (bindM _ _) _ => eapply spec_bind; [|intros ?]
  | |- spec _ _ _ (retM _) anything => by apply spec_ret
  | |- spec _ _ _ (errM _) _ => apply spec_err
  | |- spec _ _ _ (okOr _) anything => eapply spec_anything, spec_okOr
  | |- spec _ _ _ (okOr _) _ => apply spec_okOr
  | |- spec _ _ _ (orPanic _ _) anything => eapply spec_anything, spec_orPanic
  | |- spec _ _ _ (orPanic _ _) _ => apply spec_orPanic
  | |- spec _ _ _ (returnErr _) anything => eapply spec_anything, spec_returnErr
  | |- spec _ _ _ (returnErr _) _ => apply spec_returnErr
  | |- spec _ _ _ (errOf _) _ => apply spec_errOf
  | |- spec _ _ _ (tryM _) _ => apply spec_try
  | |- spec _ _ _ (call _ _) anything => eapply spec_anything, spec_call
  | |- spec _ _ _ (call _ _) _ => apply spec_call
  | |- spec _ _ _ (match ?x with _ => _ end) _ => destruct x eqn:?
  end.
Ltac op_any := eapply (spec_bind _ _ _ _ _ anything); [|intros ?].
Ltac op_stable := unfold anything in *; solve_stable.

(** ** The Eventing resource of a reconciliation *)

(** Everything but the status is as in [e0]. *)
Definition frame (e0 e : Eventing) : Prop :=
  eName e = eName e0 /\ eNamespace e = eNamespace e0 /\ eSpec e = eSpec e0 /\ eDeletionTimestamp e = eDeletionTimestamp e0 /\
  eFinalizers e = eFinalizers e0.
Definition framed_in (e0 : Eventing) (state : string) (e : Eventing) : Prop := frame e0 e /\ State (eStatus e) = state.

Section steps.
Context (w0 : RW).
Abbreviation spec := (spec w0).

Lemma updStatus_spec e0 L f : stable L -> spec (frame e0) L (updStatus f) anything.
Proof. intros HL. apply spec_puts; [done|]. intros s Hs. exact Hs. Qed.

Lemma updStatusNow_spec e0 L f : stable L -> spec (frame e0) L (updStatusNow env f) anything.
Proof. intros HL. unfold updStatusNow. op_step. by apply updStatus_spec. Qed.

(** A status that sets the state. *)
Lemma updStatusNow_state_in {B} F x L f (k : unit -> M RW B) Q : stable L -> (forall t es, State (f t es) = x) ->
  (forall t e, F e -> F (set_eStatus e (f t (eStatus e)))) ->
  spec (fun e => F e /\ State (eStatus e) = x) L (k tt) Q -> spec F L (bindM (updStatusNow env f) k) Q.
Proof.
  intros HL Hf HF Hk w Hw. unfold updStatusNow. rewrite bindM_assoc. revert w Hw. apply spec_now. intros t.
  unfold updStatus. eapply spec_puts_bind; [done| | |exact Hk]; [|by intros e []].
  intros s Hs. split; [by apply HF|]. apply Hf.
Qed.

Lemma updStatusNow_state {B} e0 x L f (k : unit -> M RW B) Q : stable L -> (forall t es, State (f t es) = x) ->
  spec (framed_in e0 x) L (k tt) Q -> spec (frame e0) L (bindM (updStatusNow env f) k) Q.
Proof. intros HL Hf Hk. by eapply updStatusNow_state_in. Qed.

Lemma syncEventingStatus_spec F L : stable L ->
  (forall e w, F e -> L w -> State (eStatus e) = StateReady -> publisher_ready w0 w) -> spec F L (syncEventingStatus env) anything.
Proof.
  intros HL Hr. unfold syncEventingStatus. op_step. op_step; [done|done|]. op_step; [op_step|].
  unfold updateStatus. destruct (EventingStatus_IsEqual _ _); [by apply spec_ret|].
  op_step; [op_stable|..|by op_step].
  intros r w [[Hl _] _]. cbn. unfold RemoveUnsupportedConditions. intros HS. eapply Hr; [exact H3|done|].
  revert HS. cbn. by destruct (elems (eConditions (eStatus (cr s)))).
Qed.

Lemma joinSync_spec F L err : stable L ->
  (forall e w, F e -> L w -> State (eStatus e) = StateReady -> publisher_ready w0 w) -> spec F L (joinSync env err) anything.
Proof.
  intros HL Hr. unfold joinSync. op_step; [op_step; by apply syncEventingStatus_spec|]. by op_step.
Qed.

(** The functions of [status.go] that report an error. *)
Lemma sync_error e0 x L f err : stable L -> x <> StateReady -> (forall t es, State (f t es) = x) ->
  spec (frame e0) L (updStatusNow env f ;;; joinSync env err) anything.
Proof.
  intros HL Hx Hf. eapply updStatusNow_state; [done|exact Hf|]. apply joinSync_spec; [done|]. intros e w [_ <-] _ HS. by rewrite HS in Hx.
Qed.
Lemma sync_error_unit e0 x L f : stable L -> x <> StateReady -> (forall t es, State (f t es) = x) ->
  spec (frame e0) L (updStatusNow env f ;;; syncEventingStatus env) anything.
Proof.
  intros HL Hx Hf. eapply updStatusNow_state; [done|exact Hf|]. apply syncEventingStatus_spec; [done|]. intros e w [_ <-] _ HS. by rewrite HS in Hx.
Qed.

Lemma failWith_spec F L c : spec F L c anything -> spec F L (failWith c) anything.
Proof. intros Hc. unfold failWith. op_step; [exact Hc|]. by op_step. Qed.
Lemma finishWith_spec F L k c : spec F L c anything -> spec F L (finishWith k c) anything.
Proof. intros Hc. unfold finishWith. op_step; [op_step; exact Hc|]. by op_step. Qed.

(** [failWith (syncStatusWith...)], whichever it is. *)
Ltac fail_step :=
  apply failWith_spec;
  unfold syncStatusWithNATSErr, syncStatusWithNATSState, syncStatusWithPublisherProxyErr, syncStatusWithPublisherProxyErrWithReason,
    syncStatusWithSubscriptionManagerErr, syncStatusWithSubscriptionManagerErrWithReason, syncSubManagerStatusWithNATSState;
  first [apply (sync_error _ StateError); [op_stable|done|reflexivity]|apply (sync_error _ StateWarning); [op_stable|done|reflexivity]].

Lemma getDeployment_spec F L name namespace : stable L ->
  spec F L (getDeployment env name namespace)
    (fun r w => forall d, r = inl (Some d) -> happened w0 w (OpGetDeployment name namespace (inl d))).
Proof.
  intros HL. unfold getDeployment. op_step; [done|done|]. apply spec_ret. intros w [_ Hw] d Hd.
  destruct a as [d'|err]; cbn in Hd; [by injection Hd as <-|]. by destruct (IgnoreNotFound err).
Qed.

Lemma handleEventingState_spec e0 L deployment : stable L ->
  (forall w, L w -> exists t, happened w0 w (OpDeploy t (inl deployment)) /\ happened w0 w (OpDeployResources (inl tt)) /\ backend_available w0 w t) ->
  spec (frame e0) L (handleEventingState env deployment) anything.
Proof.
  intros HL Hd. unfold handleEventingState. op_step; [by apply updStatus_spec|].
  op_step; [apply getDeployment_spec; op_stable|]. destruct a0 as [d'|err].
  2: { op_step; [apply updStatusNow_spec; op_stable|]. fail_step. }
  op_step; [op_step|]. destruct a0; cbn [negb].
  - eapply (updStatusNow_state e0 StateReady); [op_stable|reflexivity|]. op_step. op_step.
    + apply spec_puts; [op_stable|]. intros s' [Hs Hst]. by split.
    + apply finishWith_spec, syncEventingStatus_spec; [op_stable|]. intros e w _ [[[[Hl _] Hg] Hr] _] _.
      destruct (Hd w Hl) as (t & ? & ? & ?). destruct d' as [d'|]; [|done].
      exists t, deployment, d'. split_and!; try done. by apply Hg.
  - eapply (updStatusNow_state e0 StateProcessing); [op_stable|reflexivity|]. apply finishWith_spec, syncEventingStatus_spec; [op_stable|].
    by intros e w [_ ->].
Qed.

(** ** NATS *)
Lemma getNATSUrl_spec F L ns : stable L -> spec F L (getNATSUrl env ns) anything.
Proof. intros HL. unfold getNATSUrl. op_step; [done|done|]. op_step; [op_step|]. destruct a0 as [|[? ?] ?]; by op_step. Qed.

Lemma backendOf_spec F L e : spec F L (backendOf e) anything.
Proof. unfold backendOf. by op_step. Qed.

Lemma GetNatsConfig_spec F L : stable L -> spec F L (GetNatsConfig env) anything.
Proof.
  intros HL. unfold GetNatsConfig. op_step. op_step; [done|done|].
  op_step; [op_step|]. op_step; [apply getNATSUrl_spec; op_stable|]. op_step; [apply backendOf_spec|]. by op_step.
Qed.

Lemma stopNATSSubManager_spec F L runCleanup : stable L ->
  (runCleanup = true -> forall w, L w -> no_subscriptions w0 w \/ backend_switched w0 w \/ credentials_read w0 w) ->
  spec F L (stopNATSSubManager runCleanup) anything.
Proof.
  intros HL Hr. unfold stopNATSSubManager. op_step. op_step. destruct (natsSubManager s) as [id|]; [|by op_step].
  destruct (isNATSSubManagerStarted s0); cbn [negb]; [|by op_step].
  op_step; [apply spec_onDepsM; [done|]|apply spec_puts; [op_stable|done]]. intros r w Hw. cbn. destruct runCleanup; [|done]. by apply Hr.
Qed.

Lemma newManagerId_spec F L : stable L -> spec F L newManagerId anything.
Proof. intros HL. unfold newManagerId. op_step. op_step; [by apply spec_puts|by op_step]. Qed.

Lemma getDefaultSubscriptionConfig_spec F L : spec F L getDefaultSubscriptionConfig anything.
Proof. unfold getDefaultSubscriptionConfig. op_step. by op_step. Qed.

Lemma startNATSSubManager_spec e0 L d : stable L -> spec (frame e0) L (startNATSSubManager d) anything.
Proof.
  intros HL. unfold startNATSSubManager. op_step. op_step; [op_step|]. op_step; [apply spec_onDepsM; [op_stable|done]|].
  by apply spec_puts; [op_stable|].
Qed.

Lemma reconcileNATSSubManager_spec e0 L : stable L -> spec (frame e0) L (reconcileNATSSubManager env) anything.
Proof.
  intros HL. unfold reconcileNATSSubManager. op_any; [apply getDefaultSubscriptionConfig_spec|].
  op_step; [apply GetNatsConfig_spec; op_stable|]. op_step; [op_step|]. op_step. op_step. op_any.
  { destruct (_ && _); [apply stopNATSSubManager_spec; [op_stable|done]|]. destruct (negb _); [by apply spec_puts; [op_stable|]|by op_step]. }
  op_step. op_any.
  { destruct (natsSubManager _); [by op_step|]. op_step; [apply newManagerId_spec; op_stable|].
    op_step; [apply spec_onDepsM; [op_stable|done]|]. op_step; [apply spec_onDepsM; [op_stable|done]|]. by apply spec_puts; [op_stable|]. }
  op_step. destruct (isNATSSubManagerStarted _); [by op_step|].
  op_any; [apply startNATSSubManager_spec; op_stable|apply updStatus_spec; op_stable].
Qed.

Lemma watchResource_spec F L what : stable L -> spec F L (watchResource env what) anything.
Proof. intros HL. unfold watchResource. op_step; [done|done|]. by op_step. Qed.

Lemma startNATSCRWatch_spec F L : stable L -> spec F L (startNATSCRWatch env) anything.
Proof.
  intros HL. unfold startNATSCRWatch. op_step. op_step. set (go := bindM _ _).
  assert (spec F L go anything); [|by destruct (_ !! _) as [[|]|]; [op_step|..]].
  unfold go. op_any; [destruct (_ !! _); [by op_step|by apply spec_puts]|].
  op_any; [apply watchResource_spec; op_stable|]. op_step; [op_stable|done|]. by apply spec_puts; [op_stable|].
Qed.

Lemma stopNATSCRWatch_spec F L : stable L -> spec F L stopNATSCRWatch anything.
Proof.
  intros HL. unfold stopNATSCRWatch. op_step. op_step. destruct (_ !! _); [|by op_step].
  op_step; [done|done|]. by apply spec_puts; [op_stable|].
Qed.

Lemma onConnection_spec {A} F L (c : M (World connection connEvent) A) : stable L -> spec F L (onConnection c) anything.
Proof.
  intros HL w [Ht [HF Hl]]. unfold onConnection. destruct (natsConnection (st w)) as [conn|]; [|by split].
  destruct (c conn) as [o conn'].
  assert (traceK w0 (KF F L) (mkWorld (set_natsConnection (Some conn') (st w)) (hist w))) as Hw.
  { split; [by apply trace_state|]. split; [done|]. eapply HL; [exact Hl|by exists []]. }
  destruct o; [|exact Hw..]. split; [apply Hw|]. by split; [apply Hw|].
Qed.

Lemma connectToNATS_spec e0 L : stable L ->
  spec (frame e0) L (connectToNATS connEnv natsURL) (fun r w => happened w0 w (OpConnect r)).
Proof.
  intros HL. unfold connectToNATS. op_step. op_any; [destruct (natsConnection _); [by op_step|by apply spec_puts]|].
  op_step. op_step; [op_step; apply onConnection_spec; op_stable|]. intros w Hw.
  eapply (spec_call w0 (frame e0) _ (fun _ : option goerr => OpConnect a0) (fun _ => a0)); [..|exact Hw]; [op_stable|done].
Qed.

Lemma disconnect_spec F L : stable L -> spec F L (disconnect connEnv) anything.
Proof.
  intros HL. unfold disconnect. op_step. destruct (natsConnection _); [|by op_step].
  op_step; [by apply onConnection_spec|]. op_step; [op_stable|done].
Qed.

(** ** The publisher proxy *)
Lemma handlePublisherProxy_spec e0 L t : stable L -> (forall w, L w -> backend_available w0 w t) ->
  spec (frame e0) L (handlePublisherProxy env t)
    (fun d w => happened w0 w (OpDeploy t (inl d)) /\ happened w0 w (OpDeployResources (inl tt))).
Proof.
  intros HL Ha. unfold handlePublisherProxy. op_any.
  { destruct (String.eqb _ _); [op_step; [by apply GetNatsConfig_spec|by op_step]|by op_step]. }
  op_step. op_step; [apply spec_onDepsM; [op_stable|]|].
  { intros r w [Hl _]. by apply Ha. }
  op_step; [apply spec_onDepsM; [op_stable|]|].
  { intros r w [_ Hd]. cbn. by eexists _, _. }
  apply spec_ret. destruct a1. intros w [[_ ?] ?]. by split.
Qed.

Lemma runNATSBackend_spec e0 L t : stable L -> (forall w, L w -> backend_available w0 w t) ->
  spec (frame e0) L (runNATSBackend env t) anything.
Proof.
  intros HL Ha. unfold runNATSBackend. op_step; [by apply updStatusNow_spec|].
  op_step; [op_step; apply handlePublisherProxy_spec; [op_stable|]|].
  { intros w [Hl _]. by apply Ha. }
  destruct a0 as [d|err]; [|fail_step].
  op_step; [op_step; apply reconcileNATSSubManager_spec; op_stable|]. destruct a0; [fail_step|].
  apply handleEventingState_spec; [op_stable|]. intros w [[[Hl _] [Hd Hr]] _]. exists t. split_and!; try done. by apply Ha.
Qed.

Lemma reconcileNATSBackend_spec e0 L : stable L -> spec (frame e0) L (reconcileNATSBackend env connEnv natsURL NatsBackendType) anything.
Proof.
  intros HL. unfold reconcileNATSBackend. op_step; [done|done|]. destruct a as [err|].
  - destruct (IsNotFound err) eqn:Hn; [|by op_step]. op_step.
    op_step; [apply spec_onDeps; [op_stable|]|].
    { intros r w [_ Hw]. right. by exists err. }
    destruct a as [[]|delErr]; [|by op_step]. fail_step.
  - op_step; [op_step; apply startNATSCRWatch_spec; op_stable|]. destruct a; [fail_step|].
    op_step; [apply connectToNATS_spec; op_stable|]. destruct a as [connErr|].
    + op_step; [|by op_step]. unfold syncStatusWithNATSState. apply (sync_error _ StateWarning); [op_stable|done|reflexivity].
    + apply runNATSBackend_spec; [op_stable|]. intros w [[[_ ?] _] ?]. by left.
Qed.
(** ** EventMesh *)
Lemma stopEventMeshSubManager_spec F L runCleanup : stable L ->
  (runCleanup = true -> forall w, L w -> no_subscriptions w0 w \/ backend_switched w0 w \/ credentials_read w0 w) ->
  spec F L (stopEventMeshSubManager runCleanup) anything.
Proof.
  intros HL Hr. unfold stopEventMeshSubManager. op_step. op_step. destruct (eventMeshSubManager s) as [id|]; [|by op_step].
  destruct (isEventMeshSubManagerStarted s0); cbn [negb]; [|by op_step].
  op_step; [apply spec_onDepsM; [done|]|apply spec_puts; [op_stable|done]]. intros r w Hw. cbn. destruct runCleanup; [|done]. by apply Hr.
Qed.

Lemma startEventMeshSubManager_spec e0 L d params : stable L -> spec (frame e0) L (startEventMeshSubManager d params) anything.
Proof.
  intros HL. unfold startEventMeshSubManager. op_step. op_step; [op_step|]. op_step; [apply spec_onDepsM; [op_stable|done]|].
  by apply spec_puts; [op_stable|].
Qed.

(** A run that starts with a call has made it, also when it fails. *)
Lemma spec_try_call {A B} F L (ev : A -> opEvent) f (rest : A -> M RW B) : stable L ->
  (forall r w, L w -> op_justified w0 w (ev r)) ->
  (forall r, spec F (fun w => L w /\ happened w0 w (ev r)) (rest r) anything) ->
  spec F L (tryM (bindM (call ev f) rest)) (fun _ w => exists r, happened w0 w (ev r)).
Proof.
  intros HL He Hr w Hw. pose proof (spec_call w0 F L ev f HL He w Hw) as Hc. unfold tryM, bindM, call in *.
  set (r := f (hist w)) in *. destruct Hc as (Ht & [HF Hl] & Hh).
  specialize (Hr r (mkWorld (st w) (ev r :: hist w)) (conj Ht (conj HF (conj Hl Hh)))). unfold traceK, KF in *.
  destruct (rest r _) as [[b|err|m] w']; cbn in *; naive_solver.
Qed.

Lemma getSecret_spec F L n : stable L -> spec F L (getSecret env n) (fun s w => exists ns name, happened w0 w (OpGetSecret ns name (inl s))).
Proof.
  intros HL. unfold getSecret. op_step; [op_step|]. op_step; [op_stable|done|].
  eapply spec_weaken; [apply spec_okOr|]. intros s w [_ Hw] ->. eauto.
Qed.

Lemma dataKey_spec F L s n k : spec F L (dataKey s n k) anything.
Proof. unfold dataKey. destruct (_ !! _); [by apply spec_ret|op_step]. Qed.

Lemma getOAuth2ClientCredentials_spec F L ns : stable L ->
  spec F L (tryM (getOAuth2ClientCredentials env ns))
    (fun r w => match r with inl _ => credentials_read w0 w | inr err => IsNotFound err = true -> credentials_read w0 w end).
Proof.
  intros HL. unfold getOAuth2ClientCredentials. apply spec_try_gets. intros s _. cbv zeta.
  unfold getSecret. destruct (GetSecret_key _) as [key|err] eqn:Hk.
  - eapply spec_ext; [intros w; unfold tryM; rewrite bindM_assoc; reflexivity|]. cbn [okOr].
    eapply spec_ext; [intros w; unfold tryM; change (bindM (retM key) ?k w) with (k key w); cbv beta; rewrite bindM_assoc; reflexivity|].
    eapply spec_weaken; [apply spec_try_call; [done|done|]|].
    + intros r. op_step; [op_step|]. do 4 (op_any; [apply dataKey_spec|]). by op_step.
    + intros r w _ [x Hx]. destruct r; [|intros _]; by eexists _, _, _.
  - assert (IsNotFound err = false) as Hn.
    { unfold GetSecret_key in Hk. destruct (Split _ _) as [|? [|? [|? ?]]]; by inversion Hk. }
    intros w [Ht HK]. by split_and!; [|destruct HK..|rewrite Hn].
Qed.

Lemma isOauth2CredentialsInitialized_spec F L : spec F L isOauth2CredentialsInitialized anything.
Proof. unfold isOauth2CredentialsInitialized. op_step. by op_step. Qed.

(** The report that the credentials changed. *)
Lemma oauth2_report e0 L err : stable L -> spec (frame e0) L (syncStatusWithSubscriptionManagerFailedCondition env err) anything.
Proof. intros HL. by apply (sync_error_unit _ StateError). Qed.

Lemma syncOauth2_spec e0 L : stable L -> spec (frame e0) L (syncOauth2ClientIDAndSecret env) anything.
Proof.
  intros HL. unfold syncOauth2ClientIDAndSecret. op_step. op_step; [apply getOAuth2ClientCredentials_spec; op_stable|].
  assert (stable (fun w => match a with inl _ => credentials_read w0 w | inr err => IsNotFound err = true -> credentials_read w0 w end)) as Hs.
  { unfold credentials_read. destruct a; op_stable. }
  destruct a as [new|err].
  - op_any; [apply isOauth2CredentialsInitialized_spec|]. op_step. cbv zeta. op_any.
    { destruct (_ && _); [|by op_step]. op_any; [|apply oauth2_report; op_stable].
      apply stopEventMeshSubManager_spec; [op_stable|]. intros _ w [[_ ?] _]. by right; right. }
    destruct (_ || _); [|by op_step]. by apply spec_puts; [op_stable|].
  - destruct (IsNotFound err) eqn:Hn; cbn [negb]; [|op_step]. op_any.
    { apply stopEventMeshSubManager_spec; [op_stable|]. intros _ w [_ Hc]. right; right. by apply Hc. }
    op_any; [apply oauth2_report; op_stable|op_step].
Qed.

Lemma wrapM_spec {A} F L m (c : M RW A) : spec F L c anything -> spec F L (wrapM m c) anything.
Proof. intros Hc. unfold wrapM. op_any; [eapply spec_anything, spec_try, Hc|]. destruct a; [by op_step|op_step]. Qed.

Lemma SyncPublisherProxySecret_spec F L ns s : stable L -> spec F L (SyncPublisherProxySecret env unmarshalMessages ns s) anything.
Proof.
  intros HL. unfold SyncPublisherProxySecret. destruct (getSecretForPublisher _ _ _); [|op_step]. op_step; [op_stable|done|]. by op_step.
Qed.

Lemma setenv_spec F L n v : stable L -> spec F L (setenv env n v) anything.
Proof. intros HL. unfold setenv. op_step; [op_stable|done|]. destruct a; [op_step|by op_step]. Qed.

Lemma setUpEnvironment_spec F L s : stable L -> spec F L (setUpEnvironmentForEventMesh env s) anything.
Proof.
  intros HL. unfold setUpEnvironmentForEventMesh. do 5 (op_any; [apply setenv_spec; op_stable|]). op_step.
  op_step; [apply backendOf_spec|]. apply setenv_spec; op_stable.
Qed.

Lemma checkDomain_spec F L d : stable L -> spec F L (checkDomain env d) anything.
Proof.
  intros HL. unfold checkDomain. destruct (IsEmpty d); [|by op_step]. op_any.
  { eapply spec_anything, spec_try. unfold readDomainFromConfigMap. op_step; [op_stable|done|].
    op_step; [op_step|]. by apply (spec_ret _ _ _ _ anything). }
  destruct a; [|op_step]. destruct (IsEmpty _); [op_step|by op_step].
Qed.

Lemma replaceEventMeshSubManager_spec e0 L d : stable L -> spec (frame e0) L (replaceEventMeshSubManager d) anything.
Proof.
  intros HL. unfold replaceEventMeshSubManager. op_step. op_step; [apply backendOf_spec|].
  op_any; [apply getDefaultSubscriptionConfig_spec|]. op_step. op_step; [op_step|]. op_any.
  { destruct (negb _); [apply stopEventMeshSubManager_spec; [op_stable|done]|by op_step]. }
  op_step. op_any.
  { destruct (eventMeshSubManager _); [by op_step|]. op_step; [apply newManagerId_spec; op_stable|].
    op_step; [apply spec_onDepsM; [op_stable|done]|]. op_step; [apply spec_onDepsM; [op_stable|done]|]. by apply spec_puts; [op_stable|]. }
  op_step. destruct (isEventMeshSubManagerStarted _); [by op_step|].
  op_any; [apply startEventMeshSubManager_spec; op_stable|apply updStatus_spec; op_stable].
Qed.

Lemma reconcileEventMeshSubManager_spec e0 L s : stable L ->
  spec (frame e0) L (reconcileEventMeshSubManager env unmarshalMessages s) anything.
Proof.
  intros HL. unfold reconcileEventMeshSubManager. op_any; [by apply wrapM_spec, syncOauth2_spec|]. op_step.
  op_any; [apply wrapM_spec, SyncPublisherProxySecret_spec; op_stable|].
  op_any; [apply wrapM_spec, setUpEnvironment_spec; op_stable|]. op_step. op_step; [apply backendOf_spec|].
  op_any; [apply checkDomain_spec; op_stable|]. apply replaceEventMeshSubManager_spec; op_stable.
Qed.

Lemma runEventMeshBackend_spec e0 L t s : stable L -> (forall w, L w -> backend_available w0 w t) ->
  spec (frame e0) L (runEventMeshBackend env unmarshalMessages t s) anything.
Proof.
  intros HL Ha. unfold runEventMeshBackend. op_any; [eapply spec_anything, spec_errOf, reconcileEventMeshSubManager_spec; op_stable|].
  destruct a as [err|]; [destruct (IsMalformattedSecretErr err); fail_step|].
  op_any; [apply updStatusNow_spec; op_stable|]. op_any; [apply updStatusNow_spec; op_stable|].
  op_step; [op_step; apply handlePublisherProxy_spec; [op_stable|]|].
  { intros w [[[Hl _] _] _]. by apply Ha. }
  destruct a1 as [d|err]; [|fail_step].
  apply handleEventingState_spec; [op_stable|]. intros w [[[[Hl _] _] _] [Hd Hr]]. exists t. split_and!; try done. by apply Ha.
Qed.

Lemma crdExists_spec F L n : stable L -> spec F L (crdExists env n) (fun r w => r = inl true -> happened w0 w (OpGetCRD n None)).
Proof.
  intros HL. unfold crdExists. op_step; [op_stable|done|]. apply spec_ret. intros w [_ Hw].
  destruct a as [err|]; [|done]. cbn. by destruct (IgnoreNotFound err).
Qed.

Lemma reconcileEventMeshBackend_spec e0 L b : stable L -> bType b = EventMeshBackendType ->
  spec (frame e0) L (reconcileEventMeshBackend env unmarshalMessages b) anything.
Proof.
  intros HL Hb. unfold reconcileEventMeshBackend. op_step; [apply crdExists_spec; op_stable|].
  destruct a as [[|]|err]; [|fail_step|fail_step].
  op_step; [op_step; apply getSecret_spec; op_stable|]. destruct a as [s|err].
  - apply runEventMeshBackend_spec; [unfold happened; op_stable|]. intros w [[_ Hc] Hg]. right. split; [done|]. split; [by apply Hc|].
    destruct Hg as (ns & name & Hg). by exists ns, name, s.
  - destruct (IsNotFound err); fail_step.
Qed.

(** ** The resource that was read *)

(** Everything but the rest of the status is as in [e0]. *)
Definition reading (e0 e : Eventing) : Prop := frame e0 e /\ ActiveBackend (eStatus e) = ActiveBackend (eStatus e0).
(** Only the finalizers and the status may differ from [e0]. *)
Definition same_object (e0 e : Eventing) : Prop :=
  eName e = eName e0 /\ eNamespace e = eNamespace e0 /\ eSpec e = eSpec e0 /\ eDeletionTimestamp e = eDeletionTimestamp e0.
Definition was_read (e0 : Eventing) (w : RW) : Prop := exists ns name, happened w0 w (OpGet ns name (inl e0)).

Lemma handleBackendSwitching_spec e0 L : stable L -> (forall w, L w -> was_read e0 w) ->
  spec (reading e0) L (handleBackendSwitching connEnv) anything.
Proof.
  intros HL Hread. unfold handleBackendSwitching. apply spec_gets. intros s Hs.
  destruct (IsPreviousBackendEmpty (cr s)) eqn:Hp; [by op_step|].
  op_step; [op_step|]. eapply spec_pure; [by intros w [_ Hc]; exact Hc|]. intros Hc. destruct a; cbn [negb]; [|by op_step].
  assert (forall w, L w -> backend_switched w0 w) as Hsw.
  { intros w Hl. destruct (Hread w Hl) as (ns & name & Hg). exists ns, name, e0. split; [done|].
    destruct Hs as [(_ & _ & Hspec & _) Ha]. unfold IsPreviousBackendEmpty, IsSpecBackendTypeChanged, backendType in *.
    rewrite Hspec, Ha in *. apply String.eqb_neq in Hp. split; [done|].
    destruct (eBackend (eSpec e0)) as [b|]; [|done]. cbn in *. injection Hc as Hc. apply negb_true_iff, String.eqb_neq in Hc. congruence. }
  op_any.
  { destruct (String.eqb _ _); [|apply stopEventMeshSubManager_spec; [op_stable|]; intros _ w [Hl _]; right; left; by apply Hsw].
    op_any; [apply stopNATSSubManager_spec; [op_stable|]; intros _ w [Hl _]; right; left; by apply Hsw|].
    op_any; [apply stopNATSCRWatch_spec; op_stable|apply disconnect_spec; op_stable]. }
  op_any; [by apply spec_puts; [op_stable|]|].
  eapply spec_anything, spec_onDepsM; [op_stable|]. intros r w [[[Hl _] _] _]. left. by apply Hsw.
Qed.

Lemma updateCR_spec F L : stable L -> (forall e r w, F e -> L w -> op_justified w0 w (OpUpdate e r)) -> spec F L (updateCR env) anything.
Proof. intros HL Hj. unfold updateCR. apply spec_gets. intros s Hs. op_step; [done|auto|]. by op_step. Qed.

Lemma addFinalizer_traced F L : stable L -> traced w0 F L (addFinalizer env).
Proof.
  intros HL. unfold addFinalizer. eapply (traced_puts_bind _ _ (fun e => FinalizerName ∈ eFinalizers e)); [done| |].
  - intros s _. cbn. unfold withFinalizer, containsFinalizer. case_bool_decide; [done|]. cbn. apply elem_of_app. right. by constructor.
  - eapply any_traced, updateCR_spec; [done|]. by intros e r w He _ Hne.
Qed.

Lemma removeFinalizer_traced e0 L : stable L -> eDeletionTimestamp e0 <> None ->
  (forall w, L w -> eBackend (eSpec e0) = None \/ no_subscriptions w0 w /\
     deleted w0 w "ClusterRole" (GetPublisherClusterRoleName e0) (eNamespace e0) /\
     deleted w0 w "ClusterRoleBinding" (GetPublisherClusterRoleBindingName e0) (eNamespace e0)) ->
  traced w0 (frame e0) L (removeFinalizer env).
Proof.
  intros HL Hd Hj. unfold removeFinalizer. eapply (traced_puts_bind _ _ (same_object e0)); [done| |].
  - intros s (? & ? & ? & ? & _). by split_and!.
  - eapply any_traced, updateCR_spec; [done|]. intros e r w (Hn & Hns & Hspec & Hts) Hl _.
    unfold GetPublisherClusterRoleName, GetPublisherClusterRoleBindingName in *. rewrite Hts, Hspec, Hn, Hns. split; [done|]. by apply Hj.
Qed.

(** ** Deletion *)
Lemma syncStatusWithDeletionErr_spec e0 x L err : stable L -> x <> StateReady ->
  spec (framed_in e0 x) L (syncStatusWithDeletionErr env err) anything.
Proof.
  intros HL Hx. unfold syncStatusWithDeletionErr. op_any.
  - unfold updStatusNow. op_step. by apply spec_puts; [|intros s [? ?]; split].
  - apply joinSync_spec; [op_stable|]. intros e w [_ <-] _ HS. by rewrite HS in Hx.
Qed.

Lemma deleteClusterObject_spec e0 L kind name : stable L -> (forall w, L w -> no_subscriptions w0 w) ->
  spec (frame e0) L (deleteClusterObject env kind name) (fun _ w => deleted w0 w kind name (eNamespace e0)).
Proof.
  intros HL Hn. unfold deleteClusterObject. apply spec_gets. intros s (_ & -> & _). op_step; [done|by intros; apply Hn|].
  eapply spec_weaken; [apply spec_returnErr|]. intros [] w [_ Hw] Hr. by exists a.
Qed.

Lemma deleteClusterScopedResources_spec e0 L : stable L -> (forall w, L w -> no_subscriptions w0 w) ->
  spec (frame e0) L (deleteClusterScopedResources env)
    (fun _ w => deleted w0 w "ClusterRole" (GetPublisherClusterRoleName e0) (eNamespace e0) /\
                deleted w0 w "ClusterRoleBinding" (GetPublisherClusterRoleBindingName e0) (eNamespace e0)).
Proof.
  intros HL Hn. unfold deleteClusterScopedResources. apply spec_gets. intros s (Hname & Hns & _).
  assert (GetPublisherClusterRoleName (cr s) = GetPublisherClusterRoleName e0 /\
    GetPublisherClusterRoleBindingName (cr s) = GetPublisherClusterRoleBindingName e0) as [-> ->].
  { unfold GetPublisherClusterRoleName, GetPublisherClusterRoleBindingName. by rewrite ?Hname, ?Hns. }
  op_step; [by apply deleteClusterObject_spec|]. eapply spec_weaken; [apply deleteClusterObject_spec|].
  - unfold deleted. op_stable.
  - intros w [Hl _]. by apply Hn.
  - intros _ w [_ ?] ?. by split.
Qed.

Lemma deleteEventing_traced e0 L b : stable L -> eDeletionTimestamp e0 <> None -> (forall w, L w -> no_subscriptions w0 w) ->
  traced w0 (frame e0) L (deleteEventing env b).
Proof.
  intros HL Hd Hn. unfold deleteEventing. cbv zeta. eapply (traced_bind _ _ _ _ _ anything).
  { eapply spec_anything, spec_errOf. destruct (String.eqb _ _);
      [apply stopNATSSubManager_spec|apply stopEventMeshSubManager_spec]; try done; intros _ w Hl; left; by apply Hn. }
  intros [err|]; [eapply any_traced; destruct (String.eqb _ _); fail_step|].
  eapply traced_bind; [apply updStatusNow_spec; op_stable|]. intros [].
  eapply traced_bind; [eapply spec_errOf, deleteClusterScopedResources_spec; [op_stable|]; intros w [[? _] _]; by apply Hn|].
  intros [err|]; [eapply any_traced; fail_step; unfold deleted|].
  eapply traced_bind; [apply updStatusNow_spec; unfold deleted; op_stable|]. intros [].
  apply removeFinalizer_traced; [unfold deleted; op_stable|done|].
  intros w [[[[Hl _] _] Hdel] _]. right. split; [by apply Hn|by apply Hdel].
Qed.

Lemma handleEventingDeletion_traced e0 L : stable L -> eDeletionTimestamp e0 <> None -> traced w0 (frame e0) L (handleEventingDeletion env).
Proof.
  intros HL Hd. unfold handleEventingDeletion. apply traced_gets. intros s (_ & _ & Hspec & _). rewrite Hspec.
  destruct (negb _); [eapply any_traced; by apply (spec_ret _ _ _ _ anything)|].
  destruct (eBackend (eSpec e0)) as [b|] eqn:Hb; [|apply removeFinalizer_traced; auto].
  eapply traced_bind; [by apply spec_onDeps|]. intros [[|]|err].
  - eapply any_traced, (spec_puts_bind _ _ (framed_in e0 StateWarning)); [op_stable|by intros s' ?|by intros e []|].
    op_any; [apply syncStatusWithDeletionErr_spec; [op_stable|done]|by op_step].
  - apply deleteEventing_traced; [op_stable|done|]. by intros w [_ ?].
  - eapply any_traced, (spec_puts_bind _ _ (framed_in e0 StateError)); [op_stable|by intros s' ?|by intros e []|].
    apply failWith_spec, syncStatusWithDeletionErr_spec; [op_stable|done].
Qed.

(** ** Reconciliation *)
Lemma reconcileBackend_traced e0 L : stable L ->
  traced w0 (frame e0) L (reconcileBackend env connEnv natsURL unmarshalMessages).
Proof.
  intros HL. unfold reconcileBackend. apply traced_gets. intros s Hs.
  eapply traced_bind; [apply spec_orPanic|]. intros e'. eapply traced_pure; [by intros w [_ He]; exact He|]. intros He.
  eapply (traced_puts_bind _ _ (frame e0)); [op_stable| |].
  { intros s' _. cbn. unfold SyncStatusActiveBackend in He. destruct (backendType _); [|done]. by injection He as <-. }
  eapply any_traced. op_step; [apply crdExists_spec; op_stable|]. destruct a as [enabled|err]; [|fail_step].
  op_any; [by apply spec_puts; [op_stable|]|]. op_step. op_any; [apply spec_inside; op_stable|].
  op_step; [apply backendOf_spec|]. destruct (String.eqb _ NatsBackendType) eqn:Hn.
  - apply String.eqb_eq in Hn as ->. apply reconcileNATSBackend_spec; op_stable.
  - destruct (String.eqb _ EventMeshBackendType) eqn:Hm; [|by op_step]. apply String.eqb_eq in Hm.
    apply reconcileEventMeshBackend_spec; [op_stable|done].
Qed.

Lemma handleEventingReconcile_traced e0 L : stable L -> (forall w, L w -> was_read e0 w) ->
  traced w0 (reading e0) L (handleEventingReconcile env connEnv natsURL unmarshalMessages).
Proof.
  intros HL Hr. unfold handleEventingReconcile. apply traced_gets. intros s Hs.
  destruct (negb _); [by apply addFinalizer_traced|]. eapply (traced_bind _ _ _ _ _ anything).
  { unfold InitStateProcessing. op_step. destruct (String.eqb _ _); [|by op_step]. by apply spec_puts; [|intros s' [? ?]; split]. }
  intros []. destruct (HasEmptyBackend _).
  { eapply traced_weaken; [|by intros e []]. eapply any_traced, finishWith_spec. unfold syncStatusForEmptyBackend.
    apply (sync_error_unit _ StateWarning); [op_stable|done|reflexivity]. }
  eapply (traced_bind _ _ _ _ _ anything).
  { eapply spec_anything, spec_errOf, handleBackendSwitching_spec; [op_stable|]. intros w [? _]. by apply Hr. }
  intros r. eapply traced_weaken; [|by intros e []]. destruct r as [err|]; [|apply reconcileBackend_traced; op_stable].
  eapply any_traced. fail_step.
Qed.

Lemma handleEventingCRAllowedCheck_spec e0 L allowed : stable L -> spec (reading e0) L (handleEventingCRAllowedCheck env allowed) anything.
Proof.
  intros HL. unfold handleEventingCRAllowedCheck. op_step. destruct (_ && _); [by op_step|]. cbv zeta.
  eapply (updStatusNow_state_in _ StateError); [done|reflexivity|by intros t e [? ?]; split|].
  op_any; [|by op_step]. apply syncEventingStatus_spec; [done|]. by intros e w [_ ->].
Qed.

Lemma reconcileCR_traced e0 L : stable L -> (forall w, L w -> was_read e0 w) ->
  traced w0 (reading e0) L (reconcileCR env connEnv natsURL allowedEventingCR unmarshalMessages).
Proof.
  intros HL Hr. unfold reconcileCR. apply traced_gets. intros s [(_ & _ & _ & Hd & _) _]. rewrite Hd.
  destruct (eDeletionTimestamp e0) eqn:He.
  - eapply traced_weaken; [apply (handleEventingDeletion_traced e0); [done|by rewrite He]|by intros e []].
  - eapply (traced_bind _ _ _ _ _ anything).
    { eapply spec_anything, spec_try. destruct allowedEventingCR; [by apply handleEventingCRAllowedCheck_spec|].
      by apply (spec_ret _ _ _ _ anything). }
    intros [[|]|err]; [apply handleEventingReconcile_traced; [op_stable|intros w [? _]; by apply Hr]|..];
      eapply any_traced; by apply (spec_ret _ _ _ _ anything).
Qed.
End steps.

Lemma Reconcile_traced w ns name :
  traced w (fun _ => True) always (Reconcile env connEnv natsURL allowedEventingCR unmarshalMessages ns name).
Proof.
  unfold Reconcile. eapply traced_bind; [by apply spec_call|]. intros [e0|err]; [|eapply any_traced; by apply (spec_ret _ _ _ _ anything)].
  eapply (traced_puts_bind _ _ (reading e0)); [op_stable|by intros s _|]. eapply (traced_bind _ _ _ _ _ anything).
  { eapply spec_anything, (spec_errOf _ _ _ _ anything). unfold watchClusterScopedResources. op_step. destruct (clusterScopedResourcesWatched _); [by op_step|].
    do 2 (op_any; [apply watchResource_spec; op_stable|]). by apply spec_puts; [op_stable|]. }
  intros [err|]; [eapply any_traced; by apply (spec_ret _ _ _ _ anything)|].
  apply reconcileCR_traced; [op_stable|]. intros w' [[_ ?] _]. by eexists _, _.
Qed.

(** C2: whatever the API server, the eventing manager and the subscription managers answer, the requests of a reconciliation
    are justified by what happened before them in it: the state Ready is only written after the publisher proxy was deployed for a
    reachable backend and its deployment was read and is ready; a manager is only stopped with cleanup when no Subscription
    exists, the backend changed or the credentials were read; the finalizer is only removed from a deleted resource, after its
    cluster-scoped objects were deleted and no Subscription was left; the publisher proxy is only removed when the backend
    changed or its CRD is gone. *)
Theorem Op_Reconcile_trace w ns name :
  all_justified w (Reconcile env connEnv natsURL allowedEventingCR unmarshalMessages ns name w).2.
Proof.
  pose proof (Reconcile_traced w ns name w) as Hr. destruct (Reconcile _ _ _ _ _ _ _ w) as [[a|err|m] w'];
    apply Hr; (split; [apply trace_refl|done]).
Qed.
End safety.
