(* ===== verification/OperatorBounds.v ===== *)
(** * Eventing operator: a reconciliation makes a bounded number of requests

    The cost of a run is the number of requests it adds to the log.  A reconciliation has no loop: whatever the API server,
    NATS, the eventing manager and the subscription managers answer, it is over after a number of requests that does not depend on them. *)

From S2P Require Import Prelude Effects GoStrings Errors Utils Subscription Eventing Config EventMeshUtils ApiRule Objects KubeClient PublisherProxy Connection Operator.

(** ** Costs *)
Section costs.
Context {S E : Type}.

(** A run that ends with [o] makes at most [f o] requests. *)
Definition costs {A} (f : outcome A -> nat) (c : M (World S E) A) : Prop :=
  forall w, exists l, hist (c w).2 = (l ++ hist w)%list /\ (length l <= f (c w).1)%nat.
Definition within {A} (n : nat) (c : M (World S E) A) : Prop := costs (fun _ => n) c.

Lemma costs_silent {A} f (c : M (World S E) A) : (forall w, hist (c w).2 = hist w) -> costs f c.
Proof. intros H w. exists []. split; [apply H|cbn; lia]. Qed.
Lemma within_ret {A} (a : A) : within 0 (retM a).
Proof. by apply costs_silent. Qed.
Lemma within_err {A} err : within 0 (@errM _ A err).
Proof. by apply costs_silent. Qed.
Lemma within_panic {A} m : within 0 (@panicM _ A m).
Proof. by apply costs_silent. Qed.
Lemma within_gets {A} (f : S -> A) : within 0 (gets f).
Proof. by apply costs_silent. Qed.
Lemma within_puts (f : S -> S) : within 0 (puts f).
Proof. by apply costs_silent. Qed.
Lemma within_okOr {A} (r : A + goerr) : within 0 (okOr r).
Proof. by apply costs_silent; destruct r. Qed.
Lemma within_orPanic {A} (o : option A) m : within 0 (orPanic o m).
Proof. by apply costs_silent; destruct o. Qed.
Lemma within_returnErr err : within 0 (returnErr err).
Proof. by apply costs_silent; destruct err. Qed.
Lemma within_call {A} (ev : A -> E) f : within 1 (call ev f).
Proof. intros w. by eexists [_]. Qed.

Lemma within_weaken {A} m n (c : M (World S E) A) : within m c -> (m <= n)%nat -> within n c.
Proof. intros H Hn w. destruct (H w) as (l & ? & ?). exists l. split; [done|lia]. Qed.

(** What is left after a first part that ended with [a]. *)
Lemma costs_bind {A B} f n (c : M (World S E) A) (k : A -> M (World S E) B) :
  costs f c -> (forall o, f o <= n)%nat -> (forall a, within (n - f (Ok a)) (k a)) -> within n (bindM c k).
Proof.
  intros Hc Hn Hk w. unfold bindM. destruct (Hc w) as (l & Hl & Hf). specialize (Hn (c w).1).
  destruct (c w) as [[a|err|m] w']; cbn in *; [|exists l; split; [done|lia]..].
  destruct (Hk a w') as (l' & Hl' & Hf'). exists (l' ++ l)%list. rewrite Hl', Hl, app_assoc, length_app. split; [done|lia].
Qed.
Lemma within_bind {A B} m n (c : M (World S E) A) (k : A -> M (World S E) B) :
  within m c -> (m <= n)%nat -> (forall a, within (n - m) (k a)) -> within n (bindM c k).
Proof. intros Hc Hm Hk. by apply (costs_bind (fun _ => m)). Qed.
Lemma within_assoc {A B C} n (c : M (World S E) A) (k : A -> M (World S E) B) (k' : B -> M (World S E) C) :
  within n (bindM c (fun a => bindM (k a) k')) -> within n (bindM (bindM c k) k').
Proof. intros H w. rewrite bindM_assoc. apply H. Qed.

Lemma costs_gets {A B} f (g : S -> A) (k : A -> M (World S E) B) : (forall a, costs f (k a)) -> costs f (bindM (gets g) k).
Proof. intros H w. apply H. Qed.
Lemma costs_unassoc {A B C} f (c : M (World S E) A) (k : A -> M (World S E) B) (k' : B -> M (World S E) C) :
  costs f (bindM (bindM c k) k') -> costs f (bindM c (fun a => bindM (k a) k')).
Proof. intros H w. rewrite <-bindM_assoc. apply H. Qed.
(** A first part whose result is not used. *)
Lemma costs_then_ret {A B} (f : outcome B -> nat) n (c : M (World S E) A) (b : B) :
  within n c -> (n <= f (Ok b))%nat -> (forall err, n <= f (Err err))%nat -> (forall m, n <= f (Panic m))%nat -> costs f (bindM c (fun _ => retM b)).
Proof.
  intros Hc Hb He Hm w. unfold bindM. destruct (Hc w) as (l & Hl & Hn). exists l.
  destruct (c w) as [[a|err|m] w']; cbn in *; (split; [done|]); [lia|specialize (He err); lia|specialize (Hm m); lia].
Qed.

Lemma costs_try {A} (f : outcome A -> nat) (c : M (World S E) A) :
  costs f c -> costs (fun o => match o with Ok (inl a) => f (Ok a) | Ok (inr err) => f (Err err) | Err err => f (Err err) | Panic m => f (Panic m) end)
    (tryM c).
Proof. intros H w. specialize (H w). unfold tryM. by destruct (c w) as [[a|err|m] w']. Qed.
Lemma within_try {A} n (c : M (World S E) A) : within n c -> within n (tryM c).
Proof. intros H w. specialize (H w). unfold tryM. by destruct (c w) as [[a|err|m] w']. Qed.
Lemma within_errOf n (c : M (World S E) unit) : within n c -> within n (errOf c).
Proof. intros H w. specialize (H w). unfold errOf. by destruct (c w) as [[a|err|m] w']. Qed.
End costs.

Create HintDb within discriminated.
#[export] Hint Resolve within_ret within_err within_panic within_gets within_puts within_okOr within_orPanic within_returnErr within_call
  within_try within_errOf : within.

(** One step of a run: the cases of a first part are taken before the rest. *)
Ltac within_known := solve [eauto with within nocore].
Ltac within_step :=
  lazymatch goal with
  | |- within _ (bindM (bindM _ _) _) => apply within_assoc
  | |- within _ (bindM (match ?x with _ => _ end) _) => destruct x
  | |- within _ (bindM (errOf (match ?x with _ => _ end)) _) => destruct x
  | |- within _ (bindM (tryM (match ?x with _ => _ end)) _) => destruct x
  | |- within _ (bindM _ _) => eapply within_bind; [within_known|cbn; lia|intro; cbn [Nat.sub]]
  | |- within _ (match ?x with _ => _ end) => destruct x
  | |- within _ _ => eapply within_weaken; [within_known|cbn; lia]
  end.
Ltac within := cbv zeta; repeat (within_step; cbv zeta).

(** ** The steps of the operator *)
Section operator.
Context {W : Type} `{EventingManagerI W} `{ManagerFactory W} `{ConfigHashing} `{StatusConditions}.
Context (env : OpEnv) (connEnv : ConnEnv) (natsURL : string) (allowedEventingCR : option (string * string)).
Context (unmarshalMessages : string -> list Message + goerr).
Abbreviation RW := (World (OpState W) opEvent).

Lemma within_deps {A} (c : M W A) : within 0 ((fun w => let '(o, d) := c (deps (st w)) in (o, mkWorld (set_deps d (st w)) (hist w))) : M RW A).
Proof. apply costs_silent. intros w. by destruct (c (deps (st w))). Qed.
Hint Resolve within_deps : within.
Lemma within_onDeps {A} (ev : A + goerr -> opEvent) (c : M W A) : within 1 (onDeps ev c).
Proof. unfold onDeps. within. Qed.
Lemma within_onDepsM {A} (ev : A + goerr -> opEvent) (c : M W A) : within 1 (onDepsM ev c).
Proof. unfold onDepsM. eapply within_bind; [apply within_onDeps|done|intro; within]. Qed.
Lemma within_onConnection {A} (c : M (World connection connEvent) A) : within 0 (@onConnection W A c).
Proof. apply costs_silent. intros w. unfold onConnection. destruct (natsConnection (st w)) as [conn|]; [by destruct (c conn)|done]. Qed.
Lemma within_updStatus f : within 0 (@updStatus W f).
Proof. apply within_puts. Qed.
Lemma within_updStatusNow f : within 0 (@updStatusNow W env f).
Proof. by apply costs_silent. Qed.
Lemma within_backendOf e : within 0 (@backendOf W e).
Proof. apply within_orPanic. Qed.
Hint Resolve within_onDeps within_onDepsM within_onConnection within_updStatus within_updStatusNow within_backendOf : within.

Lemma within_failWith n (e : M RW goerr) : within n e -> within n (failWith e).
Proof. intros He. eapply within_bind; [exact He|done|intro; within]. Qed.
Lemma within_finishWith n k (c : M RW unit) : within n c -> within n (finishWith k c).
Proof. intros Hc. eapply within_bind; [by apply within_errOf|done|intro; within]. Qed.
Lemma within_wrapM {A} n m (c : M RW A) : within n c -> within n (wrapM m c).
Proof. intros Hc. eapply within_bind; [by apply within_try|done|intro; within]. Qed.
Hint Resolve within_failWith within_finishWith within_wrapM : within.

Lemma within_updateStatus a b : within 1 (updateStatus env a b : M RW _).
Proof. unfold updateStatus. within. Qed.
Hint Resolve within_updateStatus : within.
Lemma within_syncEventingStatus : within 2 (syncEventingStatus env : M RW _).
Proof. unfold syncEventingStatus. within. Qed.
Hint Resolve within_syncEventingStatus : within.
Lemma within_joinSync err : within 2 (joinSync env err : M RW _).
Proof. unfold joinSync. within. Qed.
Hint Resolve within_joinSync : within.
Lemma within_syncStatusWithNATSState s err : within 2 (syncStatusWithNATSState env s err : M RW _).
Proof. unfold syncStatusWithNATSState. within. Qed.
Hint Resolve within_syncStatusWithNATSState : within.
Lemma within_syncStatusWithNATSErr err : within 2 (syncStatusWithNATSErr env err : M RW _).
Proof. unfold syncStatusWithNATSErr. within. Qed.
Hint Resolve within_syncStatusWithNATSErr : within.
Lemma within_syncStatusForEmptyBackend m : within 2 (syncStatusForEmptyBackend env m : M RW _).
Proof. unfold syncStatusForEmptyBackend. within. Qed.
Hint Resolve within_syncStatusForEmptyBackend : within.
Lemma within_syncStatusWithPublisherProxyErrWithReason r err : within 2 (syncStatusWithPublisherProxyErrWithReason env r err : M RW _).
Proof. unfold syncStatusWithPublisherProxyErrWithReason. within. Qed.
Hint Resolve within_syncStatusWithPublisherProxyErrWithReason : within.
Lemma within_syncStatusWithPublisherProxyErr err : within 2 (syncStatusWithPublisherProxyErr env err : M RW _).
Proof. unfold syncStatusWithPublisherProxyErr. within. Qed.
Hint Resolve within_syncStatusWithPublisherProxyErr : within.
Lemma within_syncStatusWithSubscriptionManagerErrWithReason r err : within 2 (syncStatusWithSubscriptionManagerErrWithReason env r err : M RW _).
Proof. unfold syncStatusWithSubscriptionManagerErrWithReason. within. Qed.
Hint Resolve within_syncStatusWithSubscriptionManagerErrWithReason : within.
Lemma within_syncStatusWithSubscriptionManagerErr err : within 2 (syncStatusWithSubscriptionManagerErr env err : M RW _).
Proof. unfold syncStatusWithSubscriptionManagerErr. within. Qed.
Hint Resolve within_syncStatusWithSubscriptionManagerErr : within.
Lemma within_syncSubManagerStatusWithNATSState s err : within 2 (syncSubManagerStatusWithNATSState env s err : M RW _).
Proof. unfold syncSubManagerStatusWithNATSState. within. Qed.
Hint Resolve within_syncSubManagerStatusWithNATSState : within.
Lemma within_syncStatusWithSubscriptionManagerFailedCondition err : within 2 (syncStatusWithSubscriptionManagerFailedCondition env err : M RW _).
Proof. unfold syncStatusWithSubscriptionManagerFailedCondition. within. Qed.
Hint Resolve within_syncStatusWithSubscriptionManagerFailedCondition : within.
Lemma within_syncStatusWithDeletionErr err : within 2 (syncStatusWithDeletionErr env err : M RW _).
Proof. unfold syncStatusWithDeletionErr. within. Qed.
Hint Resolve within_syncStatusWithDeletionErr : within.
Lemma within_getDeployment n ns : within 1 (getDeployment env n ns : M RW _).
Proof. unfold getDeployment. within. Qed.
Hint Resolve within_getDeployment : within.
Lemma within_handleEventingState d : within 3 (handleEventingState env d : M RW _).
Proof. unfold handleEventingState. within. Qed.
Hint Resolve within_handleEventingState : within.
Lemma within_updateCR : within 1 (updateCR env : M RW _).
Proof. unfold updateCR. within. Qed.
Hint Resolve within_updateCR : within.
Lemma within_addFinalizer : within 1 (addFinalizer env : M RW _).
Proof. unfold addFinalizer. within. Qed.
Hint Resolve within_addFinalizer : within.
Lemma within_removeFinalizer : within 1 (removeFinalizer env : M RW _).
Proof. unfold removeFinalizer. within. Qed.
Hint Resolve within_removeFinalizer : within.
Lemma within_getNATSUrl ns : within 1 (getNATSUrl env ns : M RW _).
Proof. unfold getNATSUrl. within. Qed.
Hint Resolve within_getNATSUrl : within.
Lemma within_GetNatsConfig : within 2 (GetNatsConfig env : M RW _).
Proof. unfold GetNatsConfig. within. Qed.
Hint Resolve within_GetNatsConfig : within.
Lemma within_getDefaultSubscriptionConfig : within 0 (getDefaultSubscriptionConfig : M RW _).
Proof. unfold getDefaultSubscriptionConfig. within. Qed.
Hint Resolve within_getDefaultSubscriptionConfig : within.
Lemma within_stopNATSSubManager b : within 1 (stopNATSSubManager b : M RW _).
Proof. unfold stopNATSSubManager. within. Qed.
Hint Resolve within_stopNATSSubManager : within.
Lemma within_startNATSSubManager c : within 1 (startNATSSubManager c : M RW _).
Proof. unfold startNATSSubManager. within. Qed.
Hint Resolve within_startNATSSubManager : within.
Lemma within_newManagerId : within 0 (newManagerId : M RW _).
Proof. unfold newManagerId. within. Qed.
Hint Resolve within_newManagerId : within.
Lemma within_reconcileNATSSubManager : within 6 (reconcileNATSSubManager env : M RW _).
Proof. unfold reconcileNATSSubManager. within. Qed.
Hint Resolve within_reconcileNATSSubManager : within.
Lemma within_stopEventMeshSubManager b : within 1 (stopEventMeshSubManager b : M RW _).
Proof. unfold stopEventMeshSubManager. within. Qed.
Hint Resolve within_stopEventMeshSubManager : within.
Lemma within_startEventMeshSubManager c p : within 1 (startEventMeshSubManager c p : M RW _).
Proof. unfold startEventMeshSubManager. within. Qed.
Hint Resolve within_startEventMeshSubManager : within.
Lemma within_getSecret n : within 1 (getSecret env n : M RW _).
Proof. unfold getSecret. within. Qed.
Hint Resolve within_getSecret : within.
Lemma within_SyncPublisherProxySecret ns s : within 1 (SyncPublisherProxySecret env unmarshalMessages ns s : M RW _).
Proof. unfold SyncPublisherProxySecret. within. Qed.
Hint Resolve within_SyncPublisherProxySecret : within.
Lemma within_dataKey s n k : within 0 (dataKey s n k : M RW _).
Proof. unfold dataKey. within. Qed.
Hint Resolve within_dataKey : within.
Lemma within_getOAuth2ClientCredentials ns : within 1 (getOAuth2ClientCredentials env ns : M RW _).
Proof. unfold getOAuth2ClientCredentials. within. Qed.
Hint Resolve within_getOAuth2ClientCredentials : within.
Lemma within_isOauth2CredentialsInitialized : within 0 (isOauth2CredentialsInitialized : M RW _).
Proof. unfold isOauth2CredentialsInitialized. within. Qed.
Hint Resolve within_isOauth2CredentialsInitialized : within.
Lemma within_syncOauth2ClientIDAndSecret : within 4 (syncOauth2ClientIDAndSecret env : M RW _).
Proof. unfold syncOauth2ClientIDAndSecret. within. Qed.
Hint Resolve within_syncOauth2ClientIDAndSecret : within.
Lemma within_setenv n v : within 1 (setenv env n v : M RW _).
Proof. unfold setenv. within. Qed.
Hint Resolve within_setenv : within.
Lemma within_setUpEnvironmentForEventMesh s : within 6 (setUpEnvironmentForEventMesh env s : M RW _).
Proof. unfold setUpEnvironmentForEventMesh. within. Qed.
Hint Resolve within_setUpEnvironmentForEventMesh : within.
Lemma within_readDomainFromConfigMap : within 1 (readDomainFromConfigMap env : M RW _).
Proof. unfold readDomainFromConfigMap. within. Qed.
Hint Resolve within_readDomainFromConfigMap : within.
Lemma within_checkDomain d : within 1 (checkDomain env d : M RW _).
Proof. unfold checkDomain. within. Qed.
Hint Resolve within_checkDomain : within.
Lemma within_replaceEventMeshSubManager d : within 4 (replaceEventMeshSubManager d : M RW _).
Proof. unfold replaceEventMeshSubManager. within. Qed.
Hint Resolve within_replaceEventMeshSubManager : within.
Lemma within_reconcileEventMeshSubManager s : within 16 (reconcileEventMeshSubManager env unmarshalMessages s : M RW _).
Proof. unfold reconcileEventMeshSubManager. within. Qed.
Hint Resolve within_reconcileEventMeshSubManager : within.
Lemma within_watchResource s : within 1 (watchResource env s : M RW _).
Proof. unfold watchResource. within. Qed.
Hint Resolve within_watchResource : within.
Lemma within_startNATSCRWatch : within 2 (startNATSCRWatch env : M RW _).
Proof. unfold startNATSCRWatch. within. Qed.
Hint Resolve within_startNATSCRWatch : within.
Lemma within_stopNATSCRWatch : within 1 (stopNATSCRWatch : M RW _).
Proof. unfold stopNATSCRWatch. within. Qed.
Hint Resolve within_stopNATSCRWatch : within.
Lemma within_connectToNATS : within 1 (connectToNATS connEnv natsURL : M RW _).
Proof. unfold connectToNATS. within. Qed.
Hint Resolve within_connectToNATS : within.
Lemma within_disconnect : within 1 (disconnect connEnv : M RW _).
Proof. unfold disconnect. within. Qed.
Hint Resolve within_disconnect : within.
Lemma within_deleteClusterObject k n : within 1 (deleteClusterObject env k n : M RW _).
Proof. unfold deleteClusterObject. within. Qed.
Hint Resolve within_deleteClusterObject : within.
Lemma within_deleteClusterScopedResources : within 2 (deleteClusterScopedResources env : M RW _).
Proof. unfold deleteClusterScopedResources. within. Qed.
Hint Resolve within_deleteClusterScopedResources : within.
Lemma within_deleteEventing b : within 5 (deleteEventing env b : M RW _).
Proof. unfold deleteEventing. within. Qed.
Hint Resolve within_deleteEventing : within.
Lemma within_handleEventingDeletion : within 6 (handleEventingDeletion env : M RW _).
Proof. unfold handleEventingDeletion. within. Qed.
Hint Resolve within_handleEventingDeletion : within.
Lemma within_handleBackendSwitching : within 4 (handleBackendSwitching connEnv : M RW _).
Proof. unfold handleBackendSwitching. within. Qed.
Hint Resolve within_handleBackendSwitching : within.
Lemma within_handlePublisherProxy t : within 4 (handlePublisherProxy env t : M RW _).
Proof. unfold handlePublisherProxy. within. Qed.
Hint Resolve within_handlePublisherProxy : within.
Lemma within_runNATSBackend t : within 13 (runNATSBackend env t : M RW _).
Proof. unfold runNATSBackend. within. Qed.
Hint Resolve within_runNATSBackend : within.
Lemma within_reconcileNATSBackend t : within 17 (reconcileNATSBackend env connEnv natsURL t : M RW _).
Proof. unfold reconcileNATSBackend. within. Qed.
Hint Resolve within_reconcileNATSBackend : within.
Lemma within_runEventMeshBackend t s : within 23 (runEventMeshBackend env unmarshalMessages t s : M RW _).
Proof. unfold runEventMeshBackend. within. Qed.
Hint Resolve within_runEventMeshBackend : within.
Lemma within_crdExists n : within 1 (crdExists env n : M RW _).
Proof. unfold crdExists. within. Qed.
Hint Resolve within_crdExists : within.
Lemma within_reconcileEventMeshBackend b : within 25 (reconcileEventMeshBackend env unmarshalMessages b : M RW _).
Proof. unfold reconcileEventMeshBackend. within. Qed.
Hint Resolve within_reconcileEventMeshBackend : within.
Lemma within_reconcileBackend : within 26 (reconcileBackend env connEnv natsURL unmarshalMessages : M RW _).
Proof. unfold reconcileBackend. within. Qed.
Hint Resolve within_reconcileBackend : within.
Lemma within_InitStateProcessing : within 0 (InitStateProcessing : M RW _).
Proof. unfold InitStateProcessing. within. Qed.
Hint Resolve within_InitStateProcessing : within.
Lemma within_handleEventingReconcile : within 30 (handleEventingReconcile env connEnv natsURL unmarshalMessages : M RW _).
Proof. unfold handleEventingReconcile. within. Qed.
Hint Resolve within_handleEventingReconcile : within.

(** Only a resource that is not the allowed one costs requests. *)
Lemma costs_allowedCheck a : costs (fun o => match o with Ok true => 0 | _ => 2 end) (handleEventingCRAllowedCheck env a : M RW _).
Proof.
  unfold handleEventingCRAllowedCheck. cbv zeta. apply costs_gets. intros e. destruct (_ && _); [by apply costs_silent|].
  apply costs_unassoc, (costs_then_ret _ 2); [within|done..].
Qed.

Lemma within_reconcileCR : within 30 (reconcileCR env connEnv natsURL allowedEventingCR unmarshalMessages : M RW _).
Proof.
  unfold reconcileCR. within_step. within_step; [within|].
  eapply (costs_bind (fun o => match o with Ok (inl true) => 0 | _ => 2 end)).
  - destruct allowedEventingCR as [allowed|]; [|by apply costs_silent].
    intros w. destruct (costs_try _ _ (costs_allowedCheck allowed) w) as (l & Hl & Hn). exists l. split; [exact Hl|].
    by destruct (tryM _ w) as [[[[]|]| |] ?].
  - intros [[[]|]| |]; lia.
  - intros [[]|err]; cbn [Nat.sub]; within.
Qed.
Hint Resolve within_reconcileCR : within.
Lemma within_watchClusterScopedResources : within 2 (watchClusterScopedResources env : M RW _).
Proof. unfold watchClusterScopedResources. within. Qed.
Hint Resolve within_watchClusterScopedResources : within.

End operator.
