(* ===== verification/JSManager.v ===== *)
(** * JetStream subscription manager: [pkg/subscriptionmanager/jetstream]

    The manager makes a JetStream backend and the controller of the Subscriptions, and takes them down again.  The
    backend is the model of [JetStream], run in its own world; how its operations ended and the
    requests to the API server are the events of [smEvent]. *)

From S2P Require Import Prelude Effects GoStrings Errors Subscription EventTypes Eventing Config JetStreamUtils JetStream.

Record SubscriptionManager := mkManager {
  envCfg : NATSConfig;
  smMgr : bool; (* sm.mgr != nil *)
  backendv2 : option (World JetStream jsEvent);
  smCancel : bool (* sm.cancel != nil *)
}.

Inductive smEvent :=
  | SMResetSubscriptionStatus
  | SMInitialize (r : option goerr)
  | SMList (r : list Subscription + goerr)
  | SMDeleteInvalidConsumers (r : option goerr)
  | SMSetupUnmanaged (r : option goerr)
  | SMShutdown
  | SMCancelled
  | SMDynamicList (r : unit + goerr)
  | SMConvert (r : list Subscription + goerr)
  | SMUpdateStatus (s : Subscription) (r : option goerr)
  | SMDeleteSubscription (s : Subscription) (r : option goerr).

Record SMEnv := mkSMEnv {
  sm_List : list smEvent -> list Subscription + goerr;
  sm_SetupUnmanaged : list smEvent -> option goerr;
  sm_DynamicList : list smEvent -> unit + goerr;
  sm_Convert : list smEvent -> list Subscription + goerr;
  sm_UpdateStatus : list smEvent -> Subscription -> option goerr
}.

(** [HandleNatsConnClose] of the reconciler, as the backend keeps it. *)
Definition closeHandler : string := "HandleNatsConnClose".

(** [NewSubscriptionManager] of the factory: a nil backend of the Eventing resource is dereferenced. *)
Definition NewSubscriptionManager (natsConfig : NATSConfig) : SubscriptionManager := mkManager natsConfig false None false.
Definition NewJetStreamManager (eventing : Eventing) (natsConfig : NATSConfig) : option SubscriptionManager :=
  config ← GetNewNATSConfig natsConfig eventing; Some (NewSubscriptionManager config).

Section manager.
Context (sha256hex : string -> string) (ParseQuantity : string -> Z + goerr) (jsEnv : JSEnv) (env : SMEnv).
Abbreviation SM := (M (World SubscriptionManager smEvent)).

(** A method of the backend. *)
Definition onBackend {A} (c : M (World JetStream jsEvent) A) : SM A := fun w =>
  match backendv2 (st w) with
  | None => (Panic nilDereference, w)
  | Some b =>
      let '(o, b) := c b in
      (o, mkWorld (mkManager (envCfg (st w)) (smMgr (st w)) (Some b) (smCancel (st w))) (hist w))
  end.

Definition Init : SM unit :=
  cfg <- gets envCfg ;;
  if (len (URL cfg) =? 0)%nat then errM (errors_New "env var URL must be a non-empty value")
  else puts (fun s => mkManager (envCfg s) true (backendv2 s) (smCancel s)).

Definition Start (defaultSubsConfig : DefaultSubscriptionConfig) : SM unit :=
  call (fun _ => SMResetSubscriptionStatus) (fun _ => tt) ;;;
  puts (fun s => mkManager (envCfg s) (smMgr s) (backendv2 s) true) ;;;
  mgr <- gets smMgr ;;
  (if (mgr : bool) then retM tt else panicM nilDereference) ;;;
  puts (fun s => mkManager (envCfg s) (smMgr s) (Some (mkWorld (NewJetStream (envCfg s) JetStreamCleaner defaultSubsConfig) [])) true) ;;;
  r <- errOf (onBackend (Initialize ParseQuantity jsEnv (Some closeHandler))) ;;
  call (fun _ => SMInitialize r) (fun _ => tt) ;;;
  match r with
  | Some err => errM (wrapf "failed to initialise jetstream reconciler" err)
  | None =>
      subs <- call SMList (fun h => sm_List env h) ;;
      match subs with
      | inr err => errM (wrapf "failed to get all subscription resources" err)
      | inl subs =>
          r <- errOf (onBackend (DeleteInvalidConsumers sha256hex jsEnv subs)) ;;
          call (fun _ => SMDeleteInvalidConsumers r) (fun _ => tt) ;;;
          returnErr r ;;;
          r <- call SMSetupUnmanaged (fun h => sm_SetupUnmanaged env h) ;;
          match r with
          | Some err => errM (printf_err "unable to setup the NATS subscription controller" err)
          | None => retM tt
          end
      end
  end.

(** One Subscription of [cleanupv2]: both failures are only logged. *)
Definition cleanupOne (sub : Subscription) : SM unit :=
  let desiredSub := DuplicateWithStatusDefaults sub in
  call (SMUpdateStatus desiredSub) (fun h => sm_UpdateStatus env h desiredSub) ;;;
  r <- errOf (onBackend (DeleteSubscription sha256hex ParseQuantity jsEnv sub)) ;;
  call (fun _ => SMDeleteSubscription sub r) (fun _ => tt).

Definition cleanupv2 : SM unit :=
  b <- gets backendv2 ;;
  match b with
  | None => errM (errors_New "converting backend to JetStream v2 backend failed")
  | Some _ =>
      r <- call SMDynamicList (fun h => sm_DynamicList env h) ;;
      match r with
      | inr err => errM (wrapf "list subscriptions failed" err)
      | inl _ =>
          subs <- call SMConvert (fun h => sm_Convert env h) ;;
          match subs with
          | inr err => errM (wrapf "convert subscriptionList from unstructured list failed" err)
          | inl subs => forM_ subs cleanupOne
          end
      end
  end.

Definition Stop (runCleanup : bool) : SM unit :=
  b <- gets backendv2 ;;
  (match b with
   | Some _ => onBackend (Shutdown jsEnv) ;;; call (fun _ => SMShutdown) (fun _ => tt)
   | None => retM tt
   end) ;;;
  cancel <- gets smCancel ;;
  (if (cancel : bool) then call (fun _ => SMCancelled) (fun _ => tt) else panicM nilDereference) ;;;
  if runCleanup then cleanupv2 else retM tt.
End manager.
