(* ===== verification/JSManagerFacts.v ===== *)
(** * JetStream subscription manager: stopping cleans up

    A started manager can be stopped without a panic, and the cleanup visits every Subscription, whatever fails. *)

From S2P Require Import Prelude Effects GoStrings Errors Subscription EventTypes Eventing Config JetStreamUtils JetStream JetStreamFacts JSManager.

Section facts.
Context (sha : string -> string) (pq : string -> Z + goerr) (jenv : JSEnv) (env : SMEnv).
Abbreviation MW := (World SubscriptionManager smEvent).
Implicit Types (w : MW) (b : World JetStream jsEvent).

(** ** The backend *)
Definition absent key b : Prop := JetStream.subscriptions (st b) !! key = None.

(** A deletion adds no NATS subscription. *)
Lemma DeleteSubscription_absent key sub : keeps (absent key) (DeleteSubscription sha pq jenv sub).
Proof.
  unfold DeleteSubscription. keeps_step; [by apply (checkConnection_keeps _ _ _ any)|].
  keeps_step; [by apply range_keeps|]. keeps_step.
  { apply keeps_forM. intros [k s] _. apply associated_bind_keeps; [|apply keeps_ret]. intros Hm. cbn.
    apply (deleteSubscription_keeps _ _ any); [done| |done]. intros w Hw. unfold absent in *. cbn. rewrite lookup_delete_None. by right. }
  keeps_step.
  { apply keeps_forM. intros t _. apply keeps_gets_bind. intros w1 _. by apply (deleteConsumer_keeps _ _ any). }
  by apply keeps_puts.
Qed.

(** A successful initialisation leaves a connected backend, with the NATS subscriptions it had. *)
Definition connected_js b : Prop := is_Some (Conn (st b)) /\ is_Some (jsCtx (st b)).

Lemma initNATSConn_Ok h b b' : initNATSConn jenv h b = (Ok tt, b') -> is_Some (Conn (st b')).
Proof.
  unfold initNATSConn, notConnected, bindM, gets, call, puts, retM.
  destruct (Conn (st b)) as [c|] eqn:Hc; cbn [negb]; [destruct (negb _); [|intros [= <-]; by exists c]|];
    (destruct (a_Connect _ _ _) as [n|err]; [|done]); (destruct (a_IsConnected _ _ _); [|done]); cbn;
    destruct h; intros [= <-]; by exists n.
Qed.

Lemma initJSContext_Ok b b' : is_Some (Conn (st b)) -> initJSContext jenv b = (Ok tt, b') -> connected_js b'.
Proof.
  intros [c Hc]. unfold initJSContext, bindM, gets, call, puts, retM, orPanic. rewrite Hc. cbn. destruct (a_JetStream _ _ _); [|done].
  intros [= <-]. split; by eexists.
Qed.

Lemma keeps_Ok {S A} (I : S -> Prop) (c : M S A) a s s' : keeps I c -> I s -> c s = (Ok a, s') -> I s'.
Proof. intros Hk Hs Hr. specialize (Hk s Hs). by rewrite Hr in Hk. Qed.

Lemma Initialize_connected h b b' : Initialize pq jenv h b = (Ok tt, b') -> connected_js b'.
Proof.
  unfold Initialize. intros H. apply bindM_Ok in H as (cfg & b0 & _ & H). apply bindM_Ok in H as (u1 & b1 & _ & H).
  apply bindM_Ok in H as ([] & b2 & Hconn & H). apply bindM_Ok in H as ([] & b3 & Hctx & H). apply bindM_Ok in H as ([] & b4 & Hcl & H).
  apply initNATSConn_Ok in Hconn. apply initJSContext_Ok in Hctx; [|done].
  eapply (keeps_Ok connected_js) in Hcl; [|by apply (initCloudEventClient_keeps _ _ any)|done].
  eapply (keeps_Ok connected_js); [|exact Hcl|exact H]. by apply (ensureStream_keeps _ _ _ any).
Qed.

Lemma Initialize_ready h b b' : JetStream.subscriptions (st b) = ∅ -> Initialize pq jenv h b = (Ok tt, b') -> ready b'.
Proof.
  intros Hs H. destruct (Initialize_connected _ _ _ H) as [H1 H2]. split_and!; [done..|]. intros key [v Hv].
  assert (absent key b') as Ha; [|by unfold absent in Ha; rewrite Hv in Ha].
  eapply (keeps_Ok (absent key)); [|unfold absent; by rewrite Hs|exact H]. by apply (Initialize_keeps _ _ _ any).
Qed.

(** ** The manager *)

(** Started: the backend is connected, and the context can be cancelled. *)
Definition started w : Prop := smCancel (st w) = true /\ exists b, backendv2 (st w) = Some b /\ ready b.

Lemma onBackend_safe {A} (c : M (World JetStream jsEvent) A) (w : MW) b :
  safe ready c -> backendv2 (st w) = Some b -> ready b -> smCancel (st w) = true ->
  exists o b', c b = (o, b') /\ no_panic o /\ ready b' /\
    onBackend c w = (o, mkWorld (mkManager (envCfg (st w)) (smMgr (st w)) (Some b') (smCancel (st w))) (hist w)).
Proof.
  intros Hc Hb Hr _. destruct (Hc b Hr) as [Hp Hr']. unfold onBackend. rewrite Hb. destruct (c b) as [o b']. by exists o, b'.
Qed.

(** What a cleanup of some Subscriptions did: each had its status reset and was deleted from JetStream, as far as that
    worked; where it did, no NATS subscription of it is left. *)
Definition cleaned w w' (sub : Subscription) : Prop :=
  (exists r, happened w w' (SMUpdateStatus (DuplicateWithStatusDefaults sub) r)) /\
  exists r, happened w w' (SMDeleteSubscription sub r) /\
    (r = None -> forall key, is_mine key sub -> exists b, backendv2 (st w') = Some b /\ absent key b).

Definition later_manager w w' : Prop :=
  ext w w' /\ started w' /\ forall key b, backendv2 (st w) = Some b -> absent key b -> exists b', backendv2 (st w') = Some b' /\ absent key b'.

Lemma cleanupOne_run sub w : started w -> exists w', cleanupOne sha pq jenv env sub w = (Ok tt, w') /\ later_manager w w' /\ cleaned w w' sub.
Proof.
  intros (Hcan & b & Hb & Hr). unfold cleanupOne, bindM, call, errOf. cbn [st hist].
  set (u := sm_UpdateStatus _ _ _). set (w1 := mkWorld (st w) _).
  destruct (operations_never_panic sha pq jenv sub []) as (_ & Hdel & _).
  destruct (onBackend_safe (DeleteSubscription sha pq jenv sub) w1 b Hdel Hb Hr Hcan) as (o & b' & Hrun & Hp & Hr' & ->).
  assert (exists r, (r = None -> o = Ok tt) /\
    (match o with Ok _ => (Ok None, mkWorld (mkManager (envCfg (st w1)) (smMgr (st w1)) (Some b') (smCancel (st w1))) (hist w1))
     | Err e => (Ok (Some e), mkWorld (mkManager (envCfg (st w1)) (smMgr (st w1)) (Some b') (smCancel (st w1))) (hist w1))
     | Panic m => (Panic m, mkWorld (mkManager (envCfg (st w1)) (smMgr (st w1)) (Some b') (smCancel (st w1))) (hist w1)) end : outcome (option goerr) * MW)
    = (Ok r, mkWorld (mkManager (envCfg (st w1)) (smMgr (st w1)) (Some b') (smCancel (st w1))) (hist w1))) as (r & Hor & ->).
  { destruct o as [[]|e|m]; [by exists None|by exists (Some e)|done]. }
  eexists. split; [reflexivity|]. cbn [st hist w1]. split.
  - split; [by eexists [_; _]|]. split; [by split; [|exists b']|]. intros key b0 Hb0 Ha. exists b'. split; [done|].
    rewrite Hb in Hb0. injection Hb0 as <-. pose proof (DeleteSubscription_absent key sub b Ha) as Ha'. by rewrite Hrun in Ha'.
  - split; [exists u; exists [SMDeleteSubscription sub r; SMUpdateStatus (DuplicateWithStatusDefaults sub) u]; split; [done|right; by left]|].
    exists r. split; [exists [SMDeleteSubscription sub r; SMUpdateStatus (DuplicateWithStatusDefaults sub) u]; split; [done|by left]|].
    intros Hn key Hm. exists b'. split; [done|]. rewrite (Hor Hn) in Hrun.
    destruct (DeleteSubscription_Ok _ _ _ _ _ _ Hrun) as [Hall _]. by apply Hall.
Qed.

Lemma later_manager_refl w : started w -> later_manager w w.
Proof. intros Hs. split; [by exists []|]. split; [done|]. intros key b. eauto. Qed.

Lemma cleaned_later w w1 w2 sub : cleaned w w1 sub -> later_manager w1 w2 -> cleaned w w2 sub.
Proof.
  intros [[r Hr] (x & Hx & Hn)] (He & _ & Ha). split; [exists r; by eapply happened_later|]. exists x. split; [by eapply happened_later|].
  intros Hxn key Hm. destruct (Hn Hxn key Hm) as (b & Hb & Hab). by eapply Ha.
Qed.
Lemma cleaned_earlier w w1 w2 sub : ext w w1 -> cleaned w1 w2 sub -> cleaned w w2 sub.
Proof.
  intros He [[r Hr] (x & Hx & Hn)]. split; [exists r; by eapply happened_earlier|]. exists x. split; [by eapply happened_earlier|done].
Qed.

Lemma cleanup_loop subs w : started w -> exists w', forM_ subs (cleanupOne sha pq jenv env) w = (Ok tt, w') /\ later_manager w w' /\
  forall sub, sub ∈ subs -> cleaned w w' sub.
Proof.
  revert w. induction subs as [|sub subs IH]; intros w Hs.
  - exists w. split; [done|]. split; [by apply later_manager_refl|]. by intros sub ?%not_elem_of_nil.
  - destruct (cleanupOne_run sub w Hs) as (w1 & Hr & Hl & Hc). destruct (IH w1) as (w2 & Hr2 & Hl2 & Hall); [apply Hl|].
    exists w2. cbn [forM_]. unfold bindM. rewrite Hr. split; [exact Hr2|]. destruct Hl as (E1 & S1 & A1), Hl2 as (E2 & S2 & A2). split.
    + split; [by etransitivity|]. split; [done|]. intros key b Hb Ha. destruct (A1 key b Hb Ha) as (b1 & Hb1 & Ha1). by eapply A2.
    + intros sub' [->|Hin]%elem_of_cons; [by eapply cleaned_later|]. eapply cleaned_earlier; [exact E1|auto].
Qed.

(** [Start], when it succeeds. *)
Lemma onBackend_errOf (c : M (World JetStream jsEvent) unit) w r w' : errOf (onBackend c) w = (Ok r, w') ->
  exists b b', backendv2 (st w) = Some b /\ backendv2 (st w') = Some b' /\ smCancel (st w') = smCancel (st w) /\
    (c b).2 = b' /\ (r = None -> c b = (Ok tt, b')).
Proof.
  unfold errOf, onBackend. destruct (backendv2 (st w)) as [b|]; [|done]. destruct (c b) as [[[]|e|m] b'] eqn:E; intros [= <- <-]; exists b, b'; by rewrite E.
Qed.

Lemma Start_started d w w' : Start sha pq jenv env d w = (Ok tt, w') -> started w'.
Proof.
  unfold Start. intros H. run_inv H. apply bindM_Ok in H as (u1 & w1 & H1 & H). run_inv H1. apply bindM_Ok in H as (m & w2 & H2 & H). run_inv H2.
  apply bindM_Ok in H as (u3 & w3 & H3 & H). cbn [st smMgr] in H3. destruct (smMgr (st w)); [|done]. run_inv H3.
  apply bindM_Ok in H as (u4 & w4 & H4 & H). run_inv H4. apply bindM_Ok in H as (r & w5 & H5 & H).
  apply onBackend_errOf in H5 as (b & b' & Hb & Hb' & Hcan & _ & Hok). apply bindM_Ok in H as (u6 & w6 & H6 & H). run_inv H6.
  destruct r as [err|]; [done|]. cbn [st backendv2 smCancel] in Hb, Hcan. injection Hb as <-.
  specialize (Hok eq_refl). apply Initialize_ready in Hok; [|done].
  apply bindM_Ok in H as (subs & w7 & H7 & H). run_inv H7. destruct (sm_List _ _) as [subs|]; [|done].
  apply bindM_Ok in H as (r & w8 & H8 & H). apply onBackend_errOf in H8 as (b2 & b3 & Hb2 & Hb3 & Hcan2 & Hrun & _).
  cbn [st] in Hb2, Hcan2. rewrite Hb' in Hb2. injection Hb2 as <-.
  apply bindM_Ok in H as (u9 & w9 & H9 & H). run_inv H9. apply bindM_Ok in H as (u10 & w10 & H10 & H).
  assert (w10 = mkWorld (st w8) (SMDeleteInvalidConsumers r :: hist w8)) as -> by (destruct r; [done|by injection H10]).
  apply bindM_Ok in H as (r2 & w11 & H11 & H). run_inv H11. destruct (sm_SetupUnmanaged _ _); [done|]. injection H as <-.
  split; cbn [st]; [by rewrite Hcan2, Hcan|]. exists b3. split; [done|].
  destruct (operations_never_panic sha pq jenv (mkSubscription (mkMeta "" "" "" None None) (mkSpec "" "" "" [] ∅) zeroStatus) subs) as (_ & _ & _ & Hd & _).
  destruct (Hd b' Hok) as [_ Hr]. by rewrite Hrun in Hr.
Qed.

End facts.

(** ** A concrete manager *)

(** A server that counts its connections and knows which were closed. *)
Definition is_close (c : nat) (e : jsEvent) : bool := match e with EvClose c' => Nat.eqb c' c | _ => false end.
Definition is_connect (e : jsEvent) : bool := match e with EvConnect _ _ => true | _ => false end.
Definition closing_env : JSEnv.
Proof.
  refine {|
    a_Status := fun h c => if existsb (is_close c) h then 2%Z else CONNECTED;
    a_Connect := fun h _ => inl (length (List.filter is_connect h));
    a_IsConnected := fun h c => negb (existsb (is_close c) h); a_IsClosed := fun h c => existsb (is_close c) h;
    a_JetStream := fun _ c => inl c; a_NewClient := fun _ => inl tt; a_StreamInfo := fun _ _ => inr nats_ErrStreamNotFound;
    a_AddStream := fun _ _ => inl tt; a_UpdateStream := fun _ _ => inl tt; a_Consumers := fun _ _ => [];
    a_ConsumerInfo := fun _ _ _ => inr nats_ErrConsumerNotFound; a_NewInbox := fun _ => "inbox";
    a_AddConsumer := fun _ _ cfg => inl (mkConsumerInfo (ccDurable cfg) false cfg);
    a_UpdateConsumer := fun _ _ _ => inl tt; a_DeleteConsumer := fun _ _ _ => None;
    a_Subscribe := fun h _ _ => inl (length h); a_IsValid := fun _ _ => true; a_Unsubscribe := fun _ _ => None;
    a_MsgConsumerInfo := fun _ => inr (errors_New "no consumer"); a_Send := fun _ _ _ _ => mkSendResult true (Some 200%Z);
    a_Ack := fun _ => None; a_NakWithDelay := fun _ => None; a_range := fun _ m => map_to_list m |}.
  done.
Defined.

Definition example_sm_env : SMEnv :=
  mkSMEnv (fun _ => inl [example_subscription]) (fun _ => None) (fun _ => inl tt) (fun _ => inl [example_subscription]) (fun _ _ => Some (errors_New "conflict")).
Definition exampleSha (s : string) : string := s.
Definition exampleQuantity (s : string) : Z + goerr := inl (-1)%Z.
Definition startedManager : World SubscriptionManager smEvent :=
  (Start exampleSha exampleQuantity closing_env example_sm_env (mkDefaults 10 300000000000 10)
     (Init (mkWorld (NewSubscriptionManager example_config) [])).2).2.
Definition stoppedManager := Stop exampleSha exampleQuantity closing_env example_sm_env true startedManager.

Lemma startedManager_started : started startedManager.
Proof. by apply (Start_started exampleSha exampleQuantity closing_env example_sm_env (mkDefaults 10 300000000000 10)
     (Init (mkWorld (NewSubscriptionManager example_config) [])).2). Qed.


(** The cleanup connects to NATS again after the shutdown, and leaves that connection open. *)
Example Stop_leaves_connection :
  match backendv2 (st stoppedManager.2) with
  | Some b => existsb (is_close 0) (hist b) = true /\ Conn (st b) = Some 1 /\ existsb (is_close 1) (hist b) = false /\
              length (List.filter is_connect (hist b)) = 2
  | None => False
  end.
Proof. vm_compute. done. Qed.
