(* ===== verification/EMManager.v ===== *)
(** * EventMesh subscription manager: [pkg/subscriptionmanager/eventmesh]

    The manager makes an EventMesh backend and the controller of the Subscriptions, and takes them down again.  The
    backend is the model of [EventMesh], run in its own world; how its operations ended, the configuration it read from the
    environment of the process and the requests to the API server are the events of [emmEvent]. *)

From S2P Require Import Prelude Effects GoStrings Errors Utils Subscription EventTypes Config EventMeshUtils EventMesh.

Record SubscriptionManager := mkManager {
  emCfg : EMConfig;
  emDomain : string;
  emMgr : bool; (* c.mgr != nil *)
  eventMeshBackend : option (World EventMesh emEvent);
  emCancel : bool (* c.cancel != nil *)
}.

Inductive emmEvent :=
  | EMMResetSubscriptionStatus
  | EMMGetConfig (cfg : EMConfig)
  | EMMSetupUnmanaged (r : option goerr)
  | EMMCancelled
  | EMMDynamicList (r : unit + goerr)
  | EMMConvert (r : list Subscription + goerr)
  | EMMUpdateStatus (s : Subscription) (r : option goerr)
  | EMMDeleteAPIRule (namespace name : string) (r : option goerr)
  | EMMDeleteSubscription (s : Subscription) (r : option goerr).

Record EMMEnv := mkEMMEnv {
  emm_GetConfig : list emmEvent -> EMConfig;
  emm_SetupUnmanaged : list emmEvent -> option goerr;
  emm_DynamicList : list emmEvent -> unit + goerr;
  emm_Convert : list emmEvent -> list Subscription + goerr;
  emm_UpdateStatus : list emmEvent -> Subscription -> option goerr;
  emm_DeleteAPIRule : list emmEvent -> string -> string -> option goerr
}.

Definition ErrDomainEmpty := sentinel "eventmesh.ErrDomainEmpty" "domain must be a non-empty value".

(** [manager.Params], and what is read from it. *)
Definition ParamNameClientID := "client_id".
Definition ParamNameClientSecret := "client_secret".
Definition ParamNameTokenURL := "token_url".
Definition ParamNameCertsURL := "certs_url".
Definition getOAuth2ClientCredentials (params : gmap string string) : OAuth2ClientCredentials :=
  EventMesh.mkCredentials (default "" (params !! ParamNameClientID)) (default "" (params !! ParamNameClientSecret))
    (default "" (params !! ParamNameTokenURL)) (default "" (params !! ParamNameCertsURL)).

(** [NewSubscriptionManager], with the configuration it read. *)
Definition NewSubscriptionManager (cfg : EMConfig) (domain : string) : SubscriptionManager := mkManager cfg domain false None false.

Section manager.
Context (sha256hex : string -> string) (emEnv : EMEnv) (env : EMMEnv).
Abbreviation SM := (M (World SubscriptionManager emmEvent)).

Definition set_backend (b : option (World EventMesh emEvent)) (s : SubscriptionManager) : SubscriptionManager :=
  mkManager (emCfg s) (emDomain s) (emMgr s) b (emCancel s).

(** A method of the backend, on a copy of a Subscription. *)
Definition onBackend {A} (sub : Subscription) (c : M (World EMState emEvent) A) : SM A := fun w =>
  match eventMeshBackend (st w) with
  | None => (Panic nilDereference, w)
  | Some b =>
      let '(o, b) := c (mkWorld (mkEMState (st b) sub) (hist b)) in
      (o, mkWorld (set_backend (Some (mkWorld (em (st b)) (hist b))) (st w)) (hist w))
  end.

Definition Init : SM unit :=
  domain <- gets emDomain ;;
  if (len domain =? 0)%nat then errM ErrDomainEmpty
  else puts (fun s => mkManager (emCfg s) (emDomain s) true (eventMeshBackend s) (emCancel s)).

(** A backend that cannot be initialised makes it panic. *)
Definition NewReconciler (cfg : EMConfig) (backend : World EMState emEvent) : outcome (World EMState emEvent) :=
  match Initialize emEnv cfg backend with
  | (Ok _, b) => Ok b
  | (Err err, _) => Panic (Error err)
  | (Panic m, _) => Panic m
  end.

(** The Subscription in the state of the backend is not used here. *)
Definition newBackend (credentials : OAuth2ClientCredentials) (domain : string) (cfg : EMConfig) : outcome (World EventMesh emEvent) :=
  let backend := NewEventMesh (Some credentials) (mkNameMapper (TrimSpace domain) MaxSubscriptionNameLength) in
  let none := mkSubscription (mkMeta "" "" "" None None) (mkSpec "" "" "" [] ∅) zeroStatus in
  match NewReconciler cfg (mkWorld (mkEMState backend none) []) with
  | Ok b => Ok (mkWorld (em (st b)) (hist b))
  | Err err => Err err
  | Panic m => Panic m
  end.

Definition Start (params : gmap string string) : SM unit :=
  call (fun _ => EMMResetSubscriptionStatus) (fun _ => tt) ;;;
  puts (fun s => mkManager (emCfg s) (emDomain s) (emMgr s) (eventMeshBackend s) true) ;;;
  let oauth2credential := getOAuth2ClientCredentials params in
  cfg <- call EMMGetConfig (fun h => emm_GetConfig env h) ;;
  puts (fun s => mkManager cfg (emDomain s) (emMgr s) (eventMeshBackend s) (emCancel s)) ;;;
  mgr <- gets emMgr ;;
  (if (mgr : bool) then retM tt else panicM nilDereference) ;;;
  domain <- gets emDomain ;;
  (match newBackend oauth2credential domain cfg with
   | Ok b => puts (set_backend (Some b))
   | Err err => errM err
   | Panic m => panicM m
   end) ;;;
  r <- call EMMSetupUnmanaged (fun h => emm_SetupUnmanaged env h) ;;
  match r with
  | Some err => errM (printf_err "setup EventMesh subscription controller failed" err)
  | None => retM tt
  end.

(** The Subscriptions of the cluster, through the dynamic client. *)
Definition listSubscriptions : SM (list Subscription) :=
  r <- call EMMDynamicList (fun h => emm_DynamicList env h) ;;
  match r with
  | inr err => errM (wrapf "list subscriptions failed" err)
  | inl _ =>
      subs <- call EMMConvert (fun h => emm_Convert env h) ;;
      match subs with
      | inr err => errM (wrapf "convert subscriptionList from unstructured list failed" err)
      | inl subs => retM subs
      end
  end.

(** The status of a Subscription that is not ready any more. *)
Definition notReady (sub : Subscription) : Subscription :=
  let desiredSub := DuplicateWithStatusDefaults sub in
  upd_Backend (fun b => CopyHashes b (sBackend (Status sub))) (set_Status desiredSub (set_Ready (Status desiredSub) false)).

(** The loop: [err] is the error of the last update. *)
Fixpoint markNotReady (subs : list Subscription) (err : option goerr) : SM (option goerr) :=
  match subs with
  | [] => retM err
  | sub :: subs =>
      if negb (Ready (Status sub)) then markNotReady subs err
      else
        err <- call (EMMUpdateStatus (notReady sub)) (fun h => emm_UpdateStatus env h (notReady sub)) ;;
        markNotReady subs err
  end.

Definition markAllV1Alpha2SubscriptionsAsNotReady : SM unit :=
  subs <- listSubscriptions ;; err <- markNotReady subs None ;; returnErr err.

(** One Subscription of [cleanupEventMesh]: the failures are only logged. *)
Definition cleanupOne (sub : Subscription) : SM unit :=
  let apiRule := APIRuleName (sBackend (Status sub)) in
  (if String.eqb apiRule "" then retM tt
   else call (EMMDeleteAPIRule (Namespace (meta sub)) apiRule) (fun h => emm_DeleteAPIRule env h (Namespace (meta sub)) apiRule) ;;; retM tt) ;;;
  let desiredSub := DuplicateWithStatusDefaults sub in
  call (EMMUpdateStatus desiredSub) (fun h => emm_UpdateStatus env h desiredSub) ;;;
  r <- errOf (onBackend sub (DeleteSubscription sha256hex emEnv)) ;;
  call (fun _ => EMMDeleteSubscription sub r) (fun _ => tt).

Definition cleanupEventMesh : SM unit :=
  b <- gets eventMeshBackend ;;
  match b with
  | None => errM (errors_New "no EventMesh backend exists: convert backend handler to EventMesh handler failed")
  | Some _ => subs <- listSubscriptions ;; forM_ subs cleanupOne
  end.

Definition stopEventMeshBackend (runCleanup : bool) : SM unit :=
  if runCleanup then cleanupEventMesh else markAllV1Alpha2SubscriptionsAsNotReady.

Definition Stop (runCleanup : bool) : SM unit :=
  cancel <- gets emCancel ;;
  (if (cancel : bool) then call (fun _ => EMMCancelled) (fun _ => tt) else retM tt) ;;;
  stopEventMeshBackend runCleanup.
End manager.
