(* ===== verification/EMManagerFacts.v ===== *)
(** * EventMesh subscription manager: stopping cleans up, or marks as not ready *)

From S2P Require Import Prelude Effects GoStrings Errors Utils Subscription EventTypes Config EventMeshUtils EventMesh EMManager.

Section facts.
Context (sha : string -> string) (eenv : EMEnv) (env : EMMEnv).
Abbreviation MW := (World SubscriptionManager emmEvent).
Implicit Types (w : MW) (b : World EventMesh emEvent).

(** ** The backend of a started manager *)
Definition initialised b : Prop := emClient (st b) = true /\ maxLength (SubNameMapper (st b)) = MaxSubscriptionNameLength.

(** A name is always found: the hash has at most 40 bytes. *)
Lemma MapSubscriptionName_some m name namespace : maxLength m = MaxSubscriptionNameLength ->
  is_Some (MapSubscriptionName sha m name namespace).
Proof.
  intros Hm. unfold MapSubscriptionName, shortenNameAndAppendHash, hashSubscriptionFullName. rewrite Hm. unfold MaxSubscriptionNameLength.
  destruct (Z.ltb_spec 50 (Z.of_nat (len (take_bytes 40 (sha (domainName m +:+ namespace +:+ name)))))) as [Hlt|]; [|by eexists].
  rewrite len_take_bytes in Hlt. lia.
Qed.

(** EventMesh says that the Subscription is gone. *)
Definition gone_on_EventMesh b (sub : Subscription) : Prop :=
  exists name resp, MapSubscriptionName sha (SubNameMapper (st b)) (Name (meta sub)) (Namespace (meta sub)) = Some name /\
    EMDelete name (inl resp) ∈ hist b /\ (StatusCode resp = StatusNoContent \/ StatusCode resp = StatusNotFound).

Lemma onBackend_delete sub w b : eventMeshBackend (st w) = Some b -> initialised b -> exists r b',
  errOf (onBackend sub (DeleteSubscription sha eenv)) w = (Ok r, mkWorld (set_backend (Some b') (st w)) (hist w)) /\
  st b' = st b /\ ext b b' /\ (r = None -> gone_on_EventMesh b' sub).
Proof.
  intros Hb [Hc Hm]. unfold errOf, onBackend. rewrite Hb.
  destruct (MapSubscriptionName_some (SubNameMapper (st b)) (Name (meta sub)) (Namespace (meta sub)) Hm) as [name Hn].
  unfold DeleteSubscription, deleteSubscription, clientCall, bindM, gets, orPanic, call, id. cbn [st hist em kymaSub]. rewrite Hn.
  cbn [retM st em]. rewrite Hc. cbn [st hist em]. set (r := e_Delete eenv (hist b) name).
  set (b' := mkWorld (st b) (EMDelete name r :: hist b)). destruct r as [resp|err] eqn:Er.
  - destruct (_ && _) eqn:Hs; cbn [errM retM].
    + eexists _, b'. split; [reflexivity|]. split; [done|]. split; [by exists [EMDelete name (inl resp)]|done].
    + exists None, b'. split; [reflexivity|]. split; [done|]. split; [by exists [EMDelete name (inl resp)]|]. intros _. exists name, resp.
      split; [done|]. split; [left|]. apply andb_false_iff in Hs as [Hs|Hs]; apply negb_false_iff, Z.eqb_eq in Hs; auto.
  - eexists _, b'. split; [reflexivity|]. split; [done|]. split; [by exists [EMDelete name (inr err)]|done].
Qed.

(** ** Cleanup *)
Definition started w : Prop := exists b, eventMeshBackend (st w) = Some b /\ initialised b.

Definition cleaned w w' (sub : Subscription) : Prop :=
  (APIRuleName (sBackend (Status sub)) <> "" ->
     exists r, happened w w' (EMMDeleteAPIRule (Namespace (meta sub)) (APIRuleName (sBackend (Status sub))) r)) /\
  (exists r, happened w w' (EMMUpdateStatus (DuplicateWithStatusDefaults sub) r)) /\
  exists r, happened w w' (EMMDeleteSubscription sub r) /\
    (r = None -> exists b, eventMeshBackend (st w') = Some b /\ gone_on_EventMesh b sub).

Definition later_manager w w' : Prop :=
  ext w w' /\ started w' /\
  forall b, eventMeshBackend (st w) = Some b -> exists b', eventMeshBackend (st w') = Some b' /\ st b' = st b /\ ext b b'.

Lemma EM_gone_later b b' sub : st b' = st b -> ext b b' -> gone_on_EventMesh b sub -> gone_on_EventMesh b' sub.
Proof.
  intros Hs [l Hl] (name & resp & Hn & Hin & Hr). exists name, resp. rewrite Hs, Hl. split; [done|]. split; [|done].
  apply elem_of_app. by right.
Qed.

Lemma EM_cleanupOne_run sub w : started w ->
  exists w', cleanupOne sha eenv env sub w = (Ok tt, w') /\ later_manager w w' /\ cleaned w w' sub.
Proof.
  intros (b & Hb & Hi). unfold cleanupOne. cbv zeta. set (a := APIRuleName (sBackend (Status sub))).
  set (pre := if String.eqb a "" then _ else _).
  assert (exists l, pre w = (Ok tt, mkWorld (st w) (l ++ hist w)%list) /\
    (a <> "" -> exists r, EMMDeleteAPIRule (Namespace (meta sub)) a r ∈ l)) as (l & Hpre & Hl).
  { unfold pre. destruct (String.eqb_spec a "") as [|Hne]; [exists []; split; [by destruct w|done]|].
    unfold bindM, call, retM. eexists [_]. split; [reflexivity|]. intros _. eexists. by left. }
  unfold bindM at 1. rewrite Hpre. unfold bindM at 1, call at 1. cbn [st hist].
  set (u := emm_UpdateStatus _ _ _). set (w1 := mkWorld (st w) _).
  destruct (onBackend_delete sub w1 b Hb Hi) as (r & b' & Hrun & Hs & Hx & Hg). unfold bindM. rewrite Hrun. unfold call. cbn [st hist].
  eexists. split; [reflexivity|]. set (w2 := mkWorld _ _).
  assert (hist w2 = (EMMDeleteSubscription sub r :: EMMUpdateStatus (DuplicateWithStatusDefaults sub) u :: l) ++ hist w)%list as Hh by done.
  split.
  - split; [eexists; exact Hh|]. split; [exists b'; split; [done|]; unfold initialised; by rewrite Hs|]. intros b0 Hb0. rewrite Hb in Hb0.
    injection Hb0 as <-. by exists b'.
  - assert (forall e, e ∈ EMMDeleteSubscription sub r :: EMMUpdateStatus (DuplicateWithStatusDefaults sub) u :: l -> happened w w2 e) as Hhap
      by (intros e He; eexists; by split; [exact Hh|]).
    split; [|split; [exists u; apply Hhap; right; by left|]].
    + intros Ha. destruct (Hl Ha) as [x Hin]. exists x. apply Hhap. by do 2 right.
    + exists r. split; [apply Hhap; by left|]. intros Hn. exists b'. split; [done|by apply Hg].
Qed.

Lemma EM_cleaned_later w w1 w2 sub : cleaned w w1 sub -> later_manager w1 w2 -> cleaned w w2 sub.
Proof.
  intros (Ha & [u Hu] & (x & Hx & Hg)) (He & _ & Hb). split; [|split; [exists u; by eapply happened_later|]].
  - intros Hne. destruct (Ha Hne) as [r Hr]. exists r. by eapply happened_later.
  - exists x. split; [by eapply happened_later|]. intros Hn. destruct (Hg Hn) as (b & Hb1 & Hgone).
    destruct (Hb b Hb1) as (b' & Hb2 & Hs & Hx2). exists b'. split; [done|]. by eapply EM_gone_later.
Qed.
Lemma EM_cleaned_earlier w w1 w2 sub : ext w w1 -> cleaned w1 w2 sub -> cleaned w w2 sub.
Proof.
  intros He (Ha & [u Hu] & (x & Hx & Hg)). split; [|split; [exists u; by eapply happened_earlier|]].
  - intros Hne. destruct (Ha Hne) as [r Hr]. exists r. by eapply happened_earlier.
  - exists x. split; [by eapply happened_earlier|done].
Qed.
Lemma EM_later_manager_refl w : started w -> later_manager w w.
Proof. intros Hs. split; [by exists []|]. split; [done|]. intros b Hb. exists b. split_and!; [done..|by exists []]. Qed.
Lemma later_manager_trans w w1 w2 : later_manager w w1 -> later_manager w1 w2 -> later_manager w w2.
Proof.
  intros (E1 & S1 & A1) (E2 & S2 & A2). split; [by etransitivity|]. split; [done|]. intros b Hb. destruct (A1 b Hb) as (b1 & Hb1 & Hs1 & Hx1).
  destruct (A2 b1 Hb1) as (b2 & Hb2 & Hs2 & Hx2). exists b2. split; [done|]. split; [congruence|by etransitivity].
Qed.

Lemma EM_cleanup_loop subs w : started w -> exists w', forM_ subs (cleanupOne sha eenv env) w = (Ok tt, w') /\ later_manager w w' /\
  forall sub, sub ∈ subs -> cleaned w w' sub.
Proof.
  revert w. induction subs as [|sub subs IH]; intros w Hs.
  - exists w. split; [done|]. split; [by apply EM_later_manager_refl|]. by intros sub ?%not_elem_of_nil.
  - destruct (EM_cleanupOne_run sub w Hs) as (w1 & Hr & Hl & Hc). destruct (IH w1) as (w2 & Hr2 & Hl2 & Hall); [apply Hl|].
    exists w2. cbn [forM_]. unfold bindM. rewrite Hr. split; [exact Hr2|]. split; [by eapply later_manager_trans|].
    intros sub' [->|Hin]%elem_of_cons; [by eapply EM_cleaned_later|]. eapply EM_cleaned_earlier; [apply Hl|auto].
Qed.
(** ** Marking as not ready *)
Definition marked w w' (sub : Subscription) : Prop :=
  Ready (Status sub) = true -> exists r, happened w w' (EMMUpdateStatus (notReady sub) r).

(** The last request was an update with this answer, or no Subscription is ready. *)
Definition last_update (subs : list Subscription) w' (r : option goerr) : Prop :=
  (Forall (fun sub => Ready (Status sub) = false) subs /\ r = None) \/ exists sub rest, hist w' = EMMUpdateStatus (notReady sub) r :: rest.

Lemma markNotReady_run subs err w : exists r w', markNotReady env subs err w = (Ok r, w') /\ st w' = st w /\ ext w w' /\
  (forall sub, sub ∈ subs -> marked w w' sub) /\
  ((Forall (fun sub => Ready (Status sub) = false) subs /\ r = err /\ w' = w) \/ exists sub rest, hist w' = EMMUpdateStatus (notReady sub) r :: rest).
Proof.
  revert err w. induction subs as [|sub subs IH]; intros err w; cbn [markNotReady].
  - exists err, w. split_and!; [done..|by exists []|by intros sub ?%not_elem_of_nil|by left].
  - destruct (Ready (Status sub)) eqn:Hr; cbn [negb].
    + unfold bindM, call. set (u := emm_UpdateStatus _ _ _). set (w1 := mkWorld _ _).
      destruct (IH u w1) as (r & w' & -> & Hs & Hx & Hall & Hlast). exists r, w'.
      assert (ext w w1) as H1 by (by exists [EMMUpdateStatus (notReady sub) u]).
      split_and!; [done|done|by etransitivity| |].
      * intros sub' [->|Hin]%elem_of_cons Hrd; [|destruct (Hall sub' Hin Hrd) as [x Hh]; exists x; by eapply happened_earlier].
        exists u. eapply happened_later; [|exact Hx]. exists [EMMUpdateStatus (notReady sub) u]. by split; [|left].
      * right. destruct Hlast as [(_ & -> & ->)|H2]; [|exact H2]. by eexists _, _.
    + destruct (IH err w) as (r & w' & -> & Hs & Hx & Hall & Hlast). exists r, w'. split_and!; [done..| |].
      * intros sub' [->|Hin]%elem_of_cons Hrd; [congruence|]. by apply Hall.
      * destruct Hlast as [(Hf & -> & ->)|H2]; [left; split; [by constructor|done]|by right].
Qed.

(** The list of the Subscriptions. *)
Lemma listSubscriptions_run w : exists r l,
  listSubscriptions env w = (r, mkWorld (st w) (l ++ hist w)%list) /\
  (forall sub x, EMMUpdateStatus sub x ∉ l) /\ (forall sub x, EMMDeleteSubscription sub x ∉ l) /\
  match r with Ok subs => EMMConvert (inl subs) ∈ l | Err _ => True | Panic _ => False end.
Proof.
  unfold listSubscriptions, bindM, call. cbn [st hist]. destruct (emm_DynamicList env (hist w)) as [[]|err] eqn:E1.
  - destruct (emm_Convert env _) as [subs|err] eqn:E2; (eexists _, [_; _]; split; [reflexivity|]);
      (split_and!; [intros sub x Hin|intros sub x Hin|]; [repeat (apply elem_of_cons in Hin as [?|Hin]; [done|]); by apply not_elem_of_nil in Hin..|]).
    + by left.
    + done.
  - eexists _, [_]. split; [reflexivity|]. split_and!; [intros sub x Hin|intros sub x Hin|done];
      (repeat (apply elem_of_cons in Hin as [?|Hin]; [done|]); by apply not_elem_of_nil in Hin).
Qed.

(** What a stop did, from the list of the Subscriptions on. *)
Definition stopped (runCleanup : bool) w (o : outcome unit) w' : Prop :=
  match o with
  | Panic _ => False
  | Ok _ => exists subs, happened w w' (EMMConvert (inl subs)) /\
      if runCleanup then forall sub, sub ∈ subs -> cleaned w w' sub
      else (forall sub, sub ∈ subs -> marked w w' sub) /\ last_update subs w' None
  | Err err =>
      (forall sub r, ~ happened w w' (EMMUpdateStatus sub r)) /\ (forall sub r, ~ happened w w' (EMMDeleteSubscription sub r)) \/
      runCleanup = false /\ exists subs, happened w w' (EMMConvert (inl subs)) /\
        (forall sub, sub ∈ subs -> marked w w' sub) /\ last_update subs w' (Some err)
  end.

Lemma stopEventMeshBackend_run runCleanup w : started w ->
  let '(o, w') := stopEventMeshBackend sha eenv env runCleanup w in ext w w' /\ started w' /\ stopped runCleanup w o w'.
Proof.
  intros Hs. pose proof Hs as (b & Hb & Hi). destruct (listSubscriptions_run w) as (r & l & Hl & Hnu & Hnd & Hr).
  set (w1 := mkWorld (st w) (l ++ hist w)%list) in *. assert (ext w w1) as H1 by (by exists l).
  assert (started w1) as Hs1 by exact Hs. assert (forall e, happened w w1 e <-> e ∈ l) as Hhap by (intros e; apply happened_app).
  assert (forall err : goerr, ext w w1 /\ started w1 /\ stopped runCleanup w (Err err) w1) as Hfail.
  { intros err. split_and!; [done..|]. left. split; intros sub x Hh; apply Hhap in Hh; [by eapply Hnu|by eapply Hnd]. }
  destruct runCleanup; unfold stopEventMeshBackend, cleanupEventMesh, markAllV1Alpha2SubscriptionsAsNotReady.
  - unfold bindM at 1, gets. rewrite Hb. unfold bindM. rewrite Hl. destruct r as [subs|err|m]; [|apply Hfail|done].
    destruct (EM_cleanup_loop subs w1 Hs1) as (w2 & -> & (E2 & S2 & _) & Hall). split_and!; [by etransitivity|done|].
    exists subs. split; [eapply happened_later; [by apply Hhap|done]|]. intros sub Hin. eapply EM_cleaned_earlier; [exact H1|auto].
  - unfold bindM. rewrite Hl. destruct r as [subs|err|m]; [|apply Hfail|done].
    destruct (markNotReady_run subs None w1) as (r & w2 & -> & Hst & E2 & Hall & Hlast).
    assert (ext w w2) as E by (by etransitivity). assert (started w2) as S2 by (unfold started; by rewrite Hst).
    assert (happened w w2 (EMMConvert (inl subs))) as Hc by (eapply happened_later; [by apply Hhap|done]).
    assert (forall sub, sub ∈ subs -> marked w w2 sub) as Hm.
    { intros sub Hin Hrd. destruct (Hall sub Hin Hrd) as [x Hx]. exists x. eapply happened_earlier; [exact H1|exact Hx]. }
    assert (last_update subs w2 r) as Hlu by (destruct Hlast as [(? & -> & _)|?]; [by left|by right]).
    destruct r as [err|]; cbn [returnErr errM retM]; split_and!; try done; [right; split; [done|]|]; by exists subs.
Qed.


(** [Start], when it succeeds. *)
Lemma EM_Start_started params w w' : Start eenv env params w = (Ok tt, w') -> started w'.
Proof.
  unfold Start. intros H. cbv zeta in H. run_inv H. apply bindM_Ok in H as (u1 & w1 & H1 & H). run_inv H1.
  apply bindM_Ok in H as (cfg & w2 & H2 & H). run_inv H2. apply bindM_Ok in H as (u3 & w3 & H3 & H). run_inv H3.
  apply bindM_Ok in H as (m & w4 & H4 & H). run_inv H4. apply bindM_Ok in H as (u5 & w5 & H5 & H).
  destruct (emMgr _); [|done]. run_inv H5. apply bindM_Ok in H as (d & w6 & H6 & H). run_inv H6.
  apply bindM_Ok in H as (u7 & w7 & H7 & H). destruct (newBackend _ _ _ _) as [b|err|msg] eqn:Hb; [|done..]. run_inv H7.
  apply bindM_Ok in H as (r & w8 & H8 & H). run_inv H8. destruct (emm_SetupUnmanaged _ _); [done|]. injection H as <-.
  exists b. split; [done|]. revert Hb. unfold newBackend, NewReconciler, Initialize, bindM, gets, call, puts, okOr, orPanic. cbn.
  destruct (e_NewClient eenv []) as [[]|err]; cbn; [|done]. by intros [= <-].
Qed.
End facts.

(** ** A concrete manager *)
Definition example_em_env : EMEnv :=
  mkEMEnv (fun _ => inl tt) (fun _ _ => inl (None, mkResponse 404 "not found")) (fun _ _ => inl (mkResponse 201 "created"))
    (fun _ _ _ => inl (mkResponse 204 "")) (fun _ _ => inl (mkResponse 204 "")) (fun _ _ _ => inl (mkResponse 202 "")).
Definition example_em_config : EMConfig := mkEMConfig "" "id" "secret" "token" 60000000000 true "AT_LEAST_ONCE" "" "/ns" "sap.kyma.custom" false true.
Definition example_ready_subscription (name apiRule : string) : Subscription :=
  mkSubscription (mkMeta name "ns" "uid" None None) (mkSpec "http://svc.ns.svc.cluster.local" "standard" "app" ["order.created.v1"] ∅)
    (set_Backend (set_Ready zeroStatus true) (mkBackend 1 2 3 4 "" "" apiRule None None None)).
Definition example_em_subscriptions := [example_ready_subscription "a" "webhook-a"; example_ready_subscription "b" ""].
(** The first update of a status fails, the second works. *)
Definition example_emm_env : EMMEnv :=
  mkEMMEnv (fun _ => example_em_config) (fun _ => None) (fun _ => inl tt) (fun _ => inl example_em_subscriptions)
    (fun _ s => if String.eqb (Name (meta s)) "a" then Some (errors_New "conflict") else None) (fun _ _ _ => None).
Definition exampleSha (s : string) : string := s.
Definition startedManager : World SubscriptionManager emmEvent :=
  (Start example_em_env example_emm_env ∅ (Init (mkWorld (NewSubscriptionManager example_em_config "kyma.example.com") [])).2).2.
Lemma EM_startedManager_started : started startedManager.
Proof. by apply (EM_Start_started example_em_env example_emm_env ∅
  (Init (mkWorld (NewSubscriptionManager example_em_config "kyma.example.com") [])).2). Qed.

