(* ===== verification/OperatorLifecycle.v ===== *)
(** * Eventing operator: the life of the subscription managers

    The operator creates, initialises, starts and stops subscription managers ([nats.go], [eventmesh.go]) and remembers at most
    one for each backend.  The abstract life of a manager is a phase computed from the requests that were made; the
    invariant relates the phases to the fields of the [Reconciler], over every sequence of
    reconciliations. *)

From S2P Require Import Prelude Effects GoStrings Errors Utils Subscription Eventing Config EventMeshUtils ApiRule Objects KubeClient PublisherProxy Connection Operator.

(** ** The life of a manager *)
Inductive phase := Absent | Created | Initialized | Running | Stopped | Discarded.

(** The manager a request is about. *)
Definition manager_of (ev : opEvent) : option nat :=
  match ev with
  | OpNewJetStreamManager id _ | OpNewEventMeshManager id _ _ | OpInit id _ | OpStart id _ | OpStop id _ _ => Some id
  | _ => None
  end.

(** The phase after a request about the manager; [None] for a request that its phase does not allow. *)
Definition manager_step (ev : opEvent) (p : phase) : option phase :=
  match ev, p with
  | OpNewJetStreamManager _ r, Absent | OpNewEventMeshManager _ _ r, Absent => Some (if r is inl _ then Created else Discarded)
  | OpInit _ r, Created => Some (if r is inl _ then Initialized else Discarded)
  | OpStart _ r, Initialized => Some (if r is inl _ then Running else Initialized)
  | OpStop _ _ r, Running => Some (if r is inl _ then Stopped else Running)
  | _, _ => None
  end.

(** The phase of a manager after the requests of a log, newest first. *)
Fixpoint phase_of (id : nat) (log : list opEvent) : option phase :=
  match log with
  | [] => Some Absent
  | ev :: log => p ← phase_of id log; if decide (manager_of ev = Some id) then manager_step ev p else Some p
  end.

Arguments phase_of : simpl never.
Lemma phase_of_cons id ev log :
  phase_of id (ev :: log) = p ← phase_of id log; if decide (manager_of ev = Some id) then manager_step ev p else Some p.
Proof. done. Qed.
Lemma phase_of_other id ev log : manager_of ev <> Some id -> phase_of id (ev :: log) = phase_of id log.
Proof. intros H. rewrite phase_of_cons. destruct (phase_of id log); cbn [mbind option_bind]; [|done]. by rewrite decide_False. Qed.
Lemma phase_of_step id ev log p : manager_of ev = Some id -> phase_of id log = Some p -> phase_of id (ev :: log) = manager_step ev p.
Proof. intros H Hp. rewrite phase_of_cons, Hp. cbn [mbind option_bind]. by rewrite decide_True. Qed.

(** What the operator remembers of its managers. *)
Record slots := mkSlots { sNats : option nat; sNatsStarted : bool; sMesh : option nat; sMeshStarted : bool; sCreated : nat }.

Definition held_running (s : slots) (id : nat) : Prop :=
  sNats s = Some id /\ sNatsStarted s = true \/ sMesh s = Some id /\ sMeshStarted s = true.

(** The invariant: every request was allowed; the running managers are exactly the ones that are remembered as started; a manager
    that is remembered as not started is initialised; a new manager has a new identity. *)
Record life (s : slots) (log : list opEvent) : Prop := mkLife {
  life_protocol : forall id, is_Some (phase_of id log);
  life_fresh : forall id, (sCreated s <= id)%nat -> phase_of id log = Some Absent;
  life_running : forall id, phase_of id log = Some Running <-> held_running s id;
  life_nats : forall id, sNats s = Some id -> sNatsStarted s = false -> phase_of id log = Some Initialized;
  life_mesh : forall id, sMesh s = Some id -> sMeshStarted s = false -> phase_of id log = Some Initialized;
  life_nats_started : sNatsStarted s = true -> sNats s <> None;
  life_mesh_started : sMeshStarted s = true -> sMesh s <> None;
  life_distinct : forall id, sNats s = Some id -> sMesh s <> Some id
}.

(** ** Steps of the invariant *)
Section steps.
Context (s : slots) (log : list opEvent) (HI : life s log).

(** Two managers are at most running, one for each backend. *)
Lemma life_other ev : manager_of ev = None -> life s (ev :: log).
Proof.
  intros Hm. assert (forall id, phase_of id (ev :: log) = phase_of id log) as Hp by (intros id; apply phase_of_other; by rewrite Hm).
  destruct HI. by split; intros; rewrite ?Hp; auto.
Qed.

Lemma held_phase id : sNats s = Some id \/ sMesh s = Some id ->
  phase_of id log = Some Running \/ phase_of id log = Some Initialized.
Proof.
  destruct HI as [_ _ Hr Hn Hm _ _ _]. intros [H|H].
  - destruct (sNatsStarted s) eqn:Hs; [|auto]. left. apply Hr. by left.
  - destruct (sMeshStarted s) eqn:Hs; [|auto]. left. apply Hr. by right.
Qed.

(** A request about a manager that is not remembered and does not make it run. *)
Lemma life_unheld ev id p : manager_of ev = Some id -> phase_of id (ev :: log) = Some p -> p <> Running ->
  sNats s <> Some id -> sMesh s <> Some id -> (id < sCreated s)%nat -> life s (ev :: log).
Proof.
  intros Hm Hp Hrun Hn He Hlt.
  assert (forall i, i <> id -> phase_of i (ev :: log) = phase_of i log) as Ho by (intros; apply phase_of_other; rewrite Hm; congruence).
  destruct HI as [H1 H2 H3 H4 H5 H6 H7 H8]. split; try done.
  - intros i. destruct (decide (i = id)) as [->|]; [by rewrite Hp|by rewrite Ho].
  - intros i Hi. destruct (decide (i = id)) as [->|]; [lia|by rewrite Ho; auto].
  - intros i. destruct (decide (i = id)) as [->|]; [|by rewrite Ho].
    rewrite Hp. unfold held_running. split; [congruence|]. by intros [[? _]|[? _]].
  - intros i Hi. destruct (decide (i = id)) as [->|]; [done|rewrite Ho by done; auto].
  - intros i Hi. destruct (decide (i = id)) as [->|]; [done|rewrite Ho by done; auto].
Qed.

(** A request about a remembered manager that does not change its phase. *)
Lemma life_same ev id : manager_of ev = Some id -> phase_of id (ev :: log) = phase_of id log -> life s (ev :: log).
Proof.
  intros Hm Hp. assert (forall i, phase_of i (ev :: log) = phase_of i log) as Ho.
  { intros i. destruct (decide (i = id)) as [->|]; [done|]. apply phase_of_other. rewrite Hm. congruence. }
  destruct HI. by split; intros; rewrite ?Ho; auto.
Qed.
End steps.

(** The next identity. *)
Lemma life_count s log : life s log -> life (mkSlots (sNats s) (sNatsStarted s) (sMesh s) (sMeshStarted s) (S (sCreated s))) log.
Proof. intros [H1 H2 H3 H4 H5 H6 H7 H8]. split; try done. intros id Hid. apply H2. cbn in Hid. lia. Qed.

(** Both backends alike: [swap] exchanges them. *)
Definition swap (s : slots) : slots := mkSlots (sMesh s) (sMeshStarted s) (sNats s) (sNatsStarted s) (sCreated s).
Lemma life_swap s log : life s log -> life (swap s) log.
Proof.
  intros [H1 H2 H3 H4 H5 H6 H7 H8]. split; try done.
  - intros id. rewrite H3. unfold held_running. cbn. tauto.
  - intros id Hm Hn. by eapply H8.
Qed.

(** A started manager is stopped. *)
Lemma life_stop id runCleanup s log : life s log -> sNats s = Some id -> sNatsStarted s = true ->
  life (mkSlots None false (sMesh s) (sMeshStarted s) (sCreated s)) (OpStop id runCleanup (inl tt) :: log).
Proof.
  intros HI Hn Hs. pose proof HI as [H1 H2 H3 H4 H5 H6 H7 H8].
  assert (phase_of id log = Some Running) as Hrun by (apply H3; by left).
  assert (phase_of id (OpStop id runCleanup (inl tt) :: log) = Some Stopped) as Hp by (by rewrite (phase_of_step _ _ _ Running)).
  assert (forall i, i <> id -> phase_of i (OpStop id runCleanup (inl tt) :: log) = phase_of i log) as Ho
    by (intros; apply phase_of_other; cbn; congruence).
  split; cbn [sNats sNatsStarted sMesh sMeshStarted sCreated]; try done.
  - intros i. destruct (decide (i = id)) as [->|]; [by rewrite Hp|by rewrite Ho].
  - intros i Hi. destruct (decide (i = id)) as [->|]; [|by rewrite Ho; auto]. rewrite H2 in Hrun by done. done.
  - intros i. unfold held_running. cbn. destruct (decide (i = id)) as [->|].
    + rewrite Hp. split; [done|]. intros [[? _]|[? _]]; [done|]. by destruct (H8 id Hn).
    + rewrite Ho, H3 by done. unfold held_running. rewrite Hn. naive_solver.
  - intros i Hi Hst. destruct (decide (i = id)) as [->|]; [by destruct (H8 id Hn)|rewrite Ho by done; auto].
Qed.

(** An initialised manager that is remembered is started. *)
Lemma life_start id s log : life s log -> sNats s = Some id -> sNatsStarted s = false ->
  life (mkSlots (sNats s) true (sMesh s) (sMeshStarted s) (sCreated s)) (OpStart id (inl tt) :: log).
Proof.
  intros HI Hn Hs. pose proof HI as [H1 H2 H3 H4 H5 H6 H7 H8].
  assert (phase_of id (OpStart id (inl tt) :: log) = Some Running) as Hp by (rewrite (phase_of_step _ _ _ Initialized); auto).
  assert (forall i, i <> id -> phase_of i (OpStart id (inl tt) :: log) = phase_of i log) as Ho
    by (intros; apply phase_of_other; cbn; congruence).
  split; cbn [sNats sNatsStarted sMesh sMeshStarted sCreated]; try done.
  - intros i. destruct (decide (i = id)) as [->|]; [by rewrite Hp|by rewrite Ho].
  - intros i Hi. destruct (decide (i = id)) as [->|]; [|by rewrite Ho; auto].
    specialize (H4 id Hn Hs). rewrite H2 in H4 by done. done.
  - intros i. unfold held_running. cbn. destruct (decide (i = id)) as [->|]; [rewrite Hp; naive_solver|].
    rewrite Ho, H3 by done. unfold held_running. rewrite Hn, Hs. naive_solver.
  - intros i Hi Hst. destruct (decide (i = id)) as [->|]; [by destruct (H8 id Hn)|rewrite Ho by done; auto].
  - intros _. by rewrite Hn.
Qed.

(** An initialised manager is remembered. *)
Lemma life_hold id s log : life s log -> sNats s = None -> sMesh s <> Some id -> phase_of id log = Some Initialized ->
  life (mkSlots (Some id) (sNatsStarted s) (sMesh s) (sMeshStarted s) (sCreated s)) log.
Proof.
  intros [H1 H2 H3 H4 H5 H6 H7 H8] Hn Hm Hp. assert (sNatsStarted s = false) as Hs by (destruct (sNatsStarted s); naive_solver).
  split; cbn [sNats sNatsStarted sMesh sMeshStarted sCreated]; try done.
  - intros i. rewrite H3. unfold held_running. cbn. rewrite Hn, Hs. naive_solver.
  - by intros i [= <-] _.
  - by intros i [= <-].
Qed.

(** A manager that is not started is forgotten. *)
Lemma life_forget s log : life s log -> sNatsStarted s = false ->
  life (mkSlots None (sNatsStarted s) (sMesh s) (sMeshStarted s) (sCreated s)) log.
Proof.
  intros [H1 H2 H3 H4 H5 H6 H7 H8] Hs. split; cbn [sNats sNatsStarted sMesh sMeshStarted sCreated]; try done.
  - intros i. rewrite H3. unfold held_running. cbn. rewrite Hs. naive_solver.
  - by rewrite Hs.
Qed.

(** ** The operator keeps the invariant *)
Section operator.
Context {W : Type} `{EventingManagerI W} `{ManagerFactory W} `{ConfigHashing} `{StatusConditions}.
Context (env : OpEnv) (connEnv : ConnEnv) (natsURL : string) (allowedEventingCR : option (string * string)).
Context (unmarshalMessages : string -> list Message + goerr).
Abbreviation RW := (World (OpState W) opEvent).
Implicit Types (w : RW).

Definition slots_of (s : OpState W) : slots :=
  mkSlots (natsSubManager s) (isNATSSubManagerStarted s) (eventMeshSubManager s) (isEventMeshSubManagerStarted s) (managersCreated s).
Definition lifecycle w : Prop := life (slots_of (st w)) (hist w).

(** A call of a dependency: the cases of its outcome. *)
Lemma onDepsM_bind {A B} (P : RW -> Prop) (ev : A + goerr -> opEvent) (c : M W A) (k : A -> M RW B) w :
  (forall a d, P (k a (mkWorld (set_deps d (st w)) (ev (inl a) :: hist w))).2) ->
  (forall e d, P (mkWorld (set_deps d (st w)) (ev (inr e) :: hist w))) ->
  (forall d, P (mkWorld (set_deps d (st w)) (hist w))) -> P (bindM (onDepsM ev c) k w).2.
Proof.
  intros Ho He Hp. unfold onDepsM, onDeps, bindM, tryM. destruct (c (deps (st w))) as [[a|e|m] d]; [apply Ho|apply He|apply Hp].
Qed.

Lemma keeps_event {R} (ev : R -> opEvent) f : (forall r, manager_of (ev r) = None) -> keeps lifecycle (call ev f).
Proof. intros Hm. apply keeps_call. intros w r Hw. by apply life_other. Qed.

Lemma keeps_onDeps {A} (ev : A + goerr -> opEvent) (c : M W A) : (forall r, manager_of (ev r) = None) -> keeps lifecycle (onDeps ev c).
Proof.
  intros Hm. unfold onDeps. apply keeps_bind; [|intros r; by apply keeps_event]. apply keeps_try. intros w Hw.
  by destruct (c (deps (st w))) as [o d].
Qed.
Lemma keeps_onDepsM {A} (ev : A + goerr -> opEvent) (c : M W A) : (forall r, manager_of (ev r) = None) -> keeps lifecycle (onDepsM ev c).
Proof. intros Hm. unfold onDepsM. apply keeps_bind; [by apply keeps_onDeps|]. intros r. apply keeps_okOr. Qed.

Lemma keeps_onConnection {A} (c : M (World connection connEvent) A) : keeps lifecycle (onConnection c).
Proof. intros w Hw. unfold onConnection. destruct (natsConnection (st w)); [|done]. by destruct (c _) as [o conn]. Qed.

(** *** Stop and start *)
Lemma lifecycle_running w id : lifecycle w -> held_running (slots_of (st w)) id -> phase_of id (hist w) = Some Running.
Proof. intros Hw Hh. by apply (life_running _ _ Hw). Qed.

(** A request that failed left a manager in its phase. *)
Lemma lifecycle_failed w s ev id p : lifecycle w -> slots_of s = slots_of (st w) -> manager_of ev = Some id ->
  phase_of id (hist w) = Some p -> manager_step ev p = Some p -> lifecycle (mkWorld s (ev :: hist w)).
Proof.
  intros Hw Hs Hm Hp Hst. unfold lifecycle. cbn [st hist]. rewrite Hs. eapply life_same; [done|exact Hm|].
  by rewrite (phase_of_step _ _ _ p), Hp.
Qed.

(** The slots of one backend, and how they are written. *)
Lemma keeps_stopNATS runCleanup : keeps lifecycle (stopNATSSubManager runCleanup).
Proof.
  intros w Hw. unfold stopNATSSubManager, bindM at 1 2, gets. destruct (natsSubManager (st w)) as [id|] eqn:Hn; [|done].
  destruct (isNATSSubManagerStarted (st w)) eqn:Hs; [|done]. cbn [negb].
  assert (phase_of id (hist w) = Some Running) as Hr by (apply lifecycle_running; [done|by left]).
  apply onDepsM_bind.
  - intros [] d. by apply (life_stop id runCleanup (slots_of (st w))).
  - intros e d. by eapply (lifecycle_failed w _ _ id Running).
  - done.
Qed.

Lemma keeps_stopMesh runCleanup : keeps lifecycle (stopEventMeshSubManager runCleanup).
Proof.
  intros w Hw. unfold stopEventMeshSubManager, bindM at 1 2, gets. destruct (eventMeshSubManager (st w)) as [id|] eqn:Hn; [|done].
  destruct (isEventMeshSubManagerStarted (st w)) eqn:Hs; [|done]. cbn [negb].
  assert (phase_of id (hist w) = Some Running) as Hr by (apply lifecycle_running; [done|by right]).
  apply onDepsM_bind.
  - intros [] d. exact (life_swap _ _ (life_stop id runCleanup (swap (slots_of (st w))) (hist w) (life_swap _ _ Hw) Hn Hs)).
  - intros e d. by eapply (lifecycle_failed w _ _ id Running).
  - done.
Qed.

(** Starting a manager that is not started. *)
Definition nats_idle w : Prop := lifecycle w /\ isNATSSubManagerStarted (st w) = false.
Definition mesh_idle w : Prop := lifecycle w /\ isEventMeshSubManagerStarted (st w) = false.

Lemma startNATS_lifecycle d w : nats_idle w -> lifecycle (startNATSSubManager d w).2.
Proof.
  intros [Hw Hs]. unfold startNATSSubManager, bindM at 1 2, gets, orPanic. destruct (natsSubManager (st w)) as [id|] eqn:Hn; [|done].
  cbn [retM]. assert (phase_of id (hist w) = Some Initialized) as Hr by (by apply (life_nats _ _ Hw)).
  apply onDepsM_bind.
  - intros [] d'. by apply (life_start id (slots_of (st w))).
  - intros e d'. by eapply (lifecycle_failed w _ _ id Initialized).
  - done.
Qed.

Lemma startMesh_lifecycle d params w : mesh_idle w -> lifecycle (startEventMeshSubManager d params w).2.
Proof.
  intros [Hw Hs]. unfold startEventMeshSubManager, bindM at 1 2, gets, orPanic.
  destruct (eventMeshSubManager (st w)) as [id|] eqn:Hn; [|done].
  cbn [retM]. assert (phase_of id (hist w) = Some Initialized) as Hr by (by apply (life_mesh _ _ Hw)).
  apply onDepsM_bind.
  - intros [] d'. exact (life_swap _ _ (life_start id (swap (slots_of (st w))) (hist w) (life_swap _ _ Hw) Hn Hs)).
  - intros e d'. by eapply (lifecycle_failed w _ _ id Initialized).
  - done.
Qed.
(** *** New managers *)

(** A new manager that is not remembered yet, in a phase. *)
Definition fresh_manager (id : nat) (p : phase) (s : slots) (log : list opEvent) : Prop :=
  life s log /\ phase_of id log = Some p /\ sNats s <> Some id /\ sMesh s <> Some id /\ (id < sCreated s)%nat.

Lemma fresh_step id p ev p' s log : fresh_manager id p s log -> manager_of ev = Some id -> manager_step ev p = Some p' ->
  p' <> Running -> fresh_manager id p' s (ev :: log).
Proof.
  intros (Hl & Hp & Hn & Hm & Hlt) Hev Hst Hr. assert (phase_of id (ev :: log) = Some p') as Hp'
    by (by rewrite (phase_of_step _ _ _ p)).
  split; [by eapply life_unheld|done].
Qed.

Lemma fresh_count w : lifecycle w ->
  fresh_manager (managersCreated (st w)) Absent (slots_of (count_manager (st w))) (hist w).
Proof.
  intros Hw. assert (phase_of (managersCreated (st w)) (hist w) = Some Absent) as Hp by (by apply (life_fresh _ _ Hw)).
  assert (natsSubManager (st w) <> Some (managersCreated (st w)) /\ eventMeshSubManager (st w) <> Some (managersCreated (st w))) as [Hn Hm].
  { split; intros Hh; destruct (held_phase _ _ Hw (managersCreated (st w))) as [Hr|Hr]; auto; by rewrite Hp in Hr. }
  split_and!; [by apply (life_count (slots_of (st w)))|done..|cbn; lia].
Qed.

Lemma create_lifecycle (evNew : nat -> unit + goerr -> opEvent) (cNew : nat -> M W unit) (hold : nat -> OpState W -> OpState W) w :
  (forall id r, manager_of (evNew id r) = Some id) ->
  (forall id r, manager_step (evNew id r) Absent = Some (if r is inl _ then Created else Discarded)) ->
  (forall id d d' log, let s := set_deps d (set_deps d' (count_manager (st w))) in
     fresh_manager id Initialized (slots_of s) log -> life (slots_of (hold id s)) log) ->
  lifecycle w ->
  lifecycle ((id <- newManagerId ;; onDepsM (evNew id) (cNew id) ;;; onDepsM (OpInit id) (mgr_Init id) ;;; puts (hold id)) w).2.
Proof.
  intros Hev Hst Hhold Hw. apply fresh_count in Hw. set (n := managersCreated (st w)) in *.
  unfold newManagerId, bindM at 1 2 3, gets, puts at 1. cbn [retM]. apply onDepsM_bind; cbn [st hist].
  - intros [] d. eapply fresh_step in Hw as Hc; [|apply Hev|apply (Hst n (inl tt))|done].
    apply onDepsM_bind; cbn [st hist].
    + intros [] d'. unfold puts, lifecycle. cbn [snd st hist]. apply (Hhold n d' d). eapply fresh_step; [exact Hc|done..].
    + intros e d'. eapply (fresh_step n Created (OpInit n (inr e)) Discarded); [exact Hc|done..].
    + intros d'. apply Hc.
  - intros e d. eapply (fresh_step n Absent (evNew n (inr e)) Discarded); [exact Hw|apply Hev|apply (Hst n (inr e))|done].
  - intros d. apply Hw.
Qed.

Lemma createNATS_lifecycle e c w : natsSubManager (st w) = None -> lifecycle w ->
  lifecycle ((id <- newManagerId ;; onDepsM (OpNewJetStreamManager id) (mf_NewJetStreamManager id e c) ;;;
              onDepsM (OpInit id) (mgr_Init id) ;;; puts (fun s => set_nats (Some id) (isNATSSubManagerStarted s) s)) w).2.
Proof.
  intros Hn Hw. apply create_lifecycle; [done|by intros ? []| |done].
  intros id d d' log s (Hl & Hp & _ & Hm & _). exact (life_hold id _ log Hl Hn Hm Hp).
Qed.

Lemma createMesh_lifecycle domain w : eventMeshSubManager (st w) = None -> lifecycle w ->
  lifecycle ((id <- newManagerId ;; onDepsM (OpNewEventMeshManager id domain) (mf_NewEventMeshManager id domain) ;;;
              onDepsM (OpInit id) (mgr_Init id) ;;; puts (fun s => set_eventMesh (Some id) (isEventMeshSubManagerStarted s) s)) w).2.
Proof.
  intros Hn Hw. apply (create_lifecycle (fun id => OpNewEventMeshManager id domain)); [done|by intros ? []| |done].
  intros id d d' log s (Hl & Hp & Hm & _ & _). exact (life_swap _ _ (life_hold id _ log (life_swap _ _ Hl) Hn Hm Hp)).
Qed.

(** A step that sees the state it starts in. *)
Lemma keeps_gets_at {A B} (I : RW -> Prop) (f : OpState W -> A) (k : A -> M RW B) :
  (forall w, I w -> I (k (f (st w)) w).2) -> keeps I (bindM (gets f) k).
Proof. intros Hk w Hw. by apply Hk. Qed.

(** What follows a step that keeps the invariant. *)
Lemma bind_keeps {A B} (I : RW -> Prop) (c : M RW A) (k : A -> M RW B) w : I (c w).2 -> (forall a, keeps I (k a)) -> I (bindM c k w).2.
Proof. intros Hc Hk. unfold bindM. destruct (c w) as [[a|e|m] w']; [by apply Hk|done..]. Qed.
(** *** The functions that do not touch the managers *)
Lemma keeps_onow {A} (k : Z -> M RW A) : (forall t, keeps lifecycle (k t)) -> keeps lifecycle (bindM (onow env) k).
Proof. intros Hk w Hw. unfold bindM, onow. by apply Hk. Qed.

Lemma keeps_orPanic {A} (o : option A) m : keeps lifecycle (orPanic o m).
Proof. destruct o; [apply keeps_ret|apply keeps_panic]. Qed.

Ltac lc_step :=
  lazymatch goal with
  | |- keeps _ (bindM (onow _) _) => apply keeps_onow; intros ?
  | |- keeps _ (bindM (gets _) _) => apply keeps_gets_bind; intros ? ?
  | |- keeps _ (bindM _ _) => apply keeps_bind; [|intros ?]
  | |- keeps _ (call _ _) => apply keeps_event; done
  | |- keeps _ (puts _) => apply keeps_puts; let w := fresh "w" in let Hw := fresh "Hw" in intros w Hw; exact Hw
  | |- keeps _ (onDeps _ _) => apply keeps_onDeps; done
  | |- keeps _ (onDepsM _ _) => apply keeps_onDepsM; done
  | |- keeps _ (onConnection _) => apply keeps_onConnection
  | |- keeps _ (orPanic _ _) => apply keeps_orPanic
  | |- keeps _ (tryM _) => apply keeps_try
  | |- keeps _ (errOf _) => apply keeps_errOf
  | |- keeps _ (match ?x with _ => _ end) => destruct x
  | |- keeps _ _ => solve [auto with keeps nocore]
  end.
Ltac lc := cbv zeta; repeat lc_step.

Lemma keeps_updStatusNow f : keeps lifecycle (updStatusNow env f).
Proof. unfold updStatusNow, updStatus. lc. Qed.
#[local] Hint Resolve keeps_updStatusNow : keeps.

Lemma keeps_syncEventingStatus : keeps lifecycle (syncEventingStatus env).
Proof. unfold syncEventingStatus, updateStatus. lc. Qed.
#[local] Hint Resolve keeps_syncEventingStatus : keeps.

Lemma keeps_joinSync err : keeps lifecycle (joinSync env err).
Proof. unfold joinSync. lc. Qed.
#[local] Hint Resolve keeps_joinSync : keeps.

(** The reports of [status.go]. *)
Ltac lc_status :=
  unfold failWith, finishWith, syncStatusWithNATSErr, syncStatusWithNATSState, syncStatusForEmptyBackend, syncStatusWithPublisherProxyErr,
    syncStatusWithPublisherProxyErrWithReason, syncStatusWithSubscriptionManagerErr, syncStatusWithSubscriptionManagerErrWithReason,
    syncSubManagerStatusWithNATSState, syncStatusWithSubscriptionManagerFailedCondition, syncStatusWithDeletionErr, updStatus; lc.

Lemma keeps_handleEventingState d : keeps lifecycle (handleEventingState env d).
Proof. unfold handleEventingState, getDeployment. lc_status. Qed.
Lemma keeps_GetNatsConfig : keeps lifecycle (GetNatsConfig env).
Proof. unfold GetNatsConfig, getNATSUrl, backendOf. lc. Qed.
Lemma keeps_getDefaults : keeps lifecycle getDefaultSubscriptionConfig.
Proof. unfold getDefaultSubscriptionConfig. lc. Qed.
Lemma keeps_wrapM {A} m (c : M RW A) : keeps lifecycle c -> keeps lifecycle (wrapM m c).
Proof. intros Hc. unfold wrapM. lc. Qed.
#[local] Hint Resolve keeps_handleEventingState keeps_GetNatsConfig keeps_getDefaults keeps_wrapM keeps_stopNATS keeps_stopMesh : keeps.

(** *** The managers of the backends *)

(** The steps of [replace]: from a state where the manager is remembered, or is not. *)
Lemma keeps_reconcileNATSSubManager : keeps lifecycle (reconcileNATSSubManager env).
Proof.
  unfold reconcileNATSSubManager. do 3 (lc_step; [lc|]). lc_step. apply keeps_gets_at. intros w Hw. apply bind_keeps.
  - destruct (isNATSSubManagerStarted (st w)) eqn:Hs; rewrite ?andb_false_r, ?andb_true_r.
    + destruct (negb _); [by apply keeps_stopNATS|done].
    + destruct (negb _); [|done]. by apply (life_forget (slots_of (st w))).
  - intros _. apply keeps_gets_at. clear w Hw. intros w Hw. apply bind_keeps.
    + destruct (natsSubManager (st w)) eqn:Hn; [done|]. by apply createNATS_lifecycle.
    + intros _. apply keeps_gets_at. clear w Hw. intros w Hw. destruct (isNATSSubManagerStarted (st w)) eqn:Hs; [done|].
      apply bind_keeps; [by apply startNATS_lifecycle|]. intros _. unfold updStatus. lc.
Qed.

Lemma keeps_replaceEventMeshSubManager domain : keeps lifecycle (replaceEventMeshSubManager domain).
Proof.
  unfold replaceEventMeshSubManager, backendOf. lc_step. do 2 (lc_step; [lc|]). lc_step. do 2 (lc_step; [lc|]).
  apply keeps_gets_at. intros w Hw. apply bind_keeps.
  - destruct (eventMeshSubManager (st w)) eqn:Hn; [done|]. by apply createMesh_lifecycle.
  - intros _. apply keeps_gets_at. clear w Hw. intros w Hw. destruct (isEventMeshSubManagerStarted (st w)) eqn:Hs; [done|].
    apply bind_keeps; [by apply startMesh_lifecycle|]. intros _. unfold updStatus. lc.
Qed.
#[local] Hint Resolve keeps_reconcileNATSSubManager keeps_replaceEventMeshSubManager : keeps.

Lemma keeps_reconcileEventMeshSubManager secret : keeps lifecycle (reconcileEventMeshSubManager env unmarshalMessages secret).
Proof.
  unfold reconcileEventMeshSubManager. lc_step; [apply keeps_wrapM|lc; try apply keeps_wrapM].
  - unfold syncOauth2ClientIDAndSecret, getOAuth2ClientCredentials, getSecret, dataKey, isOauth2CredentialsInitialized. lc_status.
  - unfold SyncPublisherProxySecret. lc.
  - unfold setUpEnvironmentForEventMesh, setenv, backendOf. lc.
  - unfold backendOf. lc.
  - unfold checkDomain, readDomainFromConfigMap. lc.
Qed.
#[local] Hint Resolve keeps_reconcileEventMeshSubManager : keeps.

(** *** [controller.go] *)
Lemma keeps_watchResource what : keeps lifecycle (watchResource env what).
Proof. unfold watchResource. lc. Qed.
#[local] Hint Resolve keeps_watchResource : keeps.

Lemma keeps_disconnect : keeps lifecycle (disconnect connEnv).
Proof. unfold disconnect. lc. Qed.
Lemma keeps_handlePublisherProxy t : keeps lifecycle (handlePublisherProxy env t).
Proof. unfold handlePublisherProxy. lc. Qed.
Lemma keeps_crdExists n : keeps lifecycle (crdExists env n).
Proof. unfold crdExists. lc. Qed.
#[local] Hint Resolve keeps_disconnect keeps_handlePublisherProxy keeps_crdExists : keeps.

Lemma keeps_reconcileNATSBackend t : keeps lifecycle (reconcileNATSBackend env connEnv natsURL t).
Proof. unfold reconcileNATSBackend, startNATSCRWatch, connectToNATS, runNATSBackend. lc_status. Qed.
Lemma keeps_reconcileEventMeshBackend b : keeps lifecycle (reconcileEventMeshBackend env unmarshalMessages b).
Proof. unfold reconcileEventMeshBackend, runEventMeshBackend, getSecret. lc_status. Qed.
Lemma keeps_handleBackendSwitching : keeps lifecycle (handleBackendSwitching connEnv).
Proof. unfold handleBackendSwitching, stopNATSCRWatch. lc_status. Qed.
Lemma keeps_removeFinalizer : keeps lifecycle (removeFinalizer env).
Proof. unfold removeFinalizer, updateCR. lc. Qed.
Lemma keeps_addFinalizer : keeps lifecycle (addFinalizer env).
Proof. unfold addFinalizer, updateCR. lc. Qed.
#[local] Hint Resolve keeps_reconcileNATSBackend keeps_reconcileEventMeshBackend keeps_handleBackendSwitching keeps_removeFinalizer
  keeps_addFinalizer : keeps.

Lemma keeps_handleEventingDeletion : keeps lifecycle (handleEventingDeletion env).
Proof. unfold handleEventingDeletion, deleteEventing, deleteClusterScopedResources, deleteClusterObject. lc_status. Qed.
Lemma keeps_setBackendConfig c : keeps lifecycle
  (fun w : RW => let '(o, d) := em_SetBackendConfig c (deps (st w)) in (o, mkWorld (set_deps d (st w)) (hist w))).
Proof. intros w Hw. by destruct (em_SetBackendConfig c (deps (st w))). Qed.
#[local] Hint Resolve keeps_handleEventingDeletion keeps_setBackendConfig : keeps.

Lemma keeps_reconcileBackend : keeps lifecycle (reconcileBackend env connEnv natsURL unmarshalMessages).
Proof. unfold reconcileBackend, backendOf. lc_status. Qed.
#[local] Hint Resolve keeps_reconcileBackend : keeps.

Lemma keeps_Reconcile ns name :
  keeps lifecycle (Reconcile env connEnv natsURL allowedEventingCR unmarshalMessages ns name).
Proof.
  unfold Reconcile, watchClusterScopedResources, reconcileCR, handleEventingCRAllowedCheck, handleEventingReconcile, InitStateProcessing.
  lc_status.
Qed.

Lemma keeps_ResetNATSConnection : keeps lifecycle (ResetNATSConnection connEnv).
Proof. unfold ResetNATSConnection. lc. Qed.
End operator.

(** ** Reachable states

    Reconciliations of any resource, each with its own environment; what the dependencies hold can change in between. *)
Section reachable.
Context {W : Type} `{EventingManagerI W} `{ManagerFactory W} `{ConfigHashing} `{StatusConditions}.

Inductive reachable : World (OpState W) opEvent -> Prop :=
  | reach_start d config zero : reachable (mkWorld (NewReconciler d config zero) [])
  | reach_Reconcile w env connEnv natsURL allowed unmarshal ns name :
      reachable w -> reachable (Reconcile env connEnv natsURL allowed unmarshal ns name w).2
  | reach_ResetNATSConnection w connEnv : reachable w -> reachable (ResetNATSConnection connEnv w).2
  | reach_deps w d : reachable w -> reachable (mkWorld (set_deps d (st w)) (hist w)).

Lemma reachable_lifecycle w : reachable w -> lifecycle w.
Proof.
  induction 1 as [d config zero|w env connEnv url allowed unmarshal ns name _ IH|w connEnv _ IH|w d _ IH]; [|..|exact IH].
  - split; try done. intros id. split; [done|]. by intros [[? _]|[? _]].
  - by apply keeps_Reconcile.
  - by apply keeps_ResetNATSConnection.
Qed.

(** C3: in every reachable state of the operator, whatever failed or panicked before, each subscription manager was created,
    initialised, started and stopped in this order, at most once each, and a manager is running (it was started and not stopped
    since) if and only if the operator remembers it as started: at most one manager for each of the two backends. *)
Theorem managers_lifecycle w : reachable w ->
  (forall id, is_Some (phase_of id (hist w))) /\
  (forall id, phase_of id (hist w) = Some Running <->
     natsSubManager (st w) = Some id /\ isNATSSubManagerStarted (st w) = true \/
     eventMeshSubManager (st w) = Some id /\ isEventMeshSubManagerStarted (st w) = true) /\
  (forall id, (managersCreated (st w) <= id)%nat -> phase_of id (hist w) = Some Absent).
Proof. intros Hw. by destruct (reachable_lifecycle w Hw). Qed.
End reachable.
