(* ===== verification/OperatorWatchers.v ===== *)
(** * Eventing operator: the watchers of the NATS resources

    The operator starts a watcher for the namespace of the Eventing resource when the backend is NATS and stops it when the backend is
    switched.  The requests of a run are carried out on the watchers of [Watcher]: none of them blocks, and
    the ones the operator remembers as started are listening, as long as every registration succeeds. *)

From S2P Require Import Prelude Effects GoStrings Errors Utils Subscription Eventing Config EventMeshUtils ApiRule Objects KubeClient KubeRequests Watcher PublisherProxy Connection Operator.

(** ** The requests on real watchers *)
Section requests.
Context {I : Type} `{InformersLaws I}.
Abbreviation watchers := (gmap string (ResourceWatcher I)).

(** The watcher of a namespace; it is made when it is first needed. *)
Definition watcher_in (m : watchers) (ns : string) : ResourceWatcher I := default (NewResourceWatcher NatsGVK ns) (m !! ns).

(** [None]: the operator blocks. *)
Definition carry_out (ev : opEvent) (m : watchers) : option watchers :=
  match ev with
  | OpWatcherStart ns => w ← Watcher.Start (watcher_in m ns); Some (<[ns := w]> m)
  | OpWatcherStop ns => _ ← Watcher.Stop (watcher_in m ns); Some (delete ns m)
  | _ => Some m
  end.
Definition carried_out (log : list opEvent) : option watchers := foldr (fun ev m => m ≫= carry_out ev) (Some ∅) log.

Lemma carried_out_cons ev log : carried_out (ev :: log) = carried_out log ≫= carry_out ev.
Proof using Type. done. Qed.

(** What the operator remembers is what there is: exactly the listening watchers. *)
Definition agree (remembered : gmap string bool) (m : watchers) : Prop :=
  forall ns, match remembered !! ns with
    | None => m !! ns = None
    | Some true => exists w, m !! ns = Some w /\ in_phase w Listening
    | Some false => False
    end.
Definition watching (remembered : gmap string bool) (log : list opEvent) : Prop :=
  exists m, carried_out log = Some m /\ agree remembered m.

Definition watcher_event (ev : opEvent) : bool := match ev with OpWatcherStart _ | OpWatcherStop _ => true | _ => false end.

Lemma watching_other r log ev : watcher_event ev = false -> watching r log -> watching r (ev :: log).
Proof using Type.
  intros He (m & Hm & Ha). exists m. split; [|done]. rewrite carried_out_cons, Hm. by destruct ev.
Qed.

Lemma watching_start r log ns : (forall i : I, inf_syncs i = true) -> r !! ns = None -> watching r log ->
  watching (<[ns := true]> r) (OpWatcherStart ns :: log).
Proof using Type.
  intros Hy Hr (m & Hm & Ha). pose proof (Ha ns) as Hns. rewrite Hr in Hns.
  destruct (start_fresh (NewResourceWatcher NatsGVK ns) (new_fresh NatsGVK ns) (Hy _)) as (w & Hw & Hp).
  exists (<[ns := w]> m). rewrite carried_out_cons, Hm. cbn [mbind option_bind carry_out].
  unfold watcher_in. rewrite Hns. cbn [default from_option]. rewrite Hw. split; [done|]. intros ns'. destruct (decide (ns = ns')) as [<-|Hne].
  - rewrite !lookup_insert_eq. by exists w.
  - rewrite !lookup_insert_ne by done. apply Ha.
Qed.

Lemma watching_stop r log ns b : r !! ns = Some b -> watching r log -> watching (delete ns r) (OpWatcherStop ns :: log).
Proof using Type.
  intros Hr (m & Hm & Ha). pose proof (Ha ns) as Hns. rewrite Hr in Hns. destruct b; [|done]. destruct Hns as (w & Hw & Hp).
  destruct (stop_listening w Hp) as (w' & Hs & _). exists (delete ns m). rewrite carried_out_cons, Hm.
  cbn [mbind option_bind carry_out]. unfold watcher_in. rewrite Hw. cbn [default from_option id]. rewrite Hs. split; [done|].
  intros ns'. destruct (decide (ns = ns')) as [<-|Hne]; [by rewrite !lookup_delete_eq|]. rewrite !lookup_delete_ne by done. apply Ha.
Qed.
End requests.

(** ** The operator keeps the invariant *)
Section operator.
Context {W : Type} `{EventingManagerI W} `{ManagerFactory W} `{ConfigHashing} `{StatusConditions}.
Context {I : Type} `{InformersLaws I} (Hsyncs : forall i : I, inf_syncs i = true).
Context (env : OpEnv) (connEnv : ConnEnv) (natsURL : string) (allowedEventingCR : option (string * string)).
Context (unmarshalMessages : string -> list Message + goerr).
Context (Hwatch : forall h ns, o_Watch env h ("NATS in " +:+ ns) = None).
Abbreviation RW := (World (OpState W) opEvent).
Implicit Types (w : RW).

Definition watched w : Prop := watching (I := I) (natsWatchers (st w)) (hist w).

Lemma watched_event {R} (ev : R -> opEvent) f : (forall r, watcher_event (ev r) = false) -> keeps watched (call ev f).
Proof using Type. intros He. apply keeps_call. intros w r Hw. by apply watching_other. Qed.
Lemma watched_onDeps {A} (ev : A + goerr -> opEvent) (c : M W A) : (forall r, watcher_event (ev r) = false) -> keeps watched (onDeps ev c).
Proof using Type.
  intros He. unfold onDeps. apply keeps_bind; [|intros r; by apply watched_event]. apply keeps_try. intros w Hw.
  by destruct (c (deps (st w))) as [o d].
Qed.
Lemma watched_onDepsM {A} (ev : A + goerr -> opEvent) (c : M W A) : (forall r, watcher_event (ev r) = false) -> keeps watched (onDepsM ev c).
Proof using Type. intros He. unfold onDepsM. apply keeps_bind; [by apply watched_onDeps|]. intros r. apply keeps_okOr. Qed.
Lemma watched_onConnection {A} (c : M (World connection connEvent) A) : keeps watched (onConnection c).
Proof using Type. intros w Hw. unfold onConnection. destruct (natsConnection (st w)); [|done]. by destruct (c _) as [o conn]. Qed.
Lemma watched_onow {A} (k : Z -> M RW A) : (forall t, keeps watched (k t)) -> keeps watched (bindM (onow env) k).
Proof using Type. intros Hk w Hw. unfold bindM, onow. by apply Hk. Qed.
Lemma watched_orPanic {A} (o : option A) m : keeps watched (orPanic o m : M RW A).
Proof using Type. destruct o; [apply keeps_ret|apply keeps_panic]. Qed.

Ltac wt_step :=
  lazymatch goal with
  | |- keeps _ (bindM (onow _) _) => apply watched_onow; intros ?
  | |- keeps _ (bindM (gets _) _) => apply keeps_gets_bind; intros ? ?
  | |- keeps _ (bindM _ _) => apply keeps_bind; [|intros ?]
  | |- keeps _ (call _ _) => apply watched_event; done
  | |- keeps _ (puts _) => apply keeps_puts; let w := fresh "w" in let Hw := fresh "Hw" in intros w Hw; exact Hw
  | |- keeps _ (onDeps _ _) => apply watched_onDeps; done
  | |- keeps _ (onDepsM _ _) => apply watched_onDepsM; done
  | |- keeps _ (onConnection _) => apply watched_onConnection
  | |- keeps _ (orPanic _ _) => apply watched_orPanic
  | |- keeps _ (tryM _) => apply keeps_try
  | |- keeps _ (errOf _) => apply keeps_errOf
  | |- keeps _ (match ?x with _ => _ end) => destruct x
  | |- keeps _ _ => solve [auto with keeps nocore]
  end.
Ltac wt := cbv zeta; repeat wt_step.

(** The two that touch the watchers. *)
Lemma watched_start : keeps watched (startNATSCRWatch env : M RW unit).
Proof using Hsyncs Hwatch.
  intros w Hw. unfold startNATSCRWatch, watchResource, bindM, gets, puts, call.
  destruct (natsWatchers (st w) !! eNamespace (cr (st w))) as [[]|] eqn:E; cbn - [String.append]; rewrite ?Hwatch; [done| |].
  - destruct Hw as (m & _ & Ha). specialize (Ha (eNamespace (cr (st w)))). by rewrite E in Ha.
  - unfold watched. cbn. rewrite insert_insert_eq. apply watching_start; [done..|]. by apply watching_other.
Qed.
Lemma watched_stop : keeps watched (stopNATSCRWatch : M RW unit).
Proof using Type.
  intros w Hw. unfold stopNATSCRWatch, bindM, gets, puts, call.
  destruct (natsWatchers (st w) !! eNamespace (cr (st w))) as [b|] eqn:E; cbn; [|done]. unfold watched. cbn. by eapply watching_stop.
Qed.
#[local] Hint Resolve watched_start watched_stop : keeps.

Lemma watched_updStatusNow f : keeps watched (updStatusNow env f : M RW unit).
Proof using Type. unfold updStatusNow, updStatus. wt. Qed.
#[local] Hint Resolve watched_updStatusNow : keeps.
Lemma watched_syncEventingStatus : keeps watched (syncEventingStatus env : M RW unit).
Proof using Type. unfold syncEventingStatus, updateStatus. wt. Qed.
#[local] Hint Resolve watched_syncEventingStatus : keeps.
Lemma watched_joinSync err : keeps watched (joinSync env err : M RW _).
Proof using Type. unfold joinSync. wt. Qed.
#[local] Hint Resolve watched_joinSync : keeps.

Ltac wt_status :=
  unfold failWith, finishWith, syncStatusWithNATSErr, syncStatusWithNATSState, syncStatusForEmptyBackend, syncStatusWithPublisherProxyErr,
    syncStatusWithPublisherProxyErrWithReason, syncStatusWithSubscriptionManagerErr, syncStatusWithSubscriptionManagerErrWithReason,
    syncSubManagerStatusWithNATSState, syncStatusWithSubscriptionManagerFailedCondition, syncStatusWithDeletionErr, updStatus; wt.

Lemma watched_handleEventingState d : keeps watched (handleEventingState env d : M RW _).
Proof using Type. unfold handleEventingState, getDeployment. wt_status. Qed.
Lemma watched_reconcileNATSSubManager : keeps watched (reconcileNATSSubManager env : M RW _).
Proof using Type.
  unfold reconcileNATSSubManager, GetNatsConfig, getNATSUrl, getDefaultSubscriptionConfig, backendOf, stopNATSSubManager, startNATSSubManager,
    newManagerId, updStatus. wt.
Qed.
Lemma watched_reconcileEventMeshSubManager secret : keeps watched (reconcileEventMeshSubManager env unmarshalMessages secret : M RW _).
Proof using Type.
  unfold reconcileEventMeshSubManager, wrapM, syncOauth2ClientIDAndSecret, getOAuth2ClientCredentials, getSecret, dataKey,
    isOauth2CredentialsInitialized, SyncPublisherProxySecret, setUpEnvironmentForEventMesh, setenv, backendOf, checkDomain,
    readDomainFromConfigMap, replaceEventMeshSubManager, stopEventMeshSubManager, startEventMeshSubManager,
    getDefaultSubscriptionConfig, newManagerId, backendOf. wt_status.
Qed.
#[local] Hint Resolve watched_handleEventingState watched_reconcileNATSSubManager watched_reconcileEventMeshSubManager : keeps.

Lemma watched_setBackendConfig c : keeps watched
  (fun w : RW => let '(o, d) := em_SetBackendConfig c (deps (st w)) in (o, mkWorld (set_deps d (st w)) (hist w))).
Proof using Type. intros w Hw. by destruct (em_SetBackendConfig c (deps (st w))). Qed.
#[local] Hint Resolve watched_setBackendConfig : keeps.

Lemma watched_reconcileBackend : keeps watched (reconcileBackend env connEnv natsURL unmarshalMessages : M RW _).
Proof using Hsyncs Hwatch.
  unfold reconcileBackend, reconcileNATSBackend, connectToNATS, runNATSBackend, reconcileEventMeshBackend, runEventMeshBackend, getSecret,
    handlePublisherProxy, GetNatsConfig, getNATSUrl, crdExists, backendOf. wt_status.
Qed.
Lemma watched_handleBackendSwitching : keeps watched (handleBackendSwitching connEnv : M RW _).
Proof using Type. unfold handleBackendSwitching, stopNATSSubManager, stopEventMeshSubManager, disconnect. wt_status. Qed.
Lemma watched_handleEventingDeletion : keeps watched (handleEventingDeletion env : M RW _).
Proof using Type.
  unfold handleEventingDeletion, deleteEventing, deleteClusterScopedResources, deleteClusterObject, removeFinalizer, updateCR,
    stopNATSSubManager, stopEventMeshSubManager. wt_status.
Qed.
#[local] Hint Resolve watched_reconcileBackend watched_handleBackendSwitching watched_handleEventingDeletion : keeps.

Lemma watched_Reconcile ns name :
  keeps watched (Reconcile env connEnv natsURL allowedEventingCR unmarshalMessages ns name : M RW _).
Proof using Hsyncs Hwatch.
  unfold Reconcile, watchClusterScopedResources, watchResource, reconcileCR, handleEventingCRAllowedCheck, handleEventingReconcile,
    addFinalizer, updateCR, InitStateProcessing. wt_status.
Qed.
Lemma watched_ResetNATSConnection : keeps watched (ResetNATSConnection connEnv : M RW _).
Proof using Type. unfold ResetNATSConnection, disconnect. wt. Qed.
End operator.

(** ** Any sequence of reconciliations *)
Section runs.
Context {W : Type} `{EventingManagerI W} `{ManagerFactory W} `{ConfigHashing} `{StatusConditions}.
Context {I : Type} `{InformersLaws I} (Hsyncs : forall i : I, inf_syncs i = true).

(** As [OperatorLifecycle.reachable], with registrations of watchers that succeed. *)
Inductive runs : World (OpState W) opEvent -> Prop :=
  | runs_start d config zero : runs (mkWorld (NewReconciler d config zero) [])
  | runs_Reconcile w env connEnv natsURL allowed unmarshal ns name :
      (forall h ns, o_Watch env h ("NATS in " +:+ ns) = None) ->
      runs w -> runs (Reconcile env connEnv natsURL allowed unmarshal ns name w).2
  | runs_ResetNATSConnection w connEnv : runs w -> runs (ResetNATSConnection connEnv w).2
  | runs_deps w d : runs w -> runs (mkWorld (set_deps d (st w)) (hist w)).

Lemma runs_watched w : runs w -> watched (I := I) w.
Proof using All.
  induction 1 as [d config zero|w env connEnv url allowed unmarshal ns name Hw _ IH|w connEnv _ IH|w d _ IH]; [|..|exact IH].
  - exists ∅. split; [done|]. intros ns. by rewrite !lookup_empty.
  - by apply (watched_Reconcile Hsyncs).
  - by apply watched_ResetNATSConnection.
Qed.

(** C17: as long as the registrations succeed, no sequence of reconciliations, interrupted or not, blocks on a watcher: each request of
    the operator is carried out.  The watchers that it remembers are exactly those that there are, and each of them
    listens: it reports every change of a NATS resource in its namespace, and nothing when a resource is only read again. *)
Theorem operator_watchers_listen w : runs w ->
  exists m, carried_out (I := I) (hist w) = Some m /\
    forall ns, match natsWatchers (st w) !! ns with
      | None => m !! ns = None
      | Some b => b = true /\ exists x, m !! ns = Some x /\ IsStarted x = true /\
          forall O (HO : EqDecision O) (n : notification O),
            sends x n = true <-> match n with Updated _ o n => o <> n | _ => True end
      end.
Proof using All.
  intros Hw. destruct (runs_watched w Hw) as (m & Hm & Ha). exists m. split; [done|]. intros ns. specialize (Ha ns).
  destruct (natsWatchers (st w) !! ns) as [[]|]; [|done|done]. destruct Ha as (x & Hx & Hp). split; [done|]. exists x.
  split_and!; [done|by destruct Hp|]. intros O HO n. by apply sends_listening.
Qed.
End runs.

(** ** Informers *)
Inductive informer_state := INew | IReady | IRuns (c : chan) (listening : bool) | IEnded | IDown.
#[export] Instance plain_informers : Informers informer_state := {|
  inf_new _ _ := INew;
  inf_AddEventHandler i := match i with INew => (Some 0, IReady) | IRuns c _ => (Some 0, IRuns c true) | _ => (None, i) end;
  inf_RemoveEventHandler _ i := match i with IRuns c _ => IRuns c false | _ => i end;
  inf_Start c i := match i with IReady => IRuns c true | _ => i end;
  inf_Shutdown i := match i with IEnded => IDown | _ => i end;
  inf_syncs _ := true;
  inf_receives i c := match i with IRuns c' _ => (c =? c')%nat | _ => false end;
  inf_stopped c i := match i with IRuns c' _ => if (c =? c')%nat then IEnded else i | _ => i end;
  inf_notifies i r := match i, r with IRuns _ true, Some _ => true | _, _ => false end
|}.
#[export] Instance plain_informers_laws : InformersLaws informer_state.
Proof.
  refine {| inf_fresh i := i = INew; inf_down i := i = IDown; inf_runs c r i := i = IRuns c true /\ r = 0 |}; cbn.
  - done.
  - intros i c ->. by exists 0, IReady.
  - intros c r i [-> ->]. by rewrite Nat.eqb_refl.
  - intros c r i [-> ->]. by rewrite Nat.eqb_refl.
  - intros c r i [-> ->]. by rewrite Nat.eqb_refl.
  - intros i c ->. by exists IDown.
  - by intros i _ ->.
  - by intros i _ ->.
Qed.
