(* ===== verification/Setup.v ===== *)
(** * What queues a reconciliation

    The controllers are set up with sources, handlers and predicates: [SetupWithManager] and [watchResource] of the operator
    (internal/controller/operator/eventing/controller.go) and [SetupUnmanaged] of the two subscription reconcilers.  The semantics of
    handlers and predicates is controller-runtime's: a change is queued when every predicate of its source
    accepts it. *)

From S2P Require Import Prelude Effects GoStrings Errors Url Utils Subscription Eventing ApiRule EMReconciler EMReconcilerFacts Objects Equality PublisherProxy EventingManagerFacts Operator.
From Stdlib Require Import Ascii.

(** ** Predicates *)

(** [predicate.Funcs]: [None] is a panic. *)
Record predicate (O : Type) := mkPredicate {
  CreateFunc : O -> option bool;
  UpdateFunc : O -> O -> option bool;
  DeleteFunc : O -> option bool;
  GenericFunc : O -> option bool
}.
Arguments mkPredicate {O}. Arguments CreateFunc {O}. Arguments UpdateFunc {O}. Arguments DeleteFunc {O}. Arguments GenericFunc {O}.

Inductive change (O : Type) := Create (o : O) | Update (old new : O) | Delete (o : O) | Generic (o : O).
Arguments Create {O}. Arguments Update {O}. Arguments Delete {O}. Arguments Generic {O}.

Definition accepts {O} (p : predicate O) (c : change O) : option bool :=
  match c with
  | Create o => CreateFunc p o | Update o n => UpdateFunc p o n | Delete o => DeleteFunc p o | Generic o => GenericFunc p o
  end.

(** In their order, until one refuses. *)
Fixpoint accepted {O} (ps : list (predicate O)) (c : change O) : option bool :=
  match ps with
  | [] => Some true
  | p :: ps => b ← accepts p c; if (b : bool) then accepted ps c else Some false
  end.

(** ** The operator *)
Definition SkipEnqueueOnCreate {O} (_ : O) : option bool := Some false.

Definition ignoreCreationPredicate : predicate Object_ :=
  mkPredicate SkipEnqueueOnCreate (SkipEnqueueOnUpdateAfterSemanticCompare "eventing") (fun _ => Some true) (fun _ => Some true).

(** The kinds that the Eventing resource owns, with the predicates of their changes; the changes of the Eventing resource and the
    events of the NATS connection have none. *)
Definition SetupWithManager : list (string * list (predicate Object_)) :=
  [("Deployment", [ignoreCreationPredicate]); ("Service", [ignoreCreationPredicate]);
   ("ServiceAccount", [ignoreCreationPredicate]); ("HorizontalPodAutoscaler", [ignoreCreationPredicate])].

(** An object with its resource version. *)
Definition ResourceVersionChangedPredicate : predicate (string * Object_) :=
  mkPredicate (fun _ => Some true) (fun o n => Some (negb (String.eqb o.1 n.1))) (fun _ => Some true) (fun _ => Some true).
Definition on_object (p : predicate Object_) : predicate (string * Object_) :=
  mkPredicate (fun o => CreateFunc p o.2) (fun o n => UpdateFunc p o.2 n.2) (fun o => DeleteFunc p o.2) (fun o => GenericFunc p o.2).

(** The predicates of the cluster-scoped resources; each change that is accepted queues the Eventing resource. *)
Definition watchResource_predicates : list (predicate (string * Object_)) :=
  [ResourceVersionChangedPredicate; on_object ignoreCreationPredicate].
Definition watchResource_requests (eventing : Eventing) : list (string * string) := [(eNamespace eventing, eName eventing)].

(** What is queued for a change of an owned object. *)
Definition queued (kind : string) (c : change Object_) : option bool :=
  match List.find (fun kp => String.eqb kp.1 kind) SetupWithManager with
  | Some kp => accepted kp.2 c
  | None => Some false
  end.

Lemma queued_owned kind c : kind ∈ SetupWithManager.*1 -> queued kind c = accepts ignoreCreationPredicate c.
Proof.
  intros Hk. assert (queued kind c = accepted [ignoreCreationPredicate] c) as ->.
  { unfold queued. cbn in Hk. repeat (apply elem_of_cons in Hk as [->|Hk]; [done|]). by apply not_elem_of_nil in Hk. }
  cbn. by destruct (accepts ignoreCreationPredicate c) as [[]|].
Qed.

Lemma sameContainer_refl c : sameContainer c c.
Proof.
  split_and!; [done..|]. destruct (cReadinessProbe c) as [p|]; [|done]. split_and!; [done|by left..|done].
Qed.


(** Another status of the deployment of the publisher proxy queues nothing. *)
Definition withStatus (d : Deployment) (status : DeploymentStatus) : Deployment := mkDeployment (dType d) (dMeta d) (dSpec d) status.

(** The name filter is about any part of the name: what belongs to an Eventing resource of another name is not seen. *)
Lemma other_names_ignored kind old new : kind ∈ SetupWithManager.*1 -> Contains (omName (objMeta old)) "eventing" = false ->
  queued kind (Update old new) = Some false.
Proof.
  intros Hk Hn. rewrite queued_owned by done. cbn [accepts UpdateFunc ignoreCreationPredicate].
  unfold SkipEnqueueOnUpdateAfterSemanticCompare. by rewrite Hn.
Qed.

(** ** The subscription controllers *)
Inductive setupEvent :=
  | SetupNewUnmanaged (name : string) (r : option goerr)
  | SetupWatch (what : string) (r : option goerr)
  | SetupStart.

Record SetupEnv := mkSetupEnv {
  s_NewUnmanaged : list setupEvent -> string -> option goerr;
  s_Watch : list setupEvent -> string -> option goerr
}.

Section setup.
Context (env : SetupEnv).
Abbreviation S := (M (World unit setupEvent)).

Definition newUnmanaged (name : string) : S (option goerr) := call (SetupNewUnmanaged name) (fun h => s_NewUnmanaged env h name).
Definition watch (what : string) : S (option goerr) := call (SetupWatch what) (fun h => s_Watch env h what).

(** The controller is started in a goroutine, whose failure ends the process. *)
Definition JS_reconcilerName := "jetstream-subscription-reconciler".
Definition JS_SetupUnmanaged : S unit :=
  err <- newUnmanaged JS_reconcilerName ;; returnErr err ;;;
  err <- watch "Subscription" ;; returnErr err ;;;
  err <- watch "customEventsChannel" ;; returnErr err ;;;
  call (fun _ => SetupStart) (fun _ => tt).

Definition EM_reconcilerName := "eventMesh-subscription-reconciler".
Definition EM_SetupUnmanaged : S unit :=
  let orWrap (m : string) (err : option goerr) : S unit := returnErr (wrapf m <$> err) in
  err <- newUnmanaged EM_reconcilerName ;; orWrap "failed to create unmanaged controller" err ;;;
  err <- watch "Subscription" ;; orWrap "failed to watch subscriptions" err ;;;
  err <- watch "APIRule" ;; orWrap "failed to watch APIRule" err ;;;
  call (fun _ => SetupStart) (fun _ => tt).

(** The controller is started exactly when nothing failed. *)
Definition set_up (name second : string) (h : list setupEvent) : Prop :=
  h = [SetupStart; SetupWatch second None; SetupWatch "Subscription" None; SetupNewUnmanaged name None].

Lemma JS_SetupUnmanaged_spec :
  let '(r, w) := JS_SetupUnmanaged (mkWorld tt []) in
  match r with Ok _ => set_up JS_reconcilerName "customEventsChannel" (hist w) | Err _ => SetupStart ∉ hist w | Panic _ => False end.
Proof.
  unfold JS_SetupUnmanaged, newUnmanaged, watch, bindM, call, returnErr. cbn.
  destruct (s_NewUnmanaged _ _ _); cbn; [by rewrite list_elem_of_singleton|]. destruct (s_Watch _ _ _); cbn; [set_solver|].
  destruct (s_Watch _ _ _); cbn; [set_solver|done].
Qed.
Lemma EM_SetupUnmanaged_spec :
  let '(r, w) := EM_SetupUnmanaged (mkWorld tt []) in
  match r with Ok _ => set_up EM_reconcilerName "APIRule" (hist w) | Err _ => SetupStart ∉ hist w | Panic _ => False end.
Proof.
  unfold EM_SetupUnmanaged, newUnmanaged, watch, bindM, call, returnErr. cbn.
  destruct (s_NewUnmanaged _ _ _); cbn; [by rewrite list_elem_of_singleton|]. destruct (s_Watch _ _ _); cbn; [set_solver|].
  destruct (s_Watch _ _ _); cbn; [set_solver|done].
Qed.
End setup.

(** ** Changes of an APIRule *)

(** [schema.ParseGroupVersion]. *)
Definition group_of (apiVersion : string) : string := match Split "/"%char apiVersion with [group; _] => group | _ => "" end.

(** [handler.TypedEnqueueRequestForOwner] of Subscriptions: a request for each owner of their group and kind. *)
Definition apiRuleEventHandler (r : APIRule) : list (string * string) :=
  omap (fun o => if String.eqb (orKind o) "Subscription" && String.eqb (group_of (orAPIVersion o)) "eventing.kyma-project.io"
                 then Some (arNamespace r, orName o) else None) (arOwners r).

(** A change of an APIRule that the EventMesh reconciler made queues exactly the Subscriptions whose sink it exposes, in its
    namespace, provided that the listed Subscriptions carry their API version and kind. *)
Theorem APIRule_change_queues {W : Type} env enabled typeMeta Domain CertsURL svcNs svcName labels subs port (w : World W emrEvent) :
  (forall s, s ∈ subs -> typeMeta s = ("eventing.kyma-project.io/v1alpha2", "Subscription")) ->
  match makeAPIRule env enabled typeMeta Domain CertsURL svcNs svcName labels (usersOf svcNs svcName port subs) port w with
  | (Ok r, _) => forall q, q ∈ apiRuleEventHandler r <->
      exists s p, s ∈ subs /\ exposes svcNs svcName port s p /\ q = (svcNs, Name (meta s))
  | _ => False
  end.
Proof.
  intros Ht. unfold makeAPIRule, bindM, retM. cbn beta iota. intros q. unfold apiRuleEventHandler. rewrite list_elem_of_omap.
  unfold NewAPIRule. cbn [foldl arOwners arNamespace WithLabels WithOwnerReference WithService WithGateway WithRules set_Owners set_Rules].
  split.
  - intros (o & Ho & Hq). apply list_elem_of_fmap in Ho as (s & -> & Hs). apply (usersOf_elem typeMeta) in Hs as (Hs & p & Hp).
    exists s, p. split_and!; [done..|]. rewrite (Ht s Hs) in Hq. cbn in Hq. by injection Hq as <-.
  - intros (s & p & Hs & Hp & ->). eexists. split; [apply list_elem_of_fmap; exists s; split; [done|]; apply (usersOf_elem typeMeta); eauto|].
    by rewrite (Ht s Hs).
Qed.
