(* ===== verification/Cache.v ===== *)
(** * What the operator reads through its cache: [internal/controller/cache/cache.go] and [client/client.go]

    The client of the manager reads some kinds from the API server and the others from a cache, which is restricted by
    label selectors.  That an object outside of the selector of its kind is not found is the documented behaviour
    of controller-runtime. *)

From S2P Require Import Prelude Eventing Config Objects PublisherProxy KubeClient EventingManager EventingManagerFacts.

(** [labels.SelectorFromSet]. *)
Definition SelectorCreatedByEventingManager : gmap string string := {[KeyCreatedBy := ValueEventingManager]}.

Definition matches (selector : gmap string string) (labels : option (gmap string string)) : bool :=
  bool_decide (selector ⊆ default ∅ labels).

(** The API version and kind of the Go types, with their selectors. *)
Definition applySelectors : list (string * string * gmap string string) :=
  let createdByEventingManager := SelectorCreatedByEventingManager in
  [("apps/v1", "Deployment", createdByEventingManager); ("v1", "ServiceAccount", createdByEventingManager);
   ("rbac.authorization.k8s.io/v1", "ClusterRole", createdByEventingManager);
   ("rbac.authorization.k8s.io/v1", "ClusterRoleBinding", createdByEventingManager);
   ("autoscaling/v1", "HorizontalPodAutoscaler", createdByEventingManager)].

Definition disableCacheForObjects : list (string * string) := [("v1", "Secret"); ("v1", "Service"); ("v1", "ConfigMap")].

(** The selector that restricts the cache of a type. *)
Definition selector_of (t : TypeMeta) : option (gmap string string) :=
  snd <$> List.find (fun x => String.eqb x.1.1 (tmAPIVersion t) && String.eqb x.1.2 (tmKind t)) applySelectors.

(** Whether the cache holds an object that the API server has: the informers of the controllers see it. *)
Definition cached (o : Object_) : bool :=
  match selector_of (objType o) with Some s => matches s (omLabels (objMeta o)) | None => true end.
(** Whether a [Get] finds it. *)
Definition found_by_Get (o : Object_) : bool :=
  bool_decide ((tmAPIVersion (objType o), tmKind (objType o)) ∈ disableCacheForObjects) || cached o.

(** ** What the operator makes is visible to it *)
Lemma created_matches name t : matches SelectorCreatedByEventingManager (Some (getLabels name t)) = true.
Proof.
  unfold matches, SelectorCreatedByEventingManager. apply bool_decide_true. cbn [default from_option]. by rewrite map_singleton_subseteq_l.
Qed.

Lemma cached_of_labels o name t : omLabels (objMeta o) = Some (getLabels name t) -> cached o = true.
Proof.
  intros Hl. unfold cached, selector_of. destruct (List.find _ _) as [[[v k] s]|] eqn:E; [cbn|done].
  apply find_some in E as [Hin _]. assert (s = SelectorCreatedByEventingManager) as ->; [|rewrite Hl; apply created_matches].
  cbn in Hin. by repeat destruct Hin as [[= _ _ <-]|Hin].
Qed.

(** The publisher proxy with all of its resources carries the label that the cache is restricted to: each of them can be read back,
    and its changes reach the predicates of the controller. *)
Theorem operator_sees_its_objects e n cfg t d : wanted e n cfg t = Some d ->
  Forall (fun o => cached o = true /\ found_by_Get o = true) (ODeployment d :: deployedResources e d).
Proof.
  intros Hd. assert (omLabels (dMeta d) = Some (getLabels (GetPublisherDeploymentName e) t)) as Hl by apply (wanted_own_labels _ _ _ _ _ Hd).
  assert (forall o, omLabels (objMeta o) = Some (getLabels (GetPublisherDeploymentName e) t) -> cached o = true /\ found_by_Get o = true) as Ho.
  { intros o Hlo. unfold found_by_Get. rewrite (cached_of_labels o _ _ Hlo). split; [done|apply orb_true_r]. }
  unfold deployedResources. repeat constructor; apply Ho; exact Hl.
Qed.

(** A deployment of another maker is not found, although the API server has it. *)
Theorem foreign_deployment_unseen d : dType d = mkTypeMeta deploymentKind appsV1APIVersion ->
  (forall l, omLabels (dMeta d) = Some l -> l !! KeyCreatedBy <> Some ValueEventingManager) -> found_by_Get (ODeployment d) = false.
Proof.
  intros Ht Hl. unfold found_by_Get, cached, objType. rewrite Ht. cbn [objMeta].
  change (selector_of (mkTypeMeta deploymentKind appsV1APIVersion)) with (Some SelectorCreatedByEventingManager).
  rewrite (bool_decide_false (_ ∈ _)) by (unfold disableCacheForObjects; set_solver). cbn [orb].
  unfold matches. apply bool_decide_false. unfold SelectorCreatedByEventingManager. rewrite map_singleton_subseteq_l.
  destruct (omLabels (dMeta d)) as [l|]; cbn; [by apply Hl|by rewrite lookup_empty].
Qed.

(** The selector of the autoscalers is for another version than theirs: the cache holds them all. *)
Theorem autoscalers_unrestricted h : tmAPIVersion (hpType h) = "autoscaling/v2" -> cached (OHPA h) = true.
Proof.
  intros Hv. unfold cached, selector_of. cbn [objType]. rewrite Hv. cbn.
  by destruct (String.eqb_spec "HorizontalPodAutoscaler" (tmKind (hpType h))).
Qed.
