(* ===== verification/Informers.v ===== *)
(** * Waiting for the caches of informers: [pkg/informers/sync.go], which no other package of the program calls

    [hasSynced] starts a goroutine that waits for the caches, and waits for it or for its context.  The two run at any time: a step
    relation.  The function that waits for the caches is a parameter: what it can return while its stop channel is open, and once it is closed. *)

From S2P Require Import Prelude.

Definition DefaultResyncPeriod : Z := 10 * 10 ^ 9.

Inductive Goroutine := Syncing | Looking (informersCacheSync : gmap string bool) | Finished.
Inductive Caller := Selecting | Returning (r : option goerr) | Returned (r : option goerr).
(** The channels are closed or not; closing one twice panics. *)
Record Wait := mkWait { ctxErr : option goerr; synced : bool; stopWait : bool; goroutine : Goroutine; caller : Caller; panicked : bool }.

(** [res := true; for _, sync := range ... { if !sync { res = false } }]. *)
Definition allSynced (informersCacheSync : gmap string bool) : bool :=
  map_fold (fun _ sync res => if negb sync then false else res) true informersCacheSync.
(** [if res { close(synced) }], and the deferred [close(stopWait)]. *)
Definition closeSynced (w : Wait) (m : gmap string bool) : Wait :=
  if allSynced m then mkWait (ctxErr w) true (stopWait w) Finished (caller w) (panicked w || synced w)
  else mkWait (ctxErr w) (synced w) (stopWait w) Finished (caller w) (panicked w).
Definition closeStopWait (w : Wait) (r : option goerr) : Wait :=
  mkWait (ctxErr w) (synced w) true (goroutine w) (Returned r) (panicked w || stopWait w).
Definition start : Wait := mkWait None false false Syncing Selecting false.

Section hasSynced.
(** [syncFunc stopped m]: the function can return [m], with the stop channel closed or not. *)
Context (syncFunc : bool -> gmap string bool -> Prop).

Inductive step : Wait -> Wait -> Prop :=
  | ctx_done w err : ctxErr w = None -> step w (mkWait (Some err) (synced w) (stopWait w) (goroutine w) (caller w) (panicked w))
  | sync_returns w m : goroutine w = Syncing -> syncFunc (stopWait w) m ->
      step w (mkWait (ctxErr w) (synced w) (stopWait w) (Looking m) (caller w) (panicked w))
  | sync_looked w m : goroutine w = Looking m -> step w (closeSynced w m)
  | select_ctx w err : caller w = Selecting -> ctxErr w = Some err ->
      step w (mkWait (ctxErr w) (synced w) (stopWait w) (goroutine w) (Returning (Some err)) (panicked w))
  | select_synced w : caller w = Selecting -> synced w = true ->
      step w (mkWait (ctxErr w) (synced w) (stopWait w) (goroutine w) (Returning None) (panicked w))
  | deferred w r : caller w = Returning r -> step w (closeStopWait w r).
Inductive hasSynced : nat -> Wait -> Prop :=
  | hs_start : hasSynced 0 start
  | hs_step n w w' : hasSynced n w -> step w w' -> hasSynced (S n) w'.

Lemma allSynced_iff m : allSynced m = true <-> forall i b, m !! i = Some b -> b = true.
Proof.
  unfold allSynced. induction m as [|i b m Hi Hf IH] using map_first_key_ind.
  { rewrite map_fold_empty. split; [|done]. intros _ i b. by rewrite lookup_empty. }
  rewrite map_fold_insert_first_key by done. destruct b; cbn [negb].
  - rewrite IH. split; intros H j c Hj; [|apply (H j)].
    + apply lookup_insert_Some in Hj as [[_ <-]|[_ Hj]]; [done|by apply (H j)].
    + rewrite lookup_insert_ne; [done|]. intros <-. congruence.
  - split; [done|]. intros H. specialize (H i false). rewrite lookup_insert_eq in H. by apply H.
Qed.

(** How many steps a state can still take. *)
Definition rank (w : Wait) : nat :=
  (match ctxErr w with None => 1 | _ => 0 end) + (match goroutine w with Syncing => 2 | Looking _ => 1 | Finished => 0 end)
  + match caller w with Selecting => 2 | Returning _ => 1 | Returned _ => 0 end.
Lemma step_rank w w' : step w w' -> rank w = S (rank w').
Proof.
  destruct 1 as [w err H|w m H _|w m H|w err H _|w H _|w r H]; unfold rank, closeSynced; [| |destruct (allSynced m)| | |]; cbn; rewrite H; lia.
Qed.

Definition good (w : Wait) : Prop :=
  panicked w = false /\ (goroutine w <> Finished -> synced w = false) /\
  (stopWait w = false -> forall m, goroutine w = Looking m -> syncFunc false m) /\
  (forall r, caller w = Returning r \/ caller w = Returned r -> match r with Some err => ctxErr w = Some err | None =>
    exists m, syncFunc false m /\ forall i b, m !! i = Some b -> b = true end) /\
  (stopWait w = false -> synced w = true -> exists m, syncFunc false m /\ forall i b, m !! i = Some b -> b = true) /\
  (stopWait w = true <-> exists r, caller w = Returned r).
Lemma step_good w w' : good w -> step w w' -> good w'.
Proof.
  intros (Hp & Hg & Hl & Hr & Hs & Hw) Hst.
  assert (Hopen : forall r, caller w = Selecting \/ caller w = Returning r -> stopWait w = false).
  { intros r Hc. destruct (stopWait w); [|done]. destruct (proj1 Hw eq_refl) as [r' E]. rewrite E in Hc. by destruct Hc. }
  destruct Hst as [w err H|w m H Hm|w m H|w err H He|w H He|w r H]; unfold good, closeSynced, closeStopWait.
  - cbn. split_and!; try done. intros [e|] Hc; [|by apply Hr in Hc]. apply Hr in Hc. congruence.
  - cbn. split_and!; try done; [intros _; apply Hg; by rewrite H|]. intros E m' [= <-]. by rewrite <- E.
  - assert (Hsy : synced w = false) by (apply Hg; by rewrite H).
    destruct (allSynced m) eqn:Ea; cbn; rewrite ?Hp, ?Hsy; split_and!; try done. intros E _. exists m. split; [by apply Hl|by apply allSynced_iff].
  - assert (Hc := Hopen None (or_introl H)). cbn. split_and!; try done; [by intros r [[= <-]|?]|]. rewrite Hc. split; [done|]. by intros [? ?].
  - assert (Hc := Hopen None (or_introl H)). cbn. split_and!; try done; [intros r [[= <-]|?]; [by apply Hs|done]|]. rewrite Hc. split; [done|]. by intros [? ?].
  - assert (Hc := Hopen r (or_intror H)). cbn. rewrite Hp, Hc. split_and!; try done; [intros r' [?|[= <-]]; [done|apply Hr; by left]|]. split; [|done]. intros _. by exists r.
Qed.
Lemma hasSynced_good n w : hasSynced n w -> good w.
Proof.
  induction 1 as [|n w w' _ IH Hs]; [|by eapply step_good]. unfold good, start. cbn. split_and!; try done; [by intros r [?|?]|].
  split; [done|]. by intros [? ?].
Qed.

(** In every interleaving of the caller, the goroutine and the context: no channel is closed twice; nil is returned only after the caches
    were all reported as synced before the wait was over, and an error is that of the context.  Once the context is done, and if the
    function returns when its stop channel is closed, nothing is stuck before the caller has returned and the goroutine has ended, and at most five steps
    are taken: the goroutine does not outlive the wait. *)
Theorem hasSynced_spec (Hstop : exists m, syncFunc true m) n w : hasSynced n w ->
  panicked w = false /\ (n <= 5)%nat /\
  (caller w = Returned None -> exists m, syncFunc false m /\ forall i b, m !! i = Some b -> b = true) /\
  (forall err, caller w = Returned (Some err) -> ctxErr w = Some err) /\
  (is_Some (ctxErr w) -> (exists r, caller w = Returned r) /\ goroutine w = Finished \/ exists w', step w w').
Proof.
  intros H. destruct (hasSynced_good n w H) as (Hp & _ & _ & Hr & _ & Hw). split_and!; [done| | | |].
  - enough (n + rank w = 5)%nat by lia. clear -H. induction H as [|n w w' _ IH Hs]; [done|]. apply step_rank in Hs. lia.
  - intros Hc. exact (Hr None (or_intror Hc)).
  - intros err Hc. exact (Hr (Some err) (or_intror Hc)).
  - intros [err He]. destruct (caller w) as [|r|r] eqn:Ec; [right; by eexists; eapply select_ctx|right; by eexists; apply deferred|].
    destruct (goroutine w) as [|m|] eqn:Eg; [right|right; by eexists; apply sync_looked|left; split; [by exists r|done]].
    destruct Hstop as [m Hm]. eexists. apply (sync_returns w m Eg). destruct Hw as [_ Hw]. by rewrite Hw by (by exists r).
Qed.
End hasSynced.

(** ** [WaitForCacheSyncOrDie]: the calls it makes, given the answer of [hasSynced] *)
Inductive sync_call := Start | WithTimeout (d : Z) | Fatal (message : string) | cancel.
Definition WaitForCacheSyncOrDie (err : option goerr) : list sync_call :=
  [Start; WithTimeout DefaultResyncPeriod; match err with Some err => Fatal ("Failed to sync informer caches: " ++ Error err) | None => cancel end].

(** Informers that have answered, one of them without success, are waited for until the context is done. *)
Example failed_sync_waits : let syncFunc (stopped : bool) (m : gmap string bool) := m = {["subscriptions" := false]} in exists w,
  hasSynced syncFunc 2 w /\ goroutine w = Finished /\ forall w', step syncFunc w w' -> is_Some (ctxErr w').
Proof.
  set (m := {["subscriptions" := false]} : gmap string bool). exists (mkWait None false false Finished Selecting false). split; [|split; [done|]].
  - eapply hs_step; [eapply hs_step; [apply hs_start|by apply (sync_returns _ start m)]|].
    exact (sync_looked _ (mkWait None false false (Looking m) Selecting false) m eq_refl).
  - intros w' Hs. inversion Hs; subst; done.
Qed.
