(* ===== verification/Main.v ===== *)
(** * The start of the binary: [cmd/main.go]

    The order of the steps from the parsing of the flags to the start of the controllers, with the outside as an
    environment.  The process ends with the exit code 1 in [Exit], with a panic, or when the manager
    returns. *)

From S2P Require Import Prelude Effects GoStrings Errors Eventing Config ApiRule Objects KubeClient KubeRequests KubeStore PeerAuthentication EventingManagerFacts Metrics Connection Operator Options.

(** [os.Exit(1)] and [log.Fatalf]. *)
Definition Exit : goerr := sentinel "os.Exit" "exit status 1".

Inductive mainEvent :=
  | MAddToScheme (types : string) (r : option goerr)
  | MParse (r : option goerr)
  | MNewLogger (format level : string) (r : option goerr)
  | MGetConfig (r : option goerr)
  | MNewManager (o : Options) (r : option goerr)
  | MNewDynamicClient (r : option goerr)
  | MNewClientset (r : option goerr)
  | MGetBackendConfig (r : BackendConfig + goerr)
  | MSetupWithManager (r : option goerr)
  | MAddHealthzCheck (r : option goerr)
  | MAddReadyzCheck (r : option goerr)
  | MStart (r : option goerr)
  | MSyncLogger.

Record MainEnv := mkMainEnv {
  main_AddToScheme : list mainEvent -> string -> option goerr;
  main_flags : CommandLine;
  main_processed : Env + goerr;
  main_NewLogger : list mainEvent -> string -> string -> option goerr;
  main_GetConfig : list mainEvent -> option goerr;
  main_NewManager : list mainEvent -> Options -> option goerr;
  main_NewDynamicClient : list mainEvent -> option goerr;
  main_NewClientset : list mainEvent -> option goerr;
  main_GetBackendConfig : list mainEvent -> BackendConfig + goerr;
  main_SetupWithManager : list mainEvent -> option goerr;
  main_AddHealthzCheck : list mainEvent -> option goerr;
  main_AddReadyzCheck : list mainEvent -> option goerr;
  main_Start : list mainEvent -> option goerr
}.

(** What is registered and made. *)
Record Process {U G C H W : Type} := mkProcess {
  registry : list string; (* the names of the metrics *)
  collector : option (Collector G C H);
  kubeClient : World KubeClient (request U);
  operator : option (OpState W);
  allowedCR : option (string * string);
  natsConnectionURL : option string
}.
Arguments Process : clear implicits.
Arguments mkProcess {U G C H W}.

Section main.
Context {U G C H : Type} `{UnstructuredConverter U, GaugeVec G, CounterVec C, HistogramVec H}.
Context {W : Type} (newDeps : BackendConfig -> Collector G C H -> W).
Context (api : API U) (env : MainEnv).
Abbreviation P := (Process U G C H W).
Abbreviation M' := (M (World P mainEvent)).

Definition set_metrics (r : list string) (c : Collector G C H) (p : P) : P :=
  mkProcess r (Some c) (kubeClient p) (operator p) (allowedCR p) (natsConnectionURL p).
Definition set_kube (k : World KubeClient (request U)) (p : P) : P :=
  mkProcess (registry p) (collector p) k (operator p) (allowedCR p) (natsConnectionURL p).
Definition set_operator (o : OpState W) (allowed : Eventing) (url : string) (p : P) : P :=
  mkProcess (registry p) (collector p) (kubeClient p) (Some o) (Some (eName allowed, eNamespace allowed)) (Some url).

(** [kutilruntime.Must]. *)
Definition must (types : string) : M' unit :=
  r <- call (MAddToScheme types) (fun h => main_AddToScheme env h types) ;;
  match r with Some err => panicM (Error err) | None => retM tt end.

(** The packages whose types are registered; the two of the JetStream manager register those of client-go and of the Subscription. *)
Definition registerSchemas : M' unit :=
  forM_ ["kubernetes"; "operator/v1alpha1"; "apigateway/v2"; "apiextensions/v1"; "kubernetes"; "eventing/v1alpha2"; "eventing/v1alpha2";
         "istio/security/v1beta1"] must.

Definition syncLogger : M' unit := call (fun _ => MSyncLogger) (fun _ => tt).

(** [if err != nil { syncLogger(ctrLogger); os.Exit(1) }]. *)
Definition orExit (r : option goerr) : M' unit := match r with Some _ => syncLogger ;;; errM Exit | None => retM tt end.

Definition connectionURL := "nats://eventing-nats.kyma-system.svc.cluster.local:4222".
Definition connectionName := "Eventing Reconciler".
Definition initNATSConnectionBuilder : string + goerr := NewBuilder connectionURL connectionName.

Definition onKube (c : M (World KubeClient (request U)) unit) : M' (option goerr) := fun w =>
  match c (kubeClient (st w)) with
  | (Ok _, k) => (Ok None, mkWorld (set_kube k (st w)) (hist w))
  | (Err err, k) => (Ok (Some err), mkWorld (set_kube k (st w)) (hist w))
  | (Panic m, k) => (Panic m, mkWorld (set_kube k (st w)) (hist w))
  end.

(** A second registration of a metric panics. *)
Definition registerMetrics : M' (Collector G C H) :=
  registered <- gets registry ;;
  r <- orPanic (RegisterMetrics registered NewCollector) "duplicate metrics collector registration attempted" ;;
  puts (set_metrics r.1 r.2) ;;; retM r.2.

(** From the flags to the client of the API server. *)
Definition setup_clients : M' unit :=
  registerSchemas ;;;
  let '(opts, err) := Parse (main_flags env) (main_processed env) New in
  r <- call MParse (fun _ => err) ;;
  match r with Some _ => errM Exit | None => retM tt end ;;;
  r <- call (MNewLogger (LogFormat (oEnv opts)) (LogLevel (oEnv opts)))
         (fun h => main_NewLogger env h (LogFormat (oEnv opts)) (LogLevel (oEnv opts))) ;;
  match r with Some _ => errM Exit | None => retM tt end ;;;
  r <- call MGetConfig (fun h => main_GetConfig env h) ;;
  match r with Some _ => errM Exit | None => retM tt end ;;;
  r <- call (MNewManager opts) (fun h => main_NewManager env h opts) ;; orExit r ;;;
  r <- call MNewDynamicClient (fun h => main_NewDynamicClient env h) ;;
  match r with Some err => syncLogger ;;; panicM (Error err) | None => retM tt end ;;;
  r <- call MNewClientset (fun h => main_NewClientset env h) ;; orExit r ;;;
  puts (set_kube (mkWorld (NewKubeClient "eventing-manager") [])).

(** The operator, which handles the one resource that the configuration names. *)
Definition setup_operator : M' unit :=
  r <- call MGetBackendConfig (fun h => main_GetBackendConfig env h) ;;
  backendConfig <- match r with inr _ => errM Exit | inl c => retM c end ;;
  metricsCollector <- registerMetrics ;;
  natsConnectionBuilder <- match initNATSConnectionBuilder with inr err => orExit (Some err) ;;; retM "" | inl b => retM b end ;;
  let allowedEventingCR := mkEventing (EventingCRName backendConfig) (EventingCRNamespace backendConfig) "" None [] 0
    (mkEventingSpec None (mkPublisher 0 0 (mkResources ∅ ∅)) "" ∅ ∅) (mkEventingStatus "" 0 "" "" None) in
  puts (set_operator (Operator.NewReconciler (newDeps backendConfig metricsCollector) backendConfig allowedEventingCR)
    allowedEventingCR natsConnectionBuilder) ;;;
  r <- call MSetupWithManager (fun h => main_SetupWithManager env h) ;;
  match r with Some _ => errM Exit | None => retM tt end.

Definition main : M' unit :=
  setup_clients ;;;
  setup_operator ;;;
  r <- onKube (SyncPeerAuthentications api) ;; orExit r ;;;
  r <- call MAddHealthzCheck (fun h => main_AddHealthzCheck env h) ;; orExit r ;;;
  r <- call MAddReadyzCheck (fun h => main_AddReadyzCheck env h) ;; orExit r ;;;
  r <- call MStart (fun h => main_Start env h) ;; orExit r ;;;
  syncLogger.
End main.

(** ** What has happened when the controllers are started *)
Section facts.
Context {U G C H : Type} `{UnstructuredConverter U, GaugeVec G, !GaugeVecLaws G, CounterVec C, HistogramVec H}.
Context {W : Type} (newDeps : BackendConfig -> Collector G C H -> W).
Context (api : API U) (env : MainEnv).
Abbreviation P := (Process U G C H W).
Implicit Types (w : World P mainEvent).

Definition metricKeys : list string :=
  [deliveryMetricKey; eventTypeSubscribedMetricKey; latencyMetricKey; healthMetricKey; subscriptionStatusMetricKey].

Lemma RegisterMetrics_new registered r : RegisterMetrics registered (NewCollector : Collector G C H) = Some r ->
  r.1 = (registered ++ metricKeys)%list /\ gv_value (health r.2) ∅ = Some 1%Z /\ status_labelled r.2.
Proof using GaugeVecLaws0.
  unfold RegisterMetrics, MustRegister. intros E. repeat (case_bool_decide; [discriminate E|cbn in E]).
  rewrite gv_names_new in E. injection E as <-. split_and!; [by rewrite <- !app_assoc|..].
  - cbn. rewrite gv_value_set. by rewrite decide_True.
  - unfold status_labelled. cbn. apply gv_names_new.
Qed.

(** How the process ends before the controllers are started: the last event is a step that failed, or the logger has been
    flushed. *)
Definition last_step (e : mainEvent) : bool :=
  match e with
  | MAddToScheme _ (Some _) | MParse (Some _) | MNewLogger _ _ (Some _) | MGetConfig (Some _) | MGetBackendConfig (inr _)
  | MSetupWithManager (Some _) | MSyncLogger => true
  | _ => false
  end.
Definition unstarted w : Prop := forall r, MStart r ∉ hist w.
Definition ended w : Prop := unstarted w /\ exists e l, hist w = e :: l /\ last_step e = true.

(** What is known of the process and of its events, when later events leave it true. *)
Definition grows (p : P -> list mainEvent -> Prop) : Prop := forall s e h, p s h -> p s (e :: h).
Definition before (p : P -> list mainEvent -> Prop) w : Prop := p (st w) (hist w) /\ unstarted w.

Lemma unstarted_cons s e w : unstarted w -> (forall r, e <> MStart r) -> unstarted (mkWorld s (e :: hist w)).
Proof using Type. intros Hw He r [Hr|Hr]%elem_of_cons; [by apply (He r)|by apply (Hw r)]. Qed.
Lemma ended_cons s e w : unstarted w -> last_step e = true -> ended (mkWorld s (e :: hist w)).
Proof using Type. intros Hw He. split; [apply unstarted_cons; [done|by intros r ->]|by exists e, (hist w)]. Qed.

(** A step that goes on only after a success, and the three ways to fail. *)
Lemma step {A B} p (ev : option A -> mainEvent) f (fail : A -> M (World P mainEvent) unit) (k : M (World P mainEvent) B) Q X :
  (forall w, ended w -> X w) -> grows p -> (forall r r', ev r <> MStart r') ->
  (forall e w, unstarted w -> triple (fun w' => w' = mkWorld (st w) (ev (Some e) :: hist w)) (fail e) (fun _ _ => False) ended) ->
  triple (before p) k Q X ->
  triple (before p) (r <- call ev f ;; match r with Some e => fail e | None => retM tt end ;;; k) Q X.
Proof using Type.
  intros HX Hg Hs Hf Hk w [Hp Hw]. unfold bindM, call. destruct (f (hist w)) as [e|]; cbn.
  - specialize (Hf e w Hw _ eq_refl). destruct (fail e _) as [[] w']; [destruct Hf|by apply HX..].
  - apply Hk. split; [by apply Hg|by apply unstarted_cons].
Qed.
Lemma exit_step {A B} p (ev : option A -> mainEvent) f (k : M (World P mainEvent) B) Q X :
  (forall w, ended w -> X w) -> grows p -> (forall r r', ev r <> MStart r') -> (forall e, last_step (ev (Some e)) = true) ->
  triple (before p) k Q X ->
  triple (before p) (r <- call ev f ;; match r with Some _ => errM Exit | None => retM tt end ;;; k) Q X.
Proof using Type. intros HX Hg Hs Hl. apply step; [done..|]. intros e w Hw ? ->. by apply ended_cons. Qed.
Lemma flush_step {B} p (ev : option goerr -> mainEvent) f (k : M (World P mainEvent) B) Q X :
  (forall w, ended w -> X w) -> grows p -> (forall r r', ev r <> MStart r') -> triple (before p) k Q X ->
  triple (before p) (r <- call ev f ;; orExit r ;;; k) Q X.
Proof using Type.
  intros HX Hg Hs. apply (step p ev f (fun _ => syncLogger ;;; errM Exit)); [done..|]. intros e w Hw ? ->.
  apply (ended_cons _ _ (mkWorld (st w) (ev (Some e) :: hist w))); [by apply unstarted_cons|done].
Qed.
Lemma panic_step {B} p (ev : option goerr -> mainEvent) f (k : M (World P mainEvent) B) Q X :
  (forall w, ended w -> X w) -> grows p -> (forall r r', ev r <> MStart r') -> triple (before p) k Q X ->
  triple (before p) (r <- call ev f ;; match r with Some err => syncLogger ;;; panicM (Error err) | None => retM tt end ;;; k) Q X.
Proof using Type.
  intros HX Hg Hs. apply step; [done..|]. intros e w Hw ? ->.
  apply (ended_cons _ _ (mkWorld (st w) (ev (Some e) :: hist w))); [by apply unstarted_cons|done].
Qed.
Lemma must_step p t : grows p -> triple (before p) (must env t) (fun _ => before p) ended.
Proof using Type.
  intros Hg w [Hp Hw]. unfold must, bindM, call. destruct (main_AddToScheme env (hist w) t) as [e|]; cbn; [by apply ended_cons|].
  split; [by apply Hg|by apply unstarted_cons].
Qed.
Lemma setup_clients_triple (p0 : P) :
  triple (before (fun s _ => s = p0)) (setup_clients env)
    (fun _ => before (fun s _ => s = set_kube (mkWorld (NewKubeClient "eventing-manager") []) p0)) ended.
Proof using Type.
  assert (Hg : grows (fun s _ => s = p0)) by by intros ???.
  unfold setup_clients. eapply triple_bind; [apply triple_forM; intros x _; by apply must_step|intros []].
  destruct (Parse _ _ _) as [opts err].
  do 3 (apply exit_step; [done..|]). apply flush_step; [done..|]. apply panic_step; [done..|]. apply flush_step; [done..|].
  intros w [Hp Hw]. cbn. by subst.
Qed.

(** The resource that the operator is for: only its name and namespace are set. *)
Definition allowed (backendConfig : BackendConfig) : Eventing :=
  mkEventing (EventingCRName backendConfig) (EventingCRNamespace backendConfig) "" None [] 0
    (mkEventingSpec None (mkPublisher 0 0 (mkResources ∅ ∅)) "" ∅ ∅) (mkEventingStatus "" 0 "" "" None).

(** The process with its operator. *)
Definition composed (s : P) (h : list mainEvent) : Prop :=
  exists backendConfig c,
    MGetBackendConfig (inl backendConfig) ∈ h /\
    operator s = Some (Operator.NewReconciler (newDeps backendConfig c) backendConfig (allowed backendConfig)) /\
    allowedCR s = Some (EventingCRName backendConfig, EventingCRNamespace backendConfig) /\
    natsConnectionURL s = Some connectionURL /\
    registry s = metricKeys /\ collector s = Some c /\
    gv_value (health c) ∅ = Some 1%Z /\ status_labelled c.
Definition freshKube : World KubeClient (request U) := mkWorld (NewKubeClient "eventing-manager") [].
Definition synced (s : P) : Prop := SyncPeerAuthentications api freshKube = (Ok tt, kubeClient s).
Definition ready (s : P) (h : list mainEvent) : Prop := composed s h /\ synced s.

Lemma composed_grows (q : P -> Prop) : grows (fun s h => composed s h /\ q s).
Proof using Type.
  intros s e h [(cfg & c & Hin & Hc) Hq]. split; [|done]. exists cfg, c. split; [|done]. by apply elem_of_cons; right.
Qed.

Lemma RegisterMetrics_fresh : exists r, RegisterMetrics [] (NewCollector : Collector G C H) = Some r.
Proof using GaugeVecLaws0. unfold RegisterMetrics, MustRegister. cbn. rewrite gv_names_new. by eexists. Qed.

Lemma registerMetrics_run w : registry (st w) = [] -> exists c,
  registerMetrics w = (Ok c, mkWorld (set_metrics metricKeys c (st w)) (hist w)) /\ gv_value (health c) ∅ = Some 1%Z /\ status_labelled c.
Proof using GaugeVecLaws0.
  intros Hr. destruct RegisterMetrics_fresh as [r Er]. destruct (RegisterMetrics_new _ _ Er) as (Hreg & Hh & Hl).
  exists r.2. split; [|done]. unfold registerMetrics, bindM, gets. rewrite Hr, Er. cbn. by rewrite Hreg.
Qed.

Lemma initNATSConnectionBuilder_ok : initNATSConnectionBuilder = inl connectionURL.
Proof using Type. reflexivity. Qed.

Lemma setup_operator_triple :
  triple (before (fun s _ => registry s = [] /\ kubeClient s = freshKube)) (setup_operator newDeps env)
    (fun _ => before (fun s h => composed s h /\ kubeClient s = freshKube)) ended.
Proof using GaugeVecLaws0.
  intros w [[Hr Hk] Hw]. unfold setup_operator, bindM at 1, call at 1.
  destruct (main_GetBackendConfig env (hist w)) as [cfg|e]; cbn [errM bindM retM]; [|by apply ended_cons].
  destruct (registerMetrics_run (mkWorld (st w) (MGetBackendConfig (inl cfg) :: hist w)) Hr) as (c & Hrun & Hh & Hl).
  rewrite (bindM_run _ _ _ _ _ Hrun), initNATSConnectionBuilder_ok. unfold bindM, retM, puts, call. cbn [st hist].
  destruct (main_SetupWithManager env (MGetBackendConfig (inl cfg) :: hist w)) as [e|]; cbn.
  - apply (ended_cons _ _ (mkWorld (st w) (MGetBackendConfig (inl cfg) :: hist w))); [by apply unstarted_cons|done].
  - split; [split; [|done]|].
    + exists cfg, c. split; [set_solver|done].
    + apply (unstarted_cons _ _ (mkWorld (st w) (MGetBackendConfig (inl cfg) :: hist w))); [by apply unstarted_cons|done].
Qed.

(** The synchronisation of the PeerAuthentications has no way to panic. *)
Lemma onKube_triple (p : P -> list mainEvent -> Prop) : (forall s k h, p s h -> p (set_kube k s) h) ->
  triple (before (fun s h => p s h /\ kubeClient s = freshKube)) (onKube (SyncPeerAuthentications api))
    (fun r => before (fun s h => p s h /\ (r = None -> synced s))) ended.
Proof using Type.
  intros Hp w [[Hw Hk] Hu]. unfold onKube, synced. rewrite Hk.
  destruct (SyncPeerAuthentications_safe api freshKube I) as [Hs _].
  destruct (SyncPeerAuthentications api freshKube) as [[[]|e|m] k]; cbn in *; [|split; [split; [by apply Hp|done]|done]|done].
  split; [split; [by apply Hp|done]|done].
Qed.

Definition startup : P := mkProcess [] None freshKube None None None.

End facts.

(** ** A start, and one whose controller cannot be set up *)
Definition a_start (setup : option goerr) : MainEnv := {|
  main_AddToScheme _ _ := None; main_flags := no_flags; main_processed := inl (mkEnv "json" "info");
  main_NewLogger _ _ _ := None; main_GetConfig _ := None; main_NewManager _ _ := None; main_NewDynamicClient _ := None;
  main_NewClientset _ := None; main_GetBackendConfig _ := inl exampleBackendConfig; main_SetupWithManager _ := setup;
  main_AddHealthzCheck _ := None; main_AddReadyzCheck _ := None; main_Start _ := None
|}.
Abbreviation Gauges := (list string * gmap labels Z)%type.
Abbreviation Counters := (list string * gmap labels nat)%type.
Abbreviation Histograms := (list string * gmap labels (list Z))%type.
Definition a_run (setup : option goerr) : outcome unit * World (Process unstructured Gauges Counters Histograms string) mainEvent :=
  main (fun cfg _ => EventingCRName cfg) (plain_server a_cluster) (a_start setup) (mkWorld startup []).


(** The exit after a controller that cannot be set up leaves the logger unflushed, as only that of an invalid backend
    configuration does among those that follow the creation of the manager. *)
Example setup_failure_unflushed : let r := a_run (Some (errors_New "no kind is registered")) in
  r.1 = Err Exit /\ head (hist r.2) = Some (MSetupWithManager (Some (errors_New "no kind is registered"))) /\ MSyncLogger ∉ hist r.2.
Proof. split_and!; [vm_compute; reflexivity..|]. intros Hin. vm_compute in Hin. repeat (apply elem_of_cons in Hin as [[=]|Hin]). by apply elem_of_nil in Hin. Qed.
