(* ===== verification/OperatorLiveness.v ===== *)
(** * Eventing operator: in a healthy cluster the resource becomes Ready

    The API server stores what the operator writes, NATS is reachable, the dependencies succeed and the deployment of the publisher
    proxy is ready: then, from any state of the operator and any stored status, two reconciliations of an
    Eventing resource with the NATS backend end without an error in a stored state Ready, and it stays
    Ready.  The first may only add the finalizer. *)

From S2P Require Import Prelude Effects GoStrings Errors Utils Subscription Eventing Config EventMeshUtils ApiRule Objects KubeClient PublisherProxy Connection Operator.

(** ** The API server *)

(** The stored resource after the requests of a log: an update writes everything but the status, a status update only the status. *)
Fixpoint stored (e0 : Eventing) (log : list opEvent) : Eventing :=
  match log with
  | [] => e0
  | OpUpdate e None :: log => set_eStatus e (eStatus (stored e0 log))
  | OpStatusUpdate e None :: log => set_eStatus (stored e0 log) (eStatus e)
  | _ :: log => stored e0 log
  end.

Section liveness.
Context {W : Type} `{EventingManagerI W} `{ManagerFactory W} `{ConfigHashing} `{StatusConditions}.
Context (env : OpEnv) (connEnv : ConnEnv) (natsURL : string) (allowedEventingCR : option (string * string)).
Context (unmarshalMessages : string -> list Message + goerr).
Abbreviation RW := (World (OpState W) opEvent).
Implicit Types (w : RW) (e : Eventing).

Definition succeeds {S A} (c : M S A) : Prop := forall s, exists a s', c s = (Ok a, s').

(** The eventing manager succeeds, for NATS. *)
Class HealthyEventingManager : Prop := {
  deploy_succeeds : forall e c, eBackend (eSpec e) <> None -> succeeds (em_DeployPublisherProxy (W := W) e (Some c) NatsBackendType);
  resources_succeed : forall e d, succeeds (em_DeployPublisherProxyResources (W := W) e d);
  delete_succeeds : forall e, succeeds (em_DeletePublisherProxyResources (W := W) e);
  setConfig_succeeds : forall c, succeeds (em_SetBackendConfig (W := W) c)
}.

(** The subscription managers and the hashing of the configuration succeed. *)
Class HealthyManagers : Prop := {
  new_succeeds : forall id e c, eBackend (eSpec e) <> None -> succeeds (mf_NewJetStreamManager (W := W) id e c);
  init_succeeds : forall id, succeeds (mgr_Init (W := W) id);
  start_succeeds : forall id d p, succeeds (mgr_Start (W := W) id d p);
  stop_succeeds : forall id b, succeeds (mgr_Stop (W := W) id b);
  hash_succeeds : forall d c, exists h, hashNATSConfig d c = inl h
}.

(** The API server stores the resource and the rest of the cluster is there. *)
Record healthy_cluster (e0 : Eventing) : Prop := {
  get_stored : forall h, o_Get env h (eNamespace e0) (eName e0) = inl (stored e0 h);
  watch_ok : forall h x, o_Watch env h x = None;
  update_ok : forall h e, o_Update env h e = None;
  status_ok : forall h e, o_StatusUpdate env h e = None;
  crd_ok : forall h n, o_GetCRD env h n = None;
  deployment_ready : forall h n ns, exists d, o_GetDeployment env h n ns = inl d /\ IsDeploymentReady (Some d) = Some true;
  nats_listed : forall h ns, exists x l, o_ListNATS env h ns = inl (x :: l);
  natsConfig_ok : forall h, exists c, o_NATSConfig env h = inl c;
  connects : forall h url, exists n, c_Connect connEnv h url = inl n;
  connected : forall h n, c_IsConnected connEnv h n = true
}.

(** The resource is one the operator reconciles with NATS; [e0] gives its name. *)
Definition wants_NATS (e0 e : Eventing) : Prop :=
  eName e = eName e0 /\ eNamespace e = eNamespace e0 /\ eDeletionTimestamp e = None /\
  match eBackend (eSpec e) with Some b => bType b = NatsBackendType | None => False end /\
  match allowedEventingCR with Some a => a = (eName e0, eNamespace e0) | None => True end.

Context (e0 : Eventing) (Hc : healthy_cluster e0) `{!HealthyEventingManager} `{!HealthyManagers}.

(** ** Runs that succeed *)

(** [wins P c Q]: from a state in [P], [c] returns a result in [Q] and ends in [P]. *)
Definition wins {A} (P : RW -> Prop) (c : M RW A) (Q : A -> Prop) : Prop :=
  forall w, P w -> exists a w', c w = (Ok a, w') /\ Q a /\ P w'.
Definition any {A} : A -> Prop := fun _ => True.

Lemma wins_bind {A B} P (c : M RW A) (k : A -> M RW B) Q R : wins P c Q -> (forall a, Q a -> wins P (k a) R) -> wins P (bindM c k) R.
Proof. intros Hx Hk w Hw. destruct (Hx w Hw) as (a & w' & Hr & Ha & Hw'). unfold bindM. rewrite Hr. by apply Hk. Qed.
Lemma wins_gets {A B} P (f : OpState W -> A) (k : A -> M RW B) R : (forall w, P w -> wins P (k (f (st w))) R) -> wins P (bindM (gets f) k) R.
Proof. intros Hk w Hw. by apply (Hk w Hw). Qed.
Lemma wins_now {B} P (k : Z -> M RW B) R : (forall t, wins P (k t) R) -> wins P (bindM (onow env) k) R.
Proof. intros Hk w Hw. by apply Hk. Qed.
Lemma wins_ret {A} P (a : A) (Q : A -> Prop) : Q a -> wins P (retM a) Q.
Proof. intros Ha w Hw. by exists a, w. Qed.
Lemma wins_weaken {A} P (c : M RW A) (Q Q' : A -> Prop) : wins P c Q -> (forall a, Q a -> Q' a) -> wins P c Q'.
Proof. intros Hx HQ w Hw. destruct (Hx w Hw) as (a & w' & ? & ? & ?). exists a, w'. auto. Qed.
Lemma wins_try {A} P (c : M RW A) Q : wins P c Q -> wins P (tryM c) (fun r => exists a, r = inl a /\ Q a).
Proof. intros Hx w Hw. destruct (Hx w Hw) as (a & w' & Hr & ? & ?). exists (inl a), w'. unfold tryM. rewrite Hr. eauto. Qed.
Lemma wins_errOf P (c : M RW unit) Q : wins P c Q -> wins P (errOf c) (fun r => r = None).
Proof. intros Hx w Hw. destruct (Hx w Hw) as ([] & w' & Hr & ? & ?). exists None, w'. unfold errOf. by rewrite Hr. Qed.
Lemma wins_okOr {A} P (a : A) Q : Q a -> wins P (okOr (inl a)) Q.
Proof. apply wins_ret. Qed.

(** What is known during a reconciliation: the current resource is in [F] and the stored one is [e]. *)
Definition knows (F : Eventing -> Prop) (e : Eventing) w : Prop := F (cr (st w)) /\ stored e0 (hist w) = e.

Lemma wins_call {R} F e (ev : R -> opEvent) f (Q : R -> Prop) :
  (forall r log, stored e0 (ev r :: log) = stored e0 log) -> (forall log, Q (f log)) -> wins (knows F e) (call ev f) Q.
Proof. intros Hev HQ w [HF Hs]. eexists _, _. split; [reflexivity|]. split; [apply HQ|]. split; [done|]. by rewrite <- Hs; apply Hev. Qed.
Lemma wins_puts F e (f : OpState W -> OpState W) : (forall s, F (cr s) -> F (cr (f s))) -> wins (knows F e) (puts f) any.
Proof. intros Hf w [HF Hs]. eexists _, _. split; [reflexivity|]. split; [done|]. split; [by apply Hf|done]. Qed.
Lemma wins_onDeps {A} F e (ev : A + goerr -> opEvent) (c : M W A) :
  (forall r log, stored e0 (ev r :: log) = stored e0 log) -> succeeds c -> wins (knows F e) (onDeps ev c) (fun r => exists a, r = inl a).
Proof.
  intros Hev Hsucc w [HF Hs]. destruct (Hsucc (deps (st w))) as (a & d & Hr). unfold onDeps, bindM, tryM. rewrite Hr.
  eexists _, _. split; [reflexivity|]. split; [by exists a|]. split; [done|]. by rewrite <- Hs; apply Hev.
Qed.
Lemma wins_onDepsM {A} F e (ev : A + goerr -> opEvent) (c : M W A) :
  (forall r log, stored e0 (ev r :: log) = stored e0 log) -> succeeds c -> wins (knows F e) (onDepsM ev c) any.
Proof.
  intros Hev Hsucc. unfold onDepsM. eapply wins_bind; [by apply wins_onDeps|]. intros r [a ->]. by apply wins_okOr.
Qed.

(** Runs that end a reconciliation without an error, with a stored resource in [G]. *)
Definition finishes (P : RW -> Prop) (c : M RW OpResult) (G : Eventing -> Prop) : Prop :=
  forall w, P w -> exists w', c w = (Ok (noRequeue, None), w') /\ G (stored e0 (hist w')).

Lemma finishes_bind {A} P (c : M RW A) (k : A -> M RW OpResult) Q G :
  wins P c Q -> (forall a, Q a -> finishes P (k a) G) -> finishes P (bindM c k) G.
Proof. intros Hx Hk w Hw. destruct (Hx w Hw) as (a & w' & Hr & Ha & Hw'). unfold bindM. rewrite Hr. by apply Hk. Qed.
Lemma finishes_gets {A} P (f : OpState W -> A) (k : A -> M RW OpResult) G :
  (forall w, P w -> finishes P (k (f (st w))) G) -> finishes P (bindM (gets f) k) G.
Proof. intros Hk w Hw. by apply (Hk w Hw). Qed.
Lemma finishes_puts F F' e (f : OpState W -> OpState W) (k : unit -> M RW OpResult) G :
  (forall s, F (cr s) -> F' (cr (f s))) -> finishes (knows F' e) (k tt) G -> finishes (knows F e) (bindM (puts f) k) G.
Proof. intros Hf Hk w [HF Hs]. apply Hk. split; [by apply Hf|done]. Qed.
Lemma finishes_status F F' e f (k : unit -> M RW OpResult) G :
  (forall t c, F c -> F' (set_eStatus c (f t (eStatus c)))) -> finishes (knows F' e) (k tt) G ->
  finishes (knows F e) (bindM (updStatusNow env f) k) G.
Proof.
  intros Hf Hk w Hw. unfold updStatusNow. rewrite bindM_assoc. unfold bindM at 1, onow.
  eapply (finishes_puts F F'); [|exact Hk|exact Hw]. intros s. apply Hf.
Qed.

(** Everything but the status is as in [e]. *)
Definition like (e c : Eventing) : Prop := set_eStatus c (eStatus e) = e.
Lemma like_status e c x : like e c -> like e (set_eStatus c x).
Proof. done. Qed.
Lemma like_self e : like e e.
Proof. by destruct e. Qed.
Lemma like_fields e c : like e c -> eName c = eName e /\ eNamespace c = eNamespace e /\ eSpec c = eSpec e /\
  eDeletionTimestamp c = eDeletionTimestamp e /\ eFinalizers c = eFinalizers e.
Proof. by intros <-. Qed.

Lemma IsEqual_State x y : EventingStatus_IsEqual x y = true -> State x = State y.
Proof.
  unfold EventingStatus_IsEqual. intros [He _]%andb_prop. apply bool_decide_eq_true in He. by injection He.
Qed.
Lemma RemoveUnsupported_State es : State (RemoveUnsupportedConditions es) = State es.
Proof. unfold RemoveUnsupportedConditions. by destruct (elems (eConditions es)). Qed.

(** The stored resource is [e] with the state Ready. *)
Definition becomes_ready (e c : Eventing) : Prop := like e c /\ State (eStatus c) = StateReady.

Lemma sync_finishes e : eName e = eName e0 -> eNamespace e = eNamespace e0 ->
  finishes (knows (becomes_ready e) e) (finishWith noRequeue (syncEventingStatus env)) (becomes_ready e).
Proof.
  intros Hn Hns w [[Hl HS] Hst]. destruct (like_fields _ _ Hl) as (Hn' & Hns' & _).
  unfold finishWith, syncEventingStatus, bindM, errOf, gets, call. rewrite Hn', Hns', Hn, Hns, (get_stored _ Hc), Hst. cbn [okOr].
  unfold retM at 1. unfold updateStatus. cbn [eStatus set_eStatus].
  destruct (EventingStatus_IsEqual _ _) eqn:Heq.
  - eexists. split; [reflexivity|]. cbn [hist]. cbn [stored]. rewrite Hst. split; [apply like_self|].
    apply IsEqual_State in Heq. rewrite Heq. by rewrite RemoveUnsupported_State.
  - unfold bindM, call. cbn [hist st]. rewrite (status_ok _ Hc). cbn [returnErr]. eexists. split; [reflexivity|].
    cbn [hist stored]. rewrite Hst. split; [apply like_status, like_self|]. cbn. by rewrite RemoveUnsupported_State.
Qed.

(** ** The steps *)
Ltac win_step :=
  lazymatch goal with
  | |- wins _ (bindM (gets _) _) _ => apply wins_gets; intros ? ?
  | |- wins _ (bindM (onow _) _) _ => apply wins_now; intros ?
  | |- wins _ (bindM _ _) _ => eapply wins_bind; [|intros ? ?]
  | |- wins _ (retM _) _ => apply wins_ret
  | |- wins _ (puts _) _ => apply wins_puts; done
  | |- wins _ (call _ _) _ => apply wins_call; [done|]
  | |- wins _ (onDepsM _ _) _ => apply wins_onDepsM; [by intros []|]
  end.

Section steps.
Context (e : Eventing) (b : BackendSpec) (Hb : eBackend (eSpec e) = Some b).
Abbreviation K := (knows (like e) e).

Lemma wins_updStatus f : wins K (updStatus f) any.
Proof. by apply wins_puts. Qed.

Lemma wins_backendOf c : like e c -> wins K (backendOf c) (fun x => x = b).
Proof. intros Hl. destruct (like_fields _ _ Hl) as (_ & _ & Hs & _). unfold backendOf. rewrite Hs, Hb. by apply wins_ret. Qed.

Lemma wins_getNATSUrl ns : wins K (getNATSUrl env ns) any.
Proof.
  unfold getNATSUrl. eapply (wins_bind _ _ _ (fun r => exists x l, r = inl (x :: l))); [win_step; intros h; apply (nats_listed _ Hc)|].
  intros r (x & l & ->). cbn [okOr]. eapply (wins_bind _ _ _ (fun y => y = x :: l)); [by apply wins_ret|]. intros ? ->. destruct x. by apply wins_ret.
Qed.

Lemma wins_GetNatsConfig : wins K (GetNatsConfig env) any.
Proof.
  unfold GetNatsConfig. apply wins_gets. intros w [Hl _].
  eapply (wins_bind _ _ _ (fun r => exists c, r = inl c)); [win_step; intros h; apply (natsConfig_ok _ Hc)|]. intros r [c ->].
  eapply wins_bind; [by apply (wins_okOr _ _ any)|]. intros ? _. eapply wins_bind; [apply wins_getNATSUrl|]. intros url _.
  eapply wins_bind; [by apply wins_backendOf|]. intros ? ->. by apply wins_ret.
Qed.

Lemma wins_stopNATS runCleanup : wins K (stopNATSSubManager runCleanup) any.
Proof.
  unfold stopNATSSubManager. do 2 win_step. destruct (natsSubManager _); [|by apply wins_ret].
  destruct (negb _); [by apply wins_ret|]. eapply wins_bind; [win_step; apply stop_succeeds|]. intros ? _. by apply wins_puts.
Qed.
Lemma wins_stopMesh runCleanup : wins K (stopEventMeshSubManager runCleanup) any.
Proof.
  unfold stopEventMeshSubManager. do 2 win_step. destruct (eventMeshSubManager _); [|by apply wins_ret].
  destruct (negb _); [by apply wins_ret|]. eapply wins_bind; [win_step; apply stop_succeeds|]. intros ? _. by apply wins_puts.
Qed.

(** A manager that is not nil is started, or was. *)
Lemma startNATS_wins d w id : K w -> natsSubManager (st w) = Some id -> exists w', startNATSSubManager d w = (Ok tt, w') /\ K w'.
Proof.
  intros Hw Hm. unfold startNATSSubManager, bindM at 1 2, gets. rewrite Hm. unfold orPanic, retM at 1.
  assert (wins K (onDepsM (OpStart id) (mgr_Start id d None) ;;; puts (fun s => set_nats (natsSubManager s) true s)) any) as Hx.
  { eapply wins_bind; [win_step; apply start_succeeds|]. intros ? _. by apply wins_puts. }
  destruct (Hx w Hw) as ([] & w' & Hr & _ & Hw'). by exists w'.
Qed.

(** The manager is created when there is none. *)
Lemma createNATS_wins w e1 c : K w -> like e e1 -> exists w',
  (match natsSubManager (st w) with
   | Some _ => retM tt
   | None => id <- newManagerId ;; onDepsM (OpNewJetStreamManager id) (mf_NewJetStreamManager id e1 c) ;;;
        onDepsM (OpInit id) (mgr_Init id) ;;; puts (fun s => set_nats (Some id) (isNATSSubManagerStarted s) s)
   end) w = (Ok tt, w') /\ K w' /\ exists id, natsSubManager (st w') = Some id.
Proof.
  intros Hw Hl. destruct (natsSubManager (st w)) as [id|] eqn:Hm; [by exists w; eauto|].
  assert (eBackend (eSpec e1) <> None) as Hb1 by (destruct (like_fields _ _ Hl) as (_ & _ & -> & _); by rewrite Hb).
  unfold newManagerId, bindM at 1 2 3, gets, puts at 1, retM. set (w1 := mkWorld (count_manager (st w)) (hist w)).
  assert (K w1) as H1' by exact Hw. set (id := managersCreated (st w)).
  destruct (wins_onDepsM (like e) e (OpNewJetStreamManager id) (mf_NewJetStreamManager id e1 c)) with (w := w1)
    as (a & w2 & Hr & _ & Hw2); [by intros []|by apply new_succeeds|done|]. unfold bindM at 1. rewrite Hr.
  destruct (wins_onDepsM (like e) e (OpInit id) (mgr_Init id)) with (w := w2) as (a' & w3 & Hr' & _ & Hw3);
    [by intros []|apply init_succeeds|done|]. unfold bindM at 1. rewrite Hr'.
  eexists. split; [reflexivity|]. split; [done|]. by exists id.
Qed.

Lemma wins_at {A B} P (f : OpState W -> A) (k : A -> M RW B) R :
  (forall w, P w -> exists b w', k (f (st w)) w = (Ok b, w') /\ R b /\ P w') -> wins P (bindM (gets f) k) R.
Proof. intros Hk w Hw. by apply Hk. Qed.

Lemma wins_reconcileNATSSubManager : wins K (reconcileNATSSubManager env) any.
Proof.
  unfold reconcileNATSSubManager, getDefaultSubscriptionConfig.
  eapply (wins_bind _ _ _ any); [win_step; by apply wins_ret|]. intros defaults _.
  eapply wins_bind; [apply wins_GetNatsConfig|]. intros config _. unfold getNATSBackendConfigHash.
  destruct (hash_succeeds defaults config) as [h ->]. eapply wins_bind; [by apply (wins_okOr _ _ any)|]. intros specHash _.
  apply wins_gets. intros w0 [Hl0 _]. win_step. eapply (wins_bind _ _ _ any).
  { destruct (_ && _); [apply wins_stopNATS|]. destruct (negb _); [by apply wins_puts|by apply wins_ret]. }
  intros ? _. apply wins_at. intros w1 Hw1.
  edestruct (createNATS_wins w1) as (w2 & Hr & Hw2 & id & Hid); [done|exact Hl0|]. unfold bindM at 1. rewrite Hr.
  unfold bindM at 1, gets. destruct (isNATSSubManagerStarted (st w2)); [by exists tt, w2|].
  edestruct (startNATS_wins defaults w2) as (w3 & Hr' & Hw3); [done..|]. unfold bindM at 1. rewrite Hr'. by apply wins_updStatus.
Qed.

(** ** The NATS connection, the watches, the publisher proxy *)
Lemma wins_onConnection {A} (c : M (World connection connEvent) A) conn0 :
  (forall x, exists a x', c x = (Ok a, x')) -> forall w, K w -> natsConnection (st w) = Some conn0 ->
  exists a w', onConnection c w = (Ok a, w') /\ K w'.
Proof.
  intros Hs w Hw Hn. unfold onConnection. rewrite Hn. destruct (Hs conn0) as (a & x & ->). by exists a, (mkWorld (set_natsConnection (Some x) (st w)) (hist w)).
Qed.

Lemma Connect_wins h1 h2 x : exists x', Connect connEnv h1 h2 x = (Ok tt, x').
Proof.
  unfold Connect, newConnection, registerReconnectHandler, registerDisconnectErrHandler, isConnected, bindM, gets, call, puts, retM.
  assert (forall x : World connection connEvent, exists x', newConnection connEnv h1 h2 x = (Ok tt, x')) as Hnew.
  { clear x. intros [[u c r d] l].
    unfold newConnection, registerReconnectHandler, registerDisconnectErrHandler, isConnected, bindM, gets, call, puts, retM, id.
    cbn [st hist cURL]. destruct (connects _ Hc l u) as [n ->]. cbn. destruct r, d; cbn; rewrite (connected _ Hc); by eexists. }
  destruct (cConn (st x)) as [n|]; [|apply Hnew]. rewrite (connected _ Hc). by eexists.
Qed.

Lemma wins_connectToNATS : wins K (connectToNATS connEnv natsURL) (fun r => r = None).
Proof.
  unfold connectToNATS. apply wins_at. intros w Hw.
  set (c0 := match natsConnection (st w) with None => puts (set_natsConnection (Some (mkWorld (Build natsURL) []))) | Some _ => retM tt end).
  assert (exists w' x, c0 w = (Ok tt, w') /\ K w' /\ natsConnection (st w') = Some x) as (w' & x & Hr & Hw' & Hx).
  { unfold c0. destruct (natsConnection (st w)) as [x|] eqn:Hx; by eexists _, _. }
  unfold bindM at 1. rewrite Hr. unfold bindM at 1, gets.
  edestruct (wins_onConnection (Connect connEnv (eNamespace (cr (st w')), eName (cr (st w'))) (eNamespace (cr (st w')), eName (cr (st w')))) x)
    as ([] & w2 & Hr2 & Hw2); [intros y; destruct (Connect_wins (eNamespace (cr (st w')), eName (cr (st w'))) (eNamespace (cr (st w')), eName (cr (st w'))) y);
      by eexists _, _|exact Hw'|exact Hx|].
  unfold bindM, errOf. rewrite Hr2. by eexists _, _.
Qed.

Lemma wins_disconnect : wins K (disconnect connEnv) any.
Proof.
  unfold disconnect. apply wins_at. intros w Hw. destruct (natsConnection (st w)) as [x|] eqn:Hx; [|by eexists _, _].
  edestruct (wins_onConnection (Disconnect connEnv) x) as ([] & w2 & Hr2 & Hw2); [|exact Hw|exact Hx|].
  { intros [[u [n|] r d] l]; [|by eexists _, _]. unfold Disconnect, bindM, gets, call. cbn. destruct (c_IsClosed _ _ _); by eexists _, _. }
  unfold bindM. rewrite Hr2. by eexists _, _.
Qed.

Lemma wins_watchResource x : wins K (watchResource env x) any.
Proof.
  unfold watchResource. eapply (wins_bind _ _ _ (fun r => r = None)); [win_step; intros h; apply (watch_ok _ Hc)|]. intros r ->.
  by apply wins_ret.
Qed.

Lemma wins_startNATSCRWatch : wins K (startNATSCRWatch env) any.
Proof.
  unfold startNATSCRWatch. apply wins_gets. intros w _. apply wins_gets. intros w' _.
  set (go := bindM _ _). assert (wins K go any); [|by destruct (_ !! _) as [[|]|]; [by apply wins_ret|..]].
  unfold go. eapply (wins_bind _ _ _ any); [destruct (_ !! _); [by apply wins_ret|by apply wins_puts]|]. intros ? _.
  eapply wins_bind; [apply wins_watchResource|]. intros ? _. eapply (wins_bind _ _ _ any); [by win_step|]. intros ? _. by apply wins_puts.
Qed.

Lemma wins_stopNATSCRWatch : wins K stopNATSCRWatch any.
Proof.
  unfold stopNATSCRWatch. do 2 win_step. destruct (_ !! _); [|by apply wins_ret].
  eapply (wins_bind _ _ _ any); [by win_step|]. intros ? _. by apply wins_puts.
Qed.

Lemma wins_handlePublisherProxy : wins K (handlePublisherProxy env NatsBackendType) any.
Proof.
  unfold handlePublisherProxy. cbn [String.eqb]. eapply (wins_bind _ _ _ (fun x => exists c, x = Some c)).
  { change (String.eqb NatsBackendType NatsBackendType) with true. eapply wins_bind; [apply wins_GetNatsConfig|].
    intros c _. apply wins_ret. by exists c. }
  intros x [c ->]. apply wins_gets. intros w [Hl _]. destruct (like_fields _ _ Hl) as (_ & _ & Hs & _).
  eapply wins_bind; [win_step; apply deploy_succeeds; by rewrite Hs, Hb|]. intros d _.
  eapply wins_bind; [win_step; apply resources_succeed|]. intros ? _. by apply wins_ret.
Qed.

(** ** The backend *)
Context (Hn : eName e = eName e0) (Hns : eNamespace e = eNamespace e0).

Lemma finishes_handleEventingState d : finishes K (handleEventingState env d) (becomes_ready e).
Proof.
  unfold handleEventingState. eapply finishes_bind; [apply wins_updStatus|]. intros ? _.
  eapply (finishes_bind _ _ _ (fun r => exists d', r = inl (Some d') /\ IsDeploymentReady (Some d') = Some true)).
  { unfold getDeployment. eapply (wins_bind _ _ _ (fun r => exists d', r = inl d' /\ IsDeploymentReady (Some d') = Some true)).
    - win_step. intros h. apply (deployment_ready _ Hc).
    - intros r (d' & -> & Hd). apply wins_ret. by exists d'. }
  intros r (d' & -> & Hd). eapply (finishes_bind _ _ _ (fun x => x = true)); [rewrite Hd; by apply wins_ret|]. intros ? ->. cbn [negb].
  eapply (finishes_status _ (becomes_ready e)); [intros t c Hl; split; [by apply like_status|reflexivity]|].
  apply finishes_gets. intros w _. eapply (finishes_puts _ (becomes_ready e)); [intros s [Hl Hs]; split; [by apply like_status|exact Hs]|].
  by apply sync_finishes.
Qed.

Lemma finishes_reconcileNATSBackend : finishes K (reconcileNATSBackend env connEnv natsURL NatsBackendType) (becomes_ready e).
Proof.
  unfold reconcileNATSBackend. eapply (finishes_bind _ _ _ (fun r => r = None)); [win_step; intros h; apply (crd_ok _ Hc)|].
  intros r ->. eapply finishes_bind; [eapply wins_errOf, wins_startNATSCRWatch|]. intros r ->.
  eapply finishes_bind; [apply wins_connectToNATS|]. intros r ->. unfold runNATSBackend.
  eapply finishes_bind; [unfold updStatusNow; apply wins_now; intros ?; apply wins_updStatus|]. intros ? _.
  eapply finishes_bind; [eapply wins_try, wins_handlePublisherProxy|]. intros r (d & -> & _).
  eapply finishes_bind; [eapply wins_errOf, wins_reconcileNATSSubManager|]. intros r ->. apply finishes_handleEventingState.
Qed.

Lemma wins_handleBackendSwitching : wins K (handleBackendSwitching connEnv) any.
Proof.
  unfold handleBackendSwitching. apply wins_gets. intros w [Hl _]. destruct (like_fields _ _ Hl) as (_ & _ & Hs & _).
  destruct (IsPreviousBackendEmpty _); [by apply wins_ret|]. unfold IsSpecBackendTypeChanged, backendType. rewrite Hs, Hb. cbn [fmap option_fmap option_map mbind option_bind orPanic].
  eapply (wins_bind _ _ _ any); [by apply wins_ret|]. intros changed _. destruct (negb changed); [by apply wins_ret|].
  eapply (wins_bind _ _ _ any).
  { destruct (String.eqb _ _); [|apply wins_stopMesh]. eapply wins_bind; [apply wins_stopNATS|]. intros ? _.
    eapply wins_bind; [apply wins_stopNATSCRWatch|]. intros ? _. apply wins_disconnect. }
  intros ? _. eapply wins_bind; [apply wins_updStatus|]. intros ? _. win_step. apply delete_succeeds.
Qed.

Lemma finishes_reconcileBackend : bType b = NatsBackendType ->
  finishes K (reconcileBackend env connEnv natsURL unmarshalMessages) (becomes_ready e).
Proof.
  intros Ht. unfold reconcileBackend. apply finishes_gets. intros w [Hl _]. destruct (like_fields _ _ Hl) as (_ & _ & Hs & _).
  unfold SyncStatusActiveBackend, backendType. rewrite Hs, Hb. cbn [fmap option_fmap option_map mbind option_bind orPanic].
  eapply (finishes_bind _ _ _ (fun x => like e x)); [apply wins_ret; by apply like_status|]. intros x Hx.
  eapply (finishes_bind _ _ _ any); [by apply wins_puts|]. intros ? _.
  eapply (finishes_bind _ _ _ (fun r => exists y, r = inl y)).
  { unfold crdExists. eapply (wins_bind _ _ _ (fun r => r = None)); [win_step; intros h; apply (crd_ok _ Hc)|]. intros r ->.
    apply wins_ret. by exists true. }
  intros r [enabled ->]. eapply (finishes_bind _ _ _ any); [by apply wins_puts|]. intros ? _. apply finishes_gets. intros w' _.
  eapply (finishes_bind _ _ _ any).
  { intros w2 Hw2. destruct (setConfig_succeeds (opConfig (st w')) (deps (st w2))) as (u & d & ->). by eexists _, _. }
  intros ? _. eapply finishes_bind; [by apply wins_backendOf|]. intros ? ->. rewrite Ht. apply finishes_reconcileNATSBackend.
Qed.

Lemma finishes_handleEventingReconcile : bType b = NatsBackendType -> FinalizerName ∈ eFinalizers e ->
  finishes K (handleEventingReconcile env connEnv natsURL unmarshalMessages) (becomes_ready e).
Proof.
  intros Ht Hf. unfold handleEventingReconcile. apply finishes_gets. intros w [Hl _]. destruct (like_fields _ _ Hl) as (_ & _ & Hs & _ & Hfin).
  unfold containsFinalizer. rewrite Hfin, bool_decide_true by done. cbn [negb]. eapply (finishes_bind _ _ _ any).
  { unfold InitStateProcessing. win_step. destruct (String.eqb _ _); [apply wins_updStatus|by apply wins_ret]. }
  intros ? _. unfold HasEmptyBackend. rewrite Hs, Hb, Ht. cbn.
  eapply finishes_bind; [eapply wins_errOf, wins_handleBackendSwitching|]. intros r ->. by apply finishes_reconcileBackend.
Qed.

(** Without the finalizer, the reconciliation adds it. *)
Lemma finishes_addFinalizer w : K w -> FinalizerName ∉ eFinalizers e ->
  exists w', handleEventingReconcile env connEnv natsURL unmarshalMessages w = (Ok (noRequeue, None), w') /\
    like (withFinalizer e) (stored e0 (hist w')).
Proof.
  intros [Hl Hs] Hf. destruct (like_fields _ _ Hl) as (_ & _ & _ & _ & Hfin).
  unfold handleEventingReconcile, bindM at 1, gets, containsFinalizer. rewrite Hfin, bool_decide_false by done. cbn [negb].
  unfold addFinalizer, updateCR, bindM, puts, gets, call. cbn [st hist upd_cr cr]. rewrite (update_ok _ Hc). eexists. split; [reflexivity|].
  cbn [hist stored]. rewrite Hs. unfold withFinalizer, containsFinalizer. rewrite Hfin, !bool_decide_false by done.
  unfold like in *. rewrite <- Hl. by destruct (cr (st w)).
Qed.
End steps.

(** ** A reconciliation *)
Lemma finalizer_added e : FinalizerName ∈ eFinalizers (withFinalizer e).
Proof.
  unfold withFinalizer, containsFinalizer. case_bool_decide; [done|]. cbn. apply elem_of_app. right. by left.
Qed.

(** What a reconciliation makes of the stored resource. *)
Definition progress (e c : Eventing) : Prop :=
  if decide (FinalizerName ∈ eFinalizers e) then becomes_ready e c else like (withFinalizer e) c.

Lemma Reconcile_progress w : wants_NATS e0 (stored e0 (hist w)) ->
  exists w', Reconcile env connEnv natsURL allowedEventingCR unmarshalMessages (eNamespace e0) (eName e0) w = (Ok (noRequeue, None), w') /\
    progress (stored e0 (hist w)) (stored e0 (hist w')).
Proof.
  intros (Hn & Hns & Hd & Hb & Ha). set (e := stored e0 (hist w)) in *. destruct (eBackend (eSpec e)) as [b|] eqn:Eb; [|done].
  unfold Reconcile, bindM at 1, call. rewrite (get_stored _ Hc). fold e. unfold bindM at 1, puts.
  cbn [st hist]. set (w1 := mkWorld (upd_cr (fun _ => e) (st w)) (OpGet (eNamespace e0) (eName e0) (inl e) :: hist w)). assert (knows (like e) e w1) as Hw1 by (split; [apply like_self|reflexivity]).
  assert (wins (knows (like e) e) (errOf (watchClusterScopedResources env)) (fun r => r = None)) as Hx.
  { eapply (wins_errOf _ _ any). unfold watchClusterScopedResources. apply wins_gets. intros w2 _. destruct (clusterScopedResourcesWatched _); [by apply wins_ret|].
    do 2 (eapply wins_bind; [apply wins_watchResource|]; intros ? _). by apply wins_puts. }
  destruct (Hx w1 Hw1) as (? & w2 & Hr & -> & Hw2). unfold bindM at 1. rewrite Hr.
  unfold reconcileCR, bindM at 1, gets. destruct Hw2 as [Hl2 Hs2]. destruct (like_fields _ _ Hl2) as (Hn2 & Hns2 & _ & Hd2 & _). rewrite Hd2, Hd.
  assert (tryM (match allowedEventingCR with None => retM true | Some a => handleEventingCRAllowedCheck env a end) w2 = (Ok (inl true), w2)) as Hal.
  { destruct allowedEventingCR as [a|]; [|done]. rewrite Ha.
    unfold handleEventingCRAllowedCheck, tryM, bindM at 1, gets. cbn [fst snd]. by rewrite Hn2, Hns2, Hn, Hns, !String.eqb_refl. }
  unfold bindM at 1. rewrite Hal. unfold progress. destruct (decide _) as [Hf|Hf].
  - by eapply finishes_handleEventingReconcile.
  - by eapply finishes_addFinalizer.
Qed.

(** [n] reconciliations, one after the other. *)
Definition reconciliations (n : nat) w : RW :=
  Nat.iter n (fun w => (Reconcile env connEnv natsURL allowedEventingCR unmarshalMessages (eNamespace e0) (eName e0) w).2) w.

Lemma reconciliations_S n w : reconciliations (S n) w =
  (Reconcile env connEnv natsURL allowedEventingCR unmarshalMessages (eNamespace e0) (eName e0) (reconciliations n w)).2.
Proof. done. Qed.

Lemma progress_wants e c : wants_NATS e0 e -> progress e c -> wants_NATS e0 c /\ eSpec c = eSpec e /\ FinalizerName ∈ eFinalizers c.
Proof.
  unfold progress. intros Hw Hp. destruct (decide _) as [Hf|Hf].
  - destruct Hp as [Hl _]. destruct (like_fields _ _ Hl) as (Hn & Hns & Hs & Hd & Hfin). unfold wants_NATS. by rewrite Hn, Hns, Hs, Hd, Hfin.
  - destruct (like_fields _ _ Hp) as (Hn & Hns & Hs & Hd & Hfin). unfold wants_NATS. rewrite Hn, Hns, Hs, Hd, Hfin.
    split; [|split; [|apply finalizer_added]]; unfold withFinalizer; by destruct (containsFinalizer e).
Qed.

(** After the first reconciliation the finalizer is there, and stays. *)
Lemma reconciliations_wants n w : wants_NATS e0 (stored e0 (hist w)) ->
  let c := stored e0 (hist (reconciliations n w)) in
  wants_NATS e0 c /\ eSpec c = eSpec (stored e0 (hist w)) /\ ((1 <= n)%nat -> FinalizerName ∈ eFinalizers c).
Proof.
  intros Hw. induction n as [|n (IHw & IHs & _)]; [split_and!; [done..|lia]|].
  destruct (Reconcile_progress (reconciliations n w) IHw) as (w' & Hr & Hp).
  destruct (progress_wants _ _ IHw Hp) as (Hw' & Hs' & Hf'). cbv zeta. rewrite reconciliations_S, Hr. cbn [snd]. by rewrite Hs', IHs.
Qed.

(** C5: in a healthy cluster, from any state of the operator and for any stored status, every reconciliation of an Eventing resource
    with the NATS backend ends without an error, and after two of them (the first may only add the finalizer) the stored
    state is Ready and stays Ready; the spec is never changed. *)
Theorem NATS_becomes_Ready n w : wants_NATS e0 (stored e0 (hist w)) ->
  (Reconcile env connEnv natsURL allowedEventingCR unmarshalMessages (eNamespace e0) (eName e0) (reconciliations n w)).1
    = Ok (noRequeue, None) /\
  let c := stored e0 (hist (reconciliations n w)) in
  eSpec c = eSpec (stored e0 (hist w)) /\ ((2 <= n)%nat -> State (eStatus c) = StateReady).
Proof.
  intros Hw. destruct (reconciliations_wants n w Hw) as (Hwn & Hs & _).
  destruct (Reconcile_progress _ Hwn) as (w' & Hr & _). rewrite Hr. split; [done|]. split; [done|]. intros Hn.
  destruct n as [|n]; [lia|]. destruct (reconciliations_wants n w Hw) as (Hwn' & _ & Hf).
  destruct (Reconcile_progress _ Hwn') as (w2 & Hr2 & Hp). unfold progress in Hp. rewrite decide_True in Hp by (apply Hf; lia).
  rewrite reconciliations_S, Hr2. apply Hp.
Qed.
End liveness.
