(* ===== verification/OperatorCluster.v ===== *)
(** * The operator over its components

    The interfaces of the operator are implemented by the models of the eventing manager ([EventingManager])
    and of the two subscription managers ([JSManager], [EMManager]).  The dependencies of the operator are then a [Cluster]: the world of
    the eventing manager and those of the managers that were made. *)

From S2P Require Import Prelude Effects GoStrings Errors Utils Subscription Eventing Config EventMeshUtils EventMesh ApiRule Objects KubeClient PublisherProxy EventingManager EventingManagerFacts JetStream JetStreamFacts JSManager JSManagerFacts EMManager EMManagerFacts Connection Operator OperatorLifecycle KubeRequests Watcher OperatorWatchers OperatorLiveness.

Record Cluster := mkCluster {
  kWorld : World BackendConfig kEvent;
  jsManagers : gmap nat (World JSManager.SubscriptionManager smEvent);
  emManagers : gmap nat (World EMManager.SubscriptionManager emmEvent)
}.

(** ** The eventing manager *)
Section eventing_manager.
Context `{ControllerReference} (kenv : KEnv).

Definition onKube {A} (c : M (World BackendConfig kEvent) A) : M Cluster A := fun x =>
  let '(o, k) := c (kWorld x) in (o, mkCluster k (jsManagers x) (emManagers x)).

#[global] Instance eventing_manager : EventingManagerI Cluster := {
  em_DeployPublisherProxy e config t := onKube (DeployPublisherProxy kenv e config t);
  em_DeployPublisherProxyResources e d := onKube (DeployPublisherProxyResources kenv e d);
  em_DeletePublisherProxyResources e := onKube (DeletePublisherProxyResources kenv e);
  em_GetBackendConfig x := GetBackendConfig (kWorld x);
  em_SetBackendConfig c := onKube (SetBackendConfig c);
  em_SubscriptionExists := onKube (SubscriptionExists kenv)
}.

(** An API server that accepts what it is given. *)
Record healthy_server : Prop := {
  references_set : forall e m, exists m', SetControllerReference e m = inl m';
  deployment_read : forall h n ns, exists d, KubeClient.GetDeployment (k_GetDeployment kenv h n ns) = inl d;
  deployment_updated : forall h d, k_UpdateDeployment kenv h d = None;
  deployment_patched : forall h d, exists d', k_PatchDeployment kenv h d = inl d';
  objects_patched : forall h o, k_PatchApply kenv h o = None;
  objects_deleted : forall h o, DeleteResource (k_Delete kenv h o) = None
}.
Context (Hs : healthy_server).

Lemma onKube_succeeds {A} (c : M (World BackendConfig kEvent) A) : succeeds c -> succeeds (onKube c).
Proof. intros Hc x. unfold onKube. destruct (Hc (kWorld x)) as (a & k & ->). by eexists _, _. Qed.

Lemma forM_succeeds {S A} (l : list A) (f : A -> M S unit) : (forall x, x ∈ l -> succeeds (f x)) -> succeeds (forM_ l f).
Proof.
  intros Hf. induction l as [|x l IH]; intros s; cbn [forM_]; [by exists tt, s|].
  destruct (Hf x (list_elem_of_here _ _) s) as ([] & s1 & Hr). unfold bindM. rewrite Hr. apply IH. intros y Hy. apply Hf. by right.
Qed.

Lemma DeployPublisherProxy_succeeds e c : eBackend (eSpec e) <> None ->
  succeeds (DeployPublisherProxy kenv e (Some c) NatsBackendType).
Proof.
  intros Hb w. unfold DeployPublisherProxy, applyPublisherProxyDeployment, desiredDeployment.
  change (String.eqb NatsBackendType NatsBackendType) with true. cbv iota. unfold newNATSPublisherDeployment.
  destruct (eBackend (eSpec e)) as [b|]; [|done]. unfold bindM at 1 2 3, gets, orPanic at 1 2. cbn [mbind option_bind retM].
  set (d := newDeployment _ _ _). destruct (references_set Hs e (dMeta d)) as [m Hm]. unfold bindM at 1, retM at 1 2. rewrite Hm. cbv beta iota zeta.
  unfold bindM at 1, call at 1. cbn [st hist]. destruct (deployment_read Hs (hist w) (GetPublisherDeploymentName e) (eNamespace e)) as [cur Hcur].
  rewrite Hcur. set (w1 := mkWorld _ _).
  set (step := match cur with None => _ | Some _ => _ end).
  assert (exists d' w2, step w1 = (Ok d', w2)) as (d' & w2 & Hst).
  { unfold step. destruct cur as [current|]; [|by eexists _, _]. unfold bindM, errOf, migratePublisherDeploymentFromEC.
    destruct (match omOwners (dMeta current) with [o] => _ | _ => _ end); [by eexists _, _|].
    destruct (references_set Hs e (set_omOwners [] (dMeta current))) as [m' ->]. unfold bindM, call. rewrite (deployment_updated Hs). by eexists _, _. }
  unfold bindM at 1. rewrite Hst. destruct (Equality.publisherProxyDeploymentEqual cur (Some d')) eqn:Eq.
  - destruct cur as [cur|]; [by eexists _, _|done].
  - unfold patchDeployment, bindM, call. destruct (deployment_patched Hs (hist w2) d') as [p ->]. by eexists _, _.
Qed.

Lemma DeployResources_succeeds e d : succeeds (DeployPublisherProxyResources kenv e d).
Proof.
  apply forM_succeeds. intros o _ w. destruct (references_set Hs e (objMeta o)) as [m ->]. unfold patchApply, bindM, call.
  rewrite (objects_patched Hs). by eexists _, _.
Qed.
Lemma DeleteResources_succeeds e : succeeds (DeletePublisherProxyResources kenv e).
Proof. apply forM_succeeds. intros o _ w. unfold deleteObject, bindM, call. rewrite (objects_deleted Hs). by eexists _, _. Qed.

#[global] Instance eventing_manager_healthy : HealthyEventingManager (W := Cluster).
Proof.
  split.
  - intros e c Hb. by apply onKube_succeeds, DeployPublisherProxy_succeeds.
  - intros e d. apply onKube_succeeds, DeployResources_succeeds.
  - intros e. apply onKube_succeeds, DeleteResources_succeeds.
  - intros c x. by eexists _, _.
Qed.
End eventing_manager.

(** ** The subscription managers *)
Section managers.
Context (sha : string -> string) (pq : string -> Z + goerr).
Context (jenv : JSEnv) (smenv : SMEnv) (eenv : EMEnv) (emmenv : EMMEnv).

(** A method of a manager: of a JetStream manager or of an EventMesh manager. *)
Definition onManager {A} (id : nat) (js : M (World JSManager.SubscriptionManager smEvent) A)
    (mesh : M (World EMManager.SubscriptionManager emmEvent) A) : M Cluster A := fun x =>
  match jsManagers x !! id, emManagers x !! id with
  | Some m, _ => let '(o, m) := js m in (o, mkCluster (kWorld x) (<[id := m]> (jsManagers x)) (emManagers x))
  | None, Some m => let '(o, m) := mesh m in (o, mkCluster (kWorld x) (jsManagers x) (<[id := m]> (emManagers x)))
  | None, None => (Panic nilDereference, x)
  end.

(** [getEventMeshSubManagerParams]. *)
Definition getEventMeshSubManagerParams (c : oauth2Credentials) : gmap string string :=
  {[ParamNameClientID := clientID c; ParamNameClientSecret := clientSecret c; ParamNameTokenURL := tokenURL c; ParamNameCertsURL := certsURL c]}.

#[global] Instance manager_factory : ManagerFactory Cluster := {
  mf_NewJetStreamManager id e config := fun x =>
    match NewJetStreamManager e config with
    | Some m => (Ok tt, mkCluster (kWorld x) (<[id := mkWorld m []]> (jsManagers x)) (emManagers x))
    | None => (Panic nilDereference, x)
    end;
  mf_NewEventMeshManager id domain := fun x =>
    let cfg := emm_GetConfig emmenv [] in
    (Ok tt, mkCluster (kWorld x) (jsManagers x)
      (<[id := mkWorld (EMManager.NewSubscriptionManager cfg domain) [EMMGetConfig cfg]]> (emManagers x)));
  mgr_Init id := onManager id JSManager.Init EMManager.Init;
  mgr_Start id defaults params := onManager id (JSManager.Start sha pq jenv smenv defaults)
    (EMManager.Start eenv emmenv (match params with Some c => getEventMeshSubManagerParams c | None => ∅ end));
  mgr_Stop id runCleanup := onManager id (JSManager.Stop sha pq jenv smenv runCleanup) (EMManager.Stop sha eenv emmenv runCleanup)
}.
End managers.

(** ** A concrete cluster *)

Definition exampleStatusConditions : StatusConditions := {|
  SetStatusCondition l c := (List.filter (fun x => negb (String.eqb (kType x) (kType c))) l ++ [c])%list;
  KConditionsEquals a b := bool_decide (a = b) |}.
Definition exampleHashing : ConfigHashing := {| hashNATSConfig _ _ := inl 7%Z; hashText _ := inl 7%Z |}.
Definition readyDeployment (name namespace : string) : Deployment :=
  mkDeployment (mkTypeMeta deploymentKind appsV1APIVersion) (Objects.named name namespace None)
    (mkDeploymentSpec (Some 1%Z) None (mkTemplate (Objects.named "" "" None) (mkPodSpec "" "" None "" None None []))) (mkDeploymentStatus 1 1 1).
(** The API server stores the resource; the publisher proxy is ready and the NATS resource is there. *)
Definition example_op_env (e0 : Eventing) : OpEnv := {|
  o_now _ := 0%Z; o_Get h _ _ := inl (stored e0 h); o_Watch _ _ := None; o_Update _ _ := None; o_StatusUpdate _ _ := None;
  o_GetCRD _ _ := None; o_GetDeployment _ name ns := inl (readyDeployment name ns); o_Delete _ _ _ _ := None;
  o_GetSecret _ n _ := inr (GoErr EKubeNotFound (n +:+ " not found") []); o_GetConfigMap _ n _ := inr (GoErr EKubeNotFound (n +:+ " not found") []);
  o_PatchSecret _ s := inl s; o_ListNATS _ ns := inl [("eventing-nats", ns)]; o_NATSConfig _ := inl exampleNATSConfig; o_Setenv _ _ _ := None |}.
Definition example_conn_env : ConnEnv :=
  mkConnEnv (fun h _ => inl (length h)) (fun _ _ => true) (fun _ _ => false).
(** A resource without a finalizer that the operator has not seen. *)
Definition newEventing : Eventing := set_eFinalizers exampleEventing [].
Definition exampleMessages (s : string) : list Message + goerr := inl [].
Definition exampleAllowed : option (string * string) := Some ("eventing", "kyma-system").

Lemma emptyCluster_healthy : @healthy_server exampleReference emptyCluster.
Proof. split; by eauto. Qed.
Lemma example_cluster_healthy : healthy_cluster (example_op_env newEventing) example_conn_env newEventing.
Proof. split; try done; intros; by eexists; eauto. Qed.

(** Managers that only succeed. *)
Definition quietManagers : ManagerFactory Cluster := {|
  mf_NewJetStreamManager _ _ _ := retM tt; mf_NewEventMeshManager _ _ := retM tt;
  mgr_Init _ := retM tt; mgr_Start _ _ _ := retM tt; mgr_Stop _ _ := retM tt |}.
Lemma quietManagers_healthy : @HealthyManagers Cluster quietManagers exampleHashing.
Proof. split; intros; [..|by eexists]; intros s; by eexists _, _. Qed.

Definition emptyWorld : Cluster := mkCluster (mkWorld exampleBackendConfig []) ∅ ∅.
Definition freshOperator : World (OpState Cluster) opEvent := mkWorld (NewReconciler emptyWorld exampleBackendConfig newEventing) [].

Lemma NATS_becomes_Ready_witness :
  let w := @reconciliations Cluster (@eventing_manager exampleReference emptyCluster) quietManagers exampleHashing exampleStatusConditions
    (example_op_env newEventing) example_conn_env "nats://eventing-nats" exampleAllowed exampleMessages newEventing 2 freshOperator in
  State (eStatus (stored newEventing (hist w))) = StateReady.
Proof.
  apply (@NATS_becomes_Ready Cluster (@eventing_manager exampleReference emptyCluster) quietManagers exampleHashing exampleStatusConditions
    (example_op_env newEventing) example_conn_env "nats://eventing-nats" exampleAllowed exampleMessages newEventing example_cluster_healthy
    (@eventing_manager_healthy exampleReference emptyCluster emptyCluster_healthy) quietManagers_healthy 2 freshOperator).
  - vm_compute. done.
  - lia.
Defined.

(** ** The whole operator, with the JetStream manager *)
Definition exampleManagers : ManagerFactory Cluster :=
  manager_factory JSManagerFacts.exampleSha exampleQuantity connected_env example_sm_env example_em_env example_emm_env.
Definition exampleReconcile (w : World (OpState Cluster) opEvent) : outcome OpResult * World (OpState Cluster) opEvent :=
  @Reconcile Cluster (@eventing_manager exampleReference emptyCluster) exampleManagers exampleHashing exampleStatusConditions
    (example_op_env newEventing) example_conn_env "nats://eventing-nats" exampleAllowed exampleMessages "kyma-system" "eventing" w.
Definition reconciledOperator : World (OpState Cluster) opEvent := (exampleReconcile (exampleReconcile freshOperator).2).2.

(** After two reconciliations the resource is Ready, the publisher proxy is deployed with its seven resources, and the one JetStream manager is
    started: its backend is connected and has made the stream. *)
Example two_reconciliations :
  let w := reconciledOperator in
  (exampleReconcile (exampleReconcile freshOperator).2).1 = Ok (noRequeue, None) /\
  State (eStatus (stored newEventing (hist w))) = StateReady /\
  natsSubManager (st w) = Some 0 /\ isNATSSubManagerStarted (st w) = true /\ phase_of 0 (hist w) = Some Running /\
  length (hist (kWorld (deps (st w)))) = 9 /\
  match jsManagers (deps (st w)) !! 0 with
  | Some m => match backendv2 (st m) with
              | Some b => Conn (st b) = Some 0 /\ existsb (fun e => match e with EvAddStream _ _ => true | _ => false end) (hist b) = true
              | None => False
              end
  | None => False
  end.
Proof. vm_compute. done. Qed.

Lemma managers_lifecycle_witness :
  let w := reconciledOperator in
  natsSubManager (st w) = Some 0 /\
  (forall id, is_Some (phase_of id (hist w))) /\
  (forall id, phase_of id (hist w) = Some Running <->
     natsSubManager (st w) = Some id /\ isNATSSubManagerStarted (st w) = true \/
     eventMeshSubManager (st w) = Some id /\ isEventMeshSubManagerStarted (st w) = true) /\
  (forall id, (managersCreated (st w) <= id)%nat -> phase_of id (hist w) = Some Absent).
Proof.
  split; [by vm_compute|].
  apply (@managers_lifecycle Cluster (@eventing_manager exampleReference emptyCluster) exampleManagers exampleHashing exampleStatusConditions).
  apply reach_Reconcile, reach_Reconcile, reach_start.
Defined.

(** ** Both backends at once

    The backend that was active is only remembered in the stored status.  When its update failed and the backend is switched in between, the
    manager of the old backend is not stopped. *)
Definition example_em_secret (ns name : string) : Secret :=
  mkSecret (Objects.named name ns None)
    (if String.eqb name "em" then {["namespace" := "/ns"; "messaging" := "[]"]}
     else {[secretKeyClientID := "id"; secretKeyClientSecret := "secret"; secretKeyTokenURL := "url"; secretKeyCertsURL := "url"]}) ∅.
Definition conflict_env (e : Eventing) : OpEnv := {|
  o_now _ := 0%Z; o_Get _ _ _ := inl e; o_Watch _ _ := None; o_Update _ _ := None; o_StatusUpdate _ _ := Some (errors_New "conflict");
  o_GetCRD _ _ := None; o_GetDeployment _ name ns := inl (readyDeployment name ns); o_Delete _ _ _ _ := None;
  o_GetSecret _ ns name := inl (example_em_secret ns name); o_GetConfigMap _ n _ := inr (GoErr EKubeNotFound (n +:+ " not found") []);
  o_PatchSecret _ s := inl s; o_ListNATS _ ns := inl [("eventing-nats", ns)]; o_NATSConfig _ := inl exampleNATSConfig; o_Setenv _ _ _ := None |}.
Definition switchedEventing : Eventing :=
  mkEventing (eName exampleEventing) (eNamespace exampleEventing) (eUID exampleEventing) None (eFinalizers exampleEventing) 2
    (mkEventingSpec (Some (mkBackendSpec EventMeshBackendType (mkBackendSpecConfig "" 0 "" 0 "kyma-system/em" "sap.kyma.custom" "kyma.example.com")))
       (ePublisher (eSpec exampleEventing)) "Info" ∅ ∅) (eStatus exampleEventing).
Definition conflictReconcile (e : Eventing) (w : World (OpState Cluster) opEvent) : World (OpState Cluster) opEvent :=
  (@Reconcile Cluster (@eventing_manager exampleReference emptyCluster) quietManagers exampleHashing exampleStatusConditions
    (conflict_env e) example_conn_env "nats://eventing-nats" exampleAllowed exampleMessages "kyma-system" "eventing" w).2.

Example both_managers_running :
  let w := conflictReconcile switchedEventing (conflictReconcile exampleEventing freshOperator) in
  isNATSSubManagerStarted (st w) = true /\ isEventMeshSubManagerStarted (st w) = true /\
  phase_of 0 (hist w) = Some Running /\ phase_of 1 (hist w) = Some Running.
Proof. vm_compute. done. Qed.

(** ** Watchers *)
Lemma operator_watchers_listen_witness :
  natsWatchers (st reconciledOperator) !! "kyma-system" = Some true /\
  exists m, carried_out (I := informer_state) (hist reconciledOperator) = Some m /\
    forall ns, match natsWatchers (st reconciledOperator) !! ns with
      | None => m !! ns = None
      | Some b => b = true /\ exists x, m !! ns = Some x /\ IsStarted x = true /\
          forall O (HO : EqDecision O) (n : notification O),
            sends x n = true <-> match n with Updated _ o n => o <> n | _ => True end
      end.
Proof.
  split; [by vm_compute|].
  apply (@operator_watchers_listen Cluster (@eventing_manager exampleReference emptyCluster) exampleManagers exampleHashing
    exampleStatusConditions informer_state plain_informers plain_informers_laws ltac:(by intros ?)).
  apply runs_Reconcile; [done|]. apply runs_Reconcile; [done|]. apply runs_start.
Defined.

(** When the registration fails, the watcher stays without being started; the switch to the other backend then stops it, and the operator
    blocks for ever. *)
Definition failing_watch_env (e : Eventing) : OpEnv :=
  let env := example_op_env e in {|
  o_now := o_now env; o_Get h _ _ := inl e; o_Watch _ what := if HasPrefix what "NATS in " then Some (errors_New "no watch") else None;
  o_Update := o_Update env; o_StatusUpdate := o_StatusUpdate env; o_GetCRD := o_GetCRD env; o_GetDeployment := o_GetDeployment env;
  o_Delete := o_Delete env; o_GetSecret _ ns name := inl (example_em_secret ns name); o_GetConfigMap := o_GetConfigMap env;
  o_PatchSecret := o_PatchSecret env; o_ListNATS := o_ListNATS env; o_NATSConfig := o_NATSConfig env; o_Setenv := o_Setenv env |}.
Definition failingReconcile (e : Eventing) (w : World (OpState Cluster) opEvent) : World (OpState Cluster) opEvent :=
  (@Reconcile Cluster (@eventing_manager exampleReference emptyCluster) quietManagers exampleHashing exampleStatusConditions
    (failing_watch_env e) example_conn_env "nats://eventing-nats" exampleAllowed exampleMessages "kyma-system" "eventing" w).2.
Definition failedWatch : World (OpState Cluster) opEvent := failingReconcile exampleEventing freshOperator.
Definition switchedLater : Eventing := set_eStatus switchedEventing (eStatus (cr (st failedWatch))).

Example watcher_blocks :
  natsWatchers (st failedWatch) !! "kyma-system" = Some false /\
  ActiveBackend (eStatus switchedLater) = NatsBackendType /\
  is_Some (carried_out (I := informer_state) (hist failedWatch)) /\
  carried_out (I := informer_state) (hist (failingReconcile switchedLater failedWatch)) = None.
Proof. split; [by vm_compute|]. split; [by vm_compute|]. split; [vm_compute; by eexists|by vm_compute]. Qed.

(** ** Two corners of the code *)
Section corners.
Context {W : Type} `{EventingManagerI W} `{ManagerFactory W} `{ConfigHashing} `{StatusConditions}.
Context (env : OpEnv).
Implicit Types (w : World (OpState W) opEvent).

(** A deployment that is gone when its readiness is read is dereferenced. *)
Lemma handleEventingState_not_found_panics d w :
  (forall h, KubeClient.GetDeployment (o_GetDeployment env h (omName (dMeta d)) (omNamespace (dMeta d))) = inl None) ->
  (handleEventingState env d w).1 = Panic nilDereference.
Proof. intros Hn. unfold handleEventingState, getDeployment, updStatus, bindM, puts, call, retM. cbn. by rewrite Hn. Qed.

(** A manager of EventMesh that is not started is kept when the configuration changes, although it was created for the old one, and the hash
    of the new configuration is recorded when it starts. *)
Lemma stale_EventMesh_manager domain id b hash w :
  eBackend (eSpec (cr (st w))) = Some b ->
  getEventMeshBackendConfigHash (EventMeshSecret (bConfig b)) (cEventTypePrefix (bConfig b)) domain = inl hash ->
  eventMeshSubManager (st w) = Some id -> isEventMeshSubManagerStarted (st w) = false ->
  match replaceEventMeshSubManager domain w with
  | (Ok _, w') => hist w' = OpStart id (inl tt) :: hist w /\ eventMeshSubManager (st w') = Some id /\
      BackendConfigHash (eStatus (cr (st w'))) = hash
  | _ => True
  end.
Proof.
  intros Hb Hh Hm Hs.
  assert ((if negb (BackendConfigHash (eStatus (cr (st w))) =? hash)%Z then stopEventMeshSubManager false else retM tt) w = (Ok tt, w)) as Hstop.
  { destruct (negb _); [|done]. unfold stopEventMeshSubManager, bindM, gets. by rewrite Hm, Hs. }
  unfold replaceEventMeshSubManager, backendOf, getDefaultSubscriptionConfig, bindM, gets, retM at 1. cbn beta iota. rewrite Hb.
  cbn [orPanic retM]. rewrite Hh. cbn [okOr retM]. rewrite Hstop, Hm. cbn [retM]. rewrite Hs.
  unfold startEventMeshSubManager, onDepsM, onDeps, bindM, gets, tryM, call, okOr, puts, updStatus, retM, errM.
  rewrite Hm. cbn [orPanic retM]. unfold retM.
  destruct (mgr_Start _ _ _ _) as [[[]|err|m] dep]; cbn; [|done..]. by rewrite Hm.
Qed.
End corners.
