(* ===== verification/EMClient.v ===== *)
(** * EventMesh client: [pkg/ems/httpclient], [pkg/ems/api/events/client]

    The client of the EventMesh server, over one HTTP round trip for each call.  [encoding/json] is a class: whether a body is
    encoded or decoded, and to what.  The bodies of requests are the values that are encoded.  The URLs follow [net/url]: the
    path of the request is parsed, made relative and resolved against the base. *)

From stdpp Require Import pretty.
From Stdlib Require Import Ascii.
From S2P Require Import Prelude Effects GoStrings Tracing Url Errors Subscription EventMeshUtils EventMesh.

(** ** [net/url] *)
Definition hex_upper (n : nat) : ascii := ascii_of_nat (if (n <? 10)%nat then 48 + n else 55 + n).

(** [shouldEscape(c, encodePath)]. *)
Definition shouldEscapePath (c : ascii) : bool := negb (is_alnum c || HasByte c "-_.~$&+,/:;=@").
Fixpoint escapePath (s : string) : string :=
  match s with
  | "" => ""
  | String c s =>
      if shouldEscapePath c
      then String "%" (String (hex_upper (nat_of_ascii c / 16)) (String (hex_upper (nat_of_ascii c mod 16)) (escapePath s)))
      else String c (escapePath s)
  end.

(** The path of [url.Parse(s)], for [s] that starts with one slash. *)
Definition parsePath (s : string) : string + goerr :=
  let fail (reason : string) : string + goerr := inr (errors_New ("parse " +:+ Quote s +:+ ": " +:+ reason)) in
  let '(u, fragment) := match Index s "#" with Some i => (take_bytes i s, drop_bytes (S i) s) | None => (s, "") end in
  if existsb is_ctl (chars u) then fail "net/url: invalid control character in URL"
  else match unescape (cut_query u) encodePath with
  | inr reason => fail reason
  | inl path => match unescape fragment encodePath with inr reason => fail reason | inl _ => inl path end
  end.

(** [resolvePath]: the loop over the elements; [dst] is what the builder holds. *)
Fixpoint resolveElems (elems : list string) (dst : string) (first : bool) : string :=
  match elems with
  | [] => dst
  | elem :: rest =>
      let '(dst, first) :=
        if String.eqb elem "." then (dst, false)
        else if String.eqb elem ".." then
          let str := drop_bytes 1 dst in
          match LastIndex str "/" with None => ("/", true) | Some index => ("/" +:+ take_bytes index str, first) end
        else ((if first then dst else dst +:+ "/") +:+ elem, false) in
      match rest with
      | [] => if String.eqb elem "." || String.eqb elem ".." then dst +:+ "/" else dst
      | _ => resolveElems rest dst first
      end
  end.
Definition resolvePath (base ref : string) : string :=
  let full :=
    if String.eqb ref "" then base
    else if HasPrefix ref "/" then ref
    else (match LastIndex base "/" with Some i => take_bytes (S i) base | None => "" end) +:+ ref in
  if String.eqb full "" then ""
  else let r := resolveElems (Split "/" full) "/" true in
       if HasPrefix r "//" then drop_bytes 1 r else r.

(** ** [httpclient] *)

(** The URL of the server: its text before the path, and the path. *)
Record BaseURL := mkBase { bPrefix : string; bPath : string }.

(** [NewHTTPClient], with the result of [url.Parse]: the parsed URL is read before the error is checked. *)
Definition NewHTTPClient (parsed : BaseURL + goerr) : outcome BaseURL :=
  match parsed with
  | inr _ => Panic nilDereference
  | inl u => Ok (if HasSuffix (bPath u) "/" then u else mkBase (bPrefix u) (bPath u +:+ "/"))
  end.

(** [NewError] and [Error.Error]. *)
Definition NewError (cause : goerr) (statusCode : Z) (message : string) : goerr :=
  GoErr ENew (Join ((if String.eqb message "" then [] else ["message: " +:+ message]) ++
                    (if (statusCode =? 0)%Z then [] else ["status code: " +:+ pretty statusCode]) ++
                    ["cause: " +:+ Error cause])%list "; ") [cause].

Inductive Body := SubscriptionBody (s : EMSubscription) | StateBody (action : string) | EventBody (e : CEvent).
(** [encoding/json]: the error of the encoding of a body, and [json.Unmarshal] into a pointer to a subscription or to a list of
    them, which [null] leaves nil, and into the type of a response. *)
Class JSON := {
  encodeError : Body -> option goerr;
  unmarshalSubscription : string -> option EMSubscription + goerr;
  unmarshalSubscriptions : string -> option (list EMSubscription) + goerr;
  unmarshalResponse : string -> string -> unit + goerr
}.

Record Request := mkRequest { rMethod : string; rURL : string; rBody : option Body; rQos : option string }.

Definition resolveReferenceAsRelative (base : BaseURL) (refPath : string) : string :=
  bPrefix base +:+ resolvePath (escapePath (bPath base)) (escapePath (TrimPrefix refPath "/")).

Definition NewRequest `{JSON} (base : BaseURL) (method path : string) (body : option Body) : Request + goerr :=
  match match body with Some b => encodeError b | None => None end with
  | Some err => inr (NewError err 0 "")
  | None =>
      match parsePath path with
      | inr err => inr (NewError err 0 "")
      | inl pu => inl (mkRequest method (resolveReferenceAsRelative base pu) body None)
      end
  end.

(** The end of a round trip: no response, a response with an error of the client (a redirection), or a response whose body is read. *)
Inductive Answer :=
  | NoResponse (err : goerr)
  | Refused (status : string) (code : Z) (err : goerr)
  | Answered (status : string) (code : Z) (body : string + goerr).

Record Reply (A : Type) := mkReply { pStatus : string; pCode : Z; pBody : string; pResult : A }.
Arguments mkReply {A}. Arguments pStatus {A}. Arguments pCode {A}. Arguments pBody {A}. Arguments pResult {A}.

(** [Do]: [zero] is the result that was passed, which an empty body leaves. *)
Definition Do {A} (answer : Answer) (unmarshal : string -> A + goerr) (zero : A) : Reply A + goerr :=
  match answer with
  | NoResponse err => inr (NewError err 0 "")
  | Refused _ code err => inr (NewError err code "")
  | Answered _ code (inr err) => inr (NewError err code "")
  | Answered status code (inl body) =>
      if String.eqb body "" then inl (mkReply status code "" zero)
      else match unmarshal body with
      | inr err => inr (wrapf "unmarshal response failed" (NewError err code body))
      | inl result => inl (mkReply status code body result)
      end
  end.

(** ** [client] *)
Definition PublishURL := "/events".
Definition CreateURL := "/events/subscriptions".
Definition ListURL := "/events/subscriptions".
Definition GetURLFormat (name : string) : string := "/events/subscriptions/" +:+ name.
Definition UpdateURLFormat (name : string) : string := "/events/subscriptions/" +:+ name.
Definition DeleteURLFormat (name : string) : string := "/events/subscriptions/" +:+ name.
Definition HandshakeURLFormat (name : string) : string := "/events/subscriptions/" +:+ name +:+ "/handshake".
Definition UpdateStateURLFormat (name : string) : string := "/events/subscriptions/" +:+ name +:+ "/state".

(** The message of a response: the status, and the body if there is one. *)
Definition responseOf (status : string) (code : Z) (body : string) : Response :=
  mkResponse code (if (0 <? len body)%nat then status +:+ ";" +:+ body else status).

Definition zeroSubscription (webhookAuth : option WebhookAuth) : EMSubscription :=
  mkEMSubscription "" [] "" webhookAuth "" false "" "" "" "" "" "" "".

Section client.
Context `{JSON} (base : BaseURL).
(** [httpClient.Do] and the reading of the body. *)
Context (roundTrip : Request -> Answer).

(** What every method does: a request, and the reply decoded. *)
Definition exchange {A} (method path : string) (body : option Body) (qos : option string) (unmarshal : string -> A + goerr) (zero : A) : Reply A + goerr :=
  match NewRequest base method path body with
  | inr err => inr err
  | inl req => Do (roundTrip (mkRequest (rMethod req) (rURL req) (rBody req) qos)) unmarshal zero
  end.
(** The methods whose result is the status and the message. *)
Definition respond (kind method path : string) (body : option Body) (qos : option string) : Response + goerr :=
  match exchange method path body qos (unmarshalResponse kind) tt with
  | inr err => inr err
  | inl r => inl (responseOf (pStatus r) (pCode r) (pBody r))
  end.
(** The methods that return an object, nil for an empty body or [null]; the body is in the message only then. *)
Definition fetch {A} (path : string) (unmarshal : string -> option A + goerr) : (option A * Response) + goerr :=
  match exchange "GET" path None None unmarshal None with
  | inr err => inr err
  | inl r => inl (pResult r, responseOf (pStatus r) (pCode r) (match pResult r with None => pBody r | Some _ => "" end))
  end.

Definition Publish (event : CEvent) (qos : string) : Response + goerr := respond "PublishResponse" "POST" PublishURL (Some (EventBody event)) (Some qos).
Definition Create (subscription : EMSubscription) : Response + goerr :=
  respond "CreateResponse" "POST" CreateURL (Some (SubscriptionBody subscription)) None.
Definition List_ : (option (list EMSubscription) * Response) + goerr := fetch ListURL unmarshalSubscriptions.
Definition Get (name : string) : (option EMSubscription * Response) + goerr := fetch (GetURLFormat name) unmarshalSubscription.
Definition Update (name : string) (webhookAuth : option WebhookAuth) : Response + goerr :=
  respond "UpdateResponse" "PATCH" (UpdateURLFormat name) (Some (SubscriptionBody (zeroSubscription webhookAuth))) None.
Definition Delete (name : string) : Response + goerr := respond "DeleteResponse" "DELETE" (DeleteURLFormat name) None None.
Definition TriggerHandshake (name : string) : Response + goerr := respond "TriggerHandshake" "POST" (HandshakeURLFormat name) None None.
Definition UpdateState (name action : string) : Response + goerr :=
  respond "UpdateStateResponse" "PUT" (UpdateStateURLFormat name) (Some (StateBody action)) None.
End client.

(** The environment of the EventMesh backend: its client over the round trips that a server answers. *)
Definition http_client `{JSON} (base : BaseURL) (newClient : list emEvent -> unit + goerr) (server : list emEvent -> Request -> Answer) : EMEnv := {|
  e_NewClient := newClient;
  e_Get h := Get base (server h);
  e_Create h := Create base (server h);
  e_Update h := Update base (server h);
  e_Delete h := Delete base (server h);
  e_UpdateState h := UpdateState base (server h) |}.

#[local] Instance noJSON : JSON := {|
  encodeError _ := None; unmarshalSubscription _ := inl None; unmarshalSubscriptions _ := inl None; unmarshalResponse _ _ := inl tt |}.
Example request_url :
  NewRequest (mkBase "https://em.example.com" "/sap/ems/v1/") "DELETE" (DeleteURLFormat "a b?c") None =
  inl (mkRequest "DELETE" "https://em.example.com/sap/ems/v1/events/subscriptions/a%20b" None None).
Proof. vm_compute. done. Qed.
Example request_url_dots :
  NewRequest (mkBase "https://em.example.com" "/sap/ems/v1/") "GET" (GetURLFormat "../x") None =
  inl (mkRequest "GET" "https://em.example.com/sap/ems/v1/events/x" None None).
Proof. vm_compute. done. Qed.
