(* ===== verification/EMClientFacts.v ===== *)
(** * EventMesh client: where the requests go, and what the backend makes of the replies *)

From Stdlib Require Import Ascii.
From S2P Require Import Prelude Effects GoStrings Tracing Url Errors Subscription EventMeshUtils EventMesh EventMeshFacts EMManagerFacts EMClient.

(** ** Paths without special bytes *)
Definition plain (c : ascii) : bool := is_alnum c || HasByte c "-_.~".
Definition path_byte (c : ascii) : bool := plain c || Ascii.eqb c "/".
Definition plain_path (s : string) : Prop := forallb path_byte (chars s) = true.
(** No element of the path is a dot or two. *)
Definition no_dots (s : string) : Prop := Forall (fun e => e <> "." /\ e <> "..") (Split "/" s).

Lemma forallb_app_s f a b : forallb f (chars (a +:+ b)) = forallb f (chars a) && forallb f (chars b).
Proof.
  induction a as [|c a IH]; [done|].
  change (f c && forallb f (chars (a +:+ b)) = (f c && forallb f (chars a)) && forallb f (chars b)). by rewrite IH, andb_assoc.
Qed.

Lemma path_byte_plain c : plain c = true -> path_byte c = true.
Proof. intros H. unfold path_byte. by rewrite H. Qed.

(** What a byte of a plain path is not. *)
Lemma path_byte_excludes c : path_byte c = true ->
  shouldEscapePath c = false /\ is_ctl c = false /\ Ascii.eqb c "%" = false /\ Ascii.eqb c "#" = false /\ Ascii.eqb c "?" = false.
Proof. destruct c as [[] [] [] [] [] [] [] []]; vm_compute; done. Qed.

Lemma escapePath_plain s : plain_path s -> escapePath s = s.
Proof.
  unfold plain_path. induction s as [|c s IH]; [done|]. cbn. intros [Hc Hs]%andb_true_iff.
  destruct (path_byte_excludes c Hc) as (-> & _). by rewrite IH.
Qed.

Lemma unescape_plain s : plain_path s -> unescape s encodePath = inl s.
Proof.
  unfold plain_path. induction s as [|c s IH]; [done|]. cbn. intros [Hc Hs]%andb_true_iff.
  destruct (path_byte_excludes c Hc) as (_ & _ & -> & _). by rewrite IH.
Qed.

Lemma Index_plain c s : (forall d, path_byte d = true -> Ascii.eqb d c = false) -> plain_path s -> Index s c = None.
Proof.
  intros Hd. unfold plain_path. induction s as [|d s IH]; [done|]. cbn. intros [Hc Hs]%andb_true_iff.
  by rewrite (Hd d Hc), IH.
Qed.

Lemma parsePath_plain s : plain_path s -> parsePath s = inl s.
Proof.
  intros Hs. unfold parsePath, cut_query. rewrite (Index_plain "#") by (auto; intros d Hd; apply path_byte_excludes, Hd).
  rewrite (Index_plain "?") by (auto; intros d Hd; apply path_byte_excludes, Hd).
  assert (existsb is_ctl (chars s) = false) as ->.
  { unfold plain_path in Hs. clear -Hs. induction s as [|c s IH]; [done|]. cbn in *. apply andb_true_iff in Hs as [Hc Hs].
    destruct (path_byte_excludes c Hc) as (_ & -> & _). by apply IH. }
  by rewrite unescape_plain.
Qed.

(** ** Resolving *)
Lemma resolveElems_plain elems dst first : elems <> [] -> Forall (fun e => e <> "." /\ e <> "..") elems ->
  resolveElems elems dst first = (if first then dst else dst +:+ "/") +:+ Join elems "/".
Proof.
  revert dst first. induction elems as [|e elems IH]; intros dst first Hne Hd; [done|].
  apply Forall_cons in Hd as [[H1 H2] Hd]. cbn [resolveElems].
  rewrite (proj2 (String.eqb_neq e ".") H1), (proj2 (String.eqb_neq e "..") H2). cbn [orb].
  destruct elems as [|e' elems]; [by destruct first|]. rewrite IH by done.
  change (Join (e :: e' :: elems) "/") with (e +:+ ("/" +:+ Join (e' :: elems) "/")). by rewrite !app_assoc_s.
Qed.

(** A path that begins and ends with a slash: no element of it is resolved. *)
Lemma resolvePath_plain b ref : ref <> "" -> HasPrefix ref "/" = false -> no_dots ("/" +:+ (b +:+ ref)) ->
  HasSuffix ("/" +:+ b) "/" = true -> resolvePath ("/" +:+ b) ref = "/" +:+ (b +:+ ref).
Proof.
  intros Hr Hr' Hd Hs. unfold resolvePath. rewrite (proj2 (String.eqb_neq ref "") Hr), Hr'.
  apply HasSuffix_iff in Hs as [b0 Hb].
  assert (match LastIndex ("/" +:+ b) "/" with Some i => take_bytes (S i) ("/" +:+ b) | None => "" end = "/" +:+ b) as ->.
  { rewrite Hb, LastIndex_app by done. pose proof (take_bytes_app (b0 +:+ "/") "") as Ht.
    rewrite app_nil, len_app in Ht. cbn [len] in Ht. by rewrite Nat.add_1_r in Ht. }
  rewrite app_assoc_s. set (full := "/" +:+ (b +:+ ref)) in *.
  rewrite (resolveElems_plain (Split "/" full)) by (exact Hd || apply Split_ne). rewrite Join_Split. subst full. unfold HasPrefix. cbn. by destruct (b +:+ ref).
Qed.

(** ** URLs *)

(** A base as [NewHTTPClient] makes it of the configured URL, without special bytes in its path. *)
Definition valid_base (base : BaseURL) : Prop :=
  (exists b, bPath base = "/" +:+ b) /\ HasSuffix (bPath base) "/" = true /\ plain_path (bPath base) /\ no_dots (bPath base).
Definition valid_name (n : string) : Prop := forallb plain (chars n) = true /\ n <> "." /\ n <> "..".

Lemma plain_path_app a b : plain_path (a +:+ b) <-> plain_path a /\ plain_path b.
Proof. unfold plain_path. rewrite forallb_app_s. apply andb_true_iff. Qed.

Lemma no_dots_app a b : no_dots (a +:+ "/") -> no_dots b -> no_dots ((a +:+ "/") +:+ b).
Proof.
  unfold no_dots. rewrite app_assoc_s. change ("/" +:+ b) with (String "/" b). rewrite (Split_app "/" a ""), (Split_app "/" a b). rewrite !Forall_app. tauto.
Qed.

Lemma valid_name_path n : valid_name n -> plain_path n.
Proof. intros [H _]. apply forallb_forall. intros c Hc. apply path_byte_plain. by apply (proj1 (forallb_forall _ _) H). Qed.
Lemma valid_name_no_slash n : valid_name n -> HasByte "/" n = false.
Proof.
  intros [H _]. unfold HasByte. apply not_true_iff_false. intros (c & Hc & <-%Ascii.eqb_eq)%existsb_exists.
  by apply (proj1 (forallb_forall _ _) H) in Hc.
Qed.
Lemma valid_name_no_dots n : valid_name n -> no_dots n.
Proof. intros Hn. unfold no_dots. rewrite (Split_none _ _ (valid_name_no_slash n Hn)). destruct Hn as (_ & H1 & H2). by constructor. Qed.

Section urls.
Context `{JSON} (base : BaseURL) (Hbase : valid_base base).

(** The URL of a path below the base. *)
Definition url (p : string) : string := bPrefix base +:+ (bPath base +:+ p).

Lemma NewRequest_plain method p body : p <> "" -> HasPrefix p "/" = false -> plain_path p -> no_dots p ->
  NewRequest base method ("/" +:+ p) body =
  match match body with Some b => encodeError b | None => None end with
  | Some err => inr (NewError err 0 "")
  | None => inl (mkRequest method (url p) body None)
  end.
Proof using Hbase.
  intros Hp Hp' Hpp Hd. unfold NewRequest. destruct (match body with Some b => encodeError b | None => None end); [done|].
  rewrite parsePath_plain by (by apply plain_path_app). unfold resolveReferenceAsRelative, url. rewrite TrimPrefix_app.
  destruct Hbase as ([b Hb] & Hs & Hbp & Hbd). rewrite !escapePath_plain by done. do 2 f_equal. f_equal.
  rewrite Hb in *. rewrite resolvePath_plain; [done|done|done| |done].
  apply HasSuffix_iff in Hs as [b0 Hb0]. change ("/" +:+ (b +:+ p)) with (("/" +:+ b) +:+ p). rewrite Hb0 in *. by apply no_dots_app.
Qed.
End urls.

(** ** Calls *)

(** The calls whose result is a response, and the request that each of them stands for. *)
Inductive Call :=
  | CallPublish (e : CEvent) (qos : string) | CallCreate (s : EMSubscription) | CallUpdate (n : string) (a : option WebhookAuth)
  | CallDelete (n : string) | CallHandshake (n : string) | CallUpdateState (n action : string).

Definition call_name (c : Call) : option string :=
  match c with
  | CallPublish _ _ | CallCreate _ => None
  | CallUpdate n _ | CallDelete n | CallHandshake n | CallUpdateState n _ => Some n
  end.
Definition call_path (c : Call) : string :=
  match c with
  | CallPublish _ _ => "events"
  | CallCreate _ => "events/subscriptions"
  | CallUpdate n _ | CallDelete n => "events/subscriptions/" +:+ n
  | CallHandshake n => "events/subscriptions/" +:+ (n +:+ "/handshake")
  | CallUpdateState n _ => "events/subscriptions/" +:+ (n +:+ "/state")
  end.
Definition call_body (c : Call) : option Body :=
  match c with
  | CallPublish e _ => Some (EventBody e)
  | CallCreate s => Some (SubscriptionBody s)
  | CallUpdate _ a => Some (SubscriptionBody (zeroSubscription a))
  | CallDelete _ | CallHandshake _ => None
  | CallUpdateState _ action => Some (StateBody action)
  end.
Definition call_kind (c : Call) : string * string :=
  match c with
  | CallPublish _ _ => ("POST", "PublishResponse")
  | CallCreate _ => ("POST", "CreateResponse")
  | CallUpdate _ _ => ("PATCH", "UpdateResponse")
  | CallDelete _ => ("DELETE", "DeleteResponse")
  | CallHandshake _ => ("POST", "TriggerHandshake")
  | CallUpdateState _ _ => ("PUT", "UpdateStateResponse")
  end.
Definition call_request (base : BaseURL) (c : Call) : Request :=
  mkRequest (fst (call_kind c)) (url base (call_path c)) (call_body c) (match c with CallPublish _ qos => Some qos | _ => None end).

Definition perform `{JSON} (base : BaseURL) (roundTrip : Request -> Answer) (c : Call) : Response + goerr :=
  match c with
  | CallPublish e qos => Publish base roundTrip e qos
  | CallCreate s => Create base roundTrip s
  | CallUpdate n a => Update base roundTrip n a
  | CallDelete n => Delete base roundTrip n
  | CallHandshake n => TriggerHandshake base roundTrip n
  | CallUpdateState n action => UpdateState base roundTrip n action
  end.

(** The server answered with [resp], and its body is empty or decodes into the type [kind]. *)
Definition accepted `{JSON} (kind : string) (answer : Answer) (resp : Response) : Prop :=
  exists status body, answer = Answered status (StatusCode resp) (inl body) /\
    (body = "" /\ Message resp = status \/
     body <> "" /\ (exists u, unmarshalResponse kind body = inl u) /\ Message resp = status +:+ ";" +:+ body).

Lemma no_dots_slash a b : no_dots a -> no_dots b -> no_dots (a +:+ String "/" b).
Proof. unfold no_dots. rewrite Split_app, Forall_app. tauto. Qed.

Lemma call_path_plain c : (forall n, call_name c = Some n -> valid_name n) ->
  let p := call_path c in p <> "" /\ HasPrefix p "/" = false /\ plain_path p /\ no_dots p.
Proof.
  intros Hn. assert (no_dots "events" /\ no_dots "subscriptions" /\ no_dots "handshake" /\ no_dots "state") as (H1 & H2 & H3 & H4)
    by (unfold no_dots; vm_compute; split_and!; repeat constructor; done).
  pose proof (no_dots_slash _ _ H1 H2) as H12.
  destruct c as [e qos|s|n a|n|n|n action]; cbn [call_path call_name] in *;
    try (specialize (Hn n eq_refl); pose proof (valid_name_path n Hn) as Hp; pose proof (valid_name_no_dots n Hn) as Hd;
         pose proof (no_dots_slash _ _ H12 Hd) as H12n);
    (split; [done|]; split; [done|]; split; [rewrite ?plain_path_app; done|]); try done.
  - apply (no_dots_slash "events/subscriptions" (n +:+ "/handshake") H12). by apply (no_dots_slash n "handshake").
  - apply (no_dots_slash "events/subscriptions" (n +:+ "/state") H12). by apply (no_dots_slash n "state").
Qed.

Section calls.
Context `{JSON} (base : BaseURL) (Hbase : valid_base base) (roundTrip : Request -> Answer).

(** A call as one exchange. *)
Lemma perform_respond c : perform base roundTrip c =
  respond base roundTrip (snd (call_kind c)) (fst (call_kind c)) ("/" +:+ call_path c) (call_body c) (rQos (call_request base c)).
Proof using Type. by destruct c. Qed.

Lemma respond_iff kind method p body qos resp : p <> "" -> HasPrefix p "/" = false -> plain_path p -> no_dots p ->
  respond base roundTrip kind method ("/" +:+ p) body qos = inl resp <->
  (forall b, body = Some b -> encodeError b = None) /\ accepted kind (roundTrip (mkRequest method (url base p) body qos)) resp.
Proof using Hbase.
  intros H1 H2 H3 H4. unfold respond, exchange. rewrite NewRequest_plain by done.
  destruct (match body with Some b => encodeError b | None => None end) eqn:He.
  { split; [done|]. intros [Hb _]. destruct body as [b|]; [|done]. by rewrite (Hb b eq_refl) in He. }
  assert (forall b, body = Some b -> encodeError b = None) as Hb by (by intros b ->).
  transitivity (accepted kind (roundTrip (mkRequest method (url base p) body qos)) resp); [|by split; [|intros [_ ?]]].
  cbn [rMethod rURL rBody]. unfold accepted, Do. destruct (roundTrip _) as [err|s c err|s c [b|err]];
    try (split; [done|intros (? & ? & ? & _); done]).
  destruct (String.eqb_spec b "") as [->|Hne].
  { split; [intros [= <-]; eexists _, _; split; [done|by left]|].
    intros (s' & b' & [= <- -> <-] & [[_ Hm]|[? _]]); [|done]. destruct resp; cbn in *. by subst. }
  destruct (unmarshalResponse kind b) as [u|err] eqn:Hu.
  - unfold responseOf. destruct b as [|ch b]; [done|]. cbn. split.
    { intros [= <-]. eexists _, _; split; [done|right]. split_and!; [done|by exists u|done]. }
    intros (s' & b' & [= <- -> <-] & [[? _]|(_ & _ & Hm)]); [done|]. destruct resp; cbn in *. by subst.
  - split; [done|]. intros (s' & b' & [= <- Hc <-] & [[? _]|(_ & [u Hu'] & _)]); congruence.
Qed.
End calls.

(** C36: on a base URL and names without special bytes, a call of the client is one request, of the method, URL, headers and
    body of that call, and it returns a response exactly when its body can be encoded and the server
    answers with an empty body or one that decodes: with the status code of the answer, its status and its body. *)
Theorem Client_requests_spec `{JSON} base roundTrip c resp :
  valid_base base -> (forall n, call_name c = Some n -> valid_name n) ->
  perform base roundTrip c = inl resp <->
  (forall b, call_body c = Some b -> encodeError b = None) /\
  accepted (snd (call_kind c)) (roundTrip (call_request base c)) resp.
Proof.
  intros Hb Hn. rewrite perform_respond. destruct (call_path_plain c Hn) as (H1 & H2 & H3 & H4). by apply respond_iff.
Qed.

Definition example_base : BaseURL := mkBase "https://em.example.com" "/sap/ems/v1/".
Lemma example_base_valid : valid_base example_base.
Proof. split; [by exists "sap/ems/v1/"|]. split; [done|]. split; [done|]. unfold no_dots. vm_compute. repeat constructor; done. Qed.
#[local] Instance example_JSON : JSON := {|
  encodeError _ := None; unmarshalSubscription _ := inl None; unmarshalSubscriptions _ := inl None;
  unmarshalResponse _ body := if HasPrefix body "{" then inl tt else inr (errors_New "invalid character") |}.

Lemma Client_requests_spec_witness :
  perform example_base (fun r => if String.eqb (rMethod r) "PUT" then Answered "202 Accepted" 202 (inl "{}") else NoResponse (errors_New "refused"))
    (CallUpdateState "orders1f" "pause") = inl (mkResponse 202 "202 Accepted;{}").
Proof.
  apply Client_requests_spec.
  - exact example_base_valid.
  - intros n [= <-]. done.
  - split; [done|]. exists "202 Accepted", "{}". split; [done|]. right. split; [done|]. split; [by exists tt|done].
Defined.

(** ** The backend over the client *)
Lemma forallb_take_bytes f n s : forallb f (chars s) = true -> forallb f (chars (take_bytes n s)) = true.
Proof.
  intros Hs. rewrite <- (take_drop_bytes n s), forallb_app_s in Hs. by apply andb_true_iff in Hs as [? _].
Qed.

Lemma valid_name_long n : forallb plain (chars n) = true -> 2 < len n -> valid_name n.
Proof. intros Hn Hl. split; [done|]. by split; intros ->; cbn in Hl; lia. Qed.

Section backend.
Context (sha : string -> string) (Hsha : forall s, len (sha s) = 64 /\ forallb plain (chars (sha s)) = true).

Lemma MapSubscriptionName_valid m name namespace n : maxLength m = MaxSubscriptionNameLength -> forallb plain (chars name) = true ->
  MapSubscriptionName sha m name namespace = Some n -> valid_name n.
Proof using Hsha.
  intros Hm Hname. unfold MapSubscriptionName, shortenNameAndAppendHash, hashSubscriptionFullName. rewrite Hm. unfold MaxSubscriptionNameLength.
  set (hash := take_bytes 40 (sha (domainName m +:+ namespace +:+ name))).
  assert (len hash = 40) as Hl by (unfold hash; by rewrite len_take_bytes, (proj1 (Hsha _))).
  assert (forallb plain (chars hash) = true) as Hp by apply forallb_take_bytes, Hsha. clearbody hash. rewrite Hl.
  change (50 <? Z.of_nat 40)%Z with false. change (50 - Z.of_nat 40)%Z with 10%Z. change (10 <=? 0)%Z with false. cbn zeta iota.
  set (prefix := if (10 <? Z.of_nat (len name))%Z then take_bytes (Z.to_nat 10) name else name).
  assert (forallb plain (chars prefix) = true) as Hpre by (unfold prefix; destruct (_ <? _)%Z; [by apply forallb_take_bytes|done]).
  clearbody prefix. intros [= <-]. apply valid_name_long; [by rewrite forallb_app_s, Hpre, Hp|rewrite len_app, Hl; lia].
Qed.

(** C21: over its HTTP client, with a Subscription whose name is one of Kubernetes and a hash in hexadecimal, the backend deletes the
    subscription with one DELETE of the URL of its mapped name, and succeeds exactly when
    the server answers 204 or 404 with an empty body or one that decodes: any other answer is an error, a 404 with
    a body that is not JSON too. *)
Theorem EventMesh_delete_over_HTTP `{JSON} base newClient server w : valid_base base ->
  emClient (em (st w)) = true -> maxLength (SubNameMapper (em (st w))) = MaxSubscriptionNameLength ->
  forallb plain (chars (Name (meta (kymaSub (st w))))) = true ->
  exists n r o, MapSubscriptionName sha (SubNameMapper (em (st w))) (Name (meta (kymaSub (st w)))) (Namespace (meta (kymaSub (st w)))) = Some n /\
    EventMesh.DeleteSubscription sha (http_client base newClient server) w = (o, mkWorld (st w) (EMDelete n r :: hist w)) /\
    (o = Ok tt \/ exists err, o = Err err) /\
    (o = Ok tt <-> exists resp, gone resp /\
      accepted "DeleteResponse" (server (hist w) (mkRequest "DELETE" (url base ("events/subscriptions/" +:+ n)) None None)) resp).
Proof using Hsha.
  intros Hb Hc Hm Hn. destruct (MapSubscriptionName_some sha (SubNameMapper (em (st w))) (Name (meta (kymaSub (st w))))
    (Namespace (meta (kymaSub (st w)))) Hm) as [n Hmap].
  pose proof (MapSubscriptionName_valid _ _ _ _ Hm Hn Hmap) as Hv. rewrite Hmap.
  set (answer := server (hist w) (mkRequest "DELETE" (url base ("events/subscriptions/" +:+ n)) None None)).
  set (r := Delete base (server (hist w)) n).
  assert (forall resp, r = inl resp <-> accepted "DeleteResponse" answer resp) as Hr.
  { intros resp. destruct (call_path_plain (CallDelete n) ltac:(by intros ? [= <-])) as (H1 & H2 & H3 & H4).
    unfold r. change (Delete base (server (hist w)) n) with (perform base (server (hist w)) (CallDelete n)). rewrite perform_respond.
    rewrite respond_iff by done. split; [by intros [_ ?]|by split]. }
  exists n, r. unfold EventMesh.DeleteSubscription, deleteSubscription, clientCall, bindM, gets, orPanic, call.
  cbn [id]. rewrite Hmap. cbn. rewrite Hc. cbn. fold r.
  destruct r as [resp|err] eqn:Er; cbn; [|eexists; do 2 (split; [done|]); split; [by right; eexists|]; split; [done|]; intros (resp & _ & Ha%Hr); done].
  destruct (negb (StatusCode resp =? StatusNoContent)%Z && negb (StatusCode resp =? StatusNotFound)%Z) eqn:Hg; cbn;
    eexists; (split; [done|]; split; [done|]; split; [first [by left|by right; eexists]|]); unfold gone, StatusNoContent, StatusNotFound in *.
  - split; [done|]. intros (resp0 & Hg0 & Ha%Hr). injection Ha as <-. lia.
  - split; [|done]. intros _. exists resp. split; [lia|by apply Hr].
Qed.
End backend.

(** An EventMesh that knows no subscription, and says so in JSON or in a page. *)
Definition absent_server (body : string) (h : list emEvent) (r : Request) : Answer :=
  if String.eqb (rMethod r) "DELETE" then Answered "404 Not Found" 404 (inl body) else NoResponse (errors_New "refused").
Definition hexSha (s : string) : string := "0123456789abcdef0123456789abcdef0123456789abcdef0123456789abcdef".
Definition connectedBackend : World EMState emEvent :=
  mkWorld (mkEMState (mkEventMesh true None None "" "" None (mkNameMapper "kyma.example.com" MaxSubscriptionNameLength)) (example_ready_subscription "orders" "")) [].
Definition delete_over_HTTP (body : string) : outcome unit :=
  (EventMesh.DeleteSubscription hexSha (http_client example_base (fun _ => inl tt) (absent_server body)) connectedBackend).1.

Lemma EventMesh_delete_over_HTTP_witness :
  delete_over_HTTP "{}" = Ok tt /\ delete_over_HTTP "<html/>" <> Ok tt /\
  exists n r o, MapSubscriptionName hexSha (mkNameMapper "kyma.example.com" MaxSubscriptionNameLength) "orders" "ns" = Some n /\
    EventMesh.DeleteSubscription hexSha (http_client example_base (fun _ => inl tt) (absent_server "<html/>")) connectedBackend =
      (o, mkWorld (st connectedBackend) [EMDelete n r]) /\
    (o = Ok tt \/ exists err, o = Err err) /\
    (o = Ok tt <-> exists resp, gone resp /\ accepted "DeleteResponse" (absent_server "<html/>" [] (mkRequest "DELETE"
      (url example_base ("events/subscriptions/" +:+ n)) None None)) resp).
Proof.
  split; [vm_compute; done|]. split; [vm_compute; done|].
  refine (EventMesh_delete_over_HTTP hexSha _ example_base (fun _ => inl tt) (absent_server "<html/>") connectedBackend _ _ _ _);
    [by vm_compute|exact example_base_valid|done..].
Defined.
